(* ===== verification/_CoqProject ===== *)
-Q . S2P
Prelude.v
Identity.v
Errors.v
Participant.v
Collective.v
FlowGroup.v
Traffic.v
Evidence.v
Sync.v
Decision.v
Engine.v
Admission.v
Catalog.v
Authority.v
History.v
Service.v
Codec.v
Checksum.v
Protocol.v
WireData.v
Messages.v
Persistence.v
Transport.v
Sockets.v
Inspection.v
Coordinator.v
Program.v
Options.v
Client.v
Workload.v
Bringup.v
Ctl.v
Selftest.v
Link.v
Consumer.v
Example.v
