(* ===== verification/Prelude.v ===== *)
(** * Collective Traffic Fabric: a verification development

    Collective Traffic Fabric decides which collective communications (all-reduce, broadcast,
    barrier, ...) of a GPU cluster may use the fabric, and at which rate.  A coordinator keeps
    durable definitions of collectives, the liveness of their participants, and evidence about
    topology, capacity and congestion; a member asks it to plan a flow group, and gets a
    decision record that grants or refuses, with the reasons.  This library models the
    coordinator, from identities through the service to the framed wire protocol, the snapshot
    file and the server that dispatches frames, the control tool that talks to it, and the two
    programs that embed it, as executable Rocq functions, and proves what makes them correct.

    ** The parts and how they interact

    - Identities ([src/src/identity.cpp]) name everything; errors, statuses and bounded reason
      chains ([src/src/error.cpp]) explain everything.
    - A collective definition ([src/src/collective.cpp]) is filed in the catalog
      ([src/src/catalog.cpp]) under a generation; attempts and lifecycle states live there.
    - A plan of edges becomes a canonical flow group ([src/src/flow_group.cpp]).
    - The authority ([src/src/authority.cpp]) holds the epoch, the installed policy
      ([src/src/traffic.cpp]), the evidence ([src/src/evidence.cpp]) and the participants
      ([src/src/participant.cpp]), and freezes them into a snapshot
      ([src/include/ctf/snapshot.hpp]).
    - The engine ([src/src/engine.cpp]) evaluates a request against a snapshot, a pure function
      that yields a decision record ([src/src/decision.cpp]) with a rate and a synchronization
      sensitivity ([src/src/sync.cpp]).
    - Admission control ([src/src/admission.cpp]) releases granted decisions through token
      buckets; the history ([src/src/history.cpp]) keeps the newest decisions.
    - The service ([src/src/service.cpp]) owns all of these, checks sessions and frames, and
      flushes and restores the durable part.
    - The protocol ([src/src/protocol.cpp], [src/src/protocol_messages.cpp],
      [src/src/protocol_evidence.cpp]) turns messages into checksummed frames and back; the
      transport ([src/src/transport.cpp]) moves frames over byte streams.
    - The snapshot store ([src/src/persistence.cpp]) writes the durable part to one file that
      it replaces by a rename (on Windows by a removal and a rename).
    - The coordinator server ([src/src/coordinator.cpp]) holds a connection state per session,
      checks the handshake and the envelope of each frame, calls the service and answers.
    - The control tool ([src/tools/ctfctl.cpp]) is the client: one command per request, a
      server of its own for [serve], and a self test with a service in its own process.
    - The decision types example ([src/examples/example_decision_types.cpp]) drives a service
      in its own process, the downstream consumer ([src/validate/downstream/consumer.cpp]) the
      engine alone.

    ** Files

    - [Prelude]: machine integers as [Z] with explicit wrap-around, record update, the library
      loops the code uses ([std::sort], [std::unique], [std::lower_bound], table scans), strict
      orders, and their lemmas.
    - [Identity], [Errors], [Participant], [Collective], [FlowGroup], [Traffic], [Evidence],
      [Sync], [Decision], [Engine], [Admission], [Catalog], [Authority], [History], [Service]:
      one per source component, each with the definitions first, then lemmas and properties.
    - [Codec]: little-endian words and parsers over bytes, with the classes [Encodes] and
      [Decodes] of parsers that invert an encoder and accept nothing else, [Rejects] and
      [Extends], whose instances derive the laws of composite formats; [Checksum]: the CRC-32 table and the snapshot digest.
    - [Protocol]: [Reader] and [Writer], the frame header, the envelope and [decode_frame].
      [WireData]: the encoders and decoders of nested structures.  [Messages]: those of every
      message kind.
    - [Persistence]: the snapshot format, [SnapshotStore] over a small file system whose calls
      may fail or stop short, and the dispositions of a load.
    - [Transport]: sending with partial writes, the reassembly of frames, the state of a
      descriptor and the session set of the server.  [Sockets]: addresses, connecting,
      listening, polling, and the descriptors these create and close.
    - [Inspection]: the texts of the service's [inspect_*] queries.
    - [Coordinator]: the server's state, the dispatch of every message kind, start, stop,
      flush and restore, and the step relation that interleaves its connections.
    - [Program]: programs as finite trees of calls (streams, clock, minter, connection,
      embedded server), their runs, and a logic that follows a run with an automaton.
      [Options]: the command line.  [Client]: the protocol client and the conversation it has
      to keep.  [Workload]: the plans and the synthetic fabric.  [Ctl]: the commands and
      [main].
    - [Bringup]: what a program needs that brings a service up to a decision: the class
      [Fabric] of what the installed evidence promises, the state [prepared] its calls lead to,
      and the answer of each call there.  [Selftest]: the self test of the tool, proved against
      them.
    - [Link]: the tool against the coordinator server over encoded frames, the two ends of the
      protocol in one world.
    - [Consumer] and [Example]: the two embedding programs, whole, with their exit codes;
      [Example] instantiates [Fabric] too.

    Definitions keep the source's names; a method of a class takes the state as its first
    argument and returns the new state with its result, and a record field carries a prefix of
    its record ([au_] for [AuthorityState], [sv_] for [CoordinatorService], ...).  An output
    argument that is assigned only on some paths is an [option], a [Status] with an output is a
    [Result].  An unordered map is a [gmap]; the code sorts what it enumerates.  An enumeration
    is an inductive type in a module of its own, with its wire values and its texts, and the
    classes [WireEnum] and [TextEnum] carry the laws of both.  A method that holds its object's
    mutex throughout is one atomic function; [stop] and [flush], which release it while a file
    is written, are two functions around the write, and [flush_never_forgets] interleaves
    others between them.  What a handler of the server does to the outside is the list of its
    actions, in order: snapshots written, frames sent, a socket shut down.

    ** What the theorems show

    - Decisions: [evaluate_grants_iff], [evaluate_grant_binds] and
      [evaluate_refusal_explained] characterise the engine, [compute_pacing_bounds] and
      [congestion_response_antitone] its rates, [plan_grants_iff] and [plan_grant_sound] the
      whole path through the service.  The conditions of [plan_grants_iff] are stated without
      the code's own checks: [caller_current] (the session), [well_formed_request],
      [plannable], [authorized] and [releasable] (the token bucket).
    - Authority that is gone stays gone: [terminal_never_granted] (over every call, start and
      restore of [settled_step]; [older_snapshot_revives] shows what an older snapshot does), [terminal_forever],
      [fenced_incarnation_never_returns], [close_session_fences], [restart_revokes] (over the
      steps [unopened_step] and [quiet_step] that follow a start), [boot_fresh], [frame_sequences_increase], [policy_replay_window].
    - Canonical form: [construct_order_independent], [construct_flow_group_correct],
      [canonicalize_participants_correct], [parse_print_iff], [evidence_lookup_correct].
    - Conservation and bounds: [bucket_conservation], [refill_exact], [delay_exact],
      [admission_conservation], [admit_safe].
    - Invariants by rule induction over step relations: [catalog_invariant],
      [authority_invariant], [service_invariant]; the last goes through [evolves], the
      simulation of a service call by steps of its components.
    - The wire: [message_roundtrip], [message_canonical] (the decoder of a message without
      metadata, reasons and decision records accepts exactly what the encoder writes for a
      value the program can hold), [message_refusal_is_decode_error], [register_decoded_typed],
      [decode_frame_iff], [frame_corruption_detected], [crc32_correct],
      [session_reassembles] and [server_sessions_bounded].
    - Durability: [snapshot_roundtrip], [snapshot_corruption_detected], [write_all_atomic] (a
      write that fails anywhere leaves the old snapshot; on Windows it may leave none, see
      [windows_rename_loses]), [saved_state_restored],
      [start_survives_any_snapshot].
    - The server: [every_frame_answered] (one response, sent iff it fits a frame and the socket
      takes it), [frame_acts_for_own_session], [acknowledged_is_written] (a handler writes
      before it sends), [stop_quiesces], [coordinator_invariant].
    - The control tool: [parse_iff] (the command lines that are accepted),
      [exit_usage_iff_silent], [tool_terminates], [tool_keeps_protocol] (whatever the
      coordinator answers, and nothing more after an answer that is not the acknowledgement),
      [build_plan_correct] (for every list of participants).
    - Whole programs in process: [selftest_accepts] (the self test succeeds for every entropy
      and counter, and every clock short of its overflow), [example_exit] and [consumer_exit] (the exit codes, decided by
      whether the folded edge keys collide).
    - Both ends together: [session_is_direct_calls] (a session over the wire is the direct
      calls, in order, each once), [plan_exit_is_the_decision] and [attempt_exit_iff] (from
      the command line through the coordinator to the exit code), on a connection that is
      welcome and as long as every message, the responses included, fits a frame.
    - Descriptors: [descriptors_conserved] (none is leaked or closed twice),
      [server_listen_refines], [descriptor_closed_once].
    - Refinement: [history_refines_log] (every query of the ring against the unbounded log),
      [snapshot_peers_correct] (the sorted snapshot against the map), [catalog_replay],
      [flush_never_forgets] (over every step of [serving_step], decisions included).
    - Behaviour that is not what the code or its documentation intends, each with a theorem:
      [zero_capacity_is_not_limiting], [slow_bucket_starves], [last_boundary_inert],
      [peek_underestimates], [changed_definition_keeps_generation], [peer_table_bound],
      [activation_not_durable], [restore_not_atomic], [older_snapshot_revives],
      [windows_rename_loses], [response_ignores_write_failure], [full_mesh_answer_lost] (a
      decision too large for a frame is never sent), [attempt_exit_iff], and the window of [policy_replay_window].

    ** Fuel and bounds

    The minting loop of [begin_boot] needs four rounds ([mint_epoch_total]), since four
    consecutive mints have distinct low words and at most three of those words are excluded.
    [lower_bound] has the length of the list as fuel ([lower_bound_loop_spec]); the decimal
    printer has 20 digits, enough for 64 bits; the congestion loop has the five buckets of the
    table.  Reading a file has one round more than the file has bytes, since every round but
    the last reads one.  The session loop has one round per frame and one more.  A response
    that cannot be encoded is replaced once by an encoding error, whose own encoding always
    succeeds.  The polling loop of [serve] is given a number of polls and has no exit code when
    they are used up; the heartbeat loop runs as often as [--count] says; every other command
    ends by itself ([tool_terminates]).  Counters wrap at 64 bits; where a theorem needs that a sequence has not come
    round, it says so.

    ** Parameters and what is not modelled

    The process entropy behind [mint_identity], the clock, the answers of the snapshot store,
    of [send] and [recv] and of the file system calls are arguments, so a theorem holds for
    all of them.  A handler of the server is one step; handlers of different connections
    interleave at frames, and the service's own theorems interleave at its calls.

    What a native socket call answers is an argument of [Sockets]; [inet_pton] and [inet_ntop]
    are parameters.  In [Link] the bytes of a frame arrive as they were sent, which
    [session_reassembles] justifies for the server's side; clocks, minted identities and the
    store's answers are arguments there too, one per call.

    Not modelled: the hash functions of the containers; the Windows branches of the transport
    (those of the snapshot store are); [fsync], which does not change the visible files; the reading of the clock and of the random device.
    What remains open: the commands of the tool other than [plan], [begin-attempt] and
    [selftest] end to end, which [session_is_direct_calls] prepares. *)
From Stdlib Require Export ZArith Lia.
From stdpp Require Export sorting.
From stdpp Require Export gmap strings numbers.
From stdpp Require Export list.

Declare Scope ctf_scope.
Delimit Scope ctf_scope with ctf.
#[global] Open Scope Z_scope.
#[global] Open Scope ctf_scope.

(** ** Machine integers

    A [std::uintN_t] is a [Z] kept in [0, 2^N); arithmetic that can leave the range is
    followed by the wrap-around of its width. *)
Abbreviation two8 := 256 (only parsing).
Abbreviation two16 := 65536 (only parsing).
Abbreviation two32 := 4294967296 (only parsing).
Abbreviation two64 := 18446744073709551616 (only parsing).

Definition w8 (x : Z) : Z := x mod two8.
Definition w16 (x : Z) : Z := x mod two16.
Definition w32 (x : Z) : Z := x mod two32.
Definition w64 (x : Z) : Z := x mod two64.

Definition is_u8 (x : Z) : Prop := 0 ≤ x < two8.
Definition is_u16 (x : Z) : Prop := 0 ≤ x < two16.
Definition is_u32 (x : Z) : Prop := 0 ≤ x < two32.
Definition is_u64 (x : Z) : Prop := 0 ≤ x < two64.

(** Sizes of containers and strings, as the code's [size()]. *)
Definition zlen {A} (l : list A) : Z := Z.of_nat (length l).
Definition mapsize {K A} `{Countable K} (m : gmap K A) : Z := Z.of_nat (size m).
#[global] Arguments String.append : simpl nomatch.
Definition slen (s : string) : Z := Z.of_nat (String.length s).

(** ** Record update

    [r <| f := v |>] is the C++ assignment [r.f = v] on a copy.  [Eta R] gives the
    eta-expansion of a record type, from which the setter of every projection is derived. *)
Class Eta (R : Type) := eta_expand : R → R.
Class Setter {R T : Type} (proj : R → T) := set_field : (T → T) → R → R.
Arguments set_field {R T} proj {_} _ _ : assert.

Ltac derive_setter :=
  match goal with
  | |- @Setter ?R ?T ?proj =>
      let upd := fresh "upd" in
      let r := fresh "r" in
      refine (fun (upd : T → T) (r : R) => _);
      let body := eval cbv [eta_expand] in (eta_expand r) in
      let body := eval hnf in body in
      match eval pattern (proj r) in body with
      | ?ctx _ => let res := eval cbv beta in (ctx (upd (proj r))) in exact res
      end
  end.
#[export] Hint Extern 1 (Setter _) => derive_setter : typeclass_instances.

Notation "r <| f := v |>" := (set_field f (fun _ => v) r)
  (at level 1, f at next level, left associativity, format "r  <| f  :=  v |>") : ctf_scope.
Notation "r <| f ::= g |>" := (set_field f g r)
  (at level 1, f at next level, left associativity, format "r  <| f  ::=  g |>") : ctf_scope.

(** ** Loops of the standard library the code relies on *)

(** [std::sort(first, last, less)].  The algorithm is a merge sort; every theorem below that
    uses it holds for any sorting permutation, see [std_sort_unique]. *)
Definition std_sort {A} (less : A → A → bool) (l : list A) : list A :=
  @merge_sort A (fun a b => less b a = false) (fun a b => decide (less b a = false)) l.

(** Comparison of two structures through one field. *)
Definition on_key {A K} (less : K → K → bool) (key : A → K) (a b : A) : bool :=
  less (key a) (key b).

(** [v.erase(std::unique(v.begin(), v.end()), v.end())]: drops every element equal to the
    one kept before it. *)
Fixpoint std_unique {A} `{EqDecision A} (l : list A) : list A :=
  match l with
  | [] => []
  | x :: l' =>
      match std_unique l' with
      | y :: u => if decide (x = y) then y :: u else x :: y :: u
      | [] => [x]
      end
  end.

(** [std::lower_bound]: the halving loop over a range given by its first index and its
    length.  Each round at least halves [count], so [length l] rounds are enough. *)
Fixpoint lower_bound_loop {A} (fuel : nat) (before : A → bool) (l : list A)
    (first count : nat) : nat :=
  match fuel with
  | O => first
  | S fuel' =>
      match count with
      | O => first
      | S _ =>
          let step := Nat.div2 count in
          let it := (first + step)%nat in
          match l !! it with
          | Some x =>
              if before x then lower_bound_loop fuel' before l (S it) (count - S step)%nat
              else lower_bound_loop fuel' before l first step
          | None => first
          end
      end
  end.

Definition lower_bound {A} (before : A → bool) (l : list A) : nat :=
  lower_bound_loop (length l) before l 0 (length l).

(** A [for] loop that checks each element against its predecessor and stops at the first
    failure. *)
Fixpoint check_each {A E} (check : option A → A → option E) (prev : option A)
    (l : list A) : option E :=
  match l with
  | [] => None
  | x :: l' =>
      match check prev x with
      | Some e => Some e
      | None => check_each check (Some x) l'
      end
  end.

(** The first element a predicate accepts, the shape of every linear table scan. *)
Fixpoint find_first {A} (p : A → bool) (l : list A) : option A :=
  match l with
  | [] => None
  | x :: l' => if p x then Some x else find_first p l'
  end.

(** ** Strict total orders given by a boolean comparison *)
Class StrictTotal {K : Type} (less : K → K → bool) := {
  st_irrefl : ∀ a, less a a = false;
  st_trans : ∀ a b c, less a b = true → less b c = true → less a c = true;
  st_total : ∀ a b, less a b = false → less b a = false → a = b;
}.

(** Lexicographic comparison of keys of one length, field by field as the code writes it. *)
Fixpoint lexZ (a b : list Z) : bool :=
  match a, b with
  | x :: a', y :: b' => if negb (x =? y) then x <? y else lexZ a' b'
  | [], _ :: _ => true
  | _, [] => false
  end.

(** How often a value occurs. *)
Definition occurrences {A} `{EqDecision A} (x : A) (l : list A) : Z :=
  zlen (filter (fun y => y = x) l).

(** ** Automation *)
Create HintDb ctf.

(** Turns boolean tests of the code into propositions. *)
Ltac bool_prop :=
  repeat match goal with
  | H : (_ && _) = true |- _ => apply andb_true_iff in H; destruct H
  | H : (_ && _) = false |- _ => apply andb_false_iff in H
  | H : (_ || _) = false |- _ => apply orb_false_iff in H; destruct H
  | H : (_ || _) = true |- _ => apply orb_true_iff in H
  | H : negb _ = true |- _ => apply negb_true_iff in H
  | H : negb _ = false |- _ => apply negb_false_iff in H
  | H : (_ =? _) = true |- _ => apply Z.eqb_eq in H
  | H : (_ =? _) = false |- _ => apply Z.eqb_neq in H
  | H : (_ <? _) = true |- _ => apply Z.ltb_lt in H
  | H : (_ <? _) = false |- _ => apply Z.ltb_ge in H
  | H : (_ <=? _) = true |- _ => apply Z.leb_le in H
  | H : (_ <=? _) = false |- _ => apply Z.leb_gt in H
  | H : bool_decide _ = true |- _ => apply bool_decide_eq_true in H
  | H : bool_decide _ = false |- _ => apply bool_decide_eq_false in H
  end.

(** ** Lemmas on machine integers *)
Lemma w64_range x : is_u64 (w64 x).
Proof. unfold is_u64, w64. apply Z.mod_pos_bound. lia. Qed.
Lemma w32_range x : is_u32 (w32 x).
Proof. unfold is_u32, w32. apply Z.mod_pos_bound. lia. Qed.
Lemma w64_small x : is_u64 x → w64 x = x.
Proof. unfold is_u64, w64. intros. apply Z.mod_small. lia. Qed.
Lemma w32_small x : is_u32 x → w32 x = x.
Proof. unfold is_u32, w32. intros. apply Z.mod_small. lia. Qed.
Lemma w64_idemp x : w64 (w64 x) = w64 x.
Proof. apply w64_small, w64_range. Qed.
#[export] Hint Resolve w64_range w32_range : ctf.

Lemma zlen_nonneg {A} (l : list A) : 0 ≤ zlen l.
Proof. unfold zlen. lia. Qed.
Lemma zlen_nil_iff {A} (l : list A) : (zlen l =? 0) = false ↔ l ≠ [].
Proof. unfold zlen. rewrite Z.eqb_neq. destruct l; simpl; [naive_solver | split; [done|lia]]. Qed.
Lemma zlen_app {A} (l k : list A) : zlen (l ++ k) = zlen l + zlen k.
Proof. unfold zlen. rewrite length_app. lia. Qed.
#[export] Instance zlen_proper {A} : Proper ((≡ₚ) ==> (=)) (@zlen A).
Proof. intros l k Hp. unfold zlen. by rewrite Hp. Qed.

Section mapsize.
Context {K A : Type} `{Countable K}.
Implicit Types m : gmap K A.

Lemma mapsize_nonneg m : 0 ≤ mapsize m.
Proof. unfold mapsize. lia. Qed.
Lemma mapsize_empty : mapsize (∅ : gmap K A) = 0.
Proof. unfold mapsize. by rewrite map_size_empty. Qed.
Lemma mapsize_insert_new m k x : m !! k = None → mapsize (<[k:=x]> m) = mapsize m + 1.
Proof. intros Hk. unfold mapsize. rewrite map_size_insert_None by done. lia. Qed.
Lemma mapsize_insert_old m k x y : m !! k = Some y → mapsize (<[k:=x]> m) = mapsize m.
Proof. intros Hk. unfold mapsize. by rewrite map_size_insert_Some by eauto. Qed.
Lemma mapsize_delete_le m k : mapsize (delete k m) ≤ mapsize m.
Proof. unfold mapsize. rewrite map_size_delete. destruct (m !! k); simpl; lia. Qed.
Lemma mapsize_alter m k f : mapsize (alter f k m) = mapsize m.
Proof.
  unfold mapsize. f_equal. rewrite <- !size_dom. f_equal. apply dom_alter_L.
Qed.
End mapsize.

#[export] Instance lexZ_strict : StrictTotal lexZ.
Proof.
  split.
  - intros a. induction a as [|x a IH]; [done|]. simpl. by rewrite Z.eqb_refl.
  - intros a. induction a as [|x a IH]; intros [|y b] [|z c]; simpl; try done.
    repeat case_match; bool_prop; rewrite ?Z.ltb_lt; try lia. apply IH.
  - intros a. induction a as [|x a IH]; intros [|y b]; simpl; try done.
    rewrite (Z.eqb_sym y x). destruct (x =? y) eqn:E; simpl; bool_prop.
    + intros H1 H2. subst. f_equal. by apply IH.
    + intros. bool_prop. lia.
Qed.

Lemma strict_total_key {A K} (less : K → K → bool) `{!StrictTotal less} (lt : A → A → bool)
    (key : A → K) :
  Inj (=) (=) key → (∀ a b, lt a b = less (key a) (key b)) → StrictTotal lt.
Proof.
  intros Hinj Hlt. split; intros *; rewrite !Hlt.
  - apply st_irrefl.
  - apply st_trans.
  - intros H1 H2. by apply Hinj, st_total.
Qed.

Section occurrences.
Context {A : Type} `{EqDecision A}.

Lemma occurrences_nil (x : A) : occurrences x [] = 0.
Proof. reflexivity. Qed.
Lemma occurrences_cons (x y : A) l :
  occurrences x (y :: l) = (if decide (y = x) then 1 else 0) + occurrences x l.
Proof.
  unfold occurrences, zlen. rewrite filter_cons. case_decide; cbn [length]; lia.
Qed.
Lemma occurrences_nonneg (x : A) l : 0 ≤ occurrences x l.
Proof. apply zlen_nonneg. Qed.
Lemma occurrences_notin (x : A) l : x ∉ l → occurrences x l = 0.
Proof.
  induction l as [|y l IH]; [done|]. rewrite not_elem_of_cons, occurrences_cons.
  intros [Hne Hin]. rewrite IH by done. by rewrite decide_False by done.
Qed.
#[export] Instance occurrences_proper (x : A) : Proper ((≡ₚ) ==> (=)) (occurrences x).
Proof. intros l k Hp. unfold occurrences. by rewrite Hp. Qed.
End occurrences.

(** ** Lemmas on the library loops *)
Section sorting.
Context {A K : Type} (less : K → K → bool) `{!StrictTotal less} (key : A → K).

Abbreviation kle := (fun a b : A => less (key b) (key a) = false).
Abbreviation klt := (fun a b : A => less (key a) (key b) = true).

Lemma st_asym a b : less a b = true → less b a = false.
Proof.
  intros Hab. destruct (less b a) eqn:Hba; [|done].
  pose proof (st_trans a b a Hab Hba) as Haa. by rewrite st_irrefl in Haa.
Qed.

#[export] Instance kle_total : Total kle.
Proof.
  intros a b. destruct (less (key b) (key a)) eqn:E; [right|left]; [|done].
  by apply st_asym.
Qed.

#[export] Instance kle_trans : Transitive kle.
Proof.
  intros a b c Hab Hbc. destruct (less (key c) (key a)) eqn:E; [|done].
  destruct (less (key a) (key b)) eqn:E2.
  - by rewrite (st_trans _ _ _ E E2) in Hbc.
  - rewrite (st_total _ _ E2 Hab) in E. congruence.
Qed.

#[export] Instance klt_trans : Transitive klt.
Proof. intros a b c. apply st_trans. Qed.

Lemma std_sort_perm (l : list A) : std_sort (on_key less key) l ≡ₚ l.
Proof. apply merge_sort_Permutation. Qed.

Lemma std_sort_sorted (l : list A) : StronglySorted kle (std_sort (on_key less key) l).
Proof. apply StronglySorted_merge_sort; [apply kle_trans | apply kle_total]. Qed.

(** On lists whose keys are distinct, the sorting permutation is unique. *)
Lemma sorted_perm_unique (l1 l2 : list A) :
  (∀ x y, x ∈ l1 → y ∈ l1 → key x = key y → x = y) →
  StronglySorted kle l1 → StronglySorted kle l2 → l1 ≡ₚ l2 → l1 = l2.
Proof.
  intros Hinj H1 H2 Hp. apply (StronglySorted_unique_strong kle l1 l2); [|done..].
  intros x y Hx Hy Hxy Hyx. apply Hinj; [done | by rewrite Hp |]. by apply st_total.
Qed.

Lemma std_sort_unique (l1 l2 : list A) :
  (∀ x y, x ∈ l1 → y ∈ l1 → key x = key y → x = y) →
  l1 ≡ₚ l2 → std_sort (on_key less key) l1 = std_sort (on_key less key) l2.
Proof.
  intros Hinj Hp. apply sorted_perm_unique; [|apply std_sort_sorted..|].
  - intros x y. rewrite !std_sort_perm. auto.
  - by rewrite !std_sort_perm.
Qed.

Lemma klt_kle_sorted (l : list A) : StronglySorted klt l → StronglySorted kle l.
Proof.
  induction 1 as [|x l Hl IH Hx]; constructor; [done|].
  eapply Forall_impl; [exact Hx|]. simpl. intros y. apply st_asym.
Qed.

(** Sorting leaves a list that is already strictly ascending alone. *)
Lemma std_sort_ascending (l : list A) :
  StronglySorted klt l → std_sort (on_key less key) l = l.
Proof.
  intros Hs. symmetry. apply sorted_perm_unique.
  - induction Hs as [|x l Hl IH Hx]; [by intros ?? []%not_elem_of_nil|].
    rewrite Forall_forall in Hx. intros a b [->|Ha]%elem_of_cons [->|Hb]%elem_of_cons E;
      [done| | |by apply IH]; exfalso.
    + specialize (Hx b Hb). simpl in Hx. rewrite E, st_irrefl in Hx. done.
    + specialize (Hx a Ha). simpl in Hx. rewrite E, st_irrefl in Hx. done.
  - by apply klt_kle_sorted.
  - apply std_sort_sorted.
  - symmetry. apply std_sort_perm.
Qed.

Lemma klt_sorted_nodup (l : list A) : StronglySorted klt l → NoDup (key <$> l).
Proof.
  induction 1 as [|x l Hl IH Hx]; simpl; constructor; [|done].
  intros (y & E & Hy)%list_elem_of_fmap. rewrite Forall_forall in Hx.
  specialize (Hx y Hy). simpl in Hx. rewrite <- E, st_irrefl in Hx. done.
Qed.

Lemma kle_sorted_nodup_klt (l : list A) :
  StronglySorted kle l → NoDup (key <$> l) → StronglySorted klt l.
Proof.
  induction 1 as [|x l Hl IH Hx]; simpl; intros Hn; constructor.
  - inversion Hn; auto.
  - inversion Hn as [|? ? Hni]; subst. rewrite Forall_forall in Hx |- *.
    intros y Hy. specialize (Hx y Hy). simpl in *.
    destruct (less (key x) (key y)) eqn:E; [done|]. exfalso. apply Hni.
    rewrite (st_total _ _ E Hx). by apply list_elem_of_fmap_2.
Qed.

(** A strictly ascending list is determined by its elements. *)
Lemma klt_sorted_ext (l1 l2 : list A) :
  StronglySorted klt l1 → StronglySorted klt l2 → (∀ x, x ∈ l1 ↔ x ∈ l2) → l1 = l2.
Proof.
  intros H1 H2 Hel. apply sorted_perm_unique; try by apply klt_kle_sorted.
  - pose proof (klt_sorted_nodup l1 H1) as Hn. intros x y Hx Hy E.
    apply list_elem_of_lookup in Hx as [i Hi], Hy as [j Hj].
    assert (i = j) as -> by
      (eapply (NoDup_lookup (key <$> l1)); [done|by rewrite list_lookup_fmap, Hi|];
       by rewrite list_lookup_fmap, Hj, E).
    congruence.
  - apply NoDup_Permutation; [| |done]; eapply NoDup_fmap_1, klt_sorted_nodup; done.
Qed.
End sorting.

Lemma StronglySorted_lookup {A} (R : relation A) l i j x y :
  StronglySorted R l → (i < j)%nat → l !! i = Some x → l !! j = Some y → R x y.
Proof.
  intros Hs. revert i j. induction Hs as [|z l Hl IH Hz]; intros i j Hij Hi Hj; [done|].
  destruct j as [|j]; [lia|]. destruct i as [|i]; simpl in *; simplify_eq.
  - rewrite Forall_forall in Hz. apply Hz. by eapply list_elem_of_lookup_2.
  - eapply (IH i j); [lia|done..].
Qed.

(** A loop over neighbours that passes leaves a list sorted by a transitive relation. *)
Lemma Sorted_klt_strong {A K} (less : K → K → bool) `{!StrictTotal less} (key : A → K) l :
  Sorted (fun a b => less (key a) (key b) = true) l →
  StronglySorted (fun a b => less (key a) (key b) = true) l.
Proof. apply Sorted_StronglySorted. apply klt_trans; apply _. Qed.

Section library_loops.
Context {A : Type}.

(** A loop whose checks pass establishes its per-element and its neighbour conditions. *)
Lemma check_each_Forall {E} (check : option A → A → option E) (P : A → Prop) l prev :
  (∀ p x, check p x = None → P x) → check_each check prev l = None → Forall P l.
Proof.
  intros HP. revert prev. induction l as [|x l IH]; intros prev H; [constructor|].
  simpl in H. destruct (check prev x) eqn:E1; [done|]. constructor; eauto.
Qed.

Lemma check_each_Sorted {E} (check : option A → A → option E) (R : relation A) l prev :
  (∀ y x, check (Some y) x = None → R y x) → check_each check prev l = None → Sorted R l.
Proof.
  intros HR. revert prev. induction l as [|x l IH]; intros prev H; [constructor|].
  simpl in H. destruct (check prev x) eqn:E1; [done|]. constructor; [eauto|].
  destruct l as [|y l]; constructor. simpl in H.
  destruct (check (Some x) y) eqn:E2; [done|]. eauto.
Qed.

Lemma check_each_intro {E} (check : option A → A → option E) (P : A → Prop) (R : relation A) l :
  (∀ x, P x → check None x = None) →
  (∀ y x, R y x → P x → check (Some y) x = None) →
  Forall P l → Sorted R l → check_each check None l = None.
Proof.
  intros H0 H1. assert (∀ y l', Forall P l' → Sorted R (y :: l') →
    check_each check (Some y) l' = None) as Haux.
  { intros y l'. revert y. induction l' as [|x l' IH]; [done|]. intros y HP HS. simpl.
    inversion HP; subst. inversion HS as [|? ? HS' Hh]; subst. inversion Hh; subst.
    rewrite H1 by done. by apply IH. }
  destruct l as [|x l]; [done|]. intros HP HS. simpl. inversion HP; subst.
  rewrite H0 by done. by apply Haux.
Qed.

(** A check that looks at one element only passes exactly when every element passes. *)
Lemma check_each_pointwise {E} (check : A → option E) l prev :
  check_each (fun _ x => check x) prev l = None ↔ Forall (fun x => check x = None) l.
Proof.
  revert prev. induction l as [|x l IH]; intros prev; simpl; [by split|].
  rewrite Forall_cons. destruct (check x) eqn:E1; [naive_solver|]. rewrite IH. naive_solver.
Qed.

Lemma find_first_Some (p : A → bool) l x :
  find_first p l = Some x → x ∈ l ∧ p x = true.
Proof.
  induction l as [|y l IH]; simpl; [done|]. destruct (p y) eqn:E; intros H; simplify_eq.
  - split; [left | done].
  - destruct (IH H). split; [by right | done].
Qed.

Lemma find_first_None (p : A → bool) l :
  find_first p l = None ↔ Forall (fun x => p x = false) l.
Proof.
  induction l as [|y l IH]; simpl; [by split|]. rewrite Forall_cons.
  destruct (p y) eqn:E; [naive_solver|]. rewrite IH. naive_solver.
Qed.

(** [lower_bound] returns the partition point of a partitioned range. *)
Lemma lower_bound_loop_spec (before : A → bool) l n fuel first count :
  (∀ i x, l !! i = Some x → before x = bool_decide (i < n)%nat) →
  (first ≤ n ≤ first + count)%nat → (first + count ≤ length l)%nat → (count ≤ fuel)%nat →
  lower_bound_loop fuel before l first count = n.
Proof.
  intros Hpart. revert first count.
  induction fuel as [|fuel IH]; intros first count Hn Hc Hf; simpl; [lia|].
  destruct count as [|c]; [lia|].
  pose proof (Nat.div2_decr (S c) c ltac:(lia)) as Hd.
  set (step := Nat.div2 (S c)) in *.
  destruct (l !! (first + step)%nat) as [x|] eqn:Hx.
  - rewrite (Hpart _ _ Hx). case_bool_decide; apply IH; lia.
  - apply lookup_ge_None in Hx. lia.
Qed.

Lemma lower_bound_spec (before : A → bool) l n :
  (∀ i x, l !! i = Some x → before x = bool_decide (i < n)%nat) → (n ≤ length l)%nat →
  lower_bound before l = n.
Proof. intros. apply lower_bound_loop_spec; auto; lia. Qed.

Lemma std_unique_elem `{EqDecision A} (l : list A) (x : A) : x ∈ std_unique l ↔ x ∈ l.
Proof.
  induction l as [|y l IH]; [done|]. simpl. rewrite elem_of_cons, <- IH.
  destruct (std_unique l) as [|z u]; [set_solver|]. case_decide; set_solver.
Qed.
End library_loops.

Lemma std_unique_sorted {A} `{EqDecision A} (less : A → A → bool) `{!StrictTotal less}
    (l : list A) :
  StronglySorted (fun a b => less b a = false) l →
  StronglySorted (fun a b => less a b = true) (std_unique l).
Proof.
  induction 1 as [|x l Hl IH Hx]; simpl; [constructor|].
  pose proof (std_unique_elem l) as Hel.
  destruct (std_unique l) as [|y u]; [by repeat constructor|].
  case_decide; [done|]. constructor; [done|].
  assert (Forall (fun z => less z x = false) (y :: u)) as Hle.
  { rewrite Forall_forall in Hx |- *. intros z Hz. apply Hx. by apply Hel. }
  assert (less x y = true) as Hxy.
  { destruct (less x y) eqn:E; [done|]. inversion Hle; subst.
    exfalso. by eapply H, st_total. }
  constructor; [done|]. inversion IH as [|? ? _ Hyu]; subst.
  eapply Forall_impl; [exact Hyu|]. simpl. intros z. by apply st_trans.
Qed.
