(* ===== verification/Identity.v ===== *)
(** Identities, sequence numbers and minting ([include/ctf/identity.hpp], [src/identity.cpp]).

    [Identity] is the opaque 128-bit value every generation, epoch, incarnation and session is
    made of; the file proves that its order is total, that the canonical hexadecimal text is
    parsed back exactly and nothing else is parsed, and that minting with distinct counters or
    sequence numbers gives distinct identities. *)
From S2P Require Import Prelude.

Record Identity := mkIdentity { id_high : Z; id_low : Z }.

#[export] Instance Identity_eq_dec : EqDecision Identity.
Proof. solve_decision. Defined.

#[export] Instance Identity_countable : Countable Identity.
Proof.
  refine (inj_countable' (fun i => (id_high i, id_low i)) (fun p => mkIdentity p.1 p.2) _).
  by intros [].
Defined.

Definition id_none : Identity := mkIdentity 0 0.

Definition is_none (i : Identity) : bool := (id_high i =? 0) && (id_low i =? 0).
Definition is_some (i : Identity) : bool := negb (is_none i).

Definition id_eqb (a b : Identity) : bool :=
  (id_high a =? id_high b) && (id_low a =? id_low b).

Definition id_ltb (a b : Identity) : bool :=
  if negb (id_high a =? id_high b) then id_high a <? id_high b else id_low a <? id_low b.

Infix "=i" := id_eqb (at level 70) : ctf_scope.
Infix "<i" := id_ltb (at level 70) : ctf_scope.

(** The two words are 64 bits wide. *)
Definition id_wf (i : Identity) : Prop := is_u64 (id_high i) ∧ is_u64 (id_low i).

(** ** Canonical text *)
Definition kHexDigits : string := "0123456789abcdef".

Definition hex_digit (v : Z) : Ascii.ascii :=
  match String.get (Z.to_nat v) kHexDigits with
  | Some c => c
  | None => Ascii.zero
  end.

(** The loop of [append_hex64] fills the buffer from its last position. *)
Fixpoint hex_digits (n : nat) (value : Z) (acc : string) : string :=
  match n with
  | O => acc
  | S n' => hex_digits n' (Z.shiftr value 4) (String (hex_digit (Z.land value 15)) acc)
  end.

Definition append_hex64 (out : string) (value : Z) : string :=
  String.append out (hex_digits 16 value "").

Definition char_code (c : Ascii.ascii) : Z := Z.of_N (Ascii.N_of_ascii c).

Definition hex_value (c : Ascii.ascii) : Z :=
  let code := char_code c in
  if (48 <=? code) && (code <=? 57) then code - 48
  else if (97 <=? code) && (code <=? 102) then code - 97 + 10
  else -1.

Definition id_to_string (i : Identity) : string :=
  append_hex64 (append_hex64 "" (id_high i)) (id_low i).

Fixpoint parse_loop (index : Z) (text : string) (hi lo : Z) : option Identity :=
  match text with
  | EmptyString => Some (mkIdentity hi lo)
  | String c text' =>
      let nibble := hex_value c in
      if nibble <? 0 then None
      else if index <? 16
      then parse_loop (index + 1) text' (Z.lor (w64 (Z.shiftl hi 4)) nibble) lo
      else parse_loop (index + 1) text' hi (Z.lor (w64 (Z.shiftl lo 4)) nibble)
  end.

Definition id_parse (text : string) : option Identity :=
  if negb (slen text =? 32) then None else parse_loop 0 text 0 0.

(** ** Sequence numbers *)
Abbreviation Sequence := Z (only parsing).
Definition seq_is_unset (s : Sequence) : bool := s =? 0.
Definition seq_incr (s : Sequence) : Sequence := w64 (s + 1).

(** Decimal text of an unsigned integer; twenty digits hold every 64-bit value. *)
Fixpoint decimal_loop (fuel : nat) (value : Z) (digits : string) : string :=
  match fuel with
  | O => digits
  | S fuel' =>
      if value =? 0 then digits
      else decimal_loop fuel' (value / 10)
             (String (Ascii.ascii_of_N (Z.to_N (48 + value mod 10))) digits)
  end.

Definition decimal (value : Z) : string :=
  if value =? 0 then "0" else decimal_loop 20 value "".

Definition seq_to_string (s : Sequence) : string := String.append "seq:" (decimal s).

(** ** Minting *)
Definition xorshift (k value : Z) : Z := Z.lxor value (Z.shiftr value k).

Definition id_mix64 (value : Z) : Z :=
  let value := w64 (value + 0x9E3779B97F4A7C15) in
  let value := w64 (xorshift 30 value * 0xBF58476D1CE4E5B9) in
  let value := w64 (xorshift 27 value * 0x94D049BB133111EB) in
  xorshift 31 value.

Definition mix_seed (seed : Z) : Z :=
  let value := w64 (seed + 0x9E3779B97F4A7C15) in
  let value := w64 (xorshift 30 value * 0xBF58476D1CE4E5B9) in
  let value := w64 (xorshift 27 value * 0x94D049BB133111EB) in
  xorshift 31 value.

(** [IdentityMinter]: its state is the word [state_]. *)
Definition minter_new (seed : Z) : Z := mix_seed seed.

Definition minter_next (state : Z) : Z * Identity :=
  let state := id_mix64 state in
  let hi := id_mix64 state in
  let lo := id_mix64 (Z.lxor (Z.lxor state 0xA5A5A5A5A5A5A5A5) hi) in
  (state, mkIdentity hi lo).

(** [mint_identity] is a function of the process entropy and of the value the atomic counter
    had; the caller threads the counter. *)
Definition mint_identity (entropy counter : Z) : Identity :=
  let hi := id_mix64 (Z.lxor entropy (w64 (counter * 0x9E3779B97F4A7C15))) in
  let lo := id_mix64 (w64 (entropy + 0x165667B19E3779F9 + counter)) in
  let minted := mkIdentity hi lo in
  if is_none minted then mkIdentity 1 1 else minted.

(** ** Order *)
Lemma id_eqb_eq a b : (a =i b) = true ↔ a = b.
Proof.
  unfold id_eqb. destruct a, b; simpl. rewrite andb_true_iff, !Z.eqb_eq. naive_solver.
Qed.

Lemma id_eqb_refl a : (a =i a) = true.
Proof. by apply id_eqb_eq. Qed.

Lemma id_eqb_neq a b : (a =i b) = false ↔ a ≠ b.
Proof. rewrite <- not_true_iff_false, id_eqb_eq. done. Qed.

Lemma is_none_eq i : is_none i = true ↔ i = id_none.
Proof.
  unfold is_none, id_none. destruct i; simpl. rewrite andb_true_iff, !Z.eqb_eq. naive_solver.
Qed.

Lemma is_none_neq i : is_none i = false ↔ i ≠ id_none.
Proof. rewrite <- not_true_iff_false, is_none_eq. done. Qed.

Lemma is_some_neq i : is_some i = true ↔ i ≠ id_none.
Proof. unfold is_some. rewrite negb_true_iff, <- not_true_iff_false, is_none_eq. done. Qed.

#[export] Instance id_ltb_strict : StrictTotal id_ltb.
Proof.
  split; unfold id_ltb; intros.
  - rewrite Z.eqb_refl. simpl. apply Z.ltb_irrefl.
  - repeat case_match; bool_prop; rewrite ?Z.ltb_lt; try lia.
  - destruct a as [ah al], b as [bh bl]; simpl in *.
    rewrite (Z.eqb_sym bh ah) in *.
    destruct (ah =? bh) eqn:E; simpl in *; bool_prop; [f_equal; lia | lia].
Qed.

(** ** Hexadecimal text *)
Lemma string_app_nil s : String.append s "" = s.
Proof. induction s as [|c s IH]; simpl; congruence. Qed.

Lemma string_app_assoc s t u :
  String.append (String.append s t) u = String.append s (String.append t u).
Proof. induction s as [|c s IH]; simpl; congruence. Qed.

Lemma string_length_app s t :
  String.length (String.append s t) = (String.length s + String.length t)%nat.
Proof. induction s as [|c s IH]; simpl; congruence. Qed.

Lemma hex_digits_app n v acc : hex_digits n v acc = String.append (hex_digits n v "") acc.
Proof.
  revert v acc. induction n as [|n IH]; intros v acc; [done|]. simpl.
  rewrite (IH _ (String _ acc)), (IH _ (String _ "")). by rewrite string_app_assoc.
Qed.

Lemma hex_digits_length n v acc :
  String.length (hex_digits n v acc) = (n + String.length acc)%nat.
Proof.
  revert v acc. induction n as [|n IH]; intros v acc; [done|]. simpl. rewrite IH. simpl. lia.
Qed.

Lemma hex_value_digit v : 0 ≤ v < 16 → hex_value (hex_digit v) = v.
Proof.
  intros Hv. assert (∃ n : nat, v = Z.of_nat n ∧ (n < 16)%nat) as (n & -> & Hn).
  { exists (Z.to_nat v). lia. }
  do 16 (destruct n as [|n]; [by vm_compute|]). lia.
Qed.

Lemma hex_digit_value c : 0 ≤ hex_value c → hex_digit (hex_value c) = c ∧ hex_value c < 16.
Proof.
  destruct c as [[] [] [] [] [] [] [] []]; vm_compute; intros H;
    first [by split | by destruct H].
Qed.

(** One step of the parser's accumulator, and its fold over a text. *)
Definition hex_step (acc nibble : Z) : Z := Z.lor (w64 (Z.shiftl acc 4)) nibble.

Fixpoint hex_fold (text : string) (acc : Z) : option Z :=
  match text with
  | EmptyString => Some acc
  | String c text' =>
      let nibble := hex_value c in
      if nibble <? 0 then None else hex_fold text' (hex_step acc nibble)
  end.

Lemma hex_step_add acc nibble :
  0 ≤ acc → 16 * acc + 16 ≤ two64 → 0 ≤ nibble < 16 → hex_step acc nibble = 16 * acc + nibble.
Proof.
  intros Ha Hb Hn. unfold hex_step. rewrite Z.shiftl_mul_pow2 by lia.
  change (2 ^ 4) with 16. rewrite w64_small by (unfold is_u64; lia).
  rewrite <- Z.add_lor_land, (Z.mul_comm acc).
  replace (Z.land (16 * acc) nibble) with 0; [lia|]. symmetry.
  apply Z.bits_inj'. intros k Hk. rewrite Z.land_spec, Z.bits_0.
  destruct (decide (k < 4)).
  - replace (16 * acc) with (Z.shiftl acc 4) by (rewrite Z.shiftl_mul_pow2; lia).
    by rewrite Z.shiftl_spec_low by lia.
  - rewrite andb_comm. rewrite (Z.bits_above_log2 nibble k); [done|lia|].
    destruct (decide (nibble = 0)) as [->|]; [simpl; lia|].
    apply Z.log2_lt_pow2; [lia|]. apply Z.lt_le_trans with (2 ^ 4); [lia|].
    apply Z.pow_le_mono_r; lia.
Qed.

Lemma hex_fold_app s t a :
  hex_fold (String.append s t) a = (hex_fold s a ≫= hex_fold t).
Proof.
  revert a. induction s as [|c s IH]; intros a; simpl; [done|]. case_match; [done|]. apply IH.
Qed.

Lemma hex_fold_digits n v a :
  0 ≤ a → 0 ≤ v < 16 ^ Z.of_nat n → (a + 1) * 16 ^ Z.of_nat n ≤ two64 →
  hex_fold (hex_digits n v "") a = Some (a * 16 ^ Z.of_nat n + v).
Proof.
  revert v a. induction n as [|n IH]; intros v a Ha Hv Hb.
  - simpl in *. f_equal. lia.
  - simpl. rewrite hex_digits_app, hex_fold_app.
    rewrite Nat2Z.inj_succ, Z.pow_succ_r in * by lia.
    rewrite Z.shiftr_div_pow2 by lia. change (2 ^ 4) with 16.
    change 15 with (Z.ones 4). rewrite Z.land_ones by lia. change (2 ^ 4) with 16.
    pose proof (Z.mod_pos_bound v 16 ltac:(lia)). pose proof (Z.div_mod v 16 ltac:(lia)).
    rewrite IH by first [lia | split; [apply Z.div_pos; lia | apply Z.div_lt_upper_bound; lia] | nia].
    simpl. rewrite hex_value_digit by lia. rewrite (proj2 (Z.ltb_ge _ _)) by lia.
    rewrite hex_step_add; [f_equal; lia | lia | | lia].
    assert (v / 16 < 16 ^ Z.of_nat n) by (apply Z.div_lt_upper_bound; lia). lia.
Qed.

Lemma hex_digits_front n d v acc :
  0 ≤ d < 16 → 0 ≤ v < 16 ^ Z.of_nat n →
  hex_digits (S n) (d * 16 ^ Z.of_nat n + v) acc = String (hex_digit d) (hex_digits n v acc).
Proof.
  revert v acc. induction n as [|n IH]; intros v acc Hd Hv.
  - simpl in *. assert (v = 0) as -> by lia. rewrite Z.add_0_r, Z.mul_1_r.
    change 15 with (Z.ones 4). rewrite Z.land_ones by lia. rewrite Z.mod_small by (simpl; lia).
    done.
  - set (w := d * 16 ^ Z.of_nat (S n) + v).
    change (hex_digits (S (S n)) w acc) with
      (hex_digits (S n) (Z.shiftr w 4) (String (hex_digit (Z.land w 15)) acc)).
    change (hex_digits (S n) v acc) with
      (hex_digits n (Z.shiftr v 4) (String (hex_digit (Z.land v 15)) acc)).
    subst w. rewrite Nat2Z.inj_succ, Z.pow_succ_r in * by lia.
    rewrite !Z.shiftr_div_pow2 by lia. change (2 ^ 4) with 16.
    change 15 with (Z.ones 4). rewrite !Z.land_ones by lia. change (2 ^ 4) with 16.
    replace (d * (16 * 16 ^ Z.of_nat n) + v) with (v + (d * 16 ^ Z.of_nat n) * 16) by lia.
    rewrite Z.div_add, Z.mod_add by lia.
    rewrite (Z.add_comm (v / 16)). apply IH; [done|].
    split; [apply Z.div_pos; lia | apply Z.div_lt_upper_bound; lia].
Qed.

Lemma hex_fold_inv s a r :
  0 ≤ a → (a + 1) * 16 ^ slen s ≤ two64 → hex_fold s a = Some r →
  ∃ v, 0 ≤ v < 16 ^ slen s ∧ r = a * 16 ^ slen s + v ∧ s = hex_digits (String.length s) v "".
Proof.
  unfold slen. revert a r. induction s as [|c s IH]; intros a r Ha Hb H.
  - simpl in *. exists 0. simplify_eq. split; [lia|]. split; [lia | done].
  - simpl String.length in *. rewrite Nat2Z.inj_succ, Z.pow_succ_r in * by lia.
    simpl in H. destruct (hex_value c <? 0) eqn:E; [done|]. bool_prop.
    destruct (hex_digit_value c E) as [Hc Hlt].
    assert (1 ≤ 16 ^ Z.of_nat (String.length s)) by
      (apply (Z.pow_le_mono_r 16 0); lia).
    set (p := 16 ^ Z.of_nat (String.length s)) in *.
    assert ((a + 1) * 16 ≤ two64) by nia.
    rewrite hex_step_add in H by lia.
    destruct (IH (16 * a + hex_value c) r ltac:(lia) ltac:(nia) H) as (v & Hv & -> & Hs).
    exists (hex_value c * 16 ^ Z.of_nat (String.length s) + v).
    split; [nia|]. split; [lia|]. rewrite hex_digits_front by lia. by rewrite Hc, <- Hs.
Qed.

Lemma parse_loop_low text index hi lo :
  16 ≤ index → parse_loop index text hi lo = mkIdentity hi <$> hex_fold text lo.
Proof.
  revert index lo. induction text as [|c text IH]; intros index lo Hi; [done|]. simpl.
  case_match; [done|]. rewrite (proj2 (Z.ltb_ge _ _)) by lia. by rewrite IH by lia.
Qed.

Lemma parse_loop_high s t index hi lo :
  0 ≤ index → index + slen s = 16 →
  parse_loop index (String.append s t) hi lo =
    (hex_fold s hi ≫= fun hi' => mkIdentity hi' <$> hex_fold t lo).
Proof.
  unfold slen. revert index hi. induction s as [|c s IH]; intros index hi H0 Hi.
  - simpl in *. rewrite parse_loop_low by lia. done.
  - simpl in *. case_match; [done|]. rewrite (proj2 (Z.ltb_lt _ _)) by lia.
    by rewrite IH by lia.
Qed.

Lemma string_split_at n s :
  (n ≤ String.length s)%nat →
  ∃ a b, s = String.append a b ∧ String.length a = n.
Proof.
  revert s. induction n as [|n IH]; intros s Hn; [by exists "", s|].
  destruct s as [|c s]; simpl in Hn; [lia|].
  destruct (IH s ltac:(lia)) as (a & b & -> & Ha). exists (String c a), b.
  simpl. auto.
Qed.

(** ** Minting *)
Lemma lxor_u64 x y : is_u64 x → is_u64 y → is_u64 (Z.lxor x y).
Proof.
  intros Hx Hy. unfold is_u64 in *. split; [apply Z.lxor_nonneg; lia|].
  change two64 with (2 ^ 64). destruct (decide (Z.lxor x y = 0)) as [->|]; [lia|].
  assert (0 ≤ Z.lxor x y) by (apply Z.lxor_nonneg; lia).
  apply Z.log2_lt_pow2; [lia|].
  eapply Z.le_lt_trans; [apply Z.log2_lxor; lia|].
  apply Z.max_lub_lt; (destruct (decide (x = 0)) as [->|]; [by simpl|]) ||
    (destruct (decide (y = 0)) as [->|]; [by simpl|]); apply Z.log2_lt_pow2; lia.
Qed.

Lemma xorshift_u64 k x : 0 ≤ k → is_u64 x → is_u64 (xorshift k x).
Proof.
  intros Hk Hx. apply lxor_u64; [done|]. unfold is_u64 in *.
  rewrite Z.shiftr_div_pow2 by lia. assert (0 < 2 ^ k) by (apply Z.pow_pos_nonneg; lia).
  split; [apply Z.div_pos; lia|]. apply Z.div_lt_upper_bound; [lia|]. nia.
Qed.

Lemma u64_testbit_high x n : is_u64 x → 64 ≤ n → Z.testbit x n = false.
Proof.
  intros Hx Hn. unfold is_u64 in Hx. destruct (decide (x = 0)) as [->|]; [apply Z.bits_0|].
  apply Z.bits_above_log2; [lia|]. apply Z.log2_lt_pow2; [lia|].
  apply Z.lt_le_trans with (2 ^ 64); [lia|]. apply Z.pow_le_mono_r; lia.
Qed.

Lemma xorshift_inj k x y :
  0 < k → is_u64 x → is_u64 y → xorshift k x = xorshift k y → x = y.
Proof.
  intros Hk Hx Hy E. apply Z.bits_inj'. intros n Hn.
  remember (Z.to_nat (64 - n)) as m eqn:Hm. revert n Hn Hm.
  induction m as [m IH] using lt_wf_ind. intros n Hn Hm.
  destruct (decide (64 ≤ n)).
  { by rewrite !u64_testbit_high. }
  assert (Z.testbit (xorshift k x) n = Z.testbit (xorshift k y) n) as Eb by congruence.
  unfold xorshift in Eb. rewrite !Z.lxor_spec, !Z.shiftr_spec in Eb by lia.
  rewrite (IH (Z.to_nat (64 - (n + k))) ltac:(lia) (n + k) ltac:(lia) eq_refl) in Eb.
  destruct (Z.testbit x n), (Z.testbit y n), (Z.testbit y (n + k)); done.
Qed.

Lemma mul_odd_inj m inv x y :
  w64 (m * inv) = 1 → is_u64 x → is_u64 y → w64 (x * m) = w64 (y * m) → x = y.
Proof.
  intros Hinv Hx Hy E. unfold w64, is_u64 in *.
  assert (∀ z, 0 ≤ z < two64 → ((z * m) mod two64 * inv) mod two64 = z) as Hz.
  { intros z Hz. rewrite Zmult_mod_idemp_l, <- Z.mul_assoc, <- Zmult_mod_idemp_r, Hinv.
    rewrite Z.mul_1_r. by apply Z.mod_small. }
  rewrite <- (Hz x Hx), <- (Hz y Hy). by rewrite E.
Qed.

Lemma add_const_inj c x y :
  is_u64 x → is_u64 y → w64 (x + c) = w64 (y + c) → x = y.
Proof.
  intros Hx Hy E. unfold w64, is_u64 in *.
  assert (∀ z, 0 ≤ z < two64 → ((z + c) mod two64 - c) mod two64 = z) as Hz.
  { intros z Hz. rewrite Zminus_mod_idemp_l. replace (z + c - c) with z by lia.
    by apply Z.mod_small. }
  rewrite <- (Hz x Hx), <- (Hz y Hy). by rewrite E.
Qed.

Lemma id_mix64_u64 x : is_u64 (id_mix64 x).
Proof. unfold id_mix64. apply xorshift_u64; [lia | apply w64_range]. Qed.

Lemma id_mix64_inj x y : is_u64 x → is_u64 y → id_mix64 x = id_mix64 y → x = y.
Proof.
  intros Hx Hy E. unfold id_mix64 in E.
  apply xorshift_inj in E; [|lia|apply w64_range..].
  apply (mul_odd_inj _ 0x319642B2D24D8EC3) in E;
    [|by vm_compute|apply xorshift_u64; [lia|apply w64_range]..].
  apply xorshift_inj in E; [|lia|apply w64_range..].
  apply (mul_odd_inj _ 0x96DE1B173F119089) in E;
    [|by vm_compute|apply xorshift_u64; [lia|apply w64_range]..].
  apply xorshift_inj in E; [|lia|apply w64_range..].
  by apply add_const_inj in E.
Qed.

Lemma mix_seed_mix64 seed : mix_seed seed = id_mix64 seed.
Proof. reflexivity. Qed.

Lemma minter_first_high seed :
  id_high (minter_next (minter_new seed)).2 = id_mix64 (id_mix64 (id_mix64 seed)).
Proof. reflexivity. Qed.

(** The low word a mint computes, which separates the values of the counter. *)
Definition mint_low (entropy counter : Z) : Z :=
  id_mix64 (w64 (entropy + 0x165667B19E3779F9 + counter)).

Lemma mint_low_inj entropy c1 c2 :
  is_u64 c1 → is_u64 c2 → mint_low entropy c1 = mint_low entropy c2 → c1 = c2.
Proof.
  intros H1 H2 E. unfold mint_low in E. apply id_mix64_inj in E; [|apply w64_range..].
  rewrite (Z.add_comm _ c1), (Z.add_comm _ c2) in E. by apply add_const_inj in E.
Qed.

Lemma mint_identity_low entropy c :
  id_low (mint_identity entropy c) = mint_low entropy c ∨
  mint_identity entropy c = mkIdentity 1 1 ∧ mint_low entropy c = 0.
Proof.
  unfold mint_identity, mint_low. destruct (is_none _) eqn:E; [right|by left].
  split; [done|]. apply is_none_eq in E. by injection E.
Qed.

Lemma mint_identity_some entropy c : mint_identity entropy c ≠ id_none.
Proof.
  unfold mint_identity. destruct (is_none _) eqn:E; [done|]. by apply is_none_neq in E.
Qed.

(** ** Properties *)
#[local] Arguments append_hex64 : simpl never.

(** The parser accepts exactly the canonical text: [Identity::parse] returns [i] on a text
    iff [i] is a 128-bit value and the text is what [Identity::to_string] prints for it, so
    printing and parsing are inverse and no other spelling is accepted. *)
Theorem parse_print_iff (text : string) (i : Identity) :
  id_parse text = Some i ↔ id_wf i ∧ text = id_to_string i.
Proof.
  unfold id_parse, id_to_string. split.
  - destruct (slen text =? 32) eqn:E; [|done]. simpl. bool_prop. unfold slen in E.
    destruct (string_split_at 16 text ltac:(lia)) as (a & b & -> & Ha).
    rewrite string_length_app in E. rewrite parse_loop_high by (unfold slen; lia).
    destruct (hex_fold a 0) as [hi|] eqn:Hhi; [|done]. simpl.
    destruct (hex_fold b 0) as [lo|] eqn:Hlo; [|done]. simpl. intros [= <-].
    assert (String.length b = 16%nat) as Hb by lia.
    apply hex_fold_inv in Hhi as (v & Hv & -> & Ea); [|lia|unfold slen; rewrite Ha; simpl; lia].
    apply hex_fold_inv in Hlo as (w & Hw & -> & Eb); [|lia|unfold slen; rewrite Hb; simpl; lia].
    unfold slen in *. rewrite Ha in *. rewrite Hb in *. rewrite !Z.mul_0_l, !Z.add_0_l.
    split; [split; unfold is_u64; simpl in *; lia|]. cbn [id_high id_low].
    unfold append_hex64. by rewrite <- Ea, <- Eb.
  - intros [[Hh Hl] ->]. unfold is_u64, append_hex64 in *. rewrite string_app_assoc.
    change (String.append "" ?x) with x.
    replace (slen _) with 32 by
      (unfold slen; rewrite string_length_app, !hex_digits_length; done).
    change (negb (32 =? 32)) with false. cbv iota.
    rewrite parse_loop_high by (unfold slen; rewrite ?hex_digits_length; done).
    rewrite !hex_fold_digits by (simpl; lia). simpl. by destruct i.
Qed.

(** Minting never returns the unset identity, and two mints of one process, at distinct
    values of its 64-bit counter, differ unless both are the reserved identity 1:1. *)
Theorem mint_identity_fresh (entropy c1 c2 : Z) :
  mint_identity entropy c1 ≠ id_none ∧
  (is_u64 c1 → is_u64 c2 → mint_identity entropy c1 = mint_identity entropy c2 →
   c1 = c2 ∨ mint_identity entropy c1 = mkIdentity 1 1).
Proof.
  split; [apply mint_identity_some|]. intros H1 H2 E.
  destruct (mint_identity_low entropy c1) as [L1|[? _]]; [|by right].
  destruct (mint_identity_low entropy c2) as [L2|[? _]]; [|right; congruence].
  left. apply (mint_low_inj entropy); congruence.
Qed.

Lemma mint_identity_fresh_witness :
  mint_identity 7 0 ≠ mint_identity 7 1.
Proof.
  intros E. destruct (mint_identity_fresh 7 0 1) as [_ H].
  destruct (H ltac:(unfold is_u64; lia) ltac:(unfold is_u64; lia) E) as [H'|H'];
    [lia | vm_compute in H'; discriminate].
Defined.

(** The deterministic stream separates seeds: two seeds that differ produce different
    first identities, which is what the catalog relies on to mint a generation from a
    registration sequence. *)
Theorem minter_seed_injective (seed1 seed2 : Z) :
  is_u64 seed1 → is_u64 seed2 →
  (minter_next (minter_new seed1)).2 = (minter_next (minter_new seed2)).2 → seed1 = seed2.
Proof.
  intros H1 H2 E. apply (f_equal id_high) in E. rewrite !minter_first_high in E.
  by do 3 (apply id_mix64_inj in E; [|auto using id_mix64_u64..]).
Qed.

Lemma minter_seed_injective_witness :
  (minter_next (minter_new 1)).2 ≠ (minter_next (minter_new 2)).2.
Proof.
  intros E. apply minter_seed_injective in E; unfold is_u64; lia.
Defined.
