(* ===== verification/Errors.v ===== *)
(** Error codes, reason chains, statuses and hard bounds
    ([include/ctf/error.hpp], [src/error.cpp], [include/ctf/limits.hpp]).

    Also the two interfaces every enumeration of the program implements: [WireEnum] (its
    underlying value determines it) and [TextEnum] (its canonical spelling does). *)
From S2P Require Import Prelude Identity.

(** ** Interfaces of enumerations *)

(** [static_cast<std::uintN_t>(v)] and the inverse lookup a decoder performs. *)
Class WireEnum (A : Type) := {
  enum_raw : A → Z;
  enum_all : list A;
  enum_raw_find : ∀ a, find_first (fun b => enum_raw b =? enum_raw a) enum_all = Some a;
}.

Definition enum_of_raw {A} `{WireEnum A} (raw : Z) : option A :=
  find_first (fun b => enum_raw b =? raw) enum_all.

(** The linear scan of a [kTable] of canonical names. *)
Definition table_lookup {A} (table : list (string * A)) (text : string) : option A :=
  snd <$> find_first (fun e => bool_decide (e.1 = text)) table.

Class TextEnum (A : Type) := {
  enum_text : A → string;
  enum_table : list (string * A);
  enum_text_find : ∀ a, table_lookup enum_table (enum_text a) = Some a;
  enum_text_table : Forall (fun e => enum_text e.2 = e.1) enum_table;
}.

(** ** Hard bounds *)
Module limits.
Definition kProtocolMajor : Z := 1.
Definition kProtocolMinor : Z := 0.
Definition kFrameHeaderBytes : Z := 32.
Definition kFramePayloadMaxBytes : Z := 1048576.
Definition kFramePayloadMinBytes : Z := 0.
Definition kSessionWriteQueueFramesMax : Z := 64.
Definition kSessionWriteQueueBytesMax : Z := 4194304.
Definition kIoBufferBytes : Z := 65536.
Definition kSessionsMax : Z := 32.
Definition kSessionThreadsMax : Z := 32.
Definition kWorkerThreadsMax : Z := 8.
Definition kBacklogMax : Z := 64.
Definition kParticipantsMaxPerCollective : Z := 4096.
Definition kEdgesMaxPerFlowGroup : Z := 65536.
Definition kPhasesMaxPerCollective : Z := 64.
Definition kStepsMaxPerPhase : Z := 1024.
Definition kCollectivesMaxLive : Z := 1000000.
Definition kPeersMax : Z := 65536.
Definition kTopologyNodesMax : Z := 65536.
Definition kTopologyLinksMax : Z := 262144.
Definition kEvidenceRecordsMax : Z := 65536.
Definition kMetadataEntriesMax : Z := 16.
Definition kMetadataKeyBytesMax : Z := 64.
Definition kMetadataValueBytesMax : Z := 256.
Definition kReasonChainMax : Z := 32.
Definition kReasonDetailBytesMax : Z := 256.
Definition kLabelBytesMax : Z := 128.
Definition kCollectiveSetMax : Z := 65536.
Definition kDecisionHistoryDefaultCapacity : Z := 4096.
Definition kDecisionHistoryCapacityMax : Z := 1048576.
Definition kAuditHistoryDefaultCapacity : Z := 4096.
Definition kAuditHistoryCapacityMax : Z := 1048576.
Definition kInspectionPageMax : Z := 4096.
Definition kSnapshotBytesMax : Z := 67108864.
Definition kSnapshotCollectivesMax : Z := 200000.
Definition kSnapshotPoliciesMax : Z := 256.
Definition kSnapshotStringBytesMax : Z := 4096.
Definition kDecodeDepthMax : Z := 8.
Definition kDecodeItemsMax : Z := 200000.
Definition kTokenBucketsMax : Z := 4096.
End limits.

(** ** Error codes *)
Module ErrorCode.
(** Every enumerator of the source, and [kUndefined raw] for the values of the underlying
    [std::uint16_t] that name none (a decoded peer can send them). *)
Inductive ErrorCode :=
  | kOk | kFrameTruncatedHeader | kFrameTruncatedPayload | kFrameMagicMismatch
  | kFrameVersionUnsupported | kFrameLengthOutOfRange | kFrameIntegrityMismatch
  | kFrameTrailingGarbage | kFrameKindUnknown | kFrameFlagsInvalid
  | kFrameLengthArithmeticOverflow | kEnvelopeSessionUnknown | kEnvelopeSessionMismatch
  | kEnvelopeIncarnationStale | kEnvelopeEpochStale | kEnvelopeEpochUnknown
  | kEnvelopeIdentityMismatch | kEnvelopeProvenanceRejected | kEnvelopeReplayed
  | kEnvelopeSequenceRegression | kDecodeTruncated | kDecodeTrailingBytes | kDecodeInvalidTag
  | kDecodeInvalidEnum | kDecodeInvalidBoolean | kDecodeInvalidString | kDecodeLengthOutOfRange
  | kDecodeCountOutOfRange | kDecodeMessageTooLarge | kDecodeDuplicateEntry
  | kDecodeNonCanonical | kDecodeArithmeticOverflow | kDecodeEmptyRequiredField
  | kValidationParticipantUnset | kValidationParticipantDuplicate
  | kValidationParticipantCountOutOfRange | kValidationEdgeUnset | kValidationEdgeSelfLoop
  | kValidationEdgeDuplicate | kValidationEdgeEndpointNotParticipant
  | kValidationEdgeCountOutOfRange | kValidationPhaseOutOfRange | kValidationStepOutOfRange
  | kValidationClassUnknownRejected | kValidationMetadataLimit | kValidationLabelTooLong
  | kValidationGenerationUnset | kValidationAttemptUnset | kValidationRateInvalid
  | kValidationPolicyMissing | kValidationTopologyMissing | kValidationNodeUnknown
  | kValidationCapacityNegative | kValidationReasonChainTooLong | kStateCollectiveUnknown
  | kStateCollectiveRetired | kStateCollectiveCancelled | kStateGenerationRegression
  | kStateAttemptRegression | kStateDuplicateRegistration | kStateNotLive | kStateShuttingDown
  | kStateCapacityExceeded | kStatePhaseRegression | kStatePlanMissing | kPersistenceOpenFailed
  | kPersistenceReadFailed | kPersistenceWriteFailed | kPersistenceRenameFailed
  | kPersistenceTooLarge | kPersistenceCorrupt | kPersistenceVersionUnsupported
  | kPersistenceIntegrityMismatch | kPersistenceTruncated | kPersistenceImpossibleState
  | kPersistenceDirectoryUnavailable | kTransportSocketFailed | kTransportBindFailed
  | kTransportListenFailed | kTransportConnectFailed | kTransportSendFailed
  | kTransportReceiveFailed | kTransportClosed | kTransportTimeout | kTransportAddressInvalid
  | kTransportNotStarted | kTransportSessionLimit | kAdmissionRateLimited
  | kAdmissionBucketCapacity | kAdmissionBucketUnset | kAdmissionClockRegression
  | kCompletionStaleAttempt | kCompletionStaleGeneration | kCompletionRetired
  | kCompletionCancelled | kCompletionUnknownCollective | kCompletionDuplicate
  | kInternalInvariant | kInternalUnsupported
  | kUndefined (raw : Z).

Definition error_raw (code : ErrorCode) : Z :=
  match code with
  | kOk => 0
  | kFrameTruncatedHeader => 100
  | kFrameTruncatedPayload => 101
  | kFrameMagicMismatch => 102
  | kFrameVersionUnsupported => 103
  | kFrameLengthOutOfRange => 104
  | kFrameIntegrityMismatch => 105
  | kFrameTrailingGarbage => 106
  | kFrameKindUnknown => 107
  | kFrameFlagsInvalid => 108
  | kFrameLengthArithmeticOverflow => 109
  | kEnvelopeSessionUnknown => 200
  | kEnvelopeSessionMismatch => 201
  | kEnvelopeIncarnationStale => 202
  | kEnvelopeEpochStale => 203
  | kEnvelopeEpochUnknown => 204
  | kEnvelopeIdentityMismatch => 205
  | kEnvelopeProvenanceRejected => 206
  | kEnvelopeReplayed => 207
  | kEnvelopeSequenceRegression => 208
  | kDecodeTruncated => 300
  | kDecodeTrailingBytes => 301
  | kDecodeInvalidTag => 302
  | kDecodeInvalidEnum => 303
  | kDecodeInvalidBoolean => 304
  | kDecodeInvalidString => 305
  | kDecodeLengthOutOfRange => 306
  | kDecodeCountOutOfRange => 307
  | kDecodeMessageTooLarge => 308
  | kDecodeDuplicateEntry => 309
  | kDecodeNonCanonical => 310
  | kDecodeArithmeticOverflow => 311
  | kDecodeEmptyRequiredField => 312
  | kValidationParticipantUnset => 400
  | kValidationParticipantDuplicate => 401
  | kValidationParticipantCountOutOfRange => 402
  | kValidationEdgeUnset => 403
  | kValidationEdgeSelfLoop => 404
  | kValidationEdgeDuplicate => 405
  | kValidationEdgeEndpointNotParticipant => 406
  | kValidationEdgeCountOutOfRange => 407
  | kValidationPhaseOutOfRange => 408
  | kValidationStepOutOfRange => 409
  | kValidationClassUnknownRejected => 410
  | kValidationMetadataLimit => 411
  | kValidationLabelTooLong => 412
  | kValidationGenerationUnset => 413
  | kValidationAttemptUnset => 414
  | kValidationRateInvalid => 415
  | kValidationPolicyMissing => 416
  | kValidationTopologyMissing => 417
  | kValidationNodeUnknown => 418
  | kValidationCapacityNegative => 419
  | kValidationReasonChainTooLong => 420
  | kStateCollectiveUnknown => 500
  | kStateCollectiveRetired => 501
  | kStateCollectiveCancelled => 502
  | kStateGenerationRegression => 503
  | kStateAttemptRegression => 504
  | kStateDuplicateRegistration => 505
  | kStateNotLive => 506
  | kStateShuttingDown => 507
  | kStateCapacityExceeded => 508
  | kStatePhaseRegression => 509
  | kStatePlanMissing => 510
  | kPersistenceOpenFailed => 600
  | kPersistenceReadFailed => 601
  | kPersistenceWriteFailed => 602
  | kPersistenceRenameFailed => 603
  | kPersistenceTooLarge => 604
  | kPersistenceCorrupt => 605
  | kPersistenceVersionUnsupported => 606
  | kPersistenceIntegrityMismatch => 607
  | kPersistenceTruncated => 608
  | kPersistenceImpossibleState => 609
  | kPersistenceDirectoryUnavailable => 610
  | kTransportSocketFailed => 700
  | kTransportBindFailed => 701
  | kTransportListenFailed => 702
  | kTransportConnectFailed => 703
  | kTransportSendFailed => 704
  | kTransportReceiveFailed => 705
  | kTransportClosed => 706
  | kTransportTimeout => 707
  | kTransportAddressInvalid => 708
  | kTransportNotStarted => 709
  | kTransportSessionLimit => 710
  | kAdmissionRateLimited => 800
  | kAdmissionBucketCapacity => 801
  | kAdmissionBucketUnset => 802
  | kAdmissionClockRegression => 803
  | kCompletionStaleAttempt => 900
  | kCompletionStaleGeneration => 901
  | kCompletionRetired => 902
  | kCompletionCancelled => 903
  | kCompletionUnknownCollective => 904
  | kCompletionDuplicate => 905
  | kInternalInvariant => 1000
  | kInternalUnsupported => 1001
  | kUndefined raw => raw
  end.

Definition error_to_string (code : ErrorCode) : string :=
  match code with
  | kOk => "ok"
  | kFrameTruncatedHeader => "frame_truncated_header"
  | kFrameTruncatedPayload => "frame_truncated_payload"
  | kFrameMagicMismatch => "frame_magic_mismatch"
  | kFrameVersionUnsupported => "frame_version_unsupported"
  | kFrameLengthOutOfRange => "frame_length_out_of_range"
  | kFrameIntegrityMismatch => "frame_integrity_mismatch"
  | kFrameTrailingGarbage => "frame_trailing_garbage"
  | kFrameKindUnknown => "frame_kind_unknown"
  | kFrameFlagsInvalid => "frame_flags_invalid"
  | kFrameLengthArithmeticOverflow => "frame_length_arithmetic_overflow"
  | kEnvelopeSessionUnknown => "envelope_session_unknown"
  | kEnvelopeSessionMismatch => "envelope_session_mismatch"
  | kEnvelopeIncarnationStale => "envelope_incarnation_stale"
  | kEnvelopeEpochStale => "envelope_epoch_stale"
  | kEnvelopeEpochUnknown => "envelope_epoch_unknown"
  | kEnvelopeIdentityMismatch => "envelope_identity_mismatch"
  | kEnvelopeProvenanceRejected => "envelope_provenance_rejected"
  | kEnvelopeReplayed => "envelope_replayed"
  | kEnvelopeSequenceRegression => "envelope_sequence_regression"
  | kDecodeTruncated => "decode_truncated"
  | kDecodeTrailingBytes => "decode_trailing_bytes"
  | kDecodeInvalidTag => "decode_invalid_tag"
  | kDecodeInvalidEnum => "decode_invalid_enum"
  | kDecodeInvalidBoolean => "decode_invalid_boolean"
  | kDecodeInvalidString => "decode_invalid_string"
  | kDecodeLengthOutOfRange => "decode_length_out_of_range"
  | kDecodeCountOutOfRange => "decode_count_out_of_range"
  | kDecodeMessageTooLarge => "decode_message_too_large"
  | kDecodeDuplicateEntry => "decode_duplicate_entry"
  | kDecodeNonCanonical => "decode_non_canonical"
  | kDecodeArithmeticOverflow => "decode_arithmetic_overflow"
  | kDecodeEmptyRequiredField => "decode_empty_required_field"
  | kValidationParticipantUnset => "validation_participant_unset"
  | kValidationParticipantDuplicate => "validation_participant_duplicate"
  | kValidationParticipantCountOutOfRange => "validation_participant_count_out_of_range"
  | kValidationEdgeUnset => "validation_edge_unset"
  | kValidationEdgeSelfLoop => "validation_edge_self_loop"
  | kValidationEdgeDuplicate => "validation_edge_duplicate"
  | kValidationEdgeEndpointNotParticipant => "validation_edge_endpoint_not_participant"
  | kValidationEdgeCountOutOfRange => "validation_edge_count_out_of_range"
  | kValidationPhaseOutOfRange => "validation_phase_out_of_range"
  | kValidationStepOutOfRange => "validation_step_out_of_range"
  | kValidationClassUnknownRejected => "validation_class_unknown_rejected"
  | kValidationMetadataLimit => "validation_metadata_limit"
  | kValidationLabelTooLong => "validation_label_too_long"
  | kValidationGenerationUnset => "validation_generation_unset"
  | kValidationAttemptUnset => "validation_attempt_unset"
  | kValidationRateInvalid => "validation_rate_invalid"
  | kValidationPolicyMissing => "validation_policy_missing"
  | kValidationTopologyMissing => "validation_topology_missing"
  | kValidationNodeUnknown => "validation_node_unknown"
  | kValidationCapacityNegative => "validation_capacity_negative"
  | kValidationReasonChainTooLong => "validation_reason_chain_too_long"
  | kStateCollectiveUnknown => "state_collective_unknown"
  | kStateCollectiveRetired => "state_collective_retired"
  | kStateCollectiveCancelled => "state_collective_cancelled"
  | kStateGenerationRegression => "state_generation_regression"
  | kStateAttemptRegression => "state_attempt_regression"
  | kStateDuplicateRegistration => "state_duplicate_registration"
  | kStateNotLive => "state_not_live"
  | kStateShuttingDown => "state_shutting_down"
  | kStateCapacityExceeded => "state_capacity_exceeded"
  | kStatePhaseRegression => "state_phase_regression"
  | kStatePlanMissing => "state_plan_missing"
  | kPersistenceOpenFailed => "persistence_open_failed"
  | kPersistenceReadFailed => "persistence_read_failed"
  | kPersistenceWriteFailed => "persistence_write_failed"
  | kPersistenceRenameFailed => "persistence_rename_failed"
  | kPersistenceTooLarge => "persistence_too_large"
  | kPersistenceCorrupt => "persistence_corrupt"
  | kPersistenceVersionUnsupported => "persistence_version_unsupported"
  | kPersistenceIntegrityMismatch => "persistence_integrity_mismatch"
  | kPersistenceTruncated => "persistence_truncated"
  | kPersistenceImpossibleState => "persistence_impossible_state"
  | kPersistenceDirectoryUnavailable => "persistence_directory_unavailable"
  | kTransportSocketFailed => "transport_socket_failed"
  | kTransportBindFailed => "transport_bind_failed"
  | kTransportListenFailed => "transport_listen_failed"
  | kTransportConnectFailed => "transport_connect_failed"
  | kTransportSendFailed => "transport_send_failed"
  | kTransportReceiveFailed => "transport_receive_failed"
  | kTransportClosed => "transport_closed"
  | kTransportTimeout => "transport_timeout"
  | kTransportAddressInvalid => "transport_address_invalid"
  | kTransportNotStarted => "transport_not_started"
  | kTransportSessionLimit => "transport_session_limit"
  | kAdmissionRateLimited => "admission_rate_limited"
  | kAdmissionBucketCapacity => "admission_bucket_capacity"
  | kAdmissionBucketUnset => "admission_bucket_unset"
  | kAdmissionClockRegression => "admission_clock_regression"
  | kCompletionStaleAttempt => "completion_stale_attempt"
  | kCompletionStaleGeneration => "completion_stale_generation"
  | kCompletionRetired => "completion_retired"
  | kCompletionCancelled => "completion_cancelled"
  | kCompletionUnknownCollective => "completion_unknown_collective"
  | kCompletionDuplicate => "completion_duplicate"
  | kInternalInvariant => "internal_invariant"
  | kInternalUnsupported => "internal_unsupported"
  | kUndefined _ => "unknown_error"
  end.

Definition error_all : list ErrorCode := [
   kOk; kFrameTruncatedHeader; kFrameTruncatedPayload; kFrameMagicMismatch;
   kFrameVersionUnsupported; kFrameLengthOutOfRange; kFrameIntegrityMismatch;
   kFrameTrailingGarbage; kFrameKindUnknown; kFrameFlagsInvalid;
   kFrameLengthArithmeticOverflow; kEnvelopeSessionUnknown; kEnvelopeSessionMismatch;
   kEnvelopeIncarnationStale; kEnvelopeEpochStale; kEnvelopeEpochUnknown;
   kEnvelopeIdentityMismatch; kEnvelopeProvenanceRejected; kEnvelopeReplayed;
   kEnvelopeSequenceRegression; kDecodeTruncated; kDecodeTrailingBytes; kDecodeInvalidTag;
   kDecodeInvalidEnum; kDecodeInvalidBoolean; kDecodeInvalidString; kDecodeLengthOutOfRange;
   kDecodeCountOutOfRange; kDecodeMessageTooLarge; kDecodeDuplicateEntry; kDecodeNonCanonical;
   kDecodeArithmeticOverflow; kDecodeEmptyRequiredField; kValidationParticipantUnset;
   kValidationParticipantDuplicate; kValidationParticipantCountOutOfRange;
   kValidationEdgeUnset; kValidationEdgeSelfLoop; kValidationEdgeDuplicate;
   kValidationEdgeEndpointNotParticipant; kValidationEdgeCountOutOfRange;
   kValidationPhaseOutOfRange; kValidationStepOutOfRange; kValidationClassUnknownRejected;
   kValidationMetadataLimit; kValidationLabelTooLong; kValidationGenerationUnset;
   kValidationAttemptUnset; kValidationRateInvalid; kValidationPolicyMissing;
   kValidationTopologyMissing; kValidationNodeUnknown; kValidationCapacityNegative;
   kValidationReasonChainTooLong; kStateCollectiveUnknown; kStateCollectiveRetired;
   kStateCollectiveCancelled; kStateGenerationRegression; kStateAttemptRegression;
   kStateDuplicateRegistration; kStateNotLive; kStateShuttingDown; kStateCapacityExceeded;
   kStatePhaseRegression; kStatePlanMissing; kPersistenceOpenFailed; kPersistenceReadFailed;
   kPersistenceWriteFailed; kPersistenceRenameFailed; kPersistenceTooLarge;
   kPersistenceCorrupt; kPersistenceVersionUnsupported; kPersistenceIntegrityMismatch;
   kPersistenceTruncated; kPersistenceImpossibleState; kPersistenceDirectoryUnavailable;
   kTransportSocketFailed; kTransportBindFailed; kTransportListenFailed;
   kTransportConnectFailed; kTransportSendFailed; kTransportReceiveFailed; kTransportClosed;
   kTransportTimeout; kTransportAddressInvalid; kTransportNotStarted; kTransportSessionLimit;
   kAdmissionRateLimited; kAdmissionBucketCapacity; kAdmissionBucketUnset;
   kAdmissionClockRegression; kCompletionStaleAttempt; kCompletionStaleGeneration;
   kCompletionRetired; kCompletionCancelled; kCompletionUnknownCollective;
   kCompletionDuplicate; kInternalInvariant; kInternalUnsupported].
End ErrorCode.
Abbreviation ErrorCode := ErrorCode.ErrorCode.

(** The underlying value, with [kUndefined] marked, determines the code. *)
Definition error_key (code : ErrorCode) : bool * Z :=
  match code with
  | ErrorCode.kUndefined raw => (true, raw)
  | _ => (false, ErrorCode.error_raw code)
  end.

Definition error_of_key (key : bool * Z) : option ErrorCode :=
  if key.1 then Some (ErrorCode.kUndefined key.2)
  else find_first (fun c => ErrorCode.error_raw c =? key.2) ErrorCode.error_all.

Lemma error_of_key_key code : error_of_key (error_key code) = Some code.
Proof. by destruct code. Qed.

#[export] Instance ErrorCode_eq_dec : EqDecision ErrorCode.
Proof.
  refine (fun a b => cast_if (decide (error_key a = error_key b))).
  - apply (inj Some). rewrite <- (error_of_key_key a), <- (error_of_key_key b). by f_equal.
  - congruence.
Defined.

Definition is_transport_error (code : ErrorCode) : bool :=
  let raw := ErrorCode.error_raw code in (100 <=? raw) && (raw <? 200).
Definition is_decode_error (code : ErrorCode) : bool :=
  let raw := ErrorCode.error_raw code in (300 <=? raw) && (raw <? 400).
Definition is_persistence_error (code : ErrorCode) : bool :=
  let raw := ErrorCode.error_raw code in (600 <=? raw) && (raw <? 700).

(** ** Reasons *)
Record Reason := mkReason {
  r_code : string;
  r_detail : string;
  r_subject : Identity;
}.

#[export] Instance Reason_eq_dec : EqDecision Reason.
Proof. solve_decision. Defined.

(** [ReasonChain] is its vector [reasons_]. *)
Abbreviation ReasonChain := (list Reason).

Definition rc_add (reasons : ReasonChain) (code detail : string) (subject : Identity)
    : ReasonChain * bool :=
  if limits.kReasonChainMax <=? zlen reasons then (reasons, false)
  else
    let detail :=
      if limits.kReasonDetailBytesMax <? slen detail
      then String.substring 0 (Z.to_nat limits.kReasonDetailBytesMax) detail else detail in
    let code := if slen code =? 0 then "unspecified" else code in
    (reasons ++ [mkReason code detail subject], true).

(** [reasons.add(...)] where the caller ignores the answer. *)
Definition rc_push (reasons : ReasonChain) (code detail : string) (subject : Identity)
    : ReasonChain := (rc_add reasons code detail subject).1.

Definition rc_contains (reasons : ReasonChain) (code : string) : bool :=
  match find_first (fun r => bool_decide (r_code r = code)) reasons with
  | Some _ => true
  | None => false
  end.

Definition rc_first_code (reasons : ReasonChain) : string :=
  match reasons with [] => "" | r :: _ => r_code r end.

Definition reason_to_string (r : Reason) : string :=
  String.append (r_code r) (String.append "(" (String.append (r_detail r)
    (String.append (if is_some (r_subject r)
                    then String.append " subject=" (id_to_string (r_subject r)) else "")
       ")"))).

Definition rc_to_string (reasons : ReasonChain) : string :=
  match reasons with
  | [] => ""
  | r :: rest =>
      foldl (fun out x => String.append out (String.append " -> " (reason_to_string x)))
        (reason_to_string r) rest
  end.

(** ** Statuses and results *)
Record Status := mkStatus { st_code : ErrorCode; st_message : string }.

#[export] Instance Status_eq_dec : EqDecision Status.
Proof. solve_decision. Defined.

Definition status_ok : Status := mkStatus ErrorCode.kOk "".
Definition is_ok (s : Status) : bool := bool_decide (st_code s = ErrorCode.kOk).

Definition status_to_string (s : Status) : string :=
  String.append (ErrorCode.error_to_string (st_code s))
    (if slen (st_message s) =? 0 then "" else String.append ": " (st_message s)).

(** Evaluates [is_ok] on the statuses the code builds. *)
Ltac eval_ok :=
  repeat match goal with
  | |- context [is_ok ?s] =>
      first [change (is_ok s) with true | change (is_ok s) with false]
  | H : context [is_ok ?s] |- _ =>
      first [change (is_ok s) with true in H | change (is_ok s) with false in H]
  end.

(** A function that returns a [Status] and fills an output argument when it is [kOk]. *)
Inductive Result (A : Type) :=
  | Ok (a : A)
  | Fail (s : Status).
Arguments Ok {A} a.
Arguments Fail {A} s.

Definition fail {A} (code : ErrorCode) (message : string) : Result A :=
  Fail (mkStatus code message).

Definition r_bind {A B} (r : Result A) (k : A → Result B) : Result B :=
  match r with Ok a => k a | Fail s => Fail s end.

Notation "'let?' x := r 'in' k" := (r_bind r (fun x => k))
  (at level 200, x pattern, r at level 100, k at level 200) : ctf_scope.

(** ** Lemmas *)
Section enumerations.
Context {A : Type}.

Lemma enum_of_raw_raw `{WireEnum A} (a : A) : enum_of_raw (enum_raw a) = Some a.
Proof. apply enum_raw_find. Qed.

Lemma enum_of_raw_Some `{WireEnum A} raw (a : A) : enum_of_raw raw = Some a ↔ enum_raw a = raw.
Proof.
  split; [|intros <-; apply enum_raw_find].
  intros [_ Hr]%find_first_Some. by apply Z.eqb_eq.
Qed.

Lemma text_lookup_Some `{TextEnum A} text (a : A) :
  table_lookup enum_table text = Some a ↔ enum_text a = text.
Proof.
  split; [|intros <-; apply enum_text_find]. unfold table_lookup.
  destruct (find_first _ _) as [[t b]|] eqn:Hf; [|done]. simpl. intros [= ->].
  apply find_first_Some in Hf as [Hin Ht]. bool_prop. simpl in Ht. subst t.
  pose proof enum_text_table as Ht. rewrite Forall_forall in Ht. exact (Ht _ Hin).
Qed.
End enumerations.

Lemma is_ok_ok : is_ok status_ok = true.
Proof. reflexivity. Qed.

Lemma rc_push_nonempty reasons code detail subject :
  rc_push reasons code detail subject ≠ [].
Proof.
  unfold rc_push, rc_add. case_match; simpl; [|by destruct reasons].
  destruct reasons; [vm_compute in H; done | done].
Qed.

Lemma rc_push_bound reasons code detail subject :
  zlen reasons ≤ limits.kReasonChainMax →
  zlen (rc_push reasons code detail subject) ≤ limits.kReasonChainMax.
Proof.
  intros Hb. unfold rc_push, rc_add. case_match; simpl; [done|]. bool_prop.
  rewrite zlen_app. unfold zlen in *. simpl. lia.
Qed.

Lemma rc_push_short reasons code detail subject :
  zlen reasons < limits.kReasonChainMax → slen detail ≤ limits.kReasonDetailBytesMax →
  slen code ≠ 0 → rc_push reasons code detail subject = reasons ++ [mkReason code detail subject].
Proof.
  intros H1 H2 H3. unfold rc_push, rc_add. repeat case_match; bool_prop; (lia || done).
Qed.
#[export] Hint Resolve rc_push_nonempty rc_push_bound : ctf.
