(* ===== verification/Participant.v ===== *)
(** Participants and liveness ([include/ctf/participant.hpp], [src/participant.cpp]). *)
From S2P Require Import Prelude Identity Errors.

Module ParticipantRole.
Inductive ParticipantRole :=
  | kUnspecified | kRank | kRoot | kCoordinator | kProxy | kObserver | kAccelerator.
Definition ParticipantRole_raw (v : ParticipantRole) : Z :=
  match v with
  | kUnspecified => 0
  | kRank => 1
  | kRoot => 2
  | kCoordinator => 3
  | kProxy => 4
  | kObserver => 5
  | kAccelerator => 6
  end.
Definition ParticipantRole_to_string (v : ParticipantRole) : string :=
  match v with
  | kUnspecified => "unspecified"
  | kRank => "rank"
  | kRoot => "root"
  | kCoordinator => "coordinator"
  | kProxy => "proxy"
  | kObserver => "observer"
  | kAccelerator => "accelerator"
  end.
Definition ParticipantRole_table : list (string * ParticipantRole) :=
  [("unspecified", kUnspecified);
   ("rank", kRank);
   ("root", kRoot);
   ("coordinator", kCoordinator);
   ("proxy", kProxy);
   ("observer", kObserver);
   ("accelerator", kAccelerator)].
Definition participant_role_from_string (text : string) : option ParticipantRole :=
  table_lookup ParticipantRole_table text.
#[global] Instance ParticipantRole_eq_dec : EqDecision ParticipantRole.
Proof. solve_decision. Defined.
#[global, refine] Instance ParticipantRole_enum : WireEnum ParticipantRole :=
  {| enum_raw := ParticipantRole_raw;
     enum_all :=
       [kUnspecified; kRank; kRoot; kCoordinator; kProxy; kObserver; kAccelerator] |}.
Proof. by intros []. Defined.
#[global, refine] Instance ParticipantRole_text : TextEnum ParticipantRole :=
  {| enum_text := ParticipantRole_to_string; enum_table := ParticipantRole_table |}.
Proof. by intros []. by repeat constructor. Defined.
End ParticipantRole.
Abbreviation ParticipantRole := ParticipantRole.ParticipantRole.

Module ParticipantState.
Inductive ParticipantState :=
  | kUnspecified | kAdvertised | kLive | kSuspect | kExpired | kFenced | kRetired.
Definition ParticipantState_raw (v : ParticipantState) : Z :=
  match v with
  | kUnspecified => 0
  | kAdvertised => 1
  | kLive => 2
  | kSuspect => 3
  | kExpired => 4
  | kFenced => 5
  | kRetired => 6
  end.
Definition ParticipantState_to_string (v : ParticipantState) : string :=
  match v with
  | kUnspecified => "unspecified"
  | kAdvertised => "advertised"
  | kLive => "live"
  | kSuspect => "suspect"
  | kExpired => "expired"
  | kFenced => "fenced"
  | kRetired => "retired"
  end.
#[global] Instance ParticipantState_eq_dec : EqDecision ParticipantState.
Proof. solve_decision. Defined.
#[global, refine] Instance ParticipantState_enum : WireEnum ParticipantState :=
  {| enum_raw := ParticipantState_raw;
     enum_all :=
       [kUnspecified; kAdvertised; kLive; kSuspect; kExpired; kFenced; kRetired] |}.
Proof. by intros []. Defined.
End ParticipantState.
Abbreviation ParticipantState := ParticipantState.ParticipantState.

Module EndpointClass.
Inductive EndpointClass :=
  | kUnspecified | kCpu | kGpu | kAcceleratorOther | kSmartNic | kProxy.
Definition EndpointClass_raw (v : EndpointClass) : Z :=
  match v with
  | kUnspecified => 0
  | kCpu => 1
  | kGpu => 2
  | kAcceleratorOther => 3
  | kSmartNic => 4
  | kProxy => 5
  end.
Definition EndpointClass_to_string (v : EndpointClass) : string :=
  match v with
  | kUnspecified => "unspecified"
  | kCpu => "cpu"
  | kGpu => "gpu"
  | kAcceleratorOther => "accelerator_other"
  | kSmartNic => "smart_nic"
  | kProxy => "proxy"
  end.
#[global] Instance EndpointClass_eq_dec : EqDecision EndpointClass.
Proof. solve_decision. Defined.
#[global, refine] Instance EndpointClass_enum : WireEnum EndpointClass :=
  {| enum_raw := EndpointClass_raw;
     enum_all :=
       [kUnspecified; kCpu; kGpu; kAcceleratorOther; kSmartNic; kProxy] |}.
Proof. by intros []. Defined.
End EndpointClass.
Abbreviation EndpointClass := EndpointClass.EndpointClass.

Definition participant_state_holds_authority (value : ParticipantState) : bool :=
  bool_decide (value = ParticipantState.kLive).

Record ParticipantDescriptor := mkParticipantDescriptor {
  pd_id : Identity;
  pd_role : ParticipantRole;
  pd_node : Identity;
  pd_rack : Identity;
  pd_endpoint : EndpointClass;
  pd_device_index : Z;
  pd_label : string;
}.

Record ParticipantLiveness := mkParticipantLiveness {
  pl_id : Identity;
  pl_incarnation : Identity;
  pl_state : ParticipantState;
  pl_last_heartbeat_monotonic_ms : Z;
  pl_expires_at_monotonic_ms : Z;
  pl_node : Identity;
  pl_bound_session : Identity;
}.

#[export] Instance ParticipantLiveness_eta : Eta ParticipantLiveness :=
  fun r => mkParticipantLiveness (pl_id r) (pl_incarnation r) (pl_state r)
    (pl_last_heartbeat_monotonic_ms r) (pl_expires_at_monotonic_ms r) (pl_node r)
    (pl_bound_session r).

#[export] Instance ParticipantLiveness_eq_dec : EqDecision ParticipantLiveness.
Proof. solve_decision. Defined.

(** [ParticipantLiveness::is_current]. *)
Definition pl_is_current (p : ParticipantLiveness) (now_monotonic_ms : Z) : bool :=
  bool_decide (pl_state p = ParticipantState.kLive) &&
  (now_monotonic_ms <? pl_expires_at_monotonic_ms p).

Lemma pl_is_current_spec p now :
  pl_is_current p now = true ↔
    pl_state p = ParticipantState.kLive ∧ now < pl_expires_at_monotonic_ms p.
Proof. unfold pl_is_current. by rewrite andb_true_iff, bool_decide_eq_true, Z.ltb_lt. Qed.
