(* ===== verification/Collective.v ===== *)
(** Collectives: class, algorithm hint, scope, lifecycle state, phases, metadata and the
    durable definition ([include/ctf/collective.hpp], [src/collective.cpp]).

    The theorems show that participant canonicalisation is independent of the order a peer
    sent, that the bounded metadata behaves as a finite map, and that every canonical
    spelling is recognised and nothing else is. *)
From S2P Require Import Prelude Identity Errors.

Module CollectiveClass.
Inductive CollectiveClass :=
  | kUnknown | kAllReduce | kAllGather | kReduceScatter | kBroadcast | kGather | kScatter
  | kAllToAll | kPointToPoint | kBarrierOnly | kSendRecvGrouped | kReduce | kScan
  | kSendRecvSplit | kUnknownVendor.
Definition CollectiveClass_raw (v : CollectiveClass) : Z :=
  match v with
  | kUnknown => 0
  | kAllReduce => 1
  | kAllGather => 2
  | kReduceScatter => 3
  | kBroadcast => 4
  | kGather => 5
  | kScatter => 6
  | kAllToAll => 7
  | kPointToPoint => 8
  | kBarrierOnly => 9
  | kSendRecvGrouped => 10
  | kReduce => 11
  | kScan => 12
  | kSendRecvSplit => 13
  | kUnknownVendor => 14
  end.
Definition CollectiveClass_to_string (v : CollectiveClass) : string :=
  match v with
  | kUnknown => "unknown"
  | kAllReduce => "all_reduce"
  | kAllGather => "all_gather"
  | kReduceScatter => "reduce_scatter"
  | kBroadcast => "broadcast"
  | kGather => "gather"
  | kScatter => "scatter"
  | kAllToAll => "all_to_all"
  | kPointToPoint => "point_to_point"
  | kBarrierOnly => "barrier_only"
  | kSendRecvGrouped => "send_recv_grouped"
  | kReduce => "reduce"
  | kScan => "scan"
  | kSendRecvSplit => "send_recv_split"
  | kUnknownVendor => "unknown_vendor"
  end.
Definition CollectiveClass_table : list (string * CollectiveClass) :=
  [("unknown", kUnknown);
   ("all_reduce", kAllReduce);
   ("all_gather", kAllGather);
   ("reduce_scatter", kReduceScatter);
   ("broadcast", kBroadcast);
   ("gather", kGather);
   ("scatter", kScatter);
   ("all_to_all", kAllToAll);
   ("point_to_point", kPointToPoint);
   ("barrier_only", kBarrierOnly);
   ("send_recv_grouped", kSendRecvGrouped);
   ("reduce", kReduce);
   ("scan", kScan);
   ("send_recv_split", kSendRecvSplit);
   ("unknown_vendor", kUnknownVendor)].
Definition collective_class_from_string (text : string) : option CollectiveClass :=
  table_lookup CollectiveClass_table text.
#[global] Instance CollectiveClass_eq_dec : EqDecision CollectiveClass.
Proof. solve_decision. Defined.
#[global, refine] Instance CollectiveClass_enum : WireEnum CollectiveClass :=
  {| enum_raw := CollectiveClass_raw;
     enum_all :=
       [kUnknown; kAllReduce; kAllGather; kReduceScatter; kBroadcast; kGather; kScatter;
       kAllToAll; kPointToPoint; kBarrierOnly; kSendRecvGrouped; kReduce; kScan;
       kSendRecvSplit; kUnknownVendor] |}.
Proof. by intros []. Defined.
#[global, refine] Instance CollectiveClass_text : TextEnum CollectiveClass :=
  {| enum_text := CollectiveClass_to_string; enum_table := CollectiveClass_table |}.
Proof. by intros []. by repeat constructor. Defined.
End CollectiveClass.
Abbreviation CollectiveClass := CollectiveClass.CollectiveClass.

Definition is_known_collective_class (value : CollectiveClass) : bool :=
  negb (bool_decide (value = CollectiveClass.kUnknown)) &&
  negb (bool_decide (value = CollectiveClass.kUnknownVendor)).

Module AlgorithmHint.
Inductive AlgorithmHint :=
  | kUnspecified | kRing | kTree | kDoubleBinaryTree | kHierarchical | kRecursiveDoubling
  | kRabenseifner | kButterfly | kDirect | kPipeline | kRingChunked | kVendorSpecific.
Definition AlgorithmHint_raw (v : AlgorithmHint) : Z :=
  match v with
  | kUnspecified => 0
  | kRing => 1
  | kTree => 2
  | kDoubleBinaryTree => 3
  | kHierarchical => 4
  | kRecursiveDoubling => 5
  | kRabenseifner => 6
  | kButterfly => 7
  | kDirect => 8
  | kPipeline => 9
  | kRingChunked => 10
  | kVendorSpecific => 11
  end.
Definition AlgorithmHint_to_string (v : AlgorithmHint) : string :=
  match v with
  | kUnspecified => "unspecified"
  | kRing => "ring"
  | kTree => "tree"
  | kDoubleBinaryTree => "double_binary_tree"
  | kHierarchical => "hierarchical"
  | kRecursiveDoubling => "recursive_doubling"
  | kRabenseifner => "rabenseifner"
  | kButterfly => "butterfly"
  | kDirect => "direct"
  | kPipeline => "pipeline"
  | kRingChunked => "ring_chunked"
  | kVendorSpecific => "vendor_specific"
  end.
Definition AlgorithmHint_table : list (string * AlgorithmHint) :=
  [("unspecified", kUnspecified);
   ("ring", kRing);
   ("tree", kTree);
   ("double_binary_tree", kDoubleBinaryTree);
   ("hierarchical", kHierarchical);
   ("recursive_doubling", kRecursiveDoubling);
   ("rabenseifner", kRabenseifner);
   ("butterfly", kButterfly);
   ("direct", kDirect);
   ("pipeline", kPipeline);
   ("ring_chunked", kRingChunked);
   ("vendor_specific", kVendorSpecific)].
Definition algorithm_hint_from_string (text : string) : option AlgorithmHint :=
  table_lookup AlgorithmHint_table text.
#[global] Instance AlgorithmHint_eq_dec : EqDecision AlgorithmHint.
Proof. solve_decision. Defined.
#[global, refine] Instance AlgorithmHint_enum : WireEnum AlgorithmHint :=
  {| enum_raw := AlgorithmHint_raw;
     enum_all :=
       [kUnspecified; kRing; kTree; kDoubleBinaryTree; kHierarchical; kRecursiveDoubling;
       kRabenseifner; kButterfly; kDirect; kPipeline; kRingChunked; kVendorSpecific] |}.
Proof. by intros []. Defined.
#[global, refine] Instance AlgorithmHint_text : TextEnum AlgorithmHint :=
  {| enum_text := AlgorithmHint_to_string; enum_table := AlgorithmHint_table |}.
Proof. by intros []. by repeat constructor. Defined.
End AlgorithmHint.
Abbreviation AlgorithmHint := AlgorithmHint.AlgorithmHint.

Definition algorithm_hint_is_specified (value : AlgorithmHint) : bool :=
  negb (bool_decide (value = AlgorithmHint.kUnspecified)).

Module CollectiveScope.
Inductive CollectiveScope :=
  | kUnspecified | kIntraNode | kInterNode | kCrossRack | kCrossPod | kHybrid.
Definition CollectiveScope_raw (v : CollectiveScope) : Z :=
  match v with
  | kUnspecified => 0
  | kIntraNode => 1
  | kInterNode => 2
  | kCrossRack => 3
  | kCrossPod => 4
  | kHybrid => 5
  end.
Definition CollectiveScope_to_string (v : CollectiveScope) : string :=
  match v with
  | kUnspecified => "unspecified"
  | kIntraNode => "intra_node"
  | kInterNode => "inter_node"
  | kCrossRack => "cross_rack"
  | kCrossPod => "cross_pod"
  | kHybrid => "hybrid"
  end.
Definition CollectiveScope_table : list (string * CollectiveScope) :=
  [("unspecified", kUnspecified);
   ("intra_node", kIntraNode);
   ("inter_node", kInterNode);
   ("cross_rack", kCrossRack);
   ("cross_pod", kCrossPod);
   ("hybrid", kHybrid)].
Definition collective_scope_from_string (text : string) : option CollectiveScope :=
  table_lookup CollectiveScope_table text.
#[global] Instance CollectiveScope_eq_dec : EqDecision CollectiveScope.
Proof. solve_decision. Defined.
#[global, refine] Instance CollectiveScope_enum : WireEnum CollectiveScope :=
  {| enum_raw := CollectiveScope_raw;
     enum_all :=
       [kUnspecified; kIntraNode; kInterNode; kCrossRack; kCrossPod; kHybrid] |}.
Proof. by intros []. Defined.
#[global, refine] Instance CollectiveScope_text : TextEnum CollectiveScope :=
  {| enum_text := CollectiveScope_to_string; enum_table := CollectiveScope_table |}.
Proof. by intros []. by repeat constructor. Defined.
End CollectiveScope.
Abbreviation CollectiveScope := CollectiveScope.CollectiveScope.

Module CollectiveState.
Inductive CollectiveState :=
  | kUnregistered | kRegistered | kPlanning | kActive | kDraining | kCompleted | kCancelled
  | kRetired | kTimedOut.
Definition CollectiveState_raw (v : CollectiveState) : Z :=
  match v with
  | kUnregistered => 0
  | kRegistered => 1
  | kPlanning => 2
  | kActive => 3
  | kDraining => 4
  | kCompleted => 5
  | kCancelled => 6
  | kRetired => 7
  | kTimedOut => 8
  end.
Definition CollectiveState_to_string (v : CollectiveState) : string :=
  match v with
  | kUnregistered => "unregistered"
  | kRegistered => "registered"
  | kPlanning => "planning"
  | kActive => "active"
  | kDraining => "draining"
  | kCompleted => "completed"
  | kCancelled => "cancelled"
  | kRetired => "retired"
  | kTimedOut => "timed_out"
  end.
#[global] Instance CollectiveState_eq_dec : EqDecision CollectiveState.
Proof. solve_decision. Defined.
#[global, refine] Instance CollectiveState_enum : WireEnum CollectiveState :=
  {| enum_raw := CollectiveState_raw;
     enum_all :=
       [kUnregistered; kRegistered; kPlanning; kActive; kDraining; kCompleted; kCancelled;
       kRetired; kTimedOut] |}.
Proof. by intros []. Defined.
End CollectiveState.
Abbreviation CollectiveState := CollectiveState.CollectiveState.

Definition collective_state_is_terminal (value : CollectiveState) : bool :=
  match value with
  | CollectiveState.kCompleted | CollectiveState.kCancelled
  | CollectiveState.kRetired | CollectiveState.kTimedOut => true
  | _ => false
  end.

Definition collective_state_accepts_new_authority (value : CollectiveState) : bool :=
  match value with
  | CollectiveState.kRegistered | CollectiveState.kPlanning
  | CollectiveState.kActive | CollectiveState.kDraining => true
  | _ => false
  end.

(** ** Phases and steps *)
Record CollectivePhase := mkCollectivePhase {
  cp_phase_index : Sequence;
  cp_label : string;
  cp_synchronization_point : bool;
  cp_step_count : Z;
}.

#[export] Instance CollectivePhase_eq_dec : EqDecision CollectivePhase.
Proof. solve_decision. Defined.

Record CollectiveStep := mkCollectiveStep {
  cs_phase_index : Sequence;
  cs_step_index : Sequence;
  cs_hint : AlgorithmHint;
  cs_synchronization_point : bool;
}.

#[export] Instance CollectiveStep_eq_dec : EqDecision CollectiveStep.
Proof. solve_decision. Defined.

(** ** Metadata: bounded, insertion ordered, keys unique *)
Abbreviation Metadata := (list (string * string)).

(** The loop that overwrites the value of the first entry with the key. *)
Fixpoint md_overwrite (entries : Metadata) (key value : string) : option Metadata :=
  match entries with
  | [] => None
  | e :: rest =>
      if bool_decide (e.1 = key) then Some ((e.1, value) :: rest)
      else cons e <$> md_overwrite rest key value
  end.

Definition md_set (entries : Metadata) (key value : string) : Metadata * bool :=
  if (slen key =? 0) || (limits.kMetadataKeyBytesMax <? slen key) then (entries, false)
  else if limits.kMetadataValueBytesMax <? slen value then (entries, false)
  else match md_overwrite entries key value with
       | Some entries' => (entries', true)
       | None =>
           if limits.kMetadataEntriesMax <=? zlen entries then (entries, false)
           else (entries ++ [(key, value)], true)
       end.

Definition md_find (entries : Metadata) (key : string) : option string :=
  snd <$> find_first (fun e => bool_decide (e.1 = key)) entries.

Definition md_has (entries : Metadata) (key : string) : bool :=
  match md_find entries key with Some _ => true | None => false end.

(** ** Definitions and instances *)
Record CollectiveDefinition := mkCollectiveDefinition {
  cd_id : Identity;
  cd_generation : Identity;
  cd_collective_class : CollectiveClass;
  cd_algorithm_hint : AlgorithmHint;
  cd_scope : CollectiveScope;
  cd_label : string;
  cd_origin_node : Identity;
  cd_fabric : Identity;
  cd_participants : list Identity;
  cd_phases : list CollectivePhase;
  cd_steps : list CollectiveStep;
  cd_metadata : Metadata;
  cd_declares_barrier_semantics : bool;
  cd_logical_bytes : Z;
  cd_registration_sequence : Sequence;
}.

#[export] Instance CollectiveDefinition_eta : Eta CollectiveDefinition :=
  fun r => mkCollectiveDefinition (cd_id r) (cd_generation r) (cd_collective_class r)
    (cd_algorithm_hint r) (cd_scope r) (cd_label r) (cd_origin_node r) (cd_fabric r)
    (cd_participants r) (cd_phases r) (cd_steps r) (cd_metadata r)
    (cd_declares_barrier_semantics r) (cd_logical_bytes r) (cd_registration_sequence r).

(** [operator==] compares every field: it is equality. *)
#[export] Instance CollectiveDefinition_eq_dec : EqDecision CollectiveDefinition.
Proof. solve_decision. Defined.

Record CollectiveInstance := mkCollectiveInstance {
  ci_id : Identity;
  ci_generation : Identity;
  ci_attempt : Identity;
  ci_attempt_sequence : Sequence;
}.

#[export] Instance CollectiveInstance_eta : Eta CollectiveInstance :=
  fun r => mkCollectiveInstance (ci_id r) (ci_generation r) (ci_attempt r)
    (ci_attempt_sequence r).

#[export] Instance CollectiveInstance_eq_dec : EqDecision CollectiveInstance.
Proof. solve_decision. Defined.

(** [operator==] of instances ignores the attempt sequence. *)
Definition ci_eqb (a b : CollectiveInstance) : bool :=
  (ci_id a =i ci_id b) && (ci_generation a =i ci_generation b) &&
  (ci_attempt a =i ci_attempt b).

(** ** Canonical participant order *)
Definition canonicalize_participants (participants : list Identity) : list Identity :=
  std_unique (std_sort id_ltb participants).

Definition participants_are_canonical (participants : list Identity) : bool :=
  match check_each
          (fun prev x =>
             match prev with
             | Some y => if negb (y <i x) then Some () else None
             | None => None
             end) None participants with
  | Some _ => false
  | None => true
  end.

(** The sizes, then the elements in order. *)
Fixpoint participant_elements_equal (a b : list Identity) : bool :=
  match a, b with
  | x :: a', y :: b' => if negb (x =i y) then false else participant_elements_equal a' b'
  | _, _ => true
  end.

Definition participant_set_equals (a b : list Identity) : bool :=
  if negb (zlen a =? zlen b) then false else participant_elements_equal a b.

(** ** Canonical participants *)
Abbreviation ascending := (StronglySorted (fun a b => (a <i b) = true)).

Lemma participants_are_canonical_spec l : participants_are_canonical l = true ↔ ascending l.
Proof.
  unfold participants_are_canonical. split.
  - case_match eqn:E; [done|]. intros _. apply (Sorted_klt_strong id_ltb id).
    eapply check_each_Sorted; [|exact E]. intros y x. simpl. by destruct (y <i x).
  - intros Hs. erewrite (check_each_intro _ (fun _ => True)); [done|done| | |
      by apply StronglySorted_Sorted]; [|by apply Forall_true].
    intros y x Hyx _. simpl in *. by rewrite Hyx.
Qed.

Lemma canonicalize_ascending l : ascending (canonicalize_participants l).
Proof.
  apply std_unique_sorted; [apply _|]. apply (std_sort_sorted id_ltb id).
Qed.

Lemma canonicalize_elem l x : x ∈ canonicalize_participants l ↔ x ∈ l.
Proof.
  unfold canonicalize_participants. rewrite std_unique_elem.
  by rewrite (std_sort_perm id_ltb id).
Qed.

Lemma canonicalize_ext l1 l2 :
  (∀ x, x ∈ l1 ↔ x ∈ l2) → canonicalize_participants l1 = canonicalize_participants l2.
Proof.
  intros Hel. apply (klt_sorted_ext id_ltb id); try apply canonicalize_ascending.
  intros x. by rewrite !canonicalize_elem.
Qed.

Lemma canonicalize_canonical l : ascending l → canonicalize_participants l = l.
Proof.
  intros Hl. apply (klt_sorted_ext id_ltb id); [apply canonicalize_ascending|done|].
  intros x. apply canonicalize_elem.
Qed.

Lemma participant_set_equals_eq a b : participant_set_equals a b = true ↔ a = b.
Proof.
  unfold participant_set_equals. split.
  - destruct (zlen a =? zlen b) eqn:E; [simpl; bool_prop | done]. revert b E.
    induction a as [|x a IH]; intros [|y b] E; unfold zlen in *; simpl in *; try lia; [done|].
    destruct (x =i y) eqn:Exy; [|done]. simpl. intros H. apply id_eqb_eq in Exy as ->.
    f_equal. apply IH; [lia | done].
  - intros <-. rewrite Z.eqb_refl. simpl. induction a as [|x a IH]; [done|]. simpl.
    by rewrite id_eqb_refl.
Qed.

(** ** Metadata as a bounded finite map *)
Definition md_wf (entries : Metadata) : Prop :=
  NoDup (fst <$> entries) ∧ zlen entries ≤ limits.kMetadataEntriesMax ∧
  Forall (fun e => 0 < slen e.1 ≤ limits.kMetadataKeyBytesMax ∧
                   slen e.2 ≤ limits.kMetadataValueBytesMax) entries.

Lemma md_overwrite_keys entries key value entries' :
  md_overwrite entries key value = Some entries' →
  (fst <$> entries') = (fst <$> entries) ∧ key ∈ (fst <$> entries) ∧
  (∀ e, e ∈ entries' → e ∈ entries ∨ e = (key, value)).
Proof.
  revert entries'. induction entries as [|e rest IH]; intros entries'; simpl; [done|].
  case_bool_decide as Ek; intros H; simplify_eq/=.
  - split_and!; [done|set_solver|]. set_solver.
  - destruct (md_overwrite rest key value) as [r|]; simplify_eq/=.
    destruct (IH r eq_refl) as (E1 & E2 & E3). split_and!; [by f_equal|set_solver|].
    intros e' [->|He]%elem_of_cons; [left; set_solver|]. destruct (E3 _ He); set_solver.
Qed.

Lemma md_overwrite_None entries key value :
  md_overwrite entries key value = None → key ∉ (fst <$> entries).
Proof.
  induction entries as [|e rest IH]; simpl; [set_solver|]. case_bool_decide; [done|].
  destruct (md_overwrite rest key value); [done|]. set_solver.
Qed.

Lemma md_overwrite_find entries key value entries' k :
  md_overwrite entries key value = Some entries' →
  md_find entries' k = if decide (k = key) then Some value else md_find entries k.
Proof.
  unfold md_find. revert entries'. induction entries as [|e rest IH]; intros entries'; [done|].
  simpl. case_bool_decide as Ek; intros H; simplify_eq/=.
  - repeat case_bool_decide; repeat case_decide; simplify_eq; done.
  - destruct (md_overwrite rest key value) as [r|]; simplify_eq/=.
    specialize (IH r eq_refl). case_bool_decide; [|done]. case_decide; congruence.
Qed.

Lemma md_find_app entries e k :
  md_find (entries ++ [e]) k =
    match md_find entries k with
    | Some v => Some v
    | None => if decide (k = e.1) then Some e.2 else None
    end.
Proof.
  unfold md_find. induction entries as [|x rest IH]; simpl.
  - repeat case_bool_decide; repeat case_decide; simplify_eq; done.
  - case_bool_decide; [done|]. exact IH.
Qed.

Lemma md_find_None entries k : k ∉ (fst <$> entries) → md_find entries k = None.
Proof.
  unfold md_find. intros Hk. rewrite (proj2 (find_first_None _ _)); [done|].
  apply Forall_forall. intros e He. apply bool_decide_eq_false. intros <-. apply Hk.
  by apply list_elem_of_fmap_2.
Qed.

(** ** Properties *)

(** Canonicalisation keeps exactly the participants it is given, produces a list that
    [participants_are_canonical] accepts, and does not depend on the order or the repetitions
    of its input: two lists canonicalise alike iff they name the same participants, which is
    then what [participant_set_equals] decides. *)
Theorem canonicalize_participants_correct (l1 l2 : list Identity) :
  participants_are_canonical (canonicalize_participants l1) = true ∧
  (∀ x, x ∈ canonicalize_participants l1 ↔ x ∈ l1) ∧
  (participant_set_equals (canonicalize_participants l1) (canonicalize_participants l2) = true
   ↔ ∀ x, x ∈ l1 ↔ x ∈ l2).
Proof.
  split_and!.
  - apply participants_are_canonical_spec, canonicalize_ascending.
  - apply canonicalize_elem.
  - rewrite participant_set_equals_eq. split; [|apply canonicalize_ext].
    intros E x. by rewrite <- (canonicalize_elem l1), E, canonicalize_elem.
Qed.

Lemma md_set_wf m key value : md_wf m → md_wf (md_set m key value).1.
Proof.
  intros (Hn & Hb & Hf). unfold md_set.
  destruct ((slen key =? 0) || _) eqn:E1; [done|].
  destruct (_ <? slen value) eqn:E2; [done|]. bool_prop.
  assert (0 ≤ slen key) by (unfold slen; lia).
  destruct (md_overwrite m key value) as [m'|] eqn:E3.
  - destruct (md_overwrite_keys _ _ _ _ E3) as (Ek & _ & Ein). split_and!; [by simpl; rewrite Ek| |].
    + apply (f_equal length) in Ek. rewrite !length_fmap in Ek. unfold zlen in *. simpl. lia.
    + rewrite Forall_forall in Hf |- *. intros e He. destruct (Ein e He) as [ | -> ]; [auto|].
      simpl. lia.
  - destruct (_ <=? zlen m) eqn:E4; [done|]. bool_prop. apply md_overwrite_None in E3.
    split_and!; [|simpl; rewrite zlen_app; unfold zlen in *; simpl; lia|].
    + simpl. rewrite fmap_app. apply NoDup_app.
      split_and!; [done| |by apply NoDup_singleton].
      simpl. intros x Hx ->%list_elem_of_singleton. done.
    + apply Forall_app. split; [done|]. repeat constructor; simpl; lia.
Qed.

(** [Metadata::set] keeps the metadata a finite map of at most sixteen entries with
    unique, bounded, non-empty keys, and when it answers true the key maps to the new value
    and every other key keeps its value; when it answers false nothing changed. *)
Theorem metadata_set_correct (m : Metadata) (key value : string) :
  md_wf m →
  let '(m', answer) := md_set m key value in
  md_wf m' ∧
  (answer = false → m' = m) ∧
  (answer = true → ∀ k, md_find m' k = if decide (k = key) then Some value else md_find m k).
Proof.
  intros Hwf%(md_set_wf m key value). unfold md_set in *.
  destruct ((slen key =? 0) || _) eqn:E1; [done|].
  destruct (_ <? slen value) eqn:E2; [done|].
  destruct (md_overwrite m key value) as [m'|] eqn:E3.
  - split_and!; [done..|]. intros _ k. by apply md_overwrite_find.
  - destruct (_ <=? zlen m) eqn:E4; [done|]. apply md_overwrite_None in E3.
    split_and!; [done..|]. intros _ k. rewrite md_find_app. simpl.
    case_decide as Ek; [|by case_match]. subst k. by rewrite md_find_None.
Qed.

Lemma metadata_set_correct_witness :
  md_wf (md_set [("job", "a")] "job" "b").1 ∧ (md_set [("job", "a")] "job" "b").2 = true.
Proof.
  pose proof (metadata_set_correct [("job", "a")] "job" "b") as H.
  split; [|reflexivity]. apply H. split_and!; [by apply NoDup_singleton|done|].
  repeat constructor; done.
Defined.

(** Parsing an enumeration name recognises exactly the canonical spellings, each as the
    value that prints it, for collective classes, algorithm hints and scopes. *)
Theorem collective_names_roundtrip (text : string) :
  (∀ v, CollectiveClass.collective_class_from_string text = Some v ↔
        CollectiveClass.CollectiveClass_to_string v = text) ∧
  (∀ v, AlgorithmHint.algorithm_hint_from_string text = Some v ↔
        AlgorithmHint.AlgorithmHint_to_string v = text) ∧
  (∀ v, CollectiveScope.collective_scope_from_string text = Some v ↔
        CollectiveScope.CollectiveScope_to_string v = text).
Proof. split_and!; intros v; exact (text_lookup_Some text v). Qed.
