(* ===== verification/FlowGroup.v ===== *)
(** Flow groups: plan validation, canonicalisation and construction
    ([include/ctf/flow_group.hpp], [src/flow_group.cpp]).

    The theorems show that construction does not depend on the order the planner emitted its
    edges, and what the constructed group holds: the edges in the canonical total order, the
    endpoints as the canonical participant set, the exact maximal fan in and fan out. *)
From S2P Require Import Prelude Identity Errors Collective.

Module FlowPattern.
Inductive FlowPattern :=
  | kUnspecified | kRing | kChain | kTreeUp | kTreeDown | kStar | kFullMesh
  | kNeighborExchange | kPairwiseDisjoint | kPipeline | kCustom.
Definition FlowPattern_raw (v : FlowPattern) : Z :=
  match v with
  | kUnspecified => 0
  | kRing => 1
  | kChain => 2
  | kTreeUp => 3
  | kTreeDown => 4
  | kStar => 5
  | kFullMesh => 6
  | kNeighborExchange => 7
  | kPairwiseDisjoint => 8
  | kPipeline => 9
  | kCustom => 10
  end.
Definition FlowPattern_to_string (v : FlowPattern) : string :=
  match v with
  | kUnspecified => "unspecified"
  | kRing => "ring"
  | kChain => "chain"
  | kTreeUp => "tree_up"
  | kTreeDown => "tree_down"
  | kStar => "star"
  | kFullMesh => "full_mesh"
  | kNeighborExchange => "neighbor_exchange"
  | kPairwiseDisjoint => "pairwise_disjoint"
  | kPipeline => "pipeline"
  | kCustom => "custom"
  end.
Definition FlowPattern_table : list (string * FlowPattern) :=
  [("unspecified", kUnspecified);
   ("ring", kRing);
   ("chain", kChain);
   ("tree_up", kTreeUp);
   ("tree_down", kTreeDown);
   ("star", kStar);
   ("full_mesh", kFullMesh);
   ("neighbor_exchange", kNeighborExchange);
   ("pairwise_disjoint", kPairwiseDisjoint);
   ("pipeline", kPipeline);
   ("custom", kCustom)].
Definition flow_pattern_from_string (text : string) : option FlowPattern :=
  table_lookup FlowPattern_table text.
#[global] Instance FlowPattern_eq_dec : EqDecision FlowPattern.
Proof. solve_decision. Defined.
#[global, refine] Instance FlowPattern_enum : WireEnum FlowPattern :=
  {| enum_raw := FlowPattern_raw;
     enum_all :=
       [kUnspecified; kRing; kChain; kTreeUp; kTreeDown; kStar; kFullMesh; kNeighborExchange;
       kPairwiseDisjoint; kPipeline; kCustom] |}.
Proof. by intros []. Defined.
#[global, refine] Instance FlowPattern_text : TextEnum FlowPattern :=
  {| enum_text := FlowPattern_to_string; enum_table := FlowPattern_table |}.
Proof. by intros []. by repeat constructor. Defined.
End FlowPattern.
Abbreviation FlowPattern := FlowPattern.FlowPattern.

Module FlowDirection.
Inductive FlowDirection :=
  | kUnknown | kUnidirectional | kBidirectional.
Definition FlowDirection_raw (v : FlowDirection) : Z :=
  match v with
  | kUnknown => 0
  | kUnidirectional => 1
  | kBidirectional => 2
  end.
Definition FlowDirection_to_string (v : FlowDirection) : string :=
  match v with
  | kUnknown => "unknown"
  | kUnidirectional => "unidirectional"
  | kBidirectional => "bidirectional"
  end.
#[global] Instance FlowDirection_eq_dec : EqDecision FlowDirection.
Proof. solve_decision. Defined.
#[global, refine] Instance FlowDirection_enum : WireEnum FlowDirection :=
  {| enum_raw := FlowDirection_raw;
     enum_all :=
       [kUnknown; kUnidirectional; kBidirectional] |}.
Proof. by intros []. Defined.
End FlowDirection.
Abbreviation FlowDirection := FlowDirection.FlowDirection.

Module FlowGroupState.
Inductive FlowGroupState :=
  | kUnspecified | kConstructed | kAuthorized | kDraining | kClosed | kCancelled.
Definition FlowGroupState_raw (v : FlowGroupState) : Z :=
  match v with
  | kUnspecified => 0
  | kConstructed => 1
  | kAuthorized => 2
  | kDraining => 3
  | kClosed => 4
  | kCancelled => 5
  end.
Definition FlowGroupState_to_string (v : FlowGroupState) : string :=
  match v with
  | kUnspecified => "unspecified"
  | kConstructed => "constructed"
  | kAuthorized => "authorized"
  | kDraining => "draining"
  | kClosed => "closed"
  | kCancelled => "cancelled"
  end.
#[global] Instance FlowGroupState_eq_dec : EqDecision FlowGroupState.
Proof. solve_decision. Defined.
#[global, refine] Instance FlowGroupState_enum : WireEnum FlowGroupState :=
  {| enum_raw := FlowGroupState_raw;
     enum_all :=
       [kUnspecified; kConstructed; kAuthorized; kDraining; kClosed; kCancelled] |}.
Proof. by intros []. Defined.
End FlowGroupState.
Abbreviation FlowGroupState := FlowGroupState.FlowGroupState.

Record FlowEdge := mkFlowEdge {
  fe_source : Identity;
  fe_destination : Identity;
  fe_logical_bytes : Z;
  fe_step_index : Sequence;
  fe_hint : AlgorithmHint;
  fe_crosses_rack : bool;
}.

#[export] Instance FlowEdge_eq_dec : EqDecision FlowEdge.
Proof. solve_decision. Defined.

Record FlowGroupPlan := mkFlowGroupPlan {
  fp_instance : CollectiveInstance;
  fp_collective_class : CollectiveClass;
  fp_pattern : FlowPattern;
  fp_direction : FlowDirection;
  fp_edges : list FlowEdge;
  fp_plan_sequence : Sequence;
  fp_requires_simultaneous_start : bool;
}.

#[export] Instance FlowGroupPlan_eta : Eta FlowGroupPlan :=
  fun r => mkFlowGroupPlan (fp_instance r) (fp_collective_class r) (fp_pattern r)
    (fp_direction r) (fp_edges r) (fp_plan_sequence r) (fp_requires_simultaneous_start r).

Record FlowGroup := mkFlowGroup {
  fg_id : Identity;
  fg_instance : CollectiveInstance;
  fg_collective_class : CollectiveClass;
  fg_pattern : FlowPattern;
  fg_direction : FlowDirection;
  fg_edges : list FlowEdge;
  fg_participants : list Identity;
  fg_total_logical_bytes : Z;
  fg_max_fan_out : Z;
  fg_max_fan_in : Z;
  fg_cross_rack_edge_count : Z;
  fg_requires_simultaneous_start : bool;
  fg_plan_sequence : Sequence;
}.

#[export] Instance FlowGroup_eq_dec : EqDecision FlowGroup.
Proof. solve_decision. Defined.

(** ** Mixing and the canonical edge order *)
Definition mix (state value : Z) : Z :=
  let state := Z.lxor state
    (w64 (value + 0x9E3779B97F4A7C15 + w64 (Z.shiftl state 6) + Z.shiftr state 2)) in
  let state := w64 (state * 0xFF51AFD7ED558CCD) in
  Z.lxor state (Z.shiftr state 33).

Definition mix_identity (state : Z) (value : Identity) : Z :=
  mix (mix state (id_high value)) (id_low value).

Definition edge_less (a b : FlowEdge) : bool :=
  if negb (fe_step_index a =? fe_step_index b) then fe_step_index a <? fe_step_index b
  else if negb (fe_source a =i fe_source b) then fe_source a <i fe_source b
  else if negb (fe_destination a =i fe_destination b)
  then fe_destination a <i fe_destination b
  else if negb (fe_logical_bytes a =? fe_logical_bytes b)
  then fe_logical_bytes a <? fe_logical_bytes b
  else if negb (bool_decide (fe_hint a = fe_hint b))
  then enum_raw (fe_hint a) <? enum_raw (fe_hint b)
  else
    let a_rack := if fe_crosses_rack a then 1 else 0 in
    let b_rack := if fe_crosses_rack b then 1 else 0 in
    a_rack <? b_rack.

(** ** Validation *)
Definition edge_key (edge : FlowEdge) : Z :=
  let key := fe_step_index edge in
  let key := mix key (id_high (fe_source edge)) in
  let key := mix key (id_low (fe_source edge)) in
  let key := mix key (id_high (fe_destination edge)) in
  mix key (id_low (fe_destination edge)).

(** The loop over the edges, with the set [seen] of folded keys. *)
Fixpoint validate_edges (allowed : gset Identity) (seen : gset Z) (edges : list FlowEdge)
    : Status :=
  match edges with
  | [] => status_ok
  | edge :: rest =>
      if is_none (fe_source edge) || is_none (fe_destination edge)
      then mkStatus ErrorCode.kValidationEdgeUnset
             "flow group plan contains an unset edge endpoint"
      else if fe_source edge =i fe_destination edge
      then mkStatus ErrorCode.kValidationEdgeSelfLoop "flow group plan contains a self loop"
      else if bool_decide (fe_source edge ∉ allowed) || bool_decide (fe_destination edge ∉ allowed)
      then mkStatus ErrorCode.kValidationEdgeEndpointNotParticipant
             "flow group plan references a non participant endpoint"
      else if seq_is_unset (fe_step_index edge)
      then mkStatus ErrorCode.kValidationStepOutOfRange
             "flow group plan contains an edge without a step"
      else if bool_decide (edge_key edge ∈ seen)
      then mkStatus ErrorCode.kValidationEdgeDuplicate
             "flow group plan states the same directed edge twice in one step"
      else validate_edges allowed ({[edge_key edge]} ∪ seen) rest
  end.

Definition validate_flow_group_plan (plan : FlowGroupPlan) (allowed_participants : list Identity)
    : Status :=
  if is_none (ci_id (fp_instance plan))
  then mkStatus ErrorCode.kValidationGenerationUnset "flow group plan has no collective id"
  else if is_none (ci_generation (fp_instance plan))
  then mkStatus ErrorCode.kValidationGenerationUnset
         "flow group plan has no collective generation"
  else if is_none (ci_attempt (fp_instance plan))
  then mkStatus ErrorCode.kValidationAttemptUnset "flow group plan has no attempt identity"
  else if zlen (fp_edges plan) =? 0
  then mkStatus ErrorCode.kValidationEdgeCountOutOfRange "flow group plan has no edges"
  else if limits.kEdgesMaxPerFlowGroup <? zlen (fp_edges plan)
  then mkStatus ErrorCode.kValidationEdgeCountOutOfRange
         "flow group plan exceeds the edge bound"
  else if bool_decide (fp_direction plan = FlowDirection.kUnknown)
  then mkStatus ErrorCode.kValidationEdgeCountOutOfRange
         "flow group plan must state a direction; unknown is not a direction"
  else if zlen allowed_participants =? 0
  then mkStatus ErrorCode.kValidationParticipantCountOutOfRange "collective has no participants"
  else validate_edges (list_to_set allowed_participants) ∅ (fp_edges plan).

(** ** Identity and construction *)
Definition bool_u64 (b : bool) : Z := if b then 1 else 0.

Definition digest_edge (state : Z) (edge : FlowEdge) : Z :=
  let state := mix state (fe_step_index edge) in
  let state := mix_identity state (fe_source edge) in
  let state := mix_identity state (fe_destination edge) in
  let state := mix state (fe_logical_bytes edge) in
  let state := mix state (enum_raw (fe_hint edge)) in
  mix state (bool_u64 (fe_crosses_rack edge)).

Definition flow_group_content_digest (plan : FlowGroupPlan) : Z :=
  let state := 0x243F6A8885A308D3 in
  let state := mix_identity state (ci_id (fp_instance plan)) in
  let state := mix_identity state (ci_generation (fp_instance plan)) in
  let state := mix_identity state (ci_attempt (fp_instance plan)) in
  let state := mix state (ci_attempt_sequence (fp_instance plan)) in
  let state := mix state (enum_raw (fp_collective_class plan)) in
  let state := mix state (enum_raw (fp_pattern plan)) in
  let state := mix state (enum_raw (fp_direction plan)) in
  let state := mix state (bool_u64 (fp_requires_simultaneous_start plan)) in
  let state := mix state (zlen (fp_edges plan)) in
  let sorted := std_sort edge_less (fp_edges plan) in
  foldl digest_edge state sorted.

Definition canonical_flow_group_id (plan : FlowGroupPlan) : Identity :=
  let digest := flow_group_content_digest plan in
  let hi := digest in
  let lo := mix digest 0xA5A5A5A5A5A5A5A5 in
  let hi := if (hi =? 0) && (lo =? 0) then 1 else hi in
  mkIdentity hi lo.

(** The loop that measures the longest run of equal neighbours. *)
Fixpoint max_run (run best : Z) (l : list Identity) : Z :=
  match l with
  | [] => best
  | x :: rest =>
      let run := w32 (run + 1) in
      match rest with
      | [] => max_run 0 (Z.max best run) rest
      | y :: _ =>
          if negb (y =i x) then max_run 0 (Z.max best run) rest else max_run run best rest
      end
  end.

Definition construct_flow_group (plan : FlowGroupPlan) (allowed_participants : list Identity)
    : Result FlowGroup :=
  let status := validate_flow_group_plan plan allowed_participants in
  if negb (is_ok status) then Fail status
  else
    let edges := std_sort edge_less (fp_edges plan) in
    let endpoints := edges ≫= (fun e => [fe_source e; fe_destination e]) in
    let cross := foldl (fun n e => w32 (n + bool_u64 (fe_crosses_rack e))) 0 edges in
    let sources := std_sort id_ltb (fe_source <$> edges) in
    let destinations := std_sort id_ltb (fe_destination <$> edges) in
    Ok {| fg_id := canonical_flow_group_id plan;
          fg_instance := fp_instance plan;
          fg_collective_class := fp_collective_class plan;
          fg_pattern := fp_pattern plan;
          fg_direction := fp_direction plan;
          fg_edges := edges;
          fg_participants := canonicalize_participants endpoints;
          fg_total_logical_bytes :=
            foldl (fun n e => w64 (n + fe_logical_bytes e)) 0 edges;
          fg_max_fan_out := max_run 0 0 sources;
          fg_max_fan_in := max_run 0 0 destinations;
          fg_cross_rack_edge_count := cross;
          fg_requires_simultaneous_start := fp_requires_simultaneous_start plan;
          fg_plan_sequence := fp_plan_sequence plan |}.

(** ** What validation decides *)
Definition edge_valid (allowed : list Identity) (e : FlowEdge) : Prop :=
  fe_source e ≠ id_none ∧ fe_destination e ≠ id_none ∧ fe_source e ≠ fe_destination e ∧
  fe_source e ∈ allowed ∧ fe_destination e ∈ allowed ∧ fe_step_index e ≠ 0.

Definition plan_valid (plan : FlowGroupPlan) (allowed : list Identity) : Prop :=
  ci_id (fp_instance plan) ≠ id_none ∧ ci_generation (fp_instance plan) ≠ id_none ∧
  ci_attempt (fp_instance plan) ≠ id_none ∧ fp_edges plan ≠ [] ∧
  zlen (fp_edges plan) ≤ limits.kEdgesMaxPerFlowGroup ∧
  fp_direction plan ≠ FlowDirection.kUnknown ∧ allowed ≠ [] ∧
  Forall (edge_valid allowed) (fp_edges plan) ∧ NoDup (edge_key <$> fp_edges plan).

Lemma validate_edges_iff allowed seen edges :
  is_ok (validate_edges (list_to_set allowed) seen edges) = true ↔
    Forall (edge_valid allowed) edges ∧ NoDup (edge_key <$> edges) ∧
    Forall (fun e => edge_key e ∉ seen) edges.
Proof.
  revert seen. induction edges as [|e rest IH]; intros seen; simpl.
  { split; [|done]. intros _. split_and!; constructor. }
  rewrite !Forall_cons, NoDup_cons.
  unfold edge_valid at 1. unfold seq_is_unset.
  destruct (is_none (fe_source e)) eqn:E1; simpl.
  { split; [done|]. apply is_none_eq in E1. naive_solver. }
  destruct (is_none (fe_destination e)) eqn:E2; simpl.
  { split; [done|]. apply is_none_eq in E2. naive_solver. }
  destruct (fe_source e =i fe_destination e) eqn:E3; simpl.
  { split; [done|]. apply id_eqb_eq in E3. naive_solver. }
  rewrite is_none_neq in E1, E2. apply id_eqb_neq in E3.
  case_bool_decide as E4; simpl.
  { split; [done|]. rewrite elem_of_list_to_set in E4. naive_solver. }
  case_bool_decide as E5; simpl.
  { split; [done|]. rewrite elem_of_list_to_set in E5. naive_solver. }
  rewrite elem_of_list_to_set in E4, E5.
  destruct (fe_step_index e =? 0) eqn:E6; bool_prop.
  { split; [done|]. naive_solver. }
  case_bool_decide as E7; simpl; [split; [done|naive_solver]|].
  rewrite IH. rewrite list_elem_of_fmap. split.
  - intros (H1 & H2 & H3). rewrite Forall_forall in H3. split_and!; auto.
    + intros (y & Ey & Hy). specialize (H3 y Hy). rewrite <- Ey in H3. set_solver.
    + apply Forall_forall. intros y Hy. specialize (H3 y Hy). set_solver.
  - intros ((_ & H1) & (H2 & H3) & _ & H4). split_and!; auto.
    rewrite Forall_forall in H4 |- *. intros y Hy.
    apply not_elem_of_union. split; [|auto]. rewrite elem_of_singleton. intros E.
    apply H2. exists y. auto.
Qed.

Lemma validate_flow_group_plan_iff plan allowed :
  is_ok (validate_flow_group_plan plan allowed) = true ↔ plan_valid plan allowed.
Proof.
  unfold validate_flow_group_plan, plan_valid.
  destruct (is_none (ci_id _)) eqn:E1; [apply is_none_eq in E1; naive_solver|].
  destruct (is_none (ci_generation _)) eqn:E2; [apply is_none_eq in E2; naive_solver|].
  destruct (is_none (ci_attempt _)) eqn:E3; [apply is_none_eq in E3; naive_solver|].
  rewrite is_none_neq in E1, E2, E3.
  destruct (zlen (fp_edges plan) =? 0) eqn:E4.
  { split; [done|]. intros (_ & _ & _ & H & _). apply zlen_nil_iff in H. congruence. }
  apply zlen_nil_iff in E4.
  destruct (_ <? zlen (fp_edges plan)) eqn:E5; bool_prop.
  { split; [done|]. intros (_ & _ & _ & _ & H & _). lia. }
  case_bool_decide as E6; [split; [done|naive_solver]|].
  destruct (zlen allowed =? 0) eqn:E7.
  { split; [done|]. intros (_ & _ & _ & _ & _ & _ & H & _). apply zlen_nil_iff in H. congruence. }
  apply zlen_nil_iff in E7. rewrite validate_edges_iff. split.
  - intros (H1 & H2 & _). by split_and!.
  - intros (_ & _ & _ & _ & _ & _ & _ & H1 & H2). split_and!; try done.
    apply Forall_forall. set_solver.
Qed.

Lemma plan_valid_perm plan allowed edges :
  fp_edges plan ≡ₚ edges → plan_valid plan allowed → plan_valid (plan <| fp_edges := edges |>) allowed.
Proof.
  unfold plan_valid. simpl. intros Hp (?&?&?& Hne & Hb & ? & ? & Hf & Hn).
  rewrite Hp in Hb, Hf, Hn. split_and!; try done. intros ->.
  by apply Permutation_nil_r in Hp.
Qed.

(** ** The canonical order *)
Definition edge_fields (e : FlowEdge) : list Z :=
  [fe_step_index e; id_high (fe_source e); id_low (fe_source e); id_high (fe_destination e);
   id_low (fe_destination e); fe_logical_bytes e; enum_raw (fe_hint e);
   bool_u64 (fe_crosses_rack e)].

Lemma hint_raw_inj (a b : AlgorithmHint) : enum_raw a = enum_raw b → a = b.
Proof. intros E. apply (inj Some). by rewrite <- !enum_of_raw_raw, E. Qed.

#[export] Instance edge_less_strict : StrictTotal edge_less.
Proof.
  apply (strict_total_key lexZ _ edge_fields).
  - intros [[] [] ????] [[] [] ????]. unfold edge_fields, bool_u64. simpl.
    intros [= -> -> -> -> -> -> E1 E2]. apply hint_raw_inj in E1.
    repeat case_match; congruence.
  - intros a b. unfold edge_less, edge_fields. cbn [lexZ].
    destruct (fe_step_index a =? fe_step_index b); [cbn [negb]|done].
    unfold id_eqb, id_ltb.
    destruct (id_high (fe_source a) =? id_high (fe_source b)); [cbn [negb andb]|done].
    destruct (id_low (fe_source a) =? id_low (fe_source b)); [cbn [negb andb]|done].
    destruct (id_high (fe_destination a) =? id_high (fe_destination b)); [cbn [negb andb]|done].
    destruct (id_low (fe_destination a) =? id_low (fe_destination b)); [cbn [negb andb]|done].
    destruct (fe_logical_bytes a =? fe_logical_bytes b); [cbn [negb]|done].
    case_bool_decide as Eh; cbn [negb].
    + rewrite Eh, Z.eqb_refl. cbn [negb]. unfold bool_u64. by repeat case_match.
    + rewrite (proj2 (Z.eqb_neq _ _)); [done|]. intros E. by apply Eh, hint_raw_inj.
Qed.

Lemma sorted_edges_perm l1 l2 : l1 ≡ₚ l2 → std_sort edge_less l1 = std_sort edge_less l2.
Proof. intros Hp. by apply (std_sort_unique edge_less id). Qed.

Lemma sorted_edges_elem l : std_sort edge_less l ≡ₚ l.
Proof. apply (std_sort_perm edge_less id). Qed.

Lemma digest_perm plan edges :
  fp_edges plan ≡ₚ edges →
  flow_group_content_digest (plan <| fp_edges := edges |>) = flow_group_content_digest plan.
Proof.
  intros Hp. unfold flow_group_content_digest. cbn -[mix mix_identity std_sort].
  by rewrite (sorted_edges_perm _ _ Hp), Hp.
Qed.

Lemma construct_flow_group_Ok plan allowed g :
  construct_flow_group plan allowed = Ok g → plan_valid plan allowed.
Proof.
  unfold construct_flow_group. destruct (is_ok _) eqn:E; [|done]. intros _.
  by apply validate_flow_group_plan_iff.
Qed.

(** ** The run measure computes the largest degree *)
Lemma max_run_spec l run best x rest :
  l = x :: rest → StronglySorted (fun a b => (b <i a) = false) l →
  0 ≤ run → 0 ≤ best → run + zlen l < two32 →
  let r := max_run run best l in
  best ≤ r ∧ run + occurrences x l ≤ r ∧ (∀ y, occurrences y l ≤ r) ∧
  (r = best ∨ r = run + occurrences x l ∨ ∃ y, y ∈ l ∧ r = occurrences y l).
Proof.
  revert run best x rest. induction l as [|z l IH]; intros run best x rest [= -> ->] Hs Hr Hb Hl.
  assert (zlen (x :: rest) = 1 + zlen rest) as Hz by (unfold zlen; simpl length; lia).
  pose proof (zlen_nonneg rest). cbn [max_run].
  rewrite w32_small by (unfold is_u32; lia). rewrite occurrences_cons, decide_True by done.
  inversion Hs as [|? ? Hs' Hx]; subst. rewrite Forall_forall in Hx.
  destruct rest as [|y rest].
  { cbn. rewrite occurrences_nil. split_and!; [lia|lia| |lia].
    intros y. rewrite occurrences_cons, occurrences_nil. case_decide; lia. }
  destruct (y =i x) eqn:Exy; cbn [negb].
  - apply id_eqb_eq in Exy as ->.
    destruct (IH (run + 1) best x rest eq_refl Hs' ltac:(lia) Hb ltac:(lia))
      as (H1 & H2 & H3 & H4). split_and!; [done|lia| |].
    + intros y. rewrite occurrences_cons. case_decide; [subst; lia | apply H3].
    + destruct H4 as [H4|[H4|(y & Hy & H4)]]; [by left|right; left; lia|].
      destruct (decide (x = y)) as [<-|Hne]; [exfalso; lia|]. right; right.
      exists y. split; [by right|]. rewrite occurrences_cons, decide_False; [lia|done].
  - apply id_eqb_neq in Exy.
    assert (occurrences x (y :: rest) = 0) as H0.
    { apply occurrences_notin. intros [E|Hin]%elem_of_cons; [congruence|].
      inversion Hs' as [|? ? _ Hy]; subst. rewrite Forall_forall in Hy.
      apply Exy. apply (st_total (less:=id_ltb)); [by apply Hx; left|].
      destruct (y <i x) eqn:E; [|by apply Hy in Hin]. by rewrite (Hx y) in E by left. }
    destruct (IH 0 (Z.max best (run + 1)) y rest eq_refl Hs' ltac:(lia) ltac:(lia) ltac:(lia))
      as (H1 & H2 & H3 & H4). split_and!; [lia|lia| |].
    + intros v. rewrite occurrences_cons. specialize (H3 v). case_decide; [subst|]; lia.
    + destruct H4 as [H4|[H4|(v & Hv & H4)]]; [lia| |].
      * right; right. exists y. split; [set_solver|].
        rewrite occurrences_cons, decide_False by done. lia.
      * right; right. exists v. split; [by right|]. rewrite occurrences_cons.
        rewrite decide_False; [lia|]. intros ->.
        specialize (H3 v). lia.
Qed.

(** The largest number of edges that share an endpoint. *)
Definition is_max_degree (endpoints : list Identity) (r : Z) : Prop :=
  (∀ p, occurrences p endpoints ≤ r) ∧ ∃ p, p ∈ endpoints ∧ r = occurrences p endpoints.

#[export] Instance is_max_degree_proper : Proper ((≡ₚ) ==> (=) ==> iff) is_max_degree.
Proof.
  intros l k Hp r ? <-. unfold is_max_degree. setoid_rewrite Hp. done.
Qed.

Lemma max_run_degree endpoints :
  endpoints ≠ [] → zlen endpoints < two32 →
  is_max_degree endpoints (max_run 0 0 (std_sort id_ltb endpoints)).
Proof.
  intros Hne Hl. pose proof (std_sort_perm id_ltb id endpoints) as Hp.
  pose proof (std_sort_sorted id_ltb id endpoints) as Hs.
  change (on_key id_ltb id) with id_ltb in *.
  destruct (std_sort id_ltb endpoints) as [|x rest] eqn:E.
  { by apply Permutation_nil_l in Hp. }
  destruct (max_run_spec (x :: rest) 0 0 x rest eq_refl Hs) as (_ & H2 & H3 & H4);
    [lia|lia|by rewrite Hp|]. rewrite occurrences_cons, decide_True in H2, H4 by done.
  pose proof (occurrences_nonneg x rest). split.
  - intros p. by rewrite <- Hp.
  - destruct H4 as [H4|[H4|(y & Hy & H4)]]; [lia| |].
    + exists x. rewrite <- Hp. split; [by left|].
      rewrite occurrences_cons, decide_True by done. lia.
    + exists y. by rewrite <- Hp.
Qed.

Lemma foldl_w64_sum {A} (f : A → Z) l acc :
  is_u64 acc → foldl (fun n e => w64 (n + f e)) acc l = w64 (acc + foldr Z.add 0 (f <$> l)).
Proof.
  revert acc. induction l as [|e l IH]; intros acc Ha; simpl.
  - by rewrite Z.add_0_r, w64_small.
  - rewrite IH by apply w64_range. unfold w64. rewrite Zplus_mod_idemp_l. by rewrite Z.add_assoc.
Qed.

Lemma foldl_w32_count {A} (p : A → bool) l acc :
  0 ≤ acc → acc + zlen l < two32 →
  foldl (fun n e => w32 (n + bool_u64 (p e))) acc l = acc + zlen (filter (fun e => p e = true) l).
Proof.
  revert acc. induction l as [|e l IH]; intros acc Ha Hl; simpl; [rewrite filter_nil; unfold zlen; simpl; lia|].
  assert (zlen (e :: l) = 1 + zlen l) as Hz by (unfold zlen; simpl length; lia).
  pose proof (zlen_nonneg l). rewrite filter_cons. unfold bool_u64 at 2.
  destruct (p e); rewrite w32_small by (unfold is_u32; lia).
  - rewrite IH by lia. rewrite decide_True by done. unfold zlen. simpl length. lia.
  - rewrite IH by lia. by rewrite decide_False, Z.add_0_r by done.
Qed.

Lemma valid_edges_distinct plan allowed :
  plan_valid plan allowed →
  NoDup ((fun e => (fe_step_index e, fe_source e, fe_destination e)) <$> fp_edges plan).
Proof.
  intros (_ & _ & _ & _ & _ & _ & _ & _ & Hn).
  eapply (NoDup_fmap_1 (fun k : Z * Identity * Identity =>
    edge_key (mkFlowEdge k.1.2 k.2 0 k.1.1 AlgorithmHint.kUnspecified false))).
  rewrite <- list_fmap_compose. erewrite list_fmap_ext; [exact Hn|].
  intros i e _. unfold edge_key, compose. cbn -[mix]. reflexivity.
Qed.

Lemma sources_length edges : zlen (fe_source <$> edges) = zlen edges.
Proof. unfold zlen. by rewrite length_fmap. Qed.
Lemma destinations_length edges : zlen (fe_destination <$> edges) = zlen edges.
Proof. unfold zlen. by rewrite length_fmap. Qed.

(** ** Properties *)

(** C30: construction is independent of the order of the planner's edges: two plans that
    differ only by a permutation of their edges are accepted together, and yield one and the
    same flow group, its identity included. *)
Theorem construct_order_independent
    (plan : FlowGroupPlan) (edges : list FlowEdge) (allowed : list Identity) (g : FlowGroup) :
  fp_edges plan ≡ₚ edges →
  construct_flow_group plan allowed = Ok g ↔
  construct_flow_group (plan <| fp_edges := edges |>) allowed = Ok g.
Proof.
  intros Hp. assert (is_ok (validate_flow_group_plan plan allowed) =
    is_ok (validate_flow_group_plan (plan <| fp_edges := edges |>) allowed)) as Ev.
  { apply eq_true_iff_eq. rewrite !validate_flow_group_plan_iff. split.
    - by apply plan_valid_perm.
    - intros H. apply (plan_valid_perm _ _ (fp_edges plan)) in H; [by destruct plan|done]. }
  unfold construct_flow_group. rewrite <- Ev. destruct (is_ok _); cbn [negb]; [|done].
  unfold canonical_flow_group_id. rewrite (digest_perm plan edges Hp).
  cbn -[std_sort mix max_run foldl canonicalize_participants].
  by rewrite (sorted_edges_perm _ _ Hp).
Qed.

Definition demo_edges : list FlowEdge :=
  [mkFlowEdge (mkIdentity 0 1) (mkIdentity 0 2) 10 1 AlgorithmHint.kRing false;
   mkFlowEdge (mkIdentity 0 2) (mkIdentity 0 3) 20 1 AlgorithmHint.kRing true].

Definition demo_plan : FlowGroupPlan :=
  mkFlowGroupPlan (mkCollectiveInstance (mkIdentity 1 1) (mkIdentity 1 2) (mkIdentity 1 3) 1)
    CollectiveClass.kAllReduce FlowPattern.kRing FlowDirection.kUnidirectional
    demo_edges 1 false.

Definition demo_members : list Identity := [mkIdentity 0 1; mkIdentity 0 2; mkIdentity 0 3].

Lemma construct_order_independent_witness :
  ∃ g, construct_flow_group demo_plan demo_members = Ok g ∧
       construct_flow_group (demo_plan <| fp_edges := reverse demo_edges |>) demo_members = Ok g.
Proof.
  destruct (construct_flow_group demo_plan demo_members) as [g|] eqn:E;
    [|vm_compute in E; discriminate].
  exists g. split; [done|].
  refine (proj1 (construct_order_independent demo_plan (reverse demo_edges) _ _ _) E).
  by rewrite reverse_Permutation.
Defined.

(** C29: what [construct_flow_group] returns.  It succeeds exactly on a valid plan, and then
    the group holds the plan's edges, none dropped, in the canonical total order; each
    edge joins two distinct members of the collective and no directed edge is stated twice in
    one step; the participants are the canonical set of the endpoints; fan out and fan in are
    the largest out- and in-degree; the byte total is the exact sum modulo 2^64 and the
    cross-rack count is exact. *)
Theorem construct_flow_group_correct
    (plan : FlowGroupPlan) (allowed : list Identity) (g : FlowGroup) :
  construct_flow_group plan allowed = Ok g →
  plan_valid plan allowed ∧
  fg_edges g ≡ₚ fp_edges plan ∧
  StronglySorted (fun a b => edge_less b a = false) (fg_edges g) ∧
  NoDup ((fun e => (fe_step_index e, fe_source e, fe_destination e)) <$> fg_edges g) ∧
  participants_are_canonical (fg_participants g) = true ∧
  (∀ p, p ∈ fg_participants g ↔
        p ∈ (fe_source <$> fp_edges plan) ∨ p ∈ (fe_destination <$> fp_edges plan)) ∧
  (∀ p, p ∈ fg_participants g → p ∈ allowed ∧ p ≠ id_none) ∧
  is_max_degree (fe_source <$> fp_edges plan) (fg_max_fan_out g) ∧
  is_max_degree (fe_destination <$> fp_edges plan) (fg_max_fan_in g) ∧
  fg_total_logical_bytes g = w64 (foldr Z.add 0 (fe_logical_bytes <$> fg_edges g)) ∧
  fg_cross_rack_edge_count g =
    zlen (filter (fun e => fe_crosses_rack e = true) (fp_edges plan)).
Proof.
  intros Hc. pose proof (construct_flow_group_Ok _ _ _ Hc) as Hv.
  pose proof (valid_edges_distinct _ _ Hv) as Hd.
  unfold construct_flow_group in Hc. destruct (is_ok _); [|done]. injection Hc as <-.
  cbn [fg_edges fg_participants fg_max_fan_out fg_max_fan_in fg_total_logical_bytes
       fg_cross_rack_edge_count].
  pose proof (sorted_edges_elem (fp_edges plan)) as Hp.
  set (edges := std_sort edge_less (fp_edges plan)) in *.
  pose proof Hv as (_ & _ & _ & Hne & Hb & _ & _ & Hf & _).
  assert (zlen (fp_edges plan) < two32) as Hsmall by
    (unfold limits.kEdgesMaxPerFlowGroup in Hb; lia).
  assert (∀ p, p ∈ canonicalize_participants (edges ≫= (fun e => [fe_source e; fe_destination e]))
    ↔ p ∈ (fe_source <$> fp_edges plan) ∨ p ∈ (fe_destination <$> fp_edges plan)) as Hm.
  { intros p. rewrite canonicalize_elem, list_elem_of_bind, !list_elem_of_fmap.
    setoid_rewrite <- Hp. set_solver. }
  assert (edges ≠ []) as Hen by (intros E; rewrite E in Hp; by apply Permutation_nil_l in Hp).
  split_and!; auto.
  - apply (std_sort_sorted edge_less id).
  - by rewrite Hp.
  - apply participants_are_canonical_spec, canonicalize_ascending.
  - intros p Hin. apply Hm in Hin. rewrite Forall_forall in Hf.
    rewrite !list_elem_of_fmap in Hin.
    destruct Hin as [(e & -> & He)|(e & -> & He)]; destruct (Hf e He) as (?&?&?&?&?&?); auto.
  - rewrite <- Hp. apply max_run_degree; [|by rewrite sources_length, Hp].
    by intros E%fmap_nil_inv.
  - rewrite <- Hp. apply max_run_degree; [|by rewrite destinations_length, Hp].
    by intros E%fmap_nil_inv.
  - rewrite foldl_w64_sum by (unfold is_u64; lia). done.
  - rewrite foldl_w32_count by (rewrite ?Hp; lia). by rewrite Hp.
Qed.

Lemma construct_flow_group_correct_witness :
  ∃ g, construct_flow_group demo_plan demo_members = Ok g ∧
       fg_edges g ≡ₚ demo_edges ∧ plan_valid demo_plan demo_members.
Proof.
  destruct (construct_flow_group demo_plan demo_members) as [g|] eqn:E;
    [|vm_compute in E; discriminate].
  exists g. destruct (construct_flow_group_correct _ _ _ E) as (H1 & H2 & _).
  split; [reflexivity|]. split; [exact H2 | exact H1].
Defined.
