(* ===== verification/Traffic.v ===== *)
(** Traffic classes, policies and the token bucket
    ([include/ctf/traffic.hpp], [src/traffic.cpp]).

    The theorems show that the documented default policy is valid and classifies every known
    collective, that a refill computes [min burst (tokens + rate * elapsed / 1000)], that no
    sequence of requests is granted more than the burst plus the rate over the elapsed time,
    and that the advertised delay is exactly the time after which the request is granted. *)
From S2P Require Import Prelude Identity Errors Collective.

Module TrafficClass.
Inductive TrafficClass :=
  | kUnclassified | kLatencyCritical | kControlPlane | kBulkData | kBestEffortBulk
  | kBackground | kIsolated | kProbe.
Definition TrafficClass_raw (v : TrafficClass) : Z :=
  match v with
  | kUnclassified => 0
  | kLatencyCritical => 1
  | kControlPlane => 2
  | kBulkData => 3
  | kBestEffortBulk => 4
  | kBackground => 5
  | kIsolated => 6
  | kProbe => 7
  end.
Definition TrafficClass_to_string (v : TrafficClass) : string :=
  match v with
  | kUnclassified => "unclassified"
  | kLatencyCritical => "latency_critical"
  | kControlPlane => "control_plane"
  | kBulkData => "bulk_data"
  | kBestEffortBulk => "best_effort_bulk"
  | kBackground => "background"
  | kIsolated => "isolated"
  | kProbe => "probe"
  end.
Definition TrafficClass_table : list (string * TrafficClass) :=
  [("unclassified", kUnclassified);
   ("latency_critical", kLatencyCritical);
   ("control_plane", kControlPlane);
   ("bulk_data", kBulkData);
   ("best_effort_bulk", kBestEffortBulk);
   ("background", kBackground);
   ("isolated", kIsolated);
   ("probe", kProbe)].
Definition traffic_class_from_string (text : string) : option TrafficClass :=
  table_lookup TrafficClass_table text.
#[global] Instance TrafficClass_eq_dec : EqDecision TrafficClass.
Proof. solve_decision. Defined.
#[global, refine] Instance TrafficClass_enum : WireEnum TrafficClass :=
  {| enum_raw := TrafficClass_raw;
     enum_all :=
       [kUnclassified; kLatencyCritical; kControlPlane; kBulkData; kBestEffortBulk;
       kBackground; kIsolated; kProbe] |}.
Proof. by intros []. Defined.
#[global, refine] Instance TrafficClass_text : TextEnum TrafficClass :=
  {| enum_text := TrafficClass_to_string; enum_table := TrafficClass_table |}.
Proof. by intros []. by repeat constructor. Defined.
End TrafficClass.
Abbreviation TrafficClass := TrafficClass.TrafficClass.

Definition traffic_class_strength (value : TrafficClass) : Z :=
  match value with
  | TrafficClass.kUnclassified => 0
  | TrafficClass.kBackground => 1
  | TrafficClass.kProbe => 2
  | TrafficClass.kBestEffortBulk => 3
  | TrafficClass.kBulkData => 4
  | TrafficClass.kControlPlane => 5
  | TrafficClass.kLatencyCritical => 6
  | TrafficClass.kIsolated => 7
  end.

Definition traffic_class_is_classified (value : TrafficClass) : bool :=
  negb (bool_decide (value = TrafficClass.kUnclassified)).

Module IsolationMode.
Inductive IsolationMode :=
  | kShared | kClassIsolated | kDedicatedPath.
Definition IsolationMode_raw (v : IsolationMode) : Z :=
  match v with
  | kShared => 0
  | kClassIsolated => 1
  | kDedicatedPath => 2
  end.
Definition IsolationMode_to_string (v : IsolationMode) : string :=
  match v with
  | kShared => "shared"
  | kClassIsolated => "class_isolated"
  | kDedicatedPath => "dedicated_path"
  end.
#[global] Instance IsolationMode_eq_dec : EqDecision IsolationMode.
Proof. solve_decision. Defined.
#[global, refine] Instance IsolationMode_enum : WireEnum IsolationMode :=
  {| enum_raw := IsolationMode_raw;
     enum_all :=
       [kShared; kClassIsolated; kDedicatedPath] |}.
Proof. by intros []. Defined.
End IsolationMode.
Abbreviation IsolationMode := IsolationMode.IsolationMode.

Module PacingMode.
Inductive PacingMode :=
  | kNone | kImmediate | kTokenBucket | kRateLimited | kShaped.
Definition PacingMode_raw (v : PacingMode) : Z :=
  match v with
  | kNone => 0
  | kImmediate => 1
  | kTokenBucket => 2
  | kRateLimited => 3
  | kShaped => 4
  end.
Definition PacingMode_to_string (v : PacingMode) : string :=
  match v with
  | kNone => "none"
  | kImmediate => "immediate"
  | kTokenBucket => "token_bucket"
  | kRateLimited => "rate_limited"
  | kShaped => "shaped"
  end.
#[global] Instance PacingMode_eq_dec : EqDecision PacingMode.
Proof. solve_decision. Defined.
#[global, refine] Instance PacingMode_enum : WireEnum PacingMode :=
  {| enum_raw := PacingMode_raw;
     enum_all :=
       [kNone; kImmediate; kTokenBucket; kRateLimited; kShaped] |}.
Proof. by intros []. Defined.
End PacingMode.
Abbreviation PacingMode := PacingMode.PacingMode.

Definition kUnlimitedRate : Z := 0xFFFFFFFFFFFFFFFF.
Definition kMaximumPriority : Z := 15.

(** ** Policies *)
Record TrafficClassPolicy := mkTrafficClassPolicy {
  tcp_traffic_class : TrafficClass;
  tcp_priority : Z;
  tcp_minimum_bandwidth_bps : Z;
  tcp_maximum_bandwidth_bps : Z;
  tcp_burst_bytes : Z;
  tcp_requires_simultaneous_start : bool;
  tcp_requires_evidence_freshness : bool;
  tcp_isolation : IsolationMode;
}.

#[export] Instance TrafficClassPolicy_eta : Eta TrafficClassPolicy :=
  fun r => mkTrafficClassPolicy (tcp_traffic_class r) (tcp_priority r)
    (tcp_minimum_bandwidth_bps r) (tcp_maximum_bandwidth_bps r) (tcp_burst_bytes r)
    (tcp_requires_simultaneous_start r) (tcp_requires_evidence_freshness r) (tcp_isolation r).

#[export] Instance TrafficClassPolicy_eq_dec : EqDecision TrafficClassPolicy.
Proof. solve_decision. Defined.

(** The two arrays of five entries. *)
Record CongestionResponseTable := mkCongestionResponseTable {
  crt_utilization_bps : list Z;
  crt_rate_numerator_per_mille : list Z;
}.

#[export] Instance CongestionResponseTable_eq_dec : EqDecision CongestionResponseTable.
Proof. solve_decision. Defined.

Definition kBucketCount : nat := 5.

Definition standard_congestion_response : CongestionResponseTable :=
  mkCongestionResponseTable [6000; 7500; 8500; 9500; 9900] [1000; 800; 600; 400; 150].

Record CollectiveClassPolicy := mkCollectiveClassPolicy {
  ccp_collective_class : CollectiveClass;
  ccp_traffic_class : TrafficClass;
  ccp_admit_when_unknown_semantics : bool;
  ccp_allow_member_override : bool;
  ccp_freshness_requirement_ms : Z;
}.

#[export] Instance CollectiveClassPolicy_eq_dec : EqDecision CollectiveClassPolicy.
Proof. solve_decision. Defined.

Record TrafficPolicy := mkTrafficPolicy {
  tp_generation : Identity;
  tp_class_policies : list TrafficClassPolicy;
  tp_collective_policies : list CollectiveClassPolicy;
  tp_congestion_response : CongestionResponseTable;
  tp_default_maximum_bandwidth_bps : Z;
  tp_burst_multiplier_per_mille : Z;
}.

#[export] Instance TrafficPolicy_eta : Eta TrafficPolicy :=
  fun r => mkTrafficPolicy (tp_generation r) (tp_class_policies r) (tp_collective_policies r)
    (tp_congestion_response r) (tp_default_maximum_bandwidth_bps r)
    (tp_burst_multiplier_per_mille r).

#[export] Instance TrafficPolicy_eq_dec : EqDecision TrafficPolicy.
Proof. solve_decision. Defined.

(** Reading position [i] of an array. *)
Definition array_at (l : list Z) (i : nat) : Z := List.nth i l 0.

Definition crt_check (t : CongestionResponseTable) (index : nat) : bool :=
  let u := array_at (crt_utilization_bps t) in
  let r := array_at (crt_rate_numerator_per_mille t) in
  negb ((u index =? 0) || (10000 <? u index)) &&
  negb ((r index =? 0) || (1000 <? r index)) &&
  negb ((0 <? Z.of_nat index) && (u index <=? u (index - 1)%nat)).

Definition crt_is_valid (t : CongestionResponseTable) : bool :=
  forallb (crt_check t) (seq 0 kBucketCount).

Definition find_class (p : TrafficPolicy) (value : TrafficClass) : option TrafficClassPolicy :=
  find_first (fun c => enum_raw (tcp_traffic_class c) =? enum_raw value) (tp_class_policies p).

Definition find_collective (p : TrafficPolicy) (value : CollectiveClass)
    : option CollectiveClassPolicy :=
  find_first (fun c => enum_raw (ccp_collective_class c) =? enum_raw value)
    (tp_collective_policies p).

(** The loop over the class policies with the array [seen_class]. *)
Fixpoint validate_classes (seen : gset Z) (l : list TrafficClassPolicy) : Status :=
  match l with
  | [] => status_ok
  | policy :: rest =>
      let raw := enum_raw (tcp_traffic_class policy) in
      if 16 <=? raw
      then mkStatus ErrorCode.kValidationClassUnknownRejected "unknown traffic class in policy"
      else if bool_decide (raw ∈ seen)
      then mkStatus ErrorCode.kDecodeDuplicateEntry "duplicate traffic class policy"
      else if kMaximumPriority <? tcp_priority policy
      then mkStatus ErrorCode.kValidationRateInvalid "traffic class priority out of range"
      else if negb (tcp_maximum_bandwidth_bps policy =? kUnlimitedRate) &&
              (tcp_maximum_bandwidth_bps policy <? tcp_minimum_bandwidth_bps policy)
      then mkStatus ErrorCode.kValidationRateInvalid "traffic class floor exceeds its ceiling"
      else if Z.shiftl 1 62 <? tcp_burst_bytes policy
      then mkStatus ErrorCode.kValidationRateInvalid "traffic class burst is absurd"
      else validate_classes ({[raw]} ∪ seen) rest
  end.

Definition policy_validate (p : TrafficPolicy) : Status :=
  if is_none (tp_generation p)
  then mkStatus ErrorCode.kValidationGenerationUnset "traffic policy has no generation"
  else if zlen (tp_class_policies p) =? 0
  then mkStatus ErrorCode.kValidationPolicyMissing "traffic policy has no class policies"
  else if enum_raw TrafficClass.kProbe + 1 <? zlen (tp_class_policies p)
  then mkStatus ErrorCode.kValidationPolicyMissing "traffic policy has too many class policies"
  else
    let status := validate_classes ∅ (tp_class_policies p) in
    if negb (is_ok status) then status
    else match find_class p TrafficClass.kUnclassified with
    | None => mkStatus ErrorCode.kValidationPolicyMissing
                "policy must state the unclassified class explicitly"
    | Some _ =>
    match find_collective p CollectiveClass.kUnknown with
    | None => mkStatus ErrorCode.kValidationPolicyMissing
                "policy must state the unknown collective class explicitly"
    | Some _ =>
        if negb (crt_is_valid (tp_congestion_response p))
        then mkStatus ErrorCode.kValidationRateInvalid
               "congestion response table is not monotonic"
        else if 1000 <? tp_burst_multiplier_per_mille p
        then mkStatus ErrorCode.kValidationRateInvalid "burst multiplier exceeds the whole rate"
        else if 16 <? zlen (tp_collective_policies p)
        then mkStatus ErrorCode.kValidationPolicyMissing
               "traffic policy has too many collective policies"
        else status_ok
    end
    end.

(** [TrafficPolicy::standard]: the documented default table. *)
Definition add_class (traffic_class : TrafficClass) (priority minimum maximum : Z)
    (simultaneous requires_freshness : bool) (isolation : IsolationMode) : TrafficClassPolicy :=
  mkTrafficClassPolicy traffic_class priority minimum maximum 0 simultaneous
    requires_freshness isolation.

Definition standard_policy (generation : Identity) : TrafficPolicy :=
  {| tp_generation := generation;
     tp_class_policies := [
       add_class TrafficClass.kUnclassified 0 0 0 false true IsolationMode.kShared;
       add_class TrafficClass.kLatencyCritical 15 100000000 40000000000 true true IsolationMode.kClassIsolated;
       add_class TrafficClass.kControlPlane 14 10000000 10000000000 false false IsolationMode.kClassIsolated;
       add_class TrafficClass.kBulkData 8 1000000000 kUnlimitedRate false true IsolationMode.kShared;
       add_class TrafficClass.kBestEffortBulk 5 0 50000000000 false true IsolationMode.kShared;
       add_class TrafficClass.kBackground 1 0 10000000000 false false IsolationMode.kShared;
       add_class TrafficClass.kIsolated 15 1000000000 kUnlimitedRate false true IsolationMode.kDedicatedPath;
       add_class TrafficClass.kProbe 3 0 100000000 false false IsolationMode.kShared];
     tp_collective_policies := [
       mkCollectiveClassPolicy CollectiveClass.kUnknown TrafficClass.kUnclassified false false 0;
       mkCollectiveClassPolicy CollectiveClass.kUnknownVendor TrafficClass.kUnclassified false false 0;
       mkCollectiveClassPolicy CollectiveClass.kAllReduce TrafficClass.kBulkData true true 2000;
       mkCollectiveClassPolicy CollectiveClass.kAllGather TrafficClass.kBulkData true true 2000;
       mkCollectiveClassPolicy CollectiveClass.kReduceScatter TrafficClass.kBulkData true true 2000;
       mkCollectiveClassPolicy CollectiveClass.kBroadcast TrafficClass.kBulkData true true 2000;
       mkCollectiveClassPolicy CollectiveClass.kGather TrafficClass.kBulkData true true 2000;
       mkCollectiveClassPolicy CollectiveClass.kScatter TrafficClass.kBulkData true true 2000;
       mkCollectiveClassPolicy CollectiveClass.kAllToAll TrafficClass.kBulkData true true 2000;
       mkCollectiveClassPolicy CollectiveClass.kPointToPoint TrafficClass.kBestEffortBulk true true 2000;
       mkCollectiveClassPolicy CollectiveClass.kBarrierOnly TrafficClass.kLatencyCritical true false 500;
       mkCollectiveClassPolicy CollectiveClass.kSendRecvGrouped TrafficClass.kBestEffortBulk true true 2000;
       mkCollectiveClassPolicy CollectiveClass.kReduce TrafficClass.kBulkData true true 2000;
       mkCollectiveClassPolicy CollectiveClass.kScan TrafficClass.kBulkData true true 2000;
       mkCollectiveClassPolicy CollectiveClass.kSendRecvSplit TrafficClass.kBestEffortBulk true true 2000];
     tp_congestion_response := standard_congestion_response;
     tp_default_maximum_bandwidth_bps := kUnlimitedRate;
     tp_burst_multiplier_per_mille := 250 |}.

(** ** Pacing intents *)
Record PacingIntent := mkPacingIntent {
  pi_mode : PacingMode;
  pi_flow_group : Identity;
  pi_instance : CollectiveInstance;
  pi_admitted_bandwidth_bps : Z;
  pi_ceiling_bandwidth_bps : Z;
  pi_burst_bytes : Z;
  pi_utilization_bps : Z;
  pi_release_after_monotonic_ms : Z;
  pi_reason_code : Identity;
}.

#[export] Instance PacingIntent_eta : Eta PacingIntent :=
  fun r => mkPacingIntent (pi_mode r) (pi_flow_group r) (pi_instance r)
    (pi_admitted_bandwidth_bps r) (pi_ceiling_bandwidth_bps r) (pi_burst_bytes r)
    (pi_utilization_bps r) (pi_release_after_monotonic_ms r) (pi_reason_code r).

#[export] Instance PacingIntent_eq_dec : EqDecision PacingIntent.
Proof. solve_decision. Defined.

(** ** Token bucket *)
Record TokenBucketState := mkTokenBucketState {
  tb_tokens : Z;
  tb_last_refill_monotonic_ms : Z;
  tb_rate_bps : Z;
  tb_burst_bytes : Z;
  tb_initialized : bool;
}.

#[export] Instance TokenBucketState_eta : Eta TokenBucketState :=
  fun r => mkTokenBucketState (tb_tokens r) (tb_last_refill_monotonic_ms r) (tb_rate_bps r)
    (tb_burst_bytes r) (tb_initialized r).

#[export] Instance TokenBucketState_eq_dec : EqDecision TokenBucketState.
Proof. solve_decision. Defined.

Definition tb_empty : TokenBucketState := mkTokenBucketState 0 0 0 0 false.

(** The tokens gained over [elapsed_ms], as the 64-bit computation of [refill]. *)
Definition refill_gained (rate_bps burst_bytes elapsed_ms : Z) : Z :=
  let quotient := rate_bps / 1000 in
  let remainder := rate_bps mod 1000 in
  let gained := w64 (quotient * elapsed_ms) in
  if negb (gained / elapsed_ms =? quotient) then burst_bytes
  else
    let gained := w64 (gained + w64 (remainder * elapsed_ms) / 1000) in
    if gained <? w64 (quotient * elapsed_ms) then burst_bytes else gained.

Definition refill (state : TokenBucketState) (clock_now_ms rate_bps burst_bytes : Z)
    : TokenBucketState * Status :=
  if rate_bps =? kUnlimitedRate then
    (mkTokenBucketState burst_bytes clock_now_ms kUnlimitedRate burst_bytes true, status_ok)
  else if rate_bps =? 0 then
    (state, mkStatus ErrorCode.kAdmissionBucketUnset "token bucket has no rate")
  else if negb (tb_initialized state) then
    (mkTokenBucketState burst_bytes clock_now_ms rate_bps burst_bytes true, status_ok)
  else if clock_now_ms <? tb_last_refill_monotonic_ms state then
    (state, mkStatus ErrorCode.kAdmissionClockRegression
              "monotonic clock moved backwards; refusing to grant tokens")
  else
    let elapsed_ms := clock_now_ms - tb_last_refill_monotonic_ms state in
    let state := state <| tb_rate_bps := rate_bps |> <| tb_burst_bytes := burst_bytes |> in
    let state :=
      if negb (elapsed_ms =? 0) then
        let gained := refill_gained rate_bps burst_bytes elapsed_ms in
        let capped := if burst_bytes <? gained then burst_bytes else gained in
        let headroom :=
          if burst_bytes <=? tb_tokens state then 0 else burst_bytes - tb_tokens state in
        let added := if headroom <? capped then headroom else capped in
        state <| tb_tokens := w64 (tb_tokens state + added) |>
              <| tb_last_refill_monotonic_ms := clock_now_ms |>
      else state in
    let state :=
      if burst_bytes <? tb_tokens state then state <| tb_tokens := burst_bytes |> else state in
    (state, status_ok).

Definition try_consume (state : TokenBucketState) (clock_now_ms bytes rate_bps burst_bytes : Z)
    : TokenBucketState * Status :=
  let '(state, status) := refill state clock_now_ms rate_bps burst_bytes in
  if negb (is_ok status) then (state, status)
  else if tb_rate_bps state =? kUnlimitedRate then (state, status_ok)
  else if bytes <=? tb_tokens state
  then (state <| tb_tokens := tb_tokens state - bytes |>, status_ok)
  else (state, mkStatus ErrorCode.kAdmissionRateLimited
                 "token bucket is empty for this request").

Definition delay_until_available_ms (state : TokenBucketState) (bytes : Z) : Z :=
  if tb_rate_bps state =? kUnlimitedRate then 0
  else if tb_rate_bps state =? 0 then 0
  else if bytes <=? tb_tokens state then 0
  else
    let deficit := bytes - tb_tokens state in
    let milliseconds :=
      w64 (w64 (w64 (deficit * 1000) + tb_rate_bps state) - 1) / tb_rate_bps state in
    if milliseconds =? 0 then 1 else milliseconds.

(** ** The bucket's arithmetic *)
Section bucket.
Context (rate burst : Z).
Hypothesis Hrate : is_u64 rate.
Hypothesis Hburst : is_u64 burst.

Lemma refill_gained_bounds elapsed :
  0 < elapsed < two64 →
  Z.min burst (refill_gained rate burst elapsed) ≤ Z.min burst (rate * elapsed / 1000) ∧
  0 ≤ refill_gained rate burst elapsed ∧
  ((rate mod 1000) * elapsed < two64 →
   Z.min burst (refill_gained rate burst elapsed) = Z.min burst (rate * elapsed / 1000)).
Proof.
  intros He. unfold is_u64 in *. unfold refill_gained.
  pose proof (Z.div_mod rate 1000 ltac:(lia)) as Hdm.
  pose proof (Z.mod_pos_bound rate 1000 ltac:(lia)) as Hr.
  assert (0 ≤ rate / 1000) as Hq by (apply Z.div_pos; lia).
  set (q := rate / 1000) in *. set (r := rate mod 1000) in *.
  assert (rate * elapsed / 1000 = q * elapsed + r * elapsed / 1000) as ->.
  { rewrite Hdm. replace ((1000 * q + r) * elapsed) with (q * elapsed * 1000 + r * elapsed) by lia.
    rewrite Z.div_add_l by lia. done. }
  assert (0 ≤ q * elapsed) as Hx by nia. assert (0 ≤ r * elapsed) as Hre by nia.
  pose proof (w64_range (r * elapsed)) as Hw. unfold is_u64 in Hw.
  assert (w64 (r * elapsed) ≤ r * elapsed) as Hwle by (apply Z.mod_le; lia).
  assert (w64 (r * elapsed) / 1000 ≤ r * elapsed / 1000) as Hyle by (apply Z.div_le_mono; lia).
  assert (0 ≤ w64 (r * elapsed) / 1000 < two64) as Hy.
  { split; [apply Z.div_pos; lia|]. apply Z.div_lt_upper_bound; lia. }
  set (y := w64 (r * elapsed) / 1000) in *. set (z := r * elapsed / 1000) in *.
  destruct (decide (q * elapsed < two64)) as [Hlt|Hge].
  - rewrite (w64_small (q * elapsed)) by (unfold is_u64; lia).
    rewrite Z.div_mul by lia. rewrite Z.eqb_refl. cbn [negb].
    assert (r * elapsed < two64 → y = z) as Hyz.
    { intros Hs. unfold y, z. by rewrite w64_small by (unfold is_u64; lia). }
    destruct (decide (q * elapsed + y < two64)) as [Hs|Hs].
    + rewrite w64_small by (unfold is_u64; lia).
      rewrite (proj2 (Z.ltb_ge _ _)) by lia. lia.
    + replace (w64 (q * elapsed + y)) with (q * elapsed + y - two64) by
        (unfold w64; rewrite <- (Z.mod_small (q * elapsed + y - two64) two64) by lia;
         by rewrite Zminus_mod, Z_mod_same_full, Z.sub_0_r, Zmod_mod).
      rewrite (proj2 (Z.ltb_lt _ _)) by lia. lia.
  - assert (w64 (q * elapsed) / elapsed < q) as Hn.
    { apply Z.div_lt_upper_bound; [lia|].
      pose proof (w64_range (q * elapsed)) as Hw2. unfold is_u64 in Hw2. lia. }
    rewrite (proj2 (Z.eqb_neq _ _)) by lia. cbn [negb].
    assert (0 ≤ z) by (apply Z.div_pos; lia). lia.
Qed.

Hypothesis Hfinite : rate ≠ kUnlimitedRate.
Hypothesis Hnonzero : rate ≠ 0.

Definition bucket_wf (st : TokenBucketState) : Prop :=
  is_u64 (tb_tokens st) ∧ is_u64 (tb_last_refill_monotonic_ms st).

Lemma refill_spec st now :
  bucket_wf st → tb_initialized st = true → is_u64 now →
  tb_last_refill_monotonic_ms st ≤ now →
  ∃ t, refill st now rate burst = (mkTokenBucketState t now rate burst true, status_ok) ∧
    0 ≤ t ≤ Z.min burst (tb_tokens st + rate * (now - tb_last_refill_monotonic_ms st) / 1000) ∧
    ((rate mod 1000) * (now - tb_last_refill_monotonic_ms st) < two64 →
     t = Z.min burst (tb_tokens st + rate * (now - tb_last_refill_monotonic_ms st) / 1000)).
Proof.
  destruct st as [tok last r0 b0 ini]. unfold bucket_wf. simpl.
  intros [Ht Hl] -> Hn Hle. unfold is_u64 in *. unfold refill. cbn [tb_initialized].
  rewrite (proj2 (Z.eqb_neq _ _)) by done. rewrite (proj2 (Z.eqb_neq _ _)) by done.
  cbn [negb tb_last_refill_monotonic_ms]. rewrite (proj2 (Z.ltb_ge _ _)) by lia. cbn.
  destruct (now - last =? 0) eqn:E; bool_prop; cbn.
  - assert (now = last) as -> by lia. rewrite Z.sub_diag, Z.mul_0_r.
    change (0 / 1000) with 0. rewrite Z.add_0_r.
    destruct (burst <? tok) eqn:E2; bool_prop; cbn; eexists; (split; [reflexivity|]); cbn; lia.
  - destruct (refill_gained_bounds (now - last) ltac:(lia)) as (H1 & H2 & H3).
    set (g := refill_gained rate burst (now - last)) in *.
    set (x := rate * (now - last) / 1000) in *.
    set (rx := rate mod 1000 * (now - last)) in *. clearbody g x rx. clear E.
    assert (∀ h c, (if h <? c then h else c) = Z.min h c) as Hmin.
    { intros h c. destruct (h <? c) eqn:E; bool_prop; lia. }
    rewrite (Hmin burst g), Hmin.
    destruct (burst <=? tok) eqn:E2; bool_prop; rewrite w64_small by (unfold is_u64; lia).
    + destruct (burst <? _) eqn:E3; bool_prop; cbn; eexists; (split; [reflexivity|]); cbn; lia.
    + destruct (burst <? _) eqn:E3; bool_prop; cbn; eexists; (split; [reflexivity|]); cbn; lia.
Qed.

Lemma try_consume_spec st now bytes :
  bucket_wf st → tb_initialized st = true → is_u64 now →
  tb_last_refill_monotonic_ms st ≤ now →
  ∃ t, 0 ≤ t ≤ Z.min burst (tb_tokens st + rate * (now - tb_last_refill_monotonic_ms st) / 1000) ∧
    ((rate mod 1000) * (now - tb_last_refill_monotonic_ms st) < two64 →
     t = Z.min burst (tb_tokens st + rate * (now - tb_last_refill_monotonic_ms st) / 1000)) ∧
    try_consume st now bytes rate burst =
      if bytes <=? t
      then (mkTokenBucketState (t - bytes) now rate burst true, status_ok)
      else (mkTokenBucketState t now rate burst true,
            mkStatus ErrorCode.kAdmissionRateLimited "token bucket is empty for this request").
Proof.
  intros Hw Hi Hn Hle. destruct (refill_spec st now Hw Hi Hn Hle) as (t & Hr & Hb & Hx).
  exists t. split; [exact Hb|]. split; [exact Hx|]. unfold try_consume. rewrite Hr. cbn.
  by rewrite (proj2 (Z.eqb_neq _ _)).
Qed.

(** A sequence of requests [(clock, bytes)] against one bucket, and the bytes granted. *)
Definition bucket_step (acc : TokenBucketState * Z) (req : Z * Z) : TokenBucketState * Z :=
  let '(st, status) := try_consume acc.1 req.1 req.2 rate burst in
  (st, if is_ok status then acc.2 + req.2 else acc.2).

Definition bucket_run (st : TokenBucketState) (reqs : list (Z * Z)) : TokenBucketState * Z :=
  foldl bucket_step (st, 0) reqs.

Definition bucket_inv (t0 : Z) (acc : TokenBucketState * Z) : Prop :=
  bucket_wf acc.1 ∧ tb_initialized acc.1 = true ∧
  t0 ≤ tb_last_refill_monotonic_ms acc.1 ∧
  1000 * (acc.2 + tb_tokens acc.1) ≤
    1000 * burst + rate * (tb_last_refill_monotonic_ms acc.1 - t0).

Lemma bucket_step_inv t0 acc req :
  is_u64 req.1 → is_u64 req.2 → bucket_inv t0 acc → bucket_inv t0 (bucket_step acc req).
Proof.
  destruct acc as [st g], req as [now bytes]. unfold bucket_inv, bucket_step. simpl.
  intros Hn Hb (Hw & Hi & Hl & Hc).
  destruct (decide (tb_last_refill_monotonic_ms st ≤ now)) as [Hle|Hgt].
  - destruct (try_consume_spec st now bytes Hw Hi Hn Hle) as (t & Ht & _ & ->).
    set (el := now - tb_last_refill_monotonic_ms st) in *.
    assert (1000 * (rate * el / 1000) ≤ rate * el) as Hd by (apply Z.mul_div_le; lia).
    assert (rate * (now - t0) = rate * (tb_last_refill_monotonic_ms st - t0) + rate * el) as Hm
      by (unfold el; lia).
    assert (0 ≤ rate * el) as H0 by (unfold is_u64 in Hrate; nia).
    unfold bucket_wf, is_u64 in *.
    destruct (bytes <=? t) eqn:E; bool_prop; eval_ok; cbn; split_and!; done || lia.
  - unfold try_consume, refill. rewrite (proj2 (Z.eqb_neq rate _)) by done.
    rewrite (proj2 (Z.eqb_neq rate _)) by done. rewrite Hi. cbn [negb].
    rewrite (proj2 (Z.ltb_lt _ _)) by lia. by cbn.
Qed.

Lemma bucket_run_inv t0 acc reqs :
  Forall (fun q => is_u64 q.1 ∧ is_u64 q.2) reqs → bucket_inv t0 acc →
  bucket_inv t0 (foldl bucket_step acc reqs).
Proof.
  intros Hq. revert acc. induction Hq as [|q reqs [H1 H2] Hq IH]; intros acc Ha; [done|].
  simpl. by apply IH, bucket_step_inv.
Qed.

Lemma bucket_first_inv t0 b0 :
  is_u64 t0 → is_u64 b0 → bucket_inv t0 (bucket_step (tb_empty, 0) (t0, b0)).
Proof.
  intros Ht Hb. unfold bucket_step, try_consume, refill.
  cbn [fst snd tb_initialized tb_empty negb].
  rewrite (proj2 (Z.eqb_neq rate _)) by done.
  rewrite (proj2 (Z.eqb_neq rate _)) by done. eval_ok. cbn [tb_rate_bps negb].
  rewrite (proj2 (Z.eqb_neq rate _)) by done. cbn [tb_tokens].
  unfold bucket_inv, bucket_wf, is_u64 in *.
  destruct (b0 <=? burst) eqn:E; bool_prop; eval_ok; cbn; split_and!; done || lia.
Qed.

Lemma ceil_div_least deficit n :
  0 < deficit → rate * n < deficit * 1000 ↔ n < (deficit * 1000 + rate - 1) / rate.
Proof.
  intros Hd. assert (0 < rate) as Hr by (unfold is_u64 in Hrate; lia). split; intros H.
  - assert (n + 1 ≤ (deficit * 1000 + rate - 1) / rate); [|lia].
    apply Z.div_le_lower_bound; lia.
  - destruct (decide (rate * n < deficit * 1000)); [done|]. exfalso.
    assert ((deficit * 1000 + rate - 1) / rate ≤ n); [|lia].
    apply Z.lt_succ_r. apply Z.div_lt_upper_bound; lia.
Qed.
End bucket.

(** ** Properties *)

(** The production policy is valid for every generation that is set, gives every
    collective class an entry, classifies every known class with a traffic class that has a
    policy of its own, and keeps the two unknown classes unclassified and not admitted. *)
Theorem standard_policy_correct (generation : Identity) :
  generation ≠ id_none →
  policy_validate (standard_policy generation) = status_ok ∧
  ∀ c, ∃ p t, find_collective (standard_policy generation) c = Some p ∧
    ccp_collective_class p = c ∧
    find_class (standard_policy generation) (ccp_traffic_class p) = Some t ∧
    tcp_traffic_class t = ccp_traffic_class p ∧
    traffic_class_is_classified (ccp_traffic_class p) = is_known_collective_class c ∧
    ccp_admit_when_unknown_semantics p = is_known_collective_class c.
Proof.
  intros Hg. split.
  - unfold policy_validate. cbn [tp_generation standard_policy].
    destruct (is_none generation) eqn:E; [by apply is_none_eq in E|]. vm_compute. done.
  - intros []; eexists _, _; (split; [vm_compute; reflexivity|]);
      (split; [reflexivity|]); (split; [vm_compute; reflexivity|]); by vm_compute.
Qed.

Lemma standard_policy_correct_witness :
  policy_validate (standard_policy (mkIdentity 0 1)) = status_ok.
Proof. apply (standard_policy_correct (mkIdentity 0 1)). discriminate. Defined.

(** A refill of an initialised bucket at a clock that did not go backwards sets the tokens
    to [min burst (tokens + rate * elapsed / 1000)] computed without overflow, for every
    64-bit rate and burst, as long as [(rate mod 1000) * elapsed] fits in 64 bits. *)
Theorem refill_exact (rate burst now : Z) (st : TokenBucketState) :
  is_u64 rate → is_u64 burst → is_u64 now → bucket_wf st → tb_initialized st = true →
  rate ≠ kUnlimitedRate → rate ≠ 0 → tb_last_refill_monotonic_ms st ≤ now →
  (rate mod 1000) * (now - tb_last_refill_monotonic_ms st) < two64 →
  refill st now rate burst =
    (mkTokenBucketState
       (Z.min burst (tb_tokens st + rate * (now - tb_last_refill_monotonic_ms st) / 1000))
       now rate burst true, status_ok).
Proof.
  intros H1 H2 H3 H4 H5 H6 H7 H8 H9.
  destruct (refill_spec rate burst H1 H2 H6 H7 st now H4 H5 H3 H8) as (t & -> & _ & Ht).
  by rewrite Ht.
Qed.

Lemma refill_exact_witness :
  refill (mkTokenBucketState 5 100 0 0 true) 1100 18446744073709551000 9000 =
    (mkTokenBucketState 9000 1100 18446744073709551000 9000 true, status_ok).
Proof.
  rewrite refill_exact; [done|..]; unfold bucket_wf, is_u64, kUnlimitedRate; simpl;
    try lia; done.
Defined.

(** C34: no sequence of requests against a bucket, at any clocks and of any sizes, is granted
    more than the burst plus the rate over the time between the first request and the last
    accepted clock; a clock that goes backwards is granted nothing. *)
Theorem bucket_conservation (rate burst t0 b0 : Z) (reqs : list (Z * Z)) :
  is_u64 rate → is_u64 burst → rate ≠ kUnlimitedRate → rate ≠ 0 →
  is_u64 t0 → is_u64 b0 → Forall (fun q => is_u64 q.1 ∧ is_u64 q.2) reqs →
  let '(st, granted) := bucket_run rate burst tb_empty ((t0, b0) :: reqs) in
  t0 ≤ tb_last_refill_monotonic_ms st ∧
  1000 * granted ≤ 1000 * burst + rate * (tb_last_refill_monotonic_ms st - t0).
Proof.
  intros H1 H2 H3 H4 H5 H6 H7.
  pose proof (bucket_run_inv rate burst H1 H2 H3 H4 t0
    (bucket_step rate burst (tb_empty, 0) (t0, b0)) reqs H7
    (bucket_first_inv rate burst H1 H2 H3 H4 t0 b0 H5 H6)) as Hinv.
  unfold bucket_run. simpl foldl. destruct (foldl _ _ _) as [st g].
  destruct Hinv as ([Ht _] & _ & Hl & Hc). simpl in *. unfold is_u64 in Ht. lia.
Qed.

Lemma bucket_conservation_witness :
  ∃ st granted,
    bucket_run 1000 50 tb_empty [(10, 40); (20, 40); (5, 1); (40, 20)] = (st, granted) ∧
    granted = 60 ∧ 1000 * granted ≤ 1000 * 50 + 1000 * (tb_last_refill_monotonic_ms st - 10).
Proof.
  assert (Forall (fun q => is_u64 q.1 ∧ is_u64 q.2) [(20, 40); (5, 1); (40, 20)]) as Hq
    by (repeat constructor; simpl; lia).
  pose proof (bucket_conservation 1000 50 10 40 [(20, 40); (5, 1); (40, 20)]
    ltac:(unfold is_u64; lia) ltac:(unfold is_u64; lia) ltac:(unfold kUnlimitedRate; lia)
    ltac:(lia) ltac:(unfold is_u64; lia) ltac:(unfold is_u64; lia) Hq) as H.
  destruct (bucket_run 1000 50 tb_empty _) as [st g] eqn:E.
  exists st, g. split; [done|]. split; [|exact (proj2 H)].
  vm_compute in E. by injection E.
Defined.

(** The advertised delay is exact: when a request no larger than the burst does not fit
    now, waiting [delay_until_available_ms] milliseconds makes [try_consume] grant it, and
    any shorter wait does not, provided the delay's numerator fits in 64 bits. *)
Theorem delay_exact (st : TokenBucketState) (bytes : Z) :
  let rate := tb_rate_bps st in
  let burst := tb_burst_bytes st in
  let last := tb_last_refill_monotonic_ms st in
  let delay := delay_until_available_ms st bytes in
  bucket_wf st → is_u64 rate → is_u64 burst → tb_initialized st = true →
  rate ≠ kUnlimitedRate → rate ≠ 0 → tb_tokens st < bytes ≤ burst →
  (bytes - tb_tokens st) * 1000 + rate < two64 → is_u64 (last + delay) →
  is_ok (try_consume st (last + delay) bytes rate burst).2 = true ∧
  ∀ wait, 0 ≤ wait < delay → is_ok (try_consume st (last + wait) bytes rate burst).2 = false.
Proof.
  intros rate burst last delay Hw Hr Hb Hi Hf Hz Hbytes Hnum Hlast.
  assert (0 < rate) as Hpos by (unfold is_u64 in Hr; lia).
  assert (0 ≤ tb_tokens st) as Htok by (destruct Hw as [[]]; lia).
  set (deficit := bytes - tb_tokens st) in *.
  assert (delay = (deficit * 1000 + rate - 1) / rate) as Hd.
  { unfold delay, delay_until_available_ms. fold rate. fold deficit.
    rewrite (proj2 (Z.eqb_neq rate _)) by done. rewrite (proj2 (Z.eqb_neq rate _)) by done.
    rewrite (proj2 (Z.leb_gt _ _)) by lia. 
    rewrite (w64_small (deficit * 1000)) by (unfold is_u64; lia).
    rewrite (w64_small (deficit * 1000 + rate)) by (unfold is_u64; lia).
    rewrite w64_small by (unfold is_u64; lia).
    rewrite (proj2 (Z.eqb_neq _ 0)); [done|].
    assert (1 ≤ (deficit * 1000 + rate - 1) / rate); [|lia].
    apply Z.div_le_lower_bound; lia. }
  assert (0 ≤ delay) as Hd0 by (rewrite Hd; apply Z.div_pos; lia).
  assert (rate * delay < two64) as Hov.
  { assert (rate * ((deficit * 1000 + rate - 1) / rate) ≤ deficit * 1000 + rate - 1)
      by (apply Z.mul_div_le; lia). rewrite Hd. lia. }
  assert (0 ≤ rate mod 1000 ≤ rate) as Hmod.
  { split; [apply Z.mod_pos_bound; lia | apply Z.mod_le; lia]. }
  assert (∀ wait, 0 ≤ wait ≤ delay →
    is_ok (try_consume st (last + wait) bytes rate burst).2 = (delay <=? wait)) as Hall.
  { intros wait Hwait. assert (is_u64 (last + wait)) as Hn.
    { destruct Hw as [_ Hl]. unfold is_u64 in *. fold last in Hl. lia. }
    destruct (try_consume_spec rate burst Hr Hb Hf Hz st (last + wait) bytes Hw Hi Hn
      ltac:(fold last; lia)) as (t & _ & Ht & ->).
    fold last in Ht. replace (last + wait - last) with wait in Ht by lia.
    rewrite Ht by nia. clear Ht.
    pose proof (ceil_div_least rate Hr Hz deficit wait ltac:(lia)) as Hc.
    rewrite <- Hd in Hc.
    destruct (delay <=? wait) eqn:E; bool_prop.
    - assert (deficit ≤ rate * wait / 1000) by (apply Z.div_le_lower_bound; lia).
      by rewrite (proj2 (Z.leb_le _ _)) by lia.
    - assert (rate * wait / 1000 < deficit) by (apply Z.div_lt_upper_bound; lia).
      by rewrite (proj2 (Z.leb_gt _ _)) by lia. }
  split.
  - rewrite Hall by lia. apply Z.leb_le. lia.
  - intros wait Hwait. rewrite Hall by lia. apply Z.leb_gt. lia.
Qed.

Lemma delay_exact_witness :
  let st := mkTokenBucketState 1 10 700 50 true in
  delay_until_available_ms st 8 = 10 ∧
  is_ok (try_consume st 20 8 700 50).2 = true.
Proof.
  split; [reflexivity|].
  apply (delay_exact (mkTokenBucketState 1 10 700 50 true) 8);
    unfold bucket_wf, is_u64, kUnlimitedRate; cbn; try lia; done.
Defined.

(** The state after [n] refills one millisecond apart. *)
Fixpoint poll (n : nat) (rate burst : Z) (st : TokenBucketState) : TokenBucketState :=
  match n with
  | O => st
  | S n' =>
      let st := poll n' rate burst st in
      (refill st (tb_last_refill_monotonic_ms st + 1) rate burst).1
  end.

(** A bucket with a rate below one byte per millisecond that is polled every millisecond
    never refills: each refill rounds its gain down to zero and still advances the clock, so
    a request larger than the tokens at the start is refused however long it is retried. *)
Theorem slow_bucket_starves (n : nat) (rate burst bytes : Z) (st : TokenBucketState) :
  bucket_wf st → tb_initialized st = true → is_u64 burst → 0 < rate < 1000 →
  tb_tokens st ≤ burst → tb_last_refill_monotonic_ms st + Z.of_nat n + 1 < two64 →
  tb_tokens st < bytes →
  let st' := poll n rate burst st in
  tb_tokens st' = tb_tokens st ∧
  tb_last_refill_monotonic_ms st' = tb_last_refill_monotonic_ms st + Z.of_nat n ∧
  is_ok (try_consume st' (tb_last_refill_monotonic_ms st' + 1) bytes rate burst).2 = false.
Proof.
  intros Hw Hi Hb Hr Htb Hn Hbytes. assert (is_u64 rate) as Hru by (unfold is_u64; lia).
  assert (rate ≠ kUnlimitedRate) as Hf by (unfold kUnlimitedRate; lia).
  assert (rate ≠ 0) as Hz by lia.
  assert (∀ s, bucket_wf s → tb_initialized s = true → tb_tokens s ≤ burst →
    tb_last_refill_monotonic_ms s + 1 < two64 →
    refill s (tb_last_refill_monotonic_ms s + 1) rate burst =
      (mkTokenBucketState (tb_tokens s) (tb_last_refill_monotonic_ms s + 1) rate burst true,
       status_ok)) as Hstep.
  { intros s [Hs1 Hs2] Hsi Hsb Hsl. unfold is_u64 in *.
    destruct (refill_spec rate burst Hru Hb Hf Hz s (tb_last_refill_monotonic_ms s + 1))
      as (t & -> & _ & Ht); [split; done|done|unfold is_u64; lia|lia|].
    replace (_ + 1 - _) with 1 in Ht by lia. rewrite Z.mul_1_r in Ht.
    rewrite Z.mul_1_r, (Z.div_small rate) in Ht by lia.
    rewrite Ht by (rewrite Z.mod_small; lia). do 2 f_equal. lia. }
  assert (tb_tokens (poll n rate burst st) = tb_tokens st ∧
    tb_last_refill_monotonic_ms (poll n rate burst st) =
      tb_last_refill_monotonic_ms st + Z.of_nat n ∧
    tb_initialized (poll n rate burst st) = true) as (H1 & H2 & H3).
  { clear Hbytes. induction n as [|n IH]; [simpl; split_and!; try done; lia|].
    destruct IH as (I1 & I2 & I3); [lia|]. cbn [poll].
    destruct Hw as [Hw1 Hw2]. unfold is_u64 in *.
    rewrite Hstep; [|unfold bucket_wf, is_u64; lia|done|lia|lia]. cbn. split_and!; [done|lia|done]. }
  cbv zeta. split_and!; [done|done|]. unfold try_consume.
  destruct Hw as [Hw1 Hw2]. unfold is_u64 in *.
  rewrite Hstep; [|unfold bucket_wf, is_u64; lia|done|lia|lia]. cbn [tb_rate_bps tb_tokens].
  eval_ok. cbn [negb]. rewrite (proj2 (Z.eqb_neq _ _)) by done.
  by rewrite (proj2 (Z.leb_gt _ _)) by lia.
Qed.

Lemma slow_bucket_starves_witness :
  tb_tokens (poll 100 999 50 (mkTokenBucketState 0 0 999 50 true)) = 0 ∧
  is_ok (try_consume (poll 100 999 50 (mkTokenBucketState 0 0 999 50 true)) 101 1 999 50).2
    = false.
Proof.
  destruct (slow_bucket_starves 100 999 50 1 (mkTokenBucketState 0 0 999 50 true))
    as (H1 & H2 & H3);
    [unfold bucket_wf, is_u64; cbn; lia | reflexivity | unfold is_u64; lia | lia |
     cbn; lia | cbn; lia | cbn; lia |].
  split; [exact H1|]. rewrite H2 in H3. exact H3.
Defined.
