(* ===== verification/Evidence.v ===== *)
(** Evidence and the frozen evaluation snapshot ([include/ctf/evidence.hpp],
    [include/ctf/snapshot.hpp], [src/evidence.cpp]).

    Topology, capacity and congestion evidence with their validation, the binary search they
    share, and the snapshot the decision engine reads.  The theorems show that the binary
    search over validated evidence is a lookup by key, and what validation guarantees. *)
From S2P Require Import Prelude Identity Errors Participant Traffic.

Module LinkClass.
Inductive LinkClass :=
  | kUnspecified | kIntraNode | kInterNode | kInterRack | kInterPod | kOversubscribed.
Definition LinkClass_raw (v : LinkClass) : Z :=
  match v with
  | kUnspecified => 0
  | kIntraNode => 1
  | kInterNode => 2
  | kInterRack => 3
  | kInterPod => 4
  | kOversubscribed => 5
  end.
Definition LinkClass_to_string (v : LinkClass) : string :=
  match v with
  | kUnspecified => "unspecified"
  | kIntraNode => "intra_node"
  | kInterNode => "inter_node"
  | kInterRack => "inter_rack"
  | kInterPod => "inter_pod"
  | kOversubscribed => "oversubscribed"
  end.
#[global] Instance LinkClass_eq_dec : EqDecision LinkClass.
Proof. solve_decision. Defined.
#[global, refine] Instance LinkClass_enum : WireEnum LinkClass :=
  {| enum_raw := LinkClass_raw;
     enum_all :=
       [kUnspecified; kIntraNode; kInterNode; kInterRack; kInterPod; kOversubscribed] |}.
Proof. by intros []. Defined.
End LinkClass.
Abbreviation LinkClass := LinkClass.LinkClass.

Module CongestionLevel.
Inductive CongestionLevel :=
  | kUnknown | kNone | kLow | kModerate | kHigh | kSevere.
Definition CongestionLevel_raw (v : CongestionLevel) : Z :=
  match v with
  | kUnknown => 0
  | kNone => 1
  | kLow => 2
  | kModerate => 3
  | kHigh => 4
  | kSevere => 5
  end.
Definition CongestionLevel_to_string (v : CongestionLevel) : string :=
  match v with
  | kUnknown => "unknown"
  | kNone => "none"
  | kLow => "low"
  | kModerate => "moderate"
  | kHigh => "high"
  | kSevere => "severe"
  end.
#[global] Instance CongestionLevel_eq_dec : EqDecision CongestionLevel.
Proof. solve_decision. Defined.
#[global, refine] Instance CongestionLevel_enum : WireEnum CongestionLevel :=
  {| enum_raw := CongestionLevel_raw;
     enum_all :=
       [kUnknown; kNone; kLow; kModerate; kHigh; kSevere] |}.
Proof. by intros []. Defined.
End CongestionLevel.
Abbreviation CongestionLevel := CongestionLevel.CongestionLevel.

Module EvidenceKind.
Inductive EvidenceKind :=
  | kTopology | kCapacity | kCongestion | kPeerLiveness.
Definition EvidenceKind_raw (v : EvidenceKind) : Z :=
  match v with
  | kTopology => 0
  | kCapacity => 1
  | kCongestion => 2
  | kPeerLiveness => 3
  end.
Definition EvidenceKind_to_string (v : EvidenceKind) : string :=
  match v with
  | kTopology => "topology"
  | kCapacity => "capacity"
  | kCongestion => "congestion"
  | kPeerLiveness => "peer_liveness"
  end.
#[global] Instance EvidenceKind_eq_dec : EqDecision EvidenceKind.
Proof. solve_decision. Defined.
#[global, refine] Instance EvidenceKind_enum : WireEnum EvidenceKind :=
  {| enum_raw := EvidenceKind_raw;
     enum_all :=
       [kTopology; kCapacity; kCongestion; kPeerLiveness] |}.
Proof. by intros []. Defined.
End EvidenceKind.
Abbreviation EvidenceKind := EvidenceKind.EvidenceKind.

Definition congestion_level_from_utilization_bps (utilization_bps : Z) : CongestionLevel :=
  if 9500 <=? utilization_bps then CongestionLevel.kSevere
  else if 8500 <=? utilization_bps then CongestionLevel.kHigh
  else if 7500 <=? utilization_bps then CongestionLevel.kModerate
  else if 6000 <=? utilization_bps then CongestionLevel.kLow
  else CongestionLevel.kNone.

(** ** Data *)
Record TopologyNode := mkTopologyNode {
  tn_id : Identity;
  tn_rack : Identity;
  tn_accelerator_attached : bool;
  tn_accelerator_count : Z;
}.

Record TopologyLink := mkTopologyLink {
  tl_id : Identity;
  tl_a : Identity;
  tl_b : Identity;
  tl_link_class : LinkClass;
  tl_capacity_bps : Z;
  tl_lanes : Z;
  tl_shared_oversubscribed : bool;
}.

Record TopologyEvidence := mkTopologyEvidence {
  te_generation : Identity;
  te_nodes : list TopologyNode;
  te_links : list TopologyLink;
  te_captured_monotonic_ms : Z;
  te_synthetic : bool;
}.

Record LinkCapacity := mkLinkCapacity {
  lc_link : Identity;
  lc_provisioned_bps : Z;
  lc_available_bps : Z;
  lc_utilization_bps : Z;
  lc_oversubscribed : bool;
  lc_oversubscription_ratio_per_mille : Z;
}.

Record CapacityEvidence := mkCapacityEvidence {
  ce_generation : Identity;
  ce_topology_generation : Identity;
  ce_links : list LinkCapacity;
  ce_captured_monotonic_ms : Z;
  ce_synthetic : bool;
}.

Record LinkCongestion := mkLinkCongestion {
  lg_link : Identity;
  lg_utilization_bps : Z;
  lg_queue_depth_bytes : Z;
  lg_ecn_marks_per_mille : Z;
  lg_pfc_pause_per_mille : Z;
  lg_level : CongestionLevel;
}.

Record CongestionEvidence := mkCongestionEvidence {
  ge_generation : Identity;
  ge_topology_generation : Identity;
  ge_links : list LinkCongestion;
  ge_captured_monotonic_ms : Z;
  ge_valid_for_ms : Z;
  ge_synthetic : bool;
}.

Record PeerLiveness := mkPeerLiveness {
  pr_participant : Identity;
  pr_incarnation : Identity;
  pr_state : ParticipantState;
  pr_last_seen_monotonic_ms : Z;
  pr_expires_at_monotonic_ms : Z;
  pr_node : Identity;
  pr_bound_session : Identity;
}.

#[export] Instance TopologyEvidence_eta : Eta TopologyEvidence :=
  fun r => mkTopologyEvidence (te_generation r) (te_nodes r) (te_links r)
    (te_captured_monotonic_ms r) (te_synthetic r).
#[export] Instance CapacityEvidence_eta : Eta CapacityEvidence :=
  fun r => mkCapacityEvidence (ce_generation r) (ce_topology_generation r) (ce_links r)
    (ce_captured_monotonic_ms r) (ce_synthetic r).
#[export] Instance CongestionEvidence_eta : Eta CongestionEvidence :=
  fun r => mkCongestionEvidence (ge_generation r) (ge_topology_generation r) (ge_links r)
    (ge_captured_monotonic_ms r) (ge_valid_for_ms r) (ge_synthetic r).
#[export] Instance PeerLiveness_eta : Eta PeerLiveness :=
  fun r => mkPeerLiveness (pr_participant r) (pr_incarnation r) (pr_state r)
    (pr_last_seen_monotonic_ms r) (pr_expires_at_monotonic_ms r) (pr_node r)
    (pr_bound_session r).

#[export] Instance TopologyNode_eq_dec : EqDecision TopologyNode.
Proof. solve_decision. Defined.
#[export] Instance TopologyLink_eq_dec : EqDecision TopologyLink.
Proof. solve_decision. Defined.
#[export] Instance LinkCapacity_eq_dec : EqDecision LinkCapacity.
Proof. solve_decision. Defined.
#[export] Instance LinkCongestion_eq_dec : EqDecision LinkCongestion.
Proof. solve_decision. Defined.
#[export] Instance PeerLiveness_eq_dec : EqDecision PeerLiveness.
Proof. solve_decision. Defined.

Definition pr_is_current (p : PeerLiveness) (now_monotonic_ms : Z) : bool :=
  bool_decide (pr_state p = ParticipantState.kLive) &&
  (now_monotonic_ms <? pr_expires_at_monotonic_ms p).

Definition pr_is_present (p : PeerLiveness) : bool :=
  negb (bool_decide (pr_state p = ParticipantState.kUnspecified)).

(** ** Lookup *)
Definition binary_find {T} (project : T → Identity) (items : list T) (key : Identity)
    : option T :=
  let position := lower_bound (fun item => project item <i key) items in
  match items !! position with
  | None => None
  | Some item => if negb (project item =i key) then None else Some item
  end.

Definition find_node (t : TopologyEvidence) (id : Identity) : option TopologyNode :=
  binary_find tn_id (te_nodes t) id.
Definition find_link (t : TopologyEvidence) (id : Identity) : option TopologyLink :=
  binary_find tl_id (te_links t) id.
Definition find_capacity (c : CapacityEvidence) (id : Identity) : option LinkCapacity :=
  binary_find lc_link (ce_links c) id.
Definition find_congestion (c : CongestionEvidence) (id : Identity) : option LinkCongestion :=
  binary_find lg_link (ge_links c) id.

(** ** Canonicalisation *)
Definition topology_canonicalize (t : TopologyEvidence) : TopologyEvidence :=
  t <| te_nodes ::= std_sort (on_key id_ltb tn_id) |>
    <| te_links ::= std_sort (on_key id_ltb tl_id) |>.
Definition capacity_canonicalize (c : CapacityEvidence) : CapacityEvidence :=
  c <| ce_links ::= std_sort (on_key id_ltb lc_link) |>.
Definition congestion_canonicalize (c : CongestionEvidence) : CongestionEvidence :=
  c <| ge_links ::= std_sort (on_key id_ltb lg_link) |>.

(** ** Validation *)

(** [index > 0 && !(previous < current)] *)
Definition not_ascending {T} (project : T → Identity) (prev : option T) (item : T) : bool :=
  match prev with
  | Some p => negb (project p <i project item)
  | None => false
  end.

Definition check_node (prev : option TopologyNode) (node : TopologyNode) : option Status :=
  if is_none (tn_id node)
  then Some (mkStatus ErrorCode.kValidationNodeUnknown
               "topology contains an unset node identity")
  else if not_ascending tn_id prev node
  then Some (mkStatus ErrorCode.kDecodeNonCanonical "topology nodes are not strictly ascending")
  else None.

Definition check_link (prev : option TopologyLink) (link : TopologyLink) : option Status :=
  if is_none (tl_id link)
  then Some (mkStatus ErrorCode.kValidationNodeUnknown
               "topology contains an unset link identity")
  else if not_ascending tl_id prev link
  then Some (mkStatus ErrorCode.kDecodeNonCanonical "topology links are not strictly ascending")
  else if tl_capacity_bps link =? 0
  then Some (mkStatus ErrorCode.kValidationCapacityNegative "topology link has no capacity")
  else if tl_lanes link =? 0
  then Some (mkStatus ErrorCode.kValidationCapacityNegative "topology link has zero lanes")
  else None.

Definition status_of (failure : option Status) : Status :=
  match failure with Some s => s | None => status_ok end.

Definition topology_validate (t : TopologyEvidence) : Status :=
  if is_none (te_generation t)
  then mkStatus ErrorCode.kValidationGenerationUnset "topology evidence has no generation"
  else if limits.kTopologyNodesMax <? zlen (te_nodes t)
  then mkStatus ErrorCode.kValidationNodeUnknown "topology exceeds the node bound"
  else if limits.kTopologyLinksMax <? zlen (te_links t)
  then mkStatus ErrorCode.kValidationNodeUnknown "topology exceeds the link bound"
  else match check_each check_node None (te_nodes t) with
  | Some s => s
  | None => status_of (check_each check_link None (te_links t))
  end.

Definition check_capacity (prev : option LinkCapacity) (entry : LinkCapacity) : option Status :=
  if is_none (lc_link entry)
  then Some (mkStatus ErrorCode.kValidationNodeUnknown
               "capacity evidence contains an unset link identity")
  else if not_ascending lc_link prev entry
  then Some (mkStatus ErrorCode.kDecodeNonCanonical
               "capacity entries are not strictly ascending")
  else if 10000 <? lc_utilization_bps entry
  then Some (mkStatus ErrorCode.kValidationCapacityNegative
               "capacity utilization exceeds 100 percent")
  else if lc_provisioned_bps entry =? 0
  then Some (mkStatus ErrorCode.kValidationCapacityNegative
               "capacity entry claims zero provisioned bandwidth")
  else if lc_provisioned_bps entry <? lc_available_bps entry
  then Some (mkStatus ErrorCode.kValidationCapacityNegative
               "capacity entry claims more available bandwidth than provisioned")
  else if lc_oversubscription_ratio_per_mille entry =? 0
  then Some (mkStatus ErrorCode.kValidationCapacityNegative
               "capacity entry claims an impossible oversubscription ratio")
  else None.

Definition capacity_validate (c : CapacityEvidence) : Status :=
  if is_none (ce_generation c)
  then mkStatus ErrorCode.kValidationGenerationUnset "capacity evidence has no generation"
  else if is_none (ce_topology_generation c)
  then mkStatus ErrorCode.kValidationGenerationUnset
         "capacity evidence has no topology generation"
  else if limits.kTopologyLinksMax <? zlen (ce_links c)
  then mkStatus ErrorCode.kValidationCapacityNegative "capacity evidence exceeds the link bound"
  else status_of (check_each check_capacity None (ce_links c)).

Definition check_congestion (prev : option LinkCongestion) (entry : LinkCongestion)
    : option Status :=
  if is_none (lg_link entry)
  then Some (mkStatus ErrorCode.kValidationNodeUnknown
               "congestion evidence contains an unset link identity")
  else if not_ascending lg_link prev entry
  then Some (mkStatus ErrorCode.kDecodeNonCanonical
               "congestion entries are not strictly ascending")
  else if 10000 <? lg_utilization_bps entry
  then Some (mkStatus ErrorCode.kValidationCapacityNegative
               "congestion utilization exceeds 100 percent")
  else if (1000 <? lg_ecn_marks_per_mille entry) || (1000 <? lg_pfc_pause_per_mille entry)
  then Some (mkStatus ErrorCode.kValidationRateInvalid "congestion counters exceed their scale")
  else if bool_decide (lg_level entry = CongestionLevel.kUnknown)
  then Some (mkStatus ErrorCode.kValidationClassUnknownRejected
               "congestion entry does not state a level; unknown is not evidence")
  else if negb (bool_decide (lg_level entry =
                  congestion_level_from_utilization_bps (lg_utilization_bps entry)))
  then Some (mkStatus ErrorCode.kDecodeNonCanonical
               "congestion entry level contradicts its own utilization")
  else None.

Definition congestion_validate (c : CongestionEvidence) : Status :=
  if is_none (ge_generation c)
  then mkStatus ErrorCode.kValidationGenerationUnset "congestion evidence has no generation"
  else if is_none (ge_topology_generation c)
  then mkStatus ErrorCode.kValidationGenerationUnset
         "congestion evidence has no topology generation"
  else if ge_valid_for_ms c =? 0
  then mkStatus ErrorCode.kValidationRateInvalid
         "congestion evidence states no validity window"
  else if 3600000 <? ge_valid_for_ms c
  then mkStatus ErrorCode.kValidationRateInvalid
         "congestion evidence claims an implausible validity window"
  else if limits.kTopologyLinksMax <? zlen (ge_links c)
  then mkStatus ErrorCode.kValidationCapacityNegative
         "congestion evidence exceeds the link bound"
  else status_of (check_each check_congestion None (ge_links c)).

(** ** The snapshot *)
Record FreshnessPolicy := mkFreshnessPolicy {
  fr_topology_max_age_ms : Z;
  fr_capacity_max_age_ms : Z;
  fr_congestion_max_age_ms : Z;
  fr_peer_liveness_max_age_ms : Z;
  fr_stale_requires_revalidation : bool;
}.

Definition default_freshness : FreshnessPolicy := mkFreshnessPolicy 60000 5000 2000 10000 true.

Definition max_age_ms (f : FreshnessPolicy) (kind : EvidenceKind) : Z :=
  match kind with
  | EvidenceKind.kTopology => fr_topology_max_age_ms f
  | EvidenceKind.kCapacity => fr_capacity_max_age_ms f
  | EvidenceKind.kCongestion => fr_congestion_max_age_ms f
  | EvidenceKind.kPeerLiveness => fr_peer_liveness_max_age_ms f
  end.

(** A [shared_ptr<const T>] is an [option T]. *)
Record EvaluationSnapshot := mkEvaluationSnapshot {
  es_epoch : Identity;
  es_policy_generation : Identity;
  es_topology_generation : Identity;
  es_capacity_generation : Identity;
  es_congestion_generation : Identity;
  es_topology : option TopologyEvidence;
  es_capacity : option CapacityEvidence;
  es_congestion : option CongestionEvidence;
  es_policy : option TrafficPolicy;
  es_peers : list PeerLiveness;
  es_freshness : FreshnessPolicy;
  es_now_monotonic_ms : Z;
  es_capacity_observation_available : bool;
  es_congestion_observation_available : bool;
  es_topology_available : bool;
  es_policy_available : bool;
}.

#[export] Instance EvaluationSnapshot_eta : Eta EvaluationSnapshot :=
  fun r => mkEvaluationSnapshot (es_epoch r) (es_policy_generation r)
    (es_topology_generation r) (es_capacity_generation r) (es_congestion_generation r)
    (es_topology r) (es_capacity r) (es_congestion r) (es_policy r) (es_peers r)
    (es_freshness r) (es_now_monotonic_ms r) (es_capacity_observation_available r)
    (es_congestion_observation_available r) (es_topology_available r) (es_policy_available r).

Definition find_peer (s : EvaluationSnapshot) (id : Identity) : option PeerLiveness :=
  binary_find pr_participant (es_peers s) id.

(** ** Binary search *)
Section search.
Context {T : Type} (project : T → Identity).

Abbreviation keys_ascending := (StronglySorted (fun a b => (project a <i project b) = true)).

Lemma ascending_partition items key :
  keys_ascending items →
  ∃ n, (n ≤ length items)%nat ∧
    ∀ i x, items !! i = Some x → (project x <i key) = bool_decide (i < n)%nat.
Proof.
  induction 1 as [|x items Hs (n & Hn & IH) Hx].
  - exists 0%nat. split; [done|]. by intros [|i] x.
  - destruct (project x <i key) eqn:E.
    + exists (S n). simpl. split; [lia|]. intros [|i] y Hy; simpl in Hy.
      * by simplify_eq.
      * rewrite (IH _ _ Hy). apply bool_decide_ext. lia.
    + exists 0%nat. split; [lia|]. intros i y Hy. rewrite bool_decide_eq_false_2 by lia.
      destruct i as [|i]; simpl in Hy; [by simplify_eq|].
      rewrite Forall_forall in Hx. specialize (Hx y (list_elem_of_lookup_2 _ _ _ Hy)).
      simpl in Hx. destruct (project y <i key) eqn:E2; [|done].
      by rewrite (st_trans _ _ _ Hx E2) in E.
Qed.

Lemma binary_find_Some items key x :
  keys_ascending items →
  binary_find project items key = Some x ↔ x ∈ items ∧ project x = key.
Proof.
  intros Hs. destruct (ascending_partition items key Hs) as (n & Hn & Hpart).
  unfold binary_find. rewrite (lower_bound_spec _ _ n Hpart Hn). split.
  - destruct (items !! n) as [y|] eqn:Ey; [|done].
    destruct (project y =i key) eqn:E; [|done]. simpl. intros [= <-].
    apply id_eqb_eq in E. split; [by eapply list_elem_of_lookup_2 | done].
  - intros [Hin <-]. apply list_elem_of_lookup in Hin as [i Hi].
    assert (i = n) as ->; [|by rewrite Hi, id_eqb_refl].
    pose proof (Hpart _ _ Hi) as Hb. rewrite st_irrefl in Hb. symmetry in Hb.
    apply bool_decide_eq_false in Hb. destruct (decide (i = n)); [done|].
    destruct (lookup_lt_is_Some_2 items n) as [y Hy];
      [apply lookup_lt_Some in Hi; lia|].
    pose proof (Hpart _ _ Hy) as Hb2. rewrite bool_decide_eq_false_2 in Hb2 by lia.
    pose proof (StronglySorted_lookup _ _ n i y x Hs ltac:(lia) Hy Hi) as Hlt.
    simpl in Hlt. congruence.
Qed.

Lemma binary_find_None items key :
  keys_ascending items →
  binary_find project items key = None ↔ ∀ x, x ∈ items → project x ≠ key.
Proof.
  intros Hs. rewrite eq_None_not_Some. split.
  - intros Hn x Hin Ex. apply Hn. exists x. by apply binary_find_Some.
  - intros Hn [x Hx]. apply binary_find_Some in Hx as [Hin Hk]; [|done]. by apply (Hn x).
Qed.

(** What a validation loop that includes the ascent test establishes. *)
Lemma check_each_ascending (check : option T → T → option Status) items :
  (∀ p x, check p x = None → not_ascending project p x = false) →
  check_each check None items = None → keys_ascending items.
Proof.
  intros Hc H. apply (Sorted_klt_strong id_ltb project).
  eapply check_each_Sorted; [|exact H]. intros y x Hyx. apply Hc in Hyx. simpl in Hyx.
  by apply negb_false_iff in Hyx.
Qed.
End search.

Lemma status_of_ok failure :
  (∀ s, failure = Some s → is_ok s = false) → is_ok (status_of failure) = true → failure = None.
Proof. intros Hf. destruct failure as [s|]; [simpl; intros H; by rewrite (Hf s) in H|done]. Qed.

(** Every failure of a validation loop is a failure of one of its checks. *)
Lemma check_each_fails {A E} (check : option A → A → option E) (P : E → Prop) prev l e :
  (∀ p x e, check p x = Some e → P e) → check_each check prev l = Some e → P e.
Proof.
  intros HP. revert prev. induction l as [|x l IH]; intros prev; simpl; [done|].
  destruct (check prev x) eqn:E1; [|apply IH]. intros [= <-]. eauto.
Qed.

Lemma check_node_fails p x s : check_node p x = Some s → is_ok s = false.
Proof. unfold check_node. intros H. by repeat (case_match; simplify_eq). Qed.
Lemma check_link_fails p x s : check_link p x = Some s → is_ok s = false.
Proof. unfold check_link. intros H. by repeat (case_match; simplify_eq). Qed.
Lemma check_capacity_fails p x s : check_capacity p x = Some s → is_ok s = false.
Proof. unfold check_capacity. intros H. by repeat (case_match; simplify_eq). Qed.
Lemma check_congestion_fails p x s : check_congestion p x = Some s → is_ok s = false.
Proof. unfold check_congestion. intros H. by repeat (case_match; simplify_eq). Qed.

(** ** What validation guarantees *)
Lemma topology_validate_ok t :
  is_ok (topology_validate t) = true →
  te_generation t ≠ id_none ∧
  StronglySorted (fun a b => (tn_id a <i tn_id b) = true) (te_nodes t) ∧
  StronglySorted (fun a b => (tl_id a <i tl_id b) = true) (te_links t) ∧
  Forall (fun l => tl_id l ≠ id_none ∧ tl_capacity_bps l ≠ 0 ∧ tl_lanes l ≠ 0) (te_links t).
Proof.
  unfold topology_validate. destruct (is_none _) eqn:E0; [done|].
  destruct (_ <? _); [done|]. destruct (_ <? _); [done|].
  destruct (check_each check_node None _) as [s|] eqn:E1.
  { intros H. rewrite (check_each_fails _ _ _ _ _ check_node_fails E1) in H. done. }
  intros H. apply status_of_ok in H as E2;
    [|intros s; apply (check_each_fails _ (fun s => is_ok s = false)), check_link_fails].
  split_and!.
  - intros Hg. rewrite Hg in E0. done.
  - eapply check_each_ascending; [|exact E1]. intros p x Hx. unfold check_node in Hx.
    by repeat (case_match; try done).
  - eapply check_each_ascending; [|exact E2]. intros p x Hx. unfold check_link in Hx.
    by repeat (case_match; try done).
  - eapply check_each_Forall; [|exact E2]. intros p x Hx. unfold check_link in Hx.
    repeat (case_match; try done). bool_prop. split_and!; try done. rewrite <- is_none_eq. congruence.
Qed.

Lemma capacity_validate_ok c :
  is_ok (capacity_validate c) = true →
  ce_generation c ≠ id_none ∧ ce_topology_generation c ≠ id_none ∧
  StronglySorted (fun a b => (lc_link a <i lc_link b) = true) (ce_links c) ∧
  Forall (fun l => lc_utilization_bps l ≤ 10000 ∧ lc_available_bps l ≤ lc_provisioned_bps l ∧
                   lc_provisioned_bps l ≠ 0) (ce_links c).
Proof.
  unfold capacity_validate. destruct (is_none _) eqn:E0; [done|].
  destruct (is_none (ce_topology_generation c)) eqn:E1; [done|].
  destruct (_ <? _); [done|]. intros H.
  apply status_of_ok in H as E2; [|intros s; apply (check_each_fails _ (fun s => is_ok s = false)), check_capacity_fails].
  split_and!.
  - intros Hg. rewrite Hg in E0. done.
  - intros Hg. rewrite Hg in E1. done.
  - eapply check_each_ascending; [|exact E2]. intros p x Hx. unfold check_capacity in Hx.
    by repeat (case_match; try done).
  - eapply check_each_Forall; [|exact E2]. intros p x Hx. unfold check_capacity in Hx.
    repeat (case_match; try done). bool_prop. lia.
Qed.

Lemma congestion_validate_ok c :
  is_ok (congestion_validate c) = true →
  ge_generation c ≠ id_none ∧ ge_topology_generation c ≠ id_none ∧
  ge_valid_for_ms c ≠ 0 ∧ ge_valid_for_ms c ≤ 3600000 ∧
  StronglySorted (fun a b => (lg_link a <i lg_link b) = true) (ge_links c) ∧
  Forall (fun l => lg_utilization_bps l ≤ 10000 ∧
            lg_level l = congestion_level_from_utilization_bps (lg_utilization_bps l))
    (ge_links c).
Proof.
  unfold congestion_validate. destruct (is_none _) eqn:E0; [done|].
  destruct (is_none (ge_topology_generation c)) eqn:E1; [done|].
  destruct (_ =? 0) eqn:E3; [done|]. destruct (3600000 <? _) eqn:E4; [done|].
  destruct (limits.kTopologyLinksMax <? _); [done|]. intros H. bool_prop.
  apply status_of_ok in H as E2; [|intros s; apply (check_each_fails _ (fun s => is_ok s = false)), check_congestion_fails].
  split_and!; try done.
  - intros Hg. rewrite Hg in E0. done.
  - intros Hg. rewrite Hg in E1. done.
  - eapply check_each_ascending; [|exact E2]. intros p x Hx. unfold check_congestion in Hx.
    by repeat (case_match; try done).
  - eapply check_each_Forall; [|exact E2]. intros p x Hx. unfold check_congestion in Hx.
    repeat (case_match; try done). bool_prop. done.
Qed.

(** ** Properties *)

(** The binary search over evidence is a lookup by identity: on evidence that validation
    accepted, [find_link], [CapacityEvidence::find] and [CongestionEvidence::find] return an
    entry iff it is the entry of that link, and a null pointer iff no entry has the link. *)
Theorem evidence_lookup_correct
    (t : TopologyEvidence) (c : CapacityEvidence) (g : CongestionEvidence) (id : Identity) :
  is_ok (topology_validate t) = true → is_ok (capacity_validate c) = true →
  is_ok (congestion_validate g) = true →
  (∀ n, find_node t id = Some n ↔ n ∈ te_nodes t ∧ tn_id n = id) ∧
  (∀ l, find_link t id = Some l ↔ l ∈ te_links t ∧ tl_id l = id) ∧
  (∀ l, find_capacity c id = Some l ↔ l ∈ ce_links c ∧ lc_link l = id) ∧
  (∀ l, find_congestion g id = Some l ↔ l ∈ ge_links g ∧ lg_link l = id) ∧
  (find_congestion g id = None ↔ ∀ l, l ∈ ge_links g → lg_link l ≠ id).
Proof.
  intros (_ & Hn & Hl & _)%topology_validate_ok (_ & _ & Hc & _)%capacity_validate_ok
    (_ & _ & _ & _ & Hg & _)%congestion_validate_ok.
  split_and!; intros; (by apply binary_find_Some) || (by apply binary_find_None).
Qed.

Definition demo_topology : TopologyEvidence :=
  mkTopologyEvidence (mkIdentity 5 1)
    [mkTopologyNode (mkIdentity 9 1) (mkIdentity 9 9) true 8]
    [mkTopologyLink (mkIdentity 7 1) (mkIdentity 8 1) (mkIdentity 8 2) LinkClass.kInterNode
       1000000 1 false;
     mkTopologyLink (mkIdentity 7 2) (mkIdentity 8 2) (mkIdentity 8 3) LinkClass.kInterNode
       1000000 1 false] 100 true.

Definition demo_capacity : CapacityEvidence :=
  mkCapacityEvidence (mkIdentity 5 2) (mkIdentity 5 1)
    [mkLinkCapacity (mkIdentity 7 1) 1000000 800000 2000 false 1000;
     mkLinkCapacity (mkIdentity 7 2) 1000000 600000 4000 false 1000] 100 true.

Definition demo_congestion : CongestionEvidence :=
  mkCongestionEvidence (mkIdentity 5 3) (mkIdentity 5 1)
    [mkLinkCongestion (mkIdentity 7 1) 2000 0 0 0 CongestionLevel.kNone;
     mkLinkCongestion (mkIdentity 7 2) 8000 0 0 0 CongestionLevel.kModerate] 100 1000 true.

Lemma evidence_lookup_correct_witness :
  find_congestion demo_congestion (mkIdentity 7 2) =
    Some (mkLinkCongestion (mkIdentity 7 2) 8000 0 0 0 CongestionLevel.kModerate).
Proof.
  destruct (evidence_lookup_correct demo_topology demo_capacity demo_congestion
    (mkIdentity 7 2)) as (_ & _ & _ & H & _); [vm_compute; reflexivity..|].
  apply H. split; [right; left | reflexivity].
Defined.
