(* ===== verification/Sync.v ===== *)
(** Synchronisation sensitivity ([include/ctf/sync.hpp], [src/sync.cpp]).

    The derivation with its fixed precedence of bases; the theorem shows that an inference is
    never presented as a declaration. *)
From S2P Require Import Prelude Identity Errors Collective FlowGroup Traffic.

Module SyncKind.
Inductive SyncKind :=
  | kNone | kBarrier | kFence | kDependency | kCollectiveStep | kStreamOrder.
Definition SyncKind_raw (v : SyncKind) : Z :=
  match v with
  | kNone => 0
  | kBarrier => 1
  | kFence => 2
  | kDependency => 3
  | kCollectiveStep => 4
  | kStreamOrder => 5
  end.
Definition SyncKind_to_string (v : SyncKind) : string :=
  match v with
  | kNone => "none"
  | kBarrier => "barrier"
  | kFence => "fence"
  | kDependency => "dependency"
  | kCollectiveStep => "collective_step"
  | kStreamOrder => "stream_order"
  end.
#[global] Instance SyncKind_eq_dec : EqDecision SyncKind.
Proof. solve_decision. Defined.
#[global, refine] Instance SyncKind_enum : WireEnum SyncKind :=
  {| enum_raw := SyncKind_raw;
     enum_all :=
       [kNone; kBarrier; kFence; kDependency; kCollectiveStep; kStreamOrder] |}.
Proof. by intros []. Defined.
End SyncKind.
Abbreviation SyncKind := SyncKind.SyncKind.

Module SyncBasis.
Inductive SyncBasis :=
  | kUnspecified | kDeclaredBarrierSemantics | kDeclaredPhaseSynchronizationPoint
  | kDerivedFromClass | kDerivedFromPattern | kDerivedFromPolicy.
Definition SyncBasis_raw (v : SyncBasis) : Z :=
  match v with
  | kUnspecified => 0
  | kDeclaredBarrierSemantics => 1
  | kDeclaredPhaseSynchronizationPoint => 2
  | kDerivedFromClass => 3
  | kDerivedFromPattern => 4
  | kDerivedFromPolicy => 5
  end.
Definition SyncBasis_to_string (v : SyncBasis) : string :=
  match v with
  | kUnspecified => "unspecified"
  | kDeclaredBarrierSemantics => "declared_barrier_semantics"
  | kDeclaredPhaseSynchronizationPoint => "declared_phase_synchronization_point"
  | kDerivedFromClass => "derived_from_class"
  | kDerivedFromPattern => "derived_from_pattern"
  | kDerivedFromPolicy => "derived_from_policy"
  end.
#[global] Instance SyncBasis_eq_dec : EqDecision SyncBasis.
Proof. solve_decision. Defined.
#[global, refine] Instance SyncBasis_enum : WireEnum SyncBasis :=
  {| enum_raw := SyncBasis_raw;
     enum_all :=
       [kUnspecified; kDeclaredBarrierSemantics; kDeclaredPhaseSynchronizationPoint;
       kDerivedFromClass; kDerivedFromPattern; kDerivedFromPolicy] |}.
Proof. by intros []. Defined.
End SyncBasis.
Abbreviation SyncBasis := SyncBasis.SyncBasis.

Record SyncSensitivity := mkSyncSensitivity {
  ss_kind : SyncKind;
  ss_basis : SyncBasis;
  ss_latency_critical : bool;
  ss_all_members_must_arrive : bool;
  ss_completion_ordering_matters : bool;
  ss_barrier_member_count : Z;
  ss_maximum_skew_micros : Z;
}.

#[export] Instance SyncSensitivity_eta : Eta SyncSensitivity :=
  fun r => mkSyncSensitivity (ss_kind r) (ss_basis r) (ss_latency_critical r)
    (ss_all_members_must_arrive r) (ss_completion_ordering_matters r)
    (ss_barrier_member_count r) (ss_maximum_skew_micros r).

#[export] Instance SyncSensitivity_eq_dec : EqDecision SyncSensitivity.
Proof. solve_decision. Defined.

Definition sync_none : SyncSensitivity :=
  mkSyncSensitivity SyncKind.kNone SyncBasis.kUnspecified false false false 0 0.

Definition class_is_barrier_like (value : CollectiveClass) : bool :=
  match value with
  | CollectiveClass.kAllReduce | CollectiveClass.kReduceScatter
  | CollectiveClass.kBarrierOnly | CollectiveClass.kScan => true
  | _ => false
  end.

Definition pattern_is_barrier_like (value : FlowPattern) : bool :=
  match value with
  | FlowPattern.kRing | FlowPattern.kPipeline => true
  | _ => false
  end.

Definition derive_sync_sensitivity (definition : CollectiveDefinition) (group : FlowGroup)
    (policy : TrafficPolicy) : SyncSensitivity :=
  let size := zlen (cd_participants definition) in
  let sensitivity := sync_none <| ss_barrier_member_count :=
    w32 (if 0xFFFFFFFF <? size then 0xFFFFFFFF else size) |> in
  let traffic_class :=
    match find_collective policy (cd_collective_class definition) with
    | Some p => ccp_traffic_class p
    | None => TrafficClass.kUnclassified
    end in
  let sensitivity :=
    match find_class policy traffic_class with
    | Some p => sensitivity <| ss_latency_critical :=
        (12 <=? tcp_priority p) ||
        bool_decide (tcp_traffic_class p = TrafficClass.kLatencyCritical) |>
    | None => sensitivity
    end in
  if cd_declares_barrier_semantics definition then
    sensitivity <| ss_kind := SyncKind.kBarrier |>
                <| ss_basis := SyncBasis.kDeclaredBarrierSemantics |>
                <| ss_all_members_must_arrive := true |>
                <| ss_completion_ordering_matters := true |>
                <| ss_maximum_skew_micros := 1000 |>
  else match find_first cp_synchronization_point (cd_phases definition) with
  | Some _ =>
      sensitivity <| ss_kind := SyncKind.kBarrier |>
                  <| ss_basis := SyncBasis.kDeclaredPhaseSynchronizationPoint |>
                  <| ss_all_members_must_arrive := true |>
                  <| ss_completion_ordering_matters := true |>
                  <| ss_maximum_skew_micros := 5000 |>
  | None =>
  if bool_decide (cd_collective_class definition = CollectiveClass.kBarrierOnly) then
    sensitivity <| ss_kind := SyncKind.kBarrier |>
                <| ss_basis := SyncBasis.kDerivedFromClass |>
                <| ss_all_members_must_arrive := true |>
                <| ss_completion_ordering_matters := true |>
                <| ss_maximum_skew_micros := 1000 |>
  else
    let sensitivity :=
      if class_is_barrier_like (cd_collective_class definition) then
        sensitivity <| ss_kind := SyncKind.kDependency |>
                    <| ss_basis := SyncBasis.kDerivedFromClass |>
                    <| ss_completion_ordering_matters := true |>
                    <| ss_maximum_skew_micros := 20000 |>
      else if pattern_is_barrier_like (fg_pattern group) then
        sensitivity <| ss_kind := SyncKind.kCollectiveStep |>
                    <| ss_basis := SyncBasis.kDerivedFromPattern |>
                    <| ss_maximum_skew_micros := 50000 |>
      else sensitivity in
    let sensitivity :=
      if fg_requires_simultaneous_start group &&
         bool_decide (ss_kind sensitivity = SyncKind.kNone) then
        sensitivity <| ss_kind := SyncKind.kDependency |>
                    <| ss_basis := SyncBasis.kDerivedFromPolicy |>
                    <| ss_completion_ordering_matters := true |>
      else sensitivity in
    if ss_latency_critical sensitivity && bool_decide (ss_kind sensitivity = SyncKind.kNone) then
      sensitivity <| ss_kind := SyncKind.kFence |>
                  <| ss_basis := SyncBasis.kDerivedFromPolicy |>
    else sensitivity
  end.

(** ** Properties *)

(** An inference is never presented as a declaration, and a declaration always wins: the
    basis is the declared barrier semantics iff the definition declares them, a declared phase
    synchronisation point iff it does not and some phase has one; every member must arrive
    exactly for barriers, and a basis is missing exactly when no synchronisation is claimed. *)
Theorem sync_basis_honest
    (definition : CollectiveDefinition) (group : FlowGroup) (policy : TrafficPolicy) :
  let s := derive_sync_sensitivity definition group policy in
  (ss_basis s = SyncBasis.kDeclaredBarrierSemantics ↔
     cd_declares_barrier_semantics definition = true) ∧
  (ss_basis s = SyncBasis.kDeclaredPhaseSynchronizationPoint ↔
     cd_declares_barrier_semantics definition = false ∧
     ∃ p, p ∈ cd_phases definition ∧ cp_synchronization_point p = true) ∧
  (ss_all_members_must_arrive s = true ↔ ss_kind s = SyncKind.kBarrier) ∧
  (ss_basis s = SyncBasis.kUnspecified ↔ ss_kind s = SyncKind.kNone) ∧
  (ss_kind s = SyncKind.kBarrier → ss_completion_ordering_matters s = true ∧
     0 < ss_maximum_skew_micros s).
Proof.
  cbv zeta. unfold derive_sync_sensitivity.
  set (base := match find_class policy _ with Some _ => _ | None => _ end).
  assert (ss_kind base = SyncKind.kNone ∧ ss_basis base = SyncBasis.kUnspecified ∧
          ss_all_members_must_arrive base = false) as (Hk & Hb & Ha).
  { unfold base. by destruct (find_class _ _). }
  clearbody base. destruct base as [k b l a c n m]. simpl in Hk, Hb, Ha. subst k b a.
  destruct (cd_declares_barrier_semantics definition); [cbn; naive_solver|].
  destruct (find_first _ _) as [p|] eqn:Ep.
  { apply find_first_Some in Ep. cbn. naive_solver. }
  assert (¬ ∃ p, p ∈ cd_phases definition ∧ cp_synchronization_point p = true) as Hno.
  { intros (p & Hin & Hp). apply find_first_None in Ep. rewrite Forall_forall in Ep.
    rewrite (Ep p Hin) in Hp. done. }
  case_bool_decide; [cbn; naive_solver|].
  destruct (class_is_barrier_like _); [|destruct (pattern_is_barrier_like _)];
    destruct (fg_requires_simultaneous_start group), l; cbn; naive_solver.
Qed.
