(* ===== verification/Decision.v ===== *)
(** Decision requests and records ([include/ctf/decision.hpp], [src/decision.cpp]): outcomes,
    authority axes, the record with its fingerprint and its deterministic texts, and the
    validation of untrusted requests. *)
From S2P Require Import Prelude Identity Errors Participant Collective FlowGroup Traffic.
From S2P Require Import Evidence Sync.

Module Outcome.
Inductive Outcome :=
  | kAdmitted | kDeferred | kRateLimited | kIsolatedClass | kRequiresReplan | kRejectedStale
  | kRejectedCapacity | kRejectedPolicy | kUnknownSemantics.
Definition Outcome_raw (v : Outcome) : Z :=
  match v with
  | kAdmitted => 0
  | kDeferred => 1
  | kRateLimited => 2
  | kIsolatedClass => 3
  | kRequiresReplan => 4
  | kRejectedStale => 5
  | kRejectedCapacity => 6
  | kRejectedPolicy => 7
  | kUnknownSemantics => 8
  end.
Definition Outcome_to_string (v : Outcome) : string :=
  match v with
  | kAdmitted => "ADMITTED"
  | kDeferred => "DEFERRED"
  | kRateLimited => "RATE_LIMITED"
  | kIsolatedClass => "ISOLATED_CLASS"
  | kRequiresReplan => "REQUIRES_REPLAN"
  | kRejectedStale => "REJECTED_STALE"
  | kRejectedCapacity => "REJECTED_CAPACITY"
  | kRejectedPolicy => "REJECTED_POLICY"
  | kUnknownSemantics => "UNKNOWN_SEMANTICS"
  end.
#[global] Instance Outcome_eq_dec : EqDecision Outcome.
Proof. solve_decision. Defined.
#[global, refine] Instance Outcome_enum : WireEnum Outcome :=
  {| enum_raw := Outcome_raw;
     enum_all :=
       [kAdmitted; kDeferred; kRateLimited; kIsolatedClass; kRequiresReplan; kRejectedStale;
       kRejectedCapacity; kRejectedPolicy; kUnknownSemantics] |}.
Proof. by intros []. Defined.
End Outcome.
Abbreviation Outcome := Outcome.Outcome.

Definition outcome_is_rejection (value : Outcome) : bool :=
  match value with
  | Outcome.kRejectedStale | Outcome.kRejectedCapacity
  | Outcome.kRejectedPolicy | Outcome.kUnknownSemantics => true
  | _ => false
  end.

Definition outcome_grants_authority (value : Outcome) : bool :=
  bool_decide (value = Outcome.kAdmitted) || bool_decide (value = Outcome.kIsolatedClass).

Definition outcome_requires_replan (value : Outcome) : bool :=
  bool_decide (value = Outcome.kRequiresReplan) || bool_decide (value = Outcome.kDeferred) ||
  bool_decide (value = Outcome.kRateLimited).

Module AuthorityAxis.
Inductive AuthorityAxis :=
  | kNone | kCoordinatorEpoch | kTopologyGeneration | kPolicyGeneration
  | kCollectiveGeneration | kAttemptGeneration | kParticipantLiveness | kCapacityEvidence
  | kCongestionEvidence | kLifecycle | kSemantics | kPlan.
Definition AuthorityAxis_raw (v : AuthorityAxis) : Z :=
  match v with
  | kNone => 0
  | kCoordinatorEpoch => 1
  | kTopologyGeneration => 2
  | kPolicyGeneration => 3
  | kCollectiveGeneration => 4
  | kAttemptGeneration => 5
  | kParticipantLiveness => 6
  | kCapacityEvidence => 7
  | kCongestionEvidence => 8
  | kLifecycle => 9
  | kSemantics => 10
  | kPlan => 11
  end.
Definition AuthorityAxis_to_string (v : AuthorityAxis) : string :=
  match v with
  | kNone => "none"
  | kCoordinatorEpoch => "coordinator_epoch"
  | kTopologyGeneration => "topology_generation"
  | kPolicyGeneration => "policy_generation"
  | kCollectiveGeneration => "collective_generation"
  | kAttemptGeneration => "attempt_generation"
  | kParticipantLiveness => "participant_liveness"
  | kCapacityEvidence => "capacity_evidence"
  | kCongestionEvidence => "congestion_evidence"
  | kLifecycle => "lifecycle"
  | kSemantics => "semantics"
  | kPlan => "plan"
  end.
#[global] Instance AuthorityAxis_eq_dec : EqDecision AuthorityAxis.
Proof. solve_decision. Defined.
#[global, refine] Instance AuthorityAxis_enum : WireEnum AuthorityAxis :=
  {| enum_raw := AuthorityAxis_raw;
     enum_all :=
       [kNone; kCoordinatorEpoch; kTopologyGeneration; kPolicyGeneration;
       kCollectiveGeneration; kAttemptGeneration; kParticipantLiveness; kCapacityEvidence;
       kCongestionEvidence; kLifecycle; kSemantics; kPlan] |}.
Proof. by intros []. Defined.
End AuthorityAxis.
Abbreviation AuthorityAxis := AuthorityAxis.AuthorityAxis.

Record DecisionRequest := mkDecisionRequest {
  dr_session : Identity;
  dr_instance : CollectiveInstance;
  dr_observed_topology_generation : Identity;
  dr_observed_policy_generation : Identity;
  dr_observed_epoch : Identity;
  dr_observed_capacity_generation : Identity;
  dr_observed_congestion_generation : Identity;
  dr_has_flow_group_plan : bool;
  dr_plan : FlowGroupPlan;
  dr_has_requested_class : bool;
  dr_requested_class : TrafficClass;
  dr_requested_transfer_bytes : Z;
}.

#[export] Instance DecisionRequest_eta : Eta DecisionRequest :=
  fun r => mkDecisionRequest (dr_session r) (dr_instance r) (dr_observed_topology_generation r)
    (dr_observed_policy_generation r) (dr_observed_epoch r)
    (dr_observed_capacity_generation r) (dr_observed_congestion_generation r)
    (dr_has_flow_group_plan r) (dr_plan r) (dr_has_requested_class r)
    (dr_requested_class r) (dr_requested_transfer_bytes r).

Record DecisionRecord := mkDecisionRecord {
  de_instance : CollectiveInstance;
  de_collective_class : CollectiveClass;
  de_algorithm_hint : AlgorithmHint;
  de_outcome : Outcome;
  de_axis : AuthorityAxis;
  de_code : ErrorCode;
  de_flow_group : Identity;
  de_flow_group_constructed : bool;
  de_group : FlowGroup;
  de_participants : list Identity;
  de_traffic_class : TrafficClass;
  de_priority : Z;
  de_isolation : IsolationMode;
  de_pacing : PacingIntent;
  de_sync : SyncSensitivity;
  de_collective_generation : Identity;
  de_topology_generation : Identity;
  de_policy_generation : Identity;
  de_capacity_generation : Identity;
  de_congestion_generation : Identity;
  de_epoch : Identity;
  de_congestion_evidence_used : bool;
  de_capacity_evidence_used : bool;
  de_all_members_live : bool;
  de_phase_index : Sequence;
  de_step_index : Sequence;
  de_reasons : ReasonChain;
  de_decided_monotonic_ms : Z;
  de_decision_sequence : Sequence;
}.

#[export] Instance DecisionRecord_eta : Eta DecisionRecord :=
  fun r => mkDecisionRecord (de_instance r) (de_collective_class r) (de_algorithm_hint r) (de_outcome r)
    (de_axis r) (de_code r) (de_flow_group r) (de_flow_group_constructed r)
    (de_group r) (de_participants r) (de_traffic_class r) (de_priority r)
    (de_isolation r) (de_pacing r) (de_sync r) (de_collective_generation r)
    (de_topology_generation r) (de_policy_generation r) (de_capacity_generation r)
    (de_congestion_generation r) (de_epoch r) (de_congestion_evidence_used r)
    (de_capacity_evidence_used r) (de_all_members_live r) (de_phase_index r)
    (de_step_index r) (de_reasons r) (de_decided_monotonic_ms r)
    (de_decision_sequence r).

(** Default-constructed values. *)
Definition instance_default : CollectiveInstance := mkCollectiveInstance id_none id_none id_none 0.
Definition group_default : FlowGroup :=
  mkFlowGroup id_none instance_default CollectiveClass.kUnknown FlowPattern.kUnspecified
    FlowDirection.kUnidirectional [] [] 0 0 0 0 false 0.
Definition pacing_default : PacingIntent :=
  mkPacingIntent PacingMode.kNone id_none instance_default 0 0 0 0 0 id_none.
Definition record_default : DecisionRecord :=
  mkDecisionRecord instance_default CollectiveClass.kUnknown AlgorithmHint.kUnspecified
    Outcome.kRejectedStale AuthorityAxis.kNone ErrorCode.kOk id_none false group_default []
    TrafficClass.kUnclassified 0 IsolationMode.kShared pacing_default sync_none
    id_none id_none id_none id_none id_none id_none false false false 0 0 [] 0 0.

(** ** Fingerprint *)

(** [static_cast<std::uint64_t>(character)] of a signed [char]. *)
Definition char_u64 (c : Ascii.ascii) : Z :=
  if char_code c <? 128 then char_code c else char_code c - 256 + two64.

Fixpoint mix_text (state : Z) (text : string) : Z :=
  match text with
  | EmptyString => state
  | String c rest => mix_text (mix state (char_u64 c)) rest
  end.

Definition mix_reason (state : Z) (r : Reason) : Z := mix (mix_text state (r_code r)) 0x5EED.

Definition fingerprint (d : DecisionRecord) : Z :=
  let state := 0x452821E638D01377 in
  let state := mix_identity state (ci_id (de_instance d)) in
  let state := mix_identity state (ci_generation (de_instance d)) in
  let state := mix_identity state (ci_attempt (de_instance d)) in
  let state := mix state (enum_raw (de_collective_class d)) in
  let state := mix state (enum_raw (de_algorithm_hint d)) in
  let state := mix state (enum_raw (de_outcome d)) in
  let state := mix state (enum_raw (de_axis d)) in
  let state := mix state (ErrorCode.error_raw (de_code d)) in
  let state := mix_identity state (de_flow_group d) in
  let state := mix state (enum_raw (de_traffic_class d)) in
  let state := mix state (de_priority d) in
  let state := mix state (enum_raw (de_isolation d)) in
  let state := mix_identity state (de_collective_generation d) in
  let state := mix_identity state (de_topology_generation d) in
  let state := mix_identity state (de_policy_generation d) in
  let state := mix_identity state (de_capacity_generation d) in
  let state := mix_identity state (de_congestion_generation d) in
  let state := mix_identity state (de_epoch d) in
  let state := mix state (enum_raw (pi_mode (de_pacing d))) in
  let state := mix state (pi_admitted_bandwidth_bps (de_pacing d)) in
  let state := mix state (pi_ceiling_bandwidth_bps (de_pacing d)) in
  let state := mix state (pi_burst_bytes (de_pacing d)) in
  let state := mix state (pi_utilization_bps (de_pacing d)) in
  let state := mix state (pi_release_after_monotonic_ms (de_pacing d)) in
  let state := mix state (zlen (de_participants d)) in
  let state := foldl mix_identity state (de_participants d) in
  let state := mix state (enum_raw (ss_kind (de_sync d))) in
  let state := mix state (enum_raw (ss_basis (de_sync d))) in
  let state := mix state (ss_barrier_member_count (de_sync d)) in
  let state := mix state (bool_u64 (de_congestion_evidence_used d)) in
  let state := mix state (bool_u64 (de_capacity_evidence_used d)) in
  let state := mix state (bool_u64 (de_all_members_live d)) in
  let state := mix state (de_phase_index d) in
  let state := mix state (de_step_index d) in
  let state := mix state (id_high (fg_id (de_group d))) in
  let state := mix state (id_low (fg_id (de_group d))) in
  let state := mix state (zlen (fg_edges (de_group d))) in
  let state := mix state (fg_total_logical_bytes (de_group d)) in
  foldl mix_reason state (de_reasons d).

(** ** Texts *)
Definition newline : string := String (Ascii.ascii_of_nat 10) "".
Definition identity_or_none (i : Identity) : string :=
  if is_some i then id_to_string i else "none".
Definition yes_no (b : bool) : string := if b then "yes" else "no".

Definition summary (d : DecisionRecord) : string :=
  String.concat ""
    [Outcome.Outcome_to_string (de_outcome d);
     " collective=";
     id_to_string (ci_id (de_instance d));
     " gen=";
     id_to_string (ci_generation (de_instance d));
     " attempt=";
     id_to_string (ci_attempt (de_instance d));
     " class=";
     CollectiveClass.CollectiveClass_to_string (de_collective_class d);
     " traffic=";
     TrafficClass.TrafficClass_to_string (de_traffic_class d);
     " axis=";
     AuthorityAxis.AuthorityAxis_to_string (de_axis d);
     " code=";
     ErrorCode.error_to_string (de_code d)].

Definition explain_reason (r : Reason) : string :=
  String.concat ""
    [newline; "  - "; r_code r; ": "; r_detail r;
     if is_some (r_subject r)
     then String.concat "" [" ["; id_to_string (r_subject r); "]"] else ""].

Definition explain (d : DecisionRecord) : string :=
  String.concat ""
    ["outcome: ";
     Outcome.Outcome_to_string (de_outcome d);
     newline;
     "authority_axis: ";
     AuthorityAxis.AuthorityAxis_to_string (de_axis d);
     newline;
     "error_code: ";
     ErrorCode.error_to_string (de_code d);
     newline;
     "collective: ";
     id_to_string (ci_id (de_instance d));
     newline;
     "collective_generation: ";
     id_to_string (ci_generation (de_instance d));
     newline;
     "attempt: ";
     id_to_string (ci_attempt (de_instance d));
     newline;
     "collective_class: ";
     CollectiveClass.CollectiveClass_to_string (de_collective_class d);
     newline;
     "algorithm_hint: ";
     AlgorithmHint.AlgorithmHint_to_string (de_algorithm_hint d);
     newline;
     "participants: ";
     decimal (zlen (de_participants d));
     newline;
     "traffic_class: ";
     TrafficClass.TrafficClass_to_string (de_traffic_class d);
     newline;
     "priority: ";
     decimal (de_priority d);
     newline;
     "isolation: ";
     IsolationMode.IsolationMode_to_string (de_isolation d);
     newline;
     "flow_group: ";
     identity_or_none (de_flow_group d);
     newline;
     "edges: ";
     decimal (zlen (fg_edges (de_group d)));
     newline;
     "total_logical_bytes: ";
     decimal (fg_total_logical_bytes (de_group d));
     newline;
     "pacing_mode: ";
     PacingMode.PacingMode_to_string (pi_mode (de_pacing d));
     newline;
     "admitted_bandwidth_bps: ";
     decimal (pi_admitted_bandwidth_bps (de_pacing d));
     newline;
     "ceiling_bandwidth_bps: ";
     decimal (pi_ceiling_bandwidth_bps (de_pacing d));
     newline;
     "burst_bytes: ";
     decimal (pi_burst_bytes (de_pacing d));
     newline;
     "utilization_bps: ";
     decimal (pi_utilization_bps (de_pacing d));
     newline;
     "release_after_monotonic_ms: ";
     decimal (pi_release_after_monotonic_ms (de_pacing d));
     newline;
     "sync_kind: ";
     SyncKind.SyncKind_to_string (ss_kind (de_sync d));
     newline;
     "sync_basis: ";
     SyncBasis.SyncBasis_to_string (ss_basis (de_sync d));
     newline;
     "bindings:";
     newline;
     "  collective_generation=";
     id_to_string (de_collective_generation d);
     newline;
     "  topology_generation=";
     id_to_string (de_topology_generation d);
     newline;
     "  policy_generation=";
     id_to_string (de_policy_generation d);
     newline;
     "  capacity_generation=";
     identity_or_none (de_capacity_generation d);
     newline;
     "  congestion_generation=";
     identity_or_none (de_congestion_generation d);
     newline;
     "  coordinator_epoch=";
     id_to_string (de_epoch d);
     newline;
     "evidence_used: capacity=";
     yes_no (de_capacity_evidence_used d);
     " congestion=";
     yes_no (de_congestion_evidence_used d);
     " all_members_live=";
     yes_no (de_all_members_live d);
     newline;
     "decided_monotonic_ms: ";
     decimal (de_decided_monotonic_ms d);
     newline;
     "decision_sequence: ";
     decimal (de_decision_sequence d);
     newline;
     "fingerprint: ";
     decimal (fingerprint d);
     newline;
     "reasons:";
     if zlen (de_reasons d) =? 0 then " none" else "";
     String.concat "" (explain_reason <$> de_reasons d);
     newline].

(** ** Validation of requests *)
Definition validate_decision_request (request : DecisionRequest) : Status :=
  if is_none (ci_id (dr_instance request))
  then mkStatus ErrorCode.kValidationGenerationUnset "request has no collective identity"
  else if is_none (ci_generation (dr_instance request))
  then mkStatus ErrorCode.kValidationGenerationUnset "request has no collective generation"
  else if is_none (ci_attempt (dr_instance request))
  then mkStatus ErrorCode.kValidationAttemptUnset "request has no attempt identity"
  else
    let plan_status :=
      if dr_has_flow_group_plan request then
        if negb (dr_has_flow_group_plan request)
        then mkStatus ErrorCode.kStatePlanMissing "request has no plan"
        else if negb (ci_id (fp_instance (dr_plan request)) =i ci_id (dr_instance request)) ||
                negb (ci_generation (fp_instance (dr_plan request))
                        =i ci_generation (dr_instance request)) ||
                negb (ci_attempt (fp_instance (dr_plan request))
                        =i ci_attempt (dr_instance request))
        then mkStatus ErrorCode.kEnvelopeIdentityMismatch
               "plan instance does not match the request instance"
        else if limits.kEdgesMaxPerFlowGroup <? zlen (fp_edges (dr_plan request))
        then mkStatus ErrorCode.kValidationEdgeCountOutOfRange "plan exceeds the edge bound"
        else status_ok
      else status_ok in
    if negb (is_ok plan_status) then plan_status
    else if dr_has_requested_class request &&
            (enum_raw TrafficClass.kProbe <? enum_raw (dr_requested_class request))
    then mkStatus ErrorCode.kDecodeInvalidEnum "requested traffic class is not a defined class"
    else status_ok.

(** ** What the validation accepts *)

(** A request that names its instance in full and whose plan, if it carries one, is a plan
    for that very instance within the edge bound. *)
Record well_formed_request (request : DecisionRequest) : Prop := {
  wr_id : ci_id (dr_instance request) ≠ id_none;
  wr_generation : ci_generation (dr_instance request) ≠ id_none;
  wr_attempt : ci_attempt (dr_instance request) ≠ id_none;
  wr_plan : dr_has_flow_group_plan request = true →
    ci_id (fp_instance (dr_plan request)) = ci_id (dr_instance request) ∧
    ci_generation (fp_instance (dr_plan request)) = ci_generation (dr_instance request) ∧
    ci_attempt (fp_instance (dr_plan request)) = ci_attempt (dr_instance request) ∧
    zlen (fp_edges (dr_plan request)) ≤ limits.kEdgesMaxPerFlowGroup;
}.

Lemma validate_decision_request_iff request :
  is_ok (validate_decision_request request) = true ↔ well_formed_request request.
Proof.
  unfold validate_decision_request. split.
  - destruct (is_none (ci_id _)) eqn:E1; [done|]. destruct (is_none (ci_generation _)) eqn:E2; [done|].
    destruct (is_none (ci_attempt _)) eqn:E3; [done|].
    apply is_none_neq in E1, E2, E3. intros H. split; [done..|]. intros Hp. rewrite Hp in H.
    cbn [negb] in H.
    destruct (ci_id _ =i _) eqn:E4; [|done]. destruct (ci_generation _ =i _) eqn:E5; [|done].
    destruct (ci_attempt _ =i _) eqn:E6; [|done]. cbn [negb orb] in H.
    destruct (_ <? _) eqn:E7; [done|]. apply id_eqb_eq in E4, E5, E6. apply Z.ltb_ge in E7.
    done.
  - intros [H1 H2 H3 H4]. apply is_none_neq in H1, H2, H3. rewrite H1, H2, H3.
    destruct (dr_has_flow_group_plan request).
    + destruct H4 as (E4 & E5 & E6 & E7); [done|]. rewrite E4, E5, E6, !id_eqb_refl. cbn [negb orb].
      rewrite (proj2 (Z.ltb_ge _ _)) by done. cbn [negb is_ok].
      by destruct (dr_has_requested_class request), (dr_requested_class request).
    + by destruct (dr_has_requested_class request), (dr_requested_class request).
Qed.
