(* ===== verification/Engine.v ===== *)
(** The decision engine ([include/ctf/engine.hpp], [src/engine.cpp]): the ordered authority
    chain, the deterministic rate computation and the evaluation of one flow-group request
    against a frozen snapshot.

    The theorems state exactly when [evaluate] grants authority, that every refusal carries an
    axis, an error code and a reason, what a grant is bound to, and the bounds of the rate. *)
From S2P Require Import Prelude Identity Errors Participant Collective FlowGroup Traffic.
From S2P Require Import Evidence Sync Decision.

Record EngineCounters := mkEngineCounters {
  ec_lookups : Z;
  ec_participant_scans : Z;
  ec_edge_scans : Z;
  ec_link_lookups : Z;
}.

#[export] Instance EngineCounters_eta : Eta EngineCounters :=
  fun r => mkEngineCounters (ec_lookups r) (ec_participant_scans r) (ec_edge_scans r)
    (ec_link_lookups r).

Definition make_record (request : DecisionRequest) (definition : CollectiveDefinition)
    : DecisionRecord :=
  record_default <| de_instance := dr_instance request |>
    <| de_collective_class := cd_collective_class definition |>
    <| de_algorithm_hint := cd_algorithm_hint definition |>
    <| de_collective_generation := cd_generation definition |>
    <| de_participants := cd_participants definition |>.

(** The four assignments every refusal makes: outcome, axis, code and one reason. *)
Definition refuse (record : DecisionRecord) (outcome : Outcome) (axis : AuthorityAxis)
    (code : ErrorCode) (reason detail : string) (subject : Identity) : DecisionRecord :=
  record <| de_outcome := outcome |> <| de_axis := axis |> <| de_code := code |>
         <| de_reasons ::= fun r => rc_push r reason detail subject |>.

Definition add_reason (record : DecisionRecord) (reason detail : string) (subject : Identity)
    : DecisionRecord :=
  record <| de_reasons ::= fun r => rc_push r reason detail subject |>.

(** [now >= captured ? now - captured : 0] *)
Definition evidence_age (now captured : Z) : Z :=
  if captured <=? now then now - captured else 0.

(** A participant without current liveness evidence: the three tests of the loop. *)
Definition without_authority (snapshot : EvaluationSnapshot) (participant : Identity) : bool :=
  match find_peer snapshot participant with
  | None => true
  | Some liveness =>
      if negb (bool_decide (pr_state liveness = ParticipantState.kLive)) then true
      else if pr_expires_at_monotonic_ms liveness <=? es_now_monotonic_ms snapshot then true
      else false
  end.

(** The loop keeps the first eight of them. *)
Definition collect_not_live (snapshot : EvaluationSnapshot) (participants : list Identity)
    : list Identity :=
  foldl (fun not_live participant =>
           if without_authority snapshot participant
           then if zlen not_live <? 8 then not_live ++ [participant] else not_live
           else not_live) [] participants.

(** A null [shared_ptr]. *)
Definition is_null {A} (pointer : option A) : bool :=
  match pointer with None => true | Some _ => false end.

(** A generation the requester names that is not the current one. *)
Definition names_other (observed current : Identity) : bool :=
  is_some observed && negb (observed =i current).

Definition apply_authority_chain (snapshot : EvaluationSnapshot) (request : DecisionRequest)
    (record : DecisionRecord) : bool * DecisionRecord :=
  if names_other (dr_observed_epoch request) (es_epoch snapshot) then
    (false, refuse record Outcome.kRejectedStale AuthorityAxis.kCoordinatorEpoch
      ErrorCode.kEnvelopeEpochStale "rejected_stale"
      "request named a coordinator epoch that is no longer current" (dr_observed_epoch request))
  else if names_other (dr_observed_policy_generation request) (es_policy_generation snapshot) then
    (false, refuse record Outcome.kRejectedStale AuthorityAxis.kPolicyGeneration
      ErrorCode.kValidationPolicyMissing "rejected_policy"
      "request named a policy generation that is no longer current"
      (dr_observed_policy_generation request))
  else if is_null (es_policy snapshot) || is_none (es_policy_generation snapshot) then
    (false, refuse record Outcome.kRejectedPolicy AuthorityAxis.kPolicyGeneration
      ErrorCode.kValidationPolicyMissing "rejected_policy"
      "no traffic policy is installed" (ci_id (dr_instance request)))
  else if negb (is_null (es_capacity snapshot)) &&
          is_some (es_capacity_generation snapshot) &&
          names_other (dr_observed_capacity_generation request)
            (es_capacity_generation snapshot) then
    (false, refuse record Outcome.kRejectedStale AuthorityAxis.kCapacityEvidence
      ErrorCode.kValidationCapacityNegative "rejected_stale"
      "request named a capacity evidence generation that is no longer current"
      (dr_observed_capacity_generation request))
  else if negb (is_null (es_congestion snapshot)) &&
          is_some (es_congestion_generation snapshot) &&
          names_other (dr_observed_congestion_generation request)
            (es_congestion_generation snapshot) then
    (false, refuse record Outcome.kRejectedStale AuthorityAxis.kCongestionEvidence
      ErrorCode.kValidationRateInvalid "rejected_stale"
      "request named a congestion evidence generation that is no longer current"
      (dr_observed_congestion_generation request))
  else if names_other (dr_observed_topology_generation request)
            (es_topology_generation snapshot) then
    (false, refuse record Outcome.kRejectedStale AuthorityAxis.kTopologyGeneration
      ErrorCode.kValidationTopologyMissing "rejected_stale"
      "request named a topology generation that is no longer current"
      (dr_observed_topology_generation request))
  else if is_null (es_topology snapshot) ||
          is_none (es_topology_generation snapshot) then
    (false, refuse record Outcome.kRejectedStale AuthorityAxis.kTopologyGeneration
      ErrorCode.kValidationTopologyMissing "rejected_stale"
      "no topology evidence is installed" (ci_id (dr_instance request)))
  else
    let not_live := collect_not_live snapshot (de_participants record) in
    if negb (zlen not_live =? 0) then
      let record := refuse (record <| de_all_members_live := false |>)
        Outcome.kRejectedStale AuthorityAxis.kParticipantLiveness
        ErrorCode.kEnvelopeIncarnationStale "participant_not_live"
        "the participant set is not fully live; membership has not been re-established"
        (ci_id (dr_instance request)) in
      (false, foldl (fun record participant =>
                add_reason record "participant_without_authority"
                  "participant holds no current liveness evidence" participant) record not_live)
    else
      let record := record <| de_all_members_live := true |> in
      (true, add_reason record "authority_current"
        "epoch, policy, topology, evidence and participant liveness all support this request"
        (ci_id (dr_instance request))).

(** [None] when current, the detail otherwise. *)
Definition topology_is_current (snapshot : EvaluationSnapshot) (evidence : TopologyEvidence)
    : option string :=
  if negb (te_generation evidence =i es_topology_generation snapshot) then
    Some "topology evidence generation does not match the installed generation"
  else
    let age := evidence_age (es_now_monotonic_ms snapshot) (te_captured_monotonic_ms evidence) in
    if fr_topology_max_age_ms (es_freshness snapshot) <? age
    then Some "topology evidence is older than the freshness bound"
    else None.

(** ** The rate computation *)
Record PacingComputation := mkPacingComputation {
  pc_available_bps : Z;
  pc_proposed_bps : Z;
  pc_admitted_bps : Z;
  pc_ceiling_bps : Z;
  pc_burst_bytes : Z;
  pc_utilization_bps : Z;
  pc_response_per_mille : Z;
  pc_capacity_used : bool;
  pc_congestion_used : bool;
  pc_code : ErrorCode;
  pc_reason_code : string;
  pc_reason_detail : string;
}.

(** The observed capacity: the sum of the available bandwidth and whether it was used. *)
Definition observed_capacity (snapshot : EvaluationSnapshot) : Z * bool :=
  match es_capacity snapshot with
  | Some capacity =>
      if is_some (es_capacity_generation snapshot) &&
         (ce_topology_generation capacity =i es_topology_generation snapshot) then
        let age := evidence_age (es_now_monotonic_ms snapshot)
                     (ce_captured_monotonic_ms capacity) in
        if age <=? fr_capacity_max_age_ms (es_freshness snapshot) then
          (foldl (fun available entry => w64 (available + lc_available_bps entry)) 0
             (ce_links capacity), negb (zlen (ce_links capacity) =? 0))
        else (0, false)
      else (0, false)
  | None => (0, false)
  end.

(** The observed congestion: the worst utilisation and whether it was used. *)
Definition observed_congestion (snapshot : EvaluationSnapshot) (age_bound_ms : Z) : Z * bool :=
  match es_congestion snapshot with
  | Some congestion =>
      if is_some (es_congestion_generation snapshot) &&
         (ge_topology_generation congestion =i es_topology_generation snapshot) then
        let age := evidence_age (es_now_monotonic_ms snapshot)
                     (ge_captured_monotonic_ms congestion) in
        let valid_for := Z.min (ge_valid_for_ms congestion) age_bound_ms in
        if age <=? valid_for then
          (foldl (fun worst entry => Z.max worst (lg_utilization_bps entry)) 0
             (ge_links congestion), negb (zlen (ge_links congestion) =? 0))
        else (0, false)
      else (0, false)
  | None => (0, false)
  end.

(** The loop that counts the boundaries at or below the utilisation. *)
Fixpoint bucket_loop (remaining : nat) (table : CongestionResponseTable) (utilization : Z)
    (bucket : nat) : nat :=
  match remaining with
  | O => bucket
  | S remaining' =>
      if array_at (crt_utilization_bps table) bucket <=? utilization
      then bucket_loop remaining' table utilization (S bucket)
      else bucket
  end.

Definition congestion_response (table : CongestionResponseTable) (utilization : Z) : Z :=
  let bucket := bucket_loop kBucketCount table utilization 0 in
  let index :=
    match bucket with O => O | S _ => Nat.min bucket (kBucketCount - 1) end in
  array_at (crt_rate_numerator_per_mille table) index.

(** [(x / 1000) * per_mille + ((x % 1000) * per_mille) / 1000] in 64-bit arithmetic. *)
Definition scale_per_mille (x per_mille : Z) : Z :=
  w64 (w64 ((x / 1000) * per_mille) + w64 ((x mod 1000) * per_mille) / 1000).

(** [policy] is the installed policy [*snapshot.policy]; the caller checked that there is one. *)
Definition compute_pacing (snapshot : EvaluationSnapshot) (policy : TrafficPolicy)
    (class_policy : TrafficClassPolicy) (collective_policy : CollectiveClassPolicy)
    : PacingComputation :=
  let ceiling := tcp_maximum_bandwidth_bps class_policy in
  let age_bound_ms :=
    if ccp_freshness_requirement_ms collective_policy =? 0
    then fr_congestion_max_age_ms (es_freshness snapshot)
    else ccp_freshness_requirement_ms collective_policy in
  let '(available, capacity_used) := observed_capacity snapshot in
  let '(utilization, congestion_used) := observed_congestion snapshot age_bound_ms in
  let response := congestion_response (tp_congestion_response policy) utilization in
  let limit := if negb (available =? 0) then Z.min ceiling available else ceiling in
  let proposed := scale_per_mille limit response in
  let admitted :=
    if proposed <? tcp_minimum_bandwidth_bps class_policy
    then tcp_minimum_bandwidth_bps class_policy else proposed in
  let admitted :=
    if negb (tcp_maximum_bandwidth_bps class_policy =? kUnlimitedRate)
    then Z.min admitted (tcp_maximum_bandwidth_bps class_policy) else admitted in
  let burst :=
    if admitted =? kUnlimitedRate then 0
    else
      let burst := scale_per_mille admitted (tp_burst_multiplier_per_mille policy) in
      if negb (tcp_burst_bytes class_policy =? 0) && (tcp_burst_bytes class_policy <? burst)
      then tcp_burst_bytes class_policy else burst in
  let '(code, reason_code, reason_detail) :=
    if negb (available =? 0) && (proposed <? tcp_minimum_bandwidth_bps class_policy) then
      (ErrorCode.kAdmissionRateLimited, "capacity_below_class_floor",
       "observed capacity under current congestion cannot honor the minimum bandwidth of this traffic class")
    else if capacity_used || congestion_used then
      (ErrorCode.kOk, "rate_selected_from_evidence",
       "admitted rate is bounded by the class ceiling, observed capacity and congestion response")
    else
      (ErrorCode.kOk, "rate_selected_from_policy",
       "no dynamic evidence was available; the class ceiling was used conservatively") in
  {| pc_available_bps := available; pc_proposed_bps := proposed; pc_admitted_bps := admitted;
     pc_ceiling_bps := ceiling; pc_burst_bytes := burst; pc_utilization_bps := utilization;
     pc_response_per_mille := response; pc_capacity_used := capacity_used;
     pc_congestion_used := congestion_used; pc_code := code;
     pc_reason_code := reason_code; pc_reason_detail := reason_detail |}.

(** ** Evaluation *)

(** The pass over the participants: those whose node the topology does not know. *)
Definition count_missing (snapshot : EvaluationSnapshot) (topology : TopologyEvidence)
    (participants : list Identity) (counters : EngineCounters)
    : Z * Identity * EngineCounters :=
  foldl (fun '(missing, first_missing, counters) participant =>
           match find_peer snapshot participant with
           | None => (missing, first_missing, counters)
           | Some liveness =>
               let '(missing, first_missing) :=
                 match find_node topology (pr_node liveness) with
                 | None => (missing + 1, if missing =? 0 then participant else first_missing)
                 | Some _ => (missing, first_missing)
                 end in
               (missing, first_missing, counters <| ec_lookups ::= fun n => w64 (n + 1) |>)
           end) (0, id_none, counters) participants.

Definition select_mode (class_policy : TrafficClassPolicy) : PacingMode :=
  if bool_decide (tcp_traffic_class class_policy = TrafficClass.kIsolated)
  then PacingMode.kShaped
  else if tcp_requires_evidence_freshness class_policy then PacingMode.kTokenBucket
  else if bool_decide (tcp_traffic_class class_policy = TrafficClass.kBulkData)
  then PacingMode.kRateLimited
  else PacingMode.kImmediate.

(** Section 5 of [evaluate]: evidence, pacing and the admission itself. *)
Definition evaluate_evidence (snapshot : EvaluationSnapshot) (request : DecisionRequest)
    (definition : CollectiveDefinition) (policy : TrafficPolicy)
    (collective_policy : CollectiveClassPolicy) (class_policy : TrafficClassPolicy)
    (record : DecisionRecord) : DecisionRecord :=
  let subject := ci_id (dr_instance request) in
  let needs_congestion := tcp_requires_evidence_freshness class_policy in
  if needs_congestion && negb (es_congestion_observation_available snapshot) then
    refuse record Outcome.kRequiresReplan AuthorityAxis.kCongestionEvidence
      ErrorCode.kValidationRateInvalid "congestion_evidence_required"
      "the traffic class requires current congestion evidence and none is installed" subject
  else if needs_congestion &&
          match es_congestion snapshot with
          | Some congestion =>
              let age := evidence_age (es_now_monotonic_ms snapshot)
                           (ge_captured_monotonic_ms congestion) in
              let bound := Z.min (ge_valid_for_ms congestion)
                             (ccp_freshness_requirement_ms collective_policy) in
              bound <? age
          | None => false
          end then
    refuse record Outcome.kRequiresReplan AuthorityAxis.kCongestionEvidence
      ErrorCode.kValidationRateInvalid "congestion_evidence_stale"
      "congestion evidence is older than the freshness bound for this class; it must be revalidated rather than assumed"
      (es_congestion_generation snapshot)
  else
    let mode := select_mode class_policy in
    let pacing := compute_pacing snapshot policy class_policy collective_policy in
    if negb (bool_decide (pc_code pacing = ErrorCode.kOk)) then
      refuse record Outcome.kRejectedCapacity AuthorityAxis.kCapacityEvidence (pc_code pacing)
        (pc_reason_code pacing) (pc_reason_detail pacing) subject
    else
      let record := record
        <| de_capacity_generation := es_capacity_generation snapshot |>
        <| de_congestion_generation := es_congestion_generation snapshot |>
        <| de_capacity_evidence_used := pc_capacity_used pacing |>
        <| de_congestion_evidence_used := pc_congestion_used pacing |>
        <| de_pacing := (de_pacing record)
             <| pi_mode := mode |>
             <| pi_flow_group := de_flow_group record |>
             <| pi_instance := de_instance record |>
             <| pi_admitted_bandwidth_bps := pc_admitted_bps pacing |>
             <| pi_ceiling_bandwidth_bps := pc_ceiling_bps pacing |>
             <| pi_burst_bytes := pc_burst_bytes pacing |>
             <| pi_utilization_bps := pc_utilization_bps pacing |>
             <| pi_release_after_monotonic_ms := 0 |> |>
        <| de_sync := derive_sync_sensitivity definition (de_group record) policy |> in
      let record :=
        if bool_decide (tcp_traffic_class class_policy = TrafficClass.kIsolated) then
          add_reason (record <| de_outcome := Outcome.kIsolatedClass |>)
            "isolated_class_admitted"
            "the collective is admitted into an isolated traffic class; it is never multiplexed with other classes"
            subject
        else
          add_reason (record <| de_outcome := Outcome.kAdmitted |>) "admitted"
            "traffic treatment is permitted for this generation set" subject in
      let record := add_reason record (pc_reason_code pacing) (pc_reason_detail pacing) subject in
      let record :=
        if negb (bool_decide (ss_kind (de_sync record) = SyncKind.kNone)) then
          add_reason record
            (String.append "sync_sensitivity_" (SyncKind.SyncKind_to_string (ss_kind (de_sync record))))
            (String.append "synchronization sensitivity derived from "
               (SyncBasis.SyncBasis_to_string (ss_basis (de_sync record)))) subject
        else record in
      if dr_has_requested_class request then
        add_reason record "member_class_override_honored"
          "the policy permits this collective class to be overridden by a member request" subject
      else record.

(** Section 4: the semantics of the class and the policy that applies to it. *)
Definition evaluate_semantics (snapshot : EvaluationSnapshot) (request : DecisionRequest)
    (definition : CollectiveDefinition) (policy : TrafficPolicy) (record : DecisionRecord)
    : DecisionRecord :=
  let subject := ci_id (dr_instance request) in
  match find_collective policy (cd_collective_class definition) with
  | None =>
      refuse record Outcome.kRejectedPolicy AuthorityAxis.kSemantics
        ErrorCode.kValidationPolicyMissing "policy_missing_collective_class"
        "the installed policy does not state a rate for this collective class" subject
  | Some collective_policy =>
  if negb (is_known_collective_class (cd_collective_class definition)) then
    refuse record Outcome.kRejectedPolicy AuthorityAxis.kSemantics
      ErrorCode.kValidationClassUnknownRejected "unknown_semantics_rejected"
      "the collective class is not understood by this runtime; unknown semantics never receive a traffic class, and no default grants one"
      subject
  else if dr_has_requested_class request &&
          negb (ccp_allow_member_override collective_policy) then
    refuse record Outcome.kRejectedPolicy AuthorityAxis.kSemantics
      ErrorCode.kValidationClassUnknownRejected "class_override_not_permitted"
      "the policy does not permit a member to request a traffic class for this collective class"
      subject
  else if dr_has_requested_class request &&
          negb (traffic_class_is_classified (dr_requested_class request)) then
    refuse record Outcome.kRejectedPolicy AuthorityAxis.kSemantics
      ErrorCode.kValidationClassUnknownRejected "requested_class_unclassified"
      "an unclassified traffic class is never granted, not even on request" subject
  else
    let traffic_class :=
      if dr_has_requested_class request then dr_requested_class request
      else ccp_traffic_class collective_policy in
    if negb (traffic_class_is_classified traffic_class) then
      refuse (record <| de_traffic_class := traffic_class |> <| de_priority := 0 |>)
        Outcome.kUnknownSemantics AuthorityAxis.kSemantics
        ErrorCode.kValidationClassUnknownRejected "unknown_semantics"
        "no traffic treatment is defined for this collective class; UNKNOWN is not a weaker version of SUPPORTED"
        subject
    else match find_class policy traffic_class with
    | None =>
        refuse record Outcome.kRejectedPolicy AuthorityAxis.kPolicyGeneration
          ErrorCode.kValidationPolicyMissing "policy_missing_traffic_class"
          "the installed policy does not define this traffic class" subject
    | Some class_policy =>
        let record := record
          <| de_traffic_class := traffic_class |>
          <| de_priority := tcp_priority class_policy |>
          <| de_isolation := tcp_isolation class_policy |>
          <| de_policy_generation := es_policy_generation snapshot |>
          <| de_topology_generation := es_topology_generation snapshot |>
          <| de_epoch := es_epoch snapshot |> in
        evaluate_evidence snapshot request definition policy collective_policy class_policy record
    end
  end.

(** Section 3: the authority chain and the topology, then the rest.  The two null-pointer
    cases cannot occur once the chain has passed; they return the record as it is. *)
Definition evaluate_authority (snapshot : EvaluationSnapshot) (request : DecisionRequest)
    (definition : CollectiveDefinition) (record : DecisionRecord) (counters : EngineCounters)
    : DecisionRecord * EngineCounters :=
  let '(proceed, record) := apply_authority_chain snapshot request record in
  if negb proceed then (record, counters)
  else match es_topology snapshot, es_policy snapshot with
  | Some topology, Some policy =>
      match topology_is_current snapshot topology with
      | Some topology_detail =>
          (refuse record Outcome.kRejectedStale AuthorityAxis.kTopologyGeneration
             ErrorCode.kValidationTopologyMissing "topology_not_current" topology_detail
             (es_topology_generation snapshot), counters)
      | None =>
          let '(missing, first_missing, counters) :=
            count_missing snapshot topology (de_participants record) counters in
          if negb (missing =? 0) then
            (refuse record Outcome.kRequiresReplan AuthorityAxis.kPlan
               ErrorCode.kValidationNodeUnknown "topology_missing_participant_node"
               "a live participant is not present in the current topology evidence"
               first_missing, counters)
          else (evaluate_semantics snapshot request definition policy record, counters)
      end
  | _, _ => (record, counters)
  end.

Definition evaluate (snapshot : EvaluationSnapshot) (request : DecisionRequest)
    (definition : CollectiveDefinition) (counters : EngineCounters)
    : DecisionRecord * EngineCounters :=
  let record := (make_record request definition)
    <| de_decided_monotonic_ms := es_now_monotonic_ms snapshot |> in
  let counters := counters <| ec_lookups ::= fun n => w64 (n + 1) |> in
  if negb (ci_generation (dr_instance request) =i cd_generation definition) then
    (refuse record Outcome.kRejectedStale AuthorityAxis.kCollectiveGeneration
       ErrorCode.kCompletionStaleGeneration "rejected_stale"
       "request bound a collective generation that is not the current generation"
       (ci_generation (dr_instance request)), counters)
  else if negb (dr_has_flow_group_plan request) then
    (refuse record Outcome.kRequiresReplan AuthorityAxis.kPlan ErrorCode.kStatePlanMissing
       "requires_replan"
       "no planned communication edges were supplied; a participant list alone never authorizes fabric traffic"
       (ci_id (dr_instance request)), counters)
  else
    let plan := (dr_plan request) <| fp_collective_class := cd_collective_class definition |> in
    match construct_flow_group plan (cd_participants definition) with
    | Fail constructed =>
        (refuse record Outcome.kRequiresReplan AuthorityAxis.kPlan (st_code constructed)
           "plan_rejected" (st_message constructed) (ci_id (dr_instance request)), counters)
    | Ok group =>
        let record := record <| de_group := group |> <| de_flow_group := fg_id group |>
                             <| de_flow_group_constructed := true |> in
        let counters :=
          counters <| ec_edge_scans ::= fun n => w64 (n + zlen (fg_edges group)) |> in
        evaluate_authority snapshot request definition record counters
    end.

(** The wrapper that takes a record; every path returns the stored intent. *)
Definition compute_pacing_intent (decision : DecisionRecord) (policy : TrafficPolicy)
    : PacingIntent :=
  match find_collective policy (de_collective_class decision),
        find_class policy (de_traffic_class decision) with
  | Some _, Some _ =>
      if negb (outcome_grants_authority (de_outcome decision)) ||
         negb (de_flow_group_constructed decision)
      then de_pacing decision else de_pacing decision
  | _, _ => de_pacing decision
  end.

(** ** When authority is granted: the declarative conditions *)
Definition unnamed_or_current (observed current : Identity) : Prop :=
  observed = id_none ∨ observed = current.

Definition participant_current (snapshot : EvaluationSnapshot) (p : Identity) : Prop :=
  ∃ l, find_peer snapshot p = Some l ∧ pr_state l = ParticipantState.kLive ∧
       es_now_monotonic_ms snapshot < pr_expires_at_monotonic_ms l.

(** The generations the request names are the installed ones, policy and topology are
    installed, and every participant is live. *)
Definition chain_ok (snapshot : EvaluationSnapshot) (request : DecisionRequest)
    (participants : list Identity) : Prop :=
  unnamed_or_current (dr_observed_epoch request) (es_epoch snapshot) ∧
  unnamed_or_current (dr_observed_policy_generation request) (es_policy_generation snapshot) ∧
  (is_Some (es_policy snapshot) ∧ es_policy_generation snapshot ≠ id_none) ∧
  (is_Some (es_capacity snapshot) → es_capacity_generation snapshot ≠ id_none →
   unnamed_or_current (dr_observed_capacity_generation request)
     (es_capacity_generation snapshot)) ∧
  (is_Some (es_congestion snapshot) → es_congestion_generation snapshot ≠ id_none →
   unnamed_or_current (dr_observed_congestion_generation request)
     (es_congestion_generation snapshot)) ∧
  unnamed_or_current (dr_observed_topology_generation request)
    (es_topology_generation snapshot) ∧
  (is_Some (es_topology snapshot) ∧ es_topology_generation snapshot ≠ id_none) ∧
  Forall (participant_current snapshot) participants.

Definition topology_fresh (snapshot : EvaluationSnapshot) (t : TopologyEvidence) : Prop :=
  te_generation t = es_topology_generation snapshot ∧
  evidence_age (es_now_monotonic_ms snapshot) (te_captured_monotonic_ms t)
    ≤ fr_topology_max_age_ms (es_freshness snapshot).

(** Every participant's node is part of the topology. *)
Definition nodes_known (snapshot : EvaluationSnapshot) (t : TopologyEvidence)
    (participants : list Identity) : Prop :=
  Forall (fun p => ∀ l, find_peer snapshot p = Some l → is_Some (find_node t (pr_node l)))
    participants.

Definition congestion_fresh (snapshot : EvaluationSnapshot) (cp : CollectiveClassPolicy) : Prop :=
  es_congestion_observation_available snapshot = true ∧
  ∀ c, es_congestion snapshot = Some c →
    evidence_age (es_now_monotonic_ms snapshot) (ge_captured_monotonic_ms c)
      ≤ Z.min (ge_valid_for_ms c) (ccp_freshness_requirement_ms cp).

Definition effective_class (request : DecisionRequest) (cp : CollectiveClassPolicy)
    : TrafficClass :=
  if dr_has_requested_class request then dr_requested_class request else ccp_traffic_class cp.

(** The policy entries that give the collective its treatment. *)
Definition treatment (request : DecisionRequest) (definition : CollectiveDefinition)
    (policy : TrafficPolicy) (cp : CollectiveClassPolicy) (tc : TrafficClassPolicy) : Prop :=
  find_collective policy (cd_collective_class definition) = Some cp ∧
  is_known_collective_class (cd_collective_class definition) = true ∧
  (dr_has_requested_class request = true → ccp_allow_member_override cp = true) ∧
  traffic_class_is_classified (effective_class request cp) = true ∧
  find_class policy (effective_class request cp) = Some tc.

Definition evidence_ok (snapshot : EvaluationSnapshot) (policy : TrafficPolicy)
    (cp : CollectiveClassPolicy) (tc : TrafficClassPolicy) : Prop :=
  (tcp_requires_evidence_freshness tc = true → congestion_fresh snapshot cp) ∧
  pc_code (compute_pacing snapshot policy tc cp) = ErrorCode.kOk.

(** The whole condition, with the objects it is about. *)
Definition authorized_by (snapshot : EvaluationSnapshot) (request : DecisionRequest)
    (definition : CollectiveDefinition) (group : FlowGroup) (t : TopologyEvidence)
    (policy : TrafficPolicy) (cp : CollectiveClassPolicy) (tc : TrafficClassPolicy) : Prop :=
  ci_generation (dr_instance request) = cd_generation definition ∧
  dr_has_flow_group_plan request = true ∧
  construct_flow_group
    ((dr_plan request) <| fp_collective_class := cd_collective_class definition |>)
    (cd_participants definition) = Ok group ∧
  chain_ok snapshot request (cd_participants definition) ∧
  es_topology snapshot = Some t ∧ topology_fresh snapshot t ∧
  nodes_known snapshot t (cd_participants definition) ∧
  es_policy snapshot = Some policy ∧ treatment request definition policy cp tc ∧
  evidence_ok snapshot policy cp tc.

Definition authorized (snapshot : EvaluationSnapshot) (request : DecisionRequest)
    (definition : CollectiveDefinition) : Prop :=
  ∃ group t policy cp tc, authorized_by snapshot request definition group t policy cp tc.

(** ** What a refusal and a grant look like *)
Definition refused (r : DecisionRecord) : Prop :=
  outcome_grants_authority (de_outcome r) = false ∧ de_axis r ≠ AuthorityAxis.kNone ∧
  de_code r ≠ ErrorCode.kOk ∧ de_reasons r ≠ [].

Lemma refuse_refused record outcome axis code reason detail subject :
  outcome_grants_authority outcome = false → axis ≠ AuthorityAxis.kNone →
  code ≠ ErrorCode.kOk → refused (refuse record outcome axis code reason detail subject).
Proof.
  intros. unfold refused, refuse. cbn. split_and!; try done. apply rc_push_nonempty.
Qed.

Lemma add_reason_refused record reason detail subject :
  refused record → refused (add_reason record reason detail subject).
Proof.
  unfold refused, add_reason. cbn. intros (?&?&?&?). split_and!; try done.
  apply rc_push_nonempty.
Qed.

Ltac refusal := apply refuse_refused; done.

(** ** The stages decide their conditions *)
Lemma names_other_false observed current :
  names_other observed current = false ↔ unnamed_or_current observed current.
Proof.
  unfold names_other, unnamed_or_current, is_some. rewrite andb_false_iff, !negb_false_iff.
  by rewrite is_none_eq, id_eqb_eq.
Qed.

Lemma is_null_false {A} (p : option A) : is_null p = false ↔ is_Some p.
Proof. destruct p; simpl; split; intros H; done || by destruct H. Qed.

Lemma without_authority_false snapshot p :
  without_authority snapshot p = false ↔ participant_current snapshot p.
Proof.
  unfold without_authority, participant_current. destruct (find_peer snapshot p) as [l|].
  - case_bool_decide; simpl; [|split; [done|naive_solver]].
    destruct (_ <=? _) eqn:E; bool_prop; split.
    + done.
    + intros (l' & [= <-] & _ & Hl). lia.
    + eauto.
    + done.
  - split; [done | naive_solver].
Qed.

Lemma collect_not_live_nil snapshot participants :
  (zlen (collect_not_live snapshot participants) =? 0) = true ↔
  Forall (participant_current snapshot) participants.
Proof.
  unfold collect_not_live.
  assert (∀ acc, (zlen (foldl (fun not_live participant =>
             if without_authority snapshot participant
             then if zlen not_live <? 8 then not_live ++ [participant] else not_live
             else not_live) acc participants) =? 0) = true ↔
    acc = [] ∧ Forall (participant_current snapshot) participants) as H.
  { induction participants as [|p ps IH]; intros acc; simpl.
    - rewrite Z.eqb_eq. unfold zlen. destruct acc; simpl; [done|]. split; [lia|naive_solver].
    - rewrite IH, Forall_cons, <- without_authority_false.
      destruct (without_authority snapshot p); [|naive_solver].
      split; [|naive_solver]. intros [Ha _]. exfalso.
      destruct (zlen acc <? 8) eqn:E; [by destruct acc|]. subst acc. done. }
  rewrite H. naive_solver.
Qed.

Lemma chain_passes snapshot request record :
  (apply_authority_chain snapshot request record).1 = true ↔
  chain_ok snapshot request (de_participants record).
Proof.
  unfold apply_authority_chain, chain_ok.
  rewrite <- !names_other_false, <- collect_not_live_nil, <- !is_null_false, <- !is_none_neq.
  destruct (names_other (dr_observed_epoch request) _); [naive_solver|].
  destruct (names_other (dr_observed_policy_generation request) _); [naive_solver|].
  destruct (is_null (es_policy snapshot)); [naive_solver|].
  destruct (is_none (es_policy_generation snapshot)); [naive_solver|].
  unfold is_some.
  destruct (negb (is_null (es_capacity snapshot)) && _ && _) eqn:E1.
  { bool_prop. split; [done|]. intros (_ & _ & _ & Hc & _). rewrite Hc in *; congruence. }
  destruct (negb (is_null (es_congestion snapshot)) && _ && _) eqn:E2.
  { bool_prop. split; [done|]. intros (_ & _ & _ & _ & Hc & _). rewrite Hc in *; congruence. }
  destruct (names_other (dr_observed_topology_generation request) _); [naive_solver|].
  destruct (is_null (es_topology snapshot)); [naive_solver|].
  destruct (is_none (es_topology_generation snapshot)); [naive_solver|]. cbn [orb].
  destruct (zlen _ =? 0); cbn [negb fst]; [|naive_solver].
  split; [intros _|done]. split_and!; try done.
  - intros H1 H2. rewrite H1, H2 in E1. exact E1.
  - intros H1 H2. rewrite H1, H2 in E2. exact E2.
Qed.

Lemma chain_refuses snapshot request record :
  (apply_authority_chain snapshot request record).1 = false →
  refused (apply_authority_chain snapshot request record).2.
Proof.
  unfold apply_authority_chain. repeat case_match; intros Hf; try done; cbn [snd]; try refusal.
  assert (∀ l r, refused r → refused (foldl (fun record participant =>
    add_reason record "participant_without_authority"
      "participant holds no current liveness evidence" participant) r l)) as Hl.
  { induction l as [|p l IH]; [done|]. intros r Hr. simpl. by apply IH, add_reason_refused. }
  apply Hl. refusal.
Qed.

Lemma chain_proceeds snapshot request record :
  (apply_authority_chain snapshot request record).1 = true →
  (apply_authority_chain snapshot request record).2 =
    add_reason (record <| de_all_members_live := true |>) "authority_current"
      "epoch, policy, topology, evidence and participant liveness all support this request"
      (ci_id (dr_instance request)).
Proof. unfold apply_authority_chain. by repeat case_match. Qed.

Lemma topology_is_current_None snapshot t :
  topology_is_current snapshot t = None ↔ topology_fresh snapshot t.
Proof.
  unfold topology_is_current, topology_fresh.
  destruct (te_generation t =i _) eqn:E1; cbn [negb].
  - apply id_eqb_eq in E1. destruct (_ <? _) eqn:E2; bool_prop; split; intros; try done; lia.
  - apply id_eqb_neq in E1. naive_solver.
Qed.

Lemma count_missing_zero snapshot t participants counters :
  ((count_missing snapshot t participants counters).1.1 =? 0) = true ↔
  nodes_known snapshot t participants.
Proof.
  unfold count_missing, nodes_known.
  set (step := fun '(missing, first_missing, counters) participant => _).
  assert (∀ m f c, 0 ≤ m → ((foldl step (m, f, c) participants).1.1 =? 0) = true ↔
    m = 0 ∧ Forall (fun p => ∀ l, find_peer snapshot p = Some l →
                       is_Some (find_node t (pr_node l))) participants) as H.
  { induction participants as [|p ps IH]; intros m f c Hm.
    - cbn. rewrite Z.eqb_eq. naive_solver.
    - rewrite Forall_cons. cbn [foldl]. unfold step at 2.
      destruct (find_peer snapshot p) as [l|]; [|rewrite IH by done; naive_solver].
      destruct (find_node t (pr_node l)) eqn:En.
      + rewrite IH by done. naive_solver.
      + rewrite IH by lia. split; [intros [? _]; lia|]. intros (_ & Hp & _).
        destruct (Hp l eq_refl) as [? ?]. congruence. }
  rewrite H by lia. naive_solver.
Qed.

(** Records up to their reason chain. *)
Definition strip (r : DecisionRecord) : DecisionRecord := r <| de_reasons := [] |>.

Lemma strip_add_reason r reason detail subject :
  strip (add_reason r reason detail subject) = strip r.
Proof. reflexivity. Qed.

Lemma strip_optional_reason (b : bool) r reason detail subject :
  strip (if b then add_reason r reason detail subject else r) = strip r.
Proof. by destruct b. Qed.

Lemma strip_outcome (b : bool) r o1 o2 reason1 detail1 reason2 detail2 subject :
  strip (if b then add_reason (r <| de_outcome := o1 |>) reason1 detail1 subject
         else add_reason (r <| de_outcome := o2 |>) reason2 detail2 subject) =
  strip (r <| de_outcome := if b then o1 else o2 |>).
Proof. by destruct b. Qed.

Definition grant_outcome (tc : TrafficClassPolicy) : Outcome :=
  if bool_decide (tcp_traffic_class tc = TrafficClass.kIsolated)
  then Outcome.kIsolatedClass else Outcome.kAdmitted.

(** The intent a grant carries. *)
Definition grant_pacing (snapshot : EvaluationSnapshot) (request : DecisionRequest)
    (group : FlowGroup) (policy : TrafficPolicy) (cp : CollectiveClassPolicy)
    (tc : TrafficClassPolicy) : PacingIntent :=
  let pacing := compute_pacing snapshot policy tc cp in
  {| pi_mode := select_mode tc; pi_flow_group := fg_id group;
     pi_instance := dr_instance request;
     pi_admitted_bandwidth_bps := pc_admitted_bps pacing;
     pi_ceiling_bandwidth_bps := pc_ceiling_bps pacing;
     pi_burst_bytes := pc_burst_bytes pacing;
     pi_utilization_bps := pc_utilization_bps pacing;
     pi_release_after_monotonic_ms := 0; pi_reason_code := id_none |}.

(** Every field of a granted decision, its reasons apart. *)
Definition grant_record (snapshot : EvaluationSnapshot) (request : DecisionRequest)
    (definition : CollectiveDefinition) (group : FlowGroup) (policy : TrafficPolicy)
    (cp : CollectiveClassPolicy) (tc : TrafficClassPolicy) : DecisionRecord :=
  let pacing := compute_pacing snapshot policy tc cp in
  {| de_instance := dr_instance request;
     de_collective_class := cd_collective_class definition;
     de_algorithm_hint := cd_algorithm_hint definition;
     de_outcome := grant_outcome tc;
     de_axis := AuthorityAxis.kNone;
     de_code := ErrorCode.kOk;
     de_flow_group := fg_id group;
     de_flow_group_constructed := true;
     de_group := group;
     de_participants := cd_participants definition;
     de_traffic_class := effective_class request cp;
     de_priority := tcp_priority tc;
     de_isolation := tcp_isolation tc;
     de_pacing := grant_pacing snapshot request group policy cp tc;
     de_sync := derive_sync_sensitivity definition group policy;
     de_collective_generation := cd_generation definition;
     de_topology_generation := es_topology_generation snapshot;
     de_policy_generation := es_policy_generation snapshot;
     de_capacity_generation := es_capacity_generation snapshot;
     de_congestion_generation := es_congestion_generation snapshot;
     de_epoch := es_epoch snapshot;
     de_congestion_evidence_used := pc_congestion_used pacing;
     de_capacity_evidence_used := pc_capacity_used pacing;
     de_all_members_live := true;
     de_phase_index := 0; de_step_index := 0;
     de_reasons := [];
     de_decided_monotonic_ms := es_now_monotonic_ms snapshot;
     de_decision_sequence := 0 |}.

#[local] Arguments compute_pacing : simpl never.
#[local] Arguments derive_sync_sensitivity : simpl never.
#[local] Arguments rc_push : simpl never.
#[local] Arguments is_known_collective_class : simpl never.
#[local] Arguments traffic_class_is_classified : simpl never.
#[local] Arguments construct_flow_group : simpl never.
#[local] Arguments apply_authority_chain : simpl never.
#[local] Arguments count_missing : simpl never.

Lemma stale_congestion_false snapshot cp :
  es_congestion_observation_available snapshot = true →
  match es_congestion snapshot with
  | Some c => Z.min (ge_valid_for_ms c) (ccp_freshness_requirement_ms cp) <?
                evidence_age (es_now_monotonic_ms snapshot) (ge_captured_monotonic_ms c)
  | None => false
  end = false ↔ congestion_fresh snapshot cp.
Proof.
  intros Ha. unfold congestion_fresh. destruct (es_congestion snapshot) as [c|].
  - rewrite Z.ltb_ge. naive_solver.
  - naive_solver.
Qed.

Definition admitted_record (snapshot : EvaluationSnapshot) (definition : CollectiveDefinition)
    (policy : TrafficPolicy) (cp : CollectiveClassPolicy) (tc : TrafficClassPolicy)
    (record : DecisionRecord) : DecisionRecord :=
  let pacing := compute_pacing snapshot policy tc cp in
  record <| de_capacity_generation := es_capacity_generation snapshot |>
         <| de_congestion_generation := es_congestion_generation snapshot |>
         <| de_capacity_evidence_used := pc_capacity_used pacing |>
         <| de_congestion_evidence_used := pc_congestion_used pacing |>
         <| de_pacing := (de_pacing record)
              <| pi_mode := select_mode tc |>
              <| pi_flow_group := de_flow_group record |>
              <| pi_instance := de_instance record |>
              <| pi_admitted_bandwidth_bps := pc_admitted_bps pacing |>
              <| pi_ceiling_bandwidth_bps := pc_ceiling_bps pacing |>
              <| pi_burst_bytes := pc_burst_bytes pacing |>
              <| pi_utilization_bps := pc_utilization_bps pacing |>
              <| pi_release_after_monotonic_ms := 0 |> |>
         <| de_sync := derive_sync_sensitivity definition (de_group record) policy |>
         <| de_outcome := grant_outcome tc |>.

Lemma evaluate_evidence_cases snapshot request definition policy cp tc record :
  (evidence_ok snapshot policy cp tc ∧
   strip (evaluate_evidence snapshot request definition policy cp tc record) =
   strip (admitted_record snapshot definition policy cp tc record)) ∨
  (¬ evidence_ok snapshot policy cp tc ∧
   refused (evaluate_evidence snapshot request definition policy cp tc record)).
Proof.
  unfold evaluate_evidence, evidence_ok, admitted_record. cbv zeta.
  destruct (tcp_requires_evidence_freshness tc) eqn:Ef; cbn [andb].
  - destruct (es_congestion_observation_available snapshot) eqn:Ea; cbn [negb].
    2:{ right. split; [|refusal]. intros [Hf _]. destruct Hf as [Hf _]; congruence. }
    pose proof (stale_congestion_false snapshot cp Ea) as Hs.
    destruct (match es_congestion snapshot with Some _ => _ | None => _ end).
    { right. split; [|refusal]. intros [Hf _]. apply Hs in Hf; done. }
    case_bool_decide as Ec; cbn [negb].
    2:{ right. split; [naive_solver | refusal]. }
    left. split; [split; [intros _; by apply Hs | done]|].
    by rewrite !strip_optional_reason, strip_add_reason, strip_outcome.
  - case_bool_decide as Ec; cbn [negb].
    2:{ right. split; [naive_solver | refusal]. }
    left. split; [done|].
    by rewrite !strip_optional_reason, strip_add_reason, strip_outcome.
Qed.

Lemma evaluate_semantics_cases snapshot request definition policy record :
  (∃ cp tc, treatment request definition policy cp tc ∧ evidence_ok snapshot policy cp tc ∧
   strip (evaluate_semantics snapshot request definition policy record) =
   strip (admitted_record snapshot definition policy cp tc
     (record <| de_traffic_class := effective_class request cp |>
             <| de_priority := tcp_priority tc |>
             <| de_isolation := tcp_isolation tc |>
             <| de_policy_generation := es_policy_generation snapshot |>
             <| de_topology_generation := es_topology_generation snapshot |>
             <| de_epoch := es_epoch snapshot |>))) ∨
  ((∀ cp tc, treatment request definition policy cp tc → ¬ evidence_ok snapshot policy cp tc) ∧
   refused (evaluate_semantics snapshot request definition policy record)).
Proof.
  unfold evaluate_semantics, treatment. cbv zeta.
  destruct (find_collective policy _) as [cp|]; [|right; split; [naive_solver | refusal]].
  destruct (is_known_collective_class _); cbn [negb];
    [|right; split; [naive_solver | refusal]].
  fold (effective_class request cp).
  destruct (dr_has_requested_class request && negb (ccp_allow_member_override cp)) eqn:E1.
  { bool_prop. right. split; [|refusal]. intros ? ? ([= <-] & _ & Ho & _). rewrite Ho in *; done. }
  destruct (dr_has_requested_class request && negb (traffic_class_is_classified _)) eqn:E2.
  { bool_prop. right. split; [|refusal]. intros ? ? ([= <-] & _ & _ & Hc & _).
    unfold effective_class in Hc. rewrite H in Hc. congruence. }
  destruct (traffic_class_is_classified (effective_class request cp)) eqn:E3; cbn [negb].
  2:{ right. split; [|refusal]. intros ? ? ([= <-] & _ & _ & Hc & _). congruence. }
  destruct (find_class policy _) as [tc|] eqn:E4.
  2:{ right. split; [|refusal]. intros ? ? ([= <-] & _ & _ & _ & Hc). congruence. }
  match goal with |- context [evaluate_evidence _ _ _ _ _ _ ?r] =>
    destruct (evaluate_evidence_cases snapshot request definition policy cp tc r) as [[He Hs]|[He Hr]]
  end.
  - left. exists cp, tc. split_and!; try done. intros Hq. rewrite Hq in E1. by destruct (ccp_allow_member_override cp).
  - right. split; [|done]. intros ? ? ([= <-] & _ & _ & _ & Hc). congruence.
Qed.

Lemma evaluate_authority_cases snapshot request definition record counters :
  de_participants record = cd_participants definition →
  (∃ t policy cp tc,
     chain_ok snapshot request (cd_participants definition) ∧
     es_topology snapshot = Some t ∧ topology_fresh snapshot t ∧
     nodes_known snapshot t (cd_participants definition) ∧ es_policy snapshot = Some policy ∧
     treatment request definition policy cp tc ∧ evidence_ok snapshot policy cp tc ∧
     strip (evaluate_authority snapshot request definition record counters).1 =
     strip (admitted_record snapshot definition policy cp tc
       (record <| de_all_members_live := true |>
               <| de_traffic_class := effective_class request cp |>
               <| de_priority := tcp_priority tc |>
               <| de_isolation := tcp_isolation tc |>
               <| de_policy_generation := es_policy_generation snapshot |>
               <| de_topology_generation := es_topology_generation snapshot |>
               <| de_epoch := es_epoch snapshot |>))) ∨
  ((∀ t policy cp tc, chain_ok snapshot request (cd_participants definition) →
     es_topology snapshot = Some t → topology_fresh snapshot t →
     nodes_known snapshot t (cd_participants definition) → es_policy snapshot = Some policy →
     treatment request definition policy cp tc → ¬ evidence_ok snapshot policy cp tc) ∧
   refused (evaluate_authority snapshot request definition record counters).1).
Proof.
  intros Hp. unfold evaluate_authority.
  pose proof (chain_passes snapshot request record) as Hpass. rewrite Hp in Hpass.
  pose proof (chain_refuses snapshot request record) as Hno.
  pose proof (chain_proceeds snapshot request record) as Hyes.
  destruct (apply_authority_chain snapshot request record) as [[] r]; cbn [negb fst snd] in *.
  2:{ right. split; [|by apply Hno]. intros ? ? ? ? Hc. by apply Hpass in Hc. }
  clear Hno. rewrite (Hyes eq_refl). clear Hyes r.
  pose proof (proj1 Hpass eq_refl) as Hc. clear Hpass.
  destruct (es_topology snapshot) as [t|] eqn:Et.
  2:{ destruct Hc as (_ & _ & _ & _ & _ & _ & [[? Ht] _] & _). congruence. }
  destruct (es_policy snapshot) as [policy|] eqn:Ep.
  2:{ destruct Hc as (_ & _ & [[? Ht] _] & _). congruence. }
  destruct (topology_is_current snapshot t) as [d|] eqn:Ecur.
  { right. split; [|refusal]. intros ? ? ? ? _ [= <-] Hf.
    apply topology_is_current_None in Hf. congruence. }
  apply topology_is_current_None in Ecur.
  set (r := add_reason _ _ _ _).
  pose proof (count_missing_zero snapshot t (de_participants r) counters) as Hm.
  destruct (count_missing snapshot t (de_participants r) counters) as [[m f] c].
  change (de_participants r) with (de_participants record) in Hm. rewrite Hp in Hm.
  cbn [fst] in Hm. destruct (m =? 0); cbn [negb fst].
  2:{ right. split; [|refusal]. intros ? ? ? ? _ [= <-] _ Hk. by apply Hm in Hk. }
  destruct (evaluate_semantics_cases snapshot request definition policy r)
    as [(cp & tc & Ht & He & Hs)|[He Hr]].
  - left. exists t, policy, cp, tc. split_and!; try done. by apply Hm.
  - right. split; [|done]. intros ? ? ? ? _ _ _ _ [= <-]. apply He.
Qed.

(** The two outcomes of an evaluation, and when each occurs. *)
Lemma evaluate_cases snapshot request definition counters :
  let r := (evaluate snapshot request definition counters).1 in
  (∃ group t policy cp tc,
     authorized_by snapshot request definition group t policy cp tc ∧
     strip r = grant_record snapshot request definition group policy cp tc) ∨
  (¬ authorized snapshot request definition ∧ refused r).
Proof.
  cbv zeta. unfold authorized, authorized_by, evaluate.
  destruct (ci_generation (dr_instance request) =i _) eqn:E1; cbn [negb].
  2:{ right. split; [|refusal]. apply id_eqb_neq in E1. naive_solver. }
  apply id_eqb_eq in E1.
  destruct (dr_has_flow_group_plan request) eqn:E2; cbn [negb].
  2:{ right. split; [naive_solver | refusal]. }
  destruct (construct_flow_group _ _) as [group|s] eqn:E3.
  2:{ right. split; [naive_solver|]. apply refuse_refused; [done|done|].
      unfold construct_flow_group in E3.
      destruct (is_ok (validate_flow_group_plan _ _)) eqn:E4; [done|].
      injection E3 as <-. unfold is_ok in E4. by apply bool_decide_eq_false in E4. }
  match goal with |- context [evaluate_authority _ _ _ ?r ?c] =>
    destruct (evaluate_authority_cases snapshot request definition r c eq_refl)
      as [(t & policy & cp & tc & H1 & H2 & H3 & H4 & H5 & H6 & H7 & Hs)|[He Hr]]
  end.
  - left. exists group, t, policy, cp, tc. split; [by split_and!|]. by rewrite Hs.
  - right. split; [|done]. intros (g & t & policy & cp & tc & _ & _ & _ & ? & ? & ? & ? & ? & ? & ?).
    by eapply He.
Qed.

(** ** The rate computation *)
Lemma scale_per_mille_exact x m :
  is_u64 x → 0 ≤ m ≤ 1000 → scale_per_mille x m = x * m / 1000.
Proof.
  intros Hx Hm. unfold is_u64 in Hx. unfold scale_per_mille.
  pose proof (Z.div_mod x 1000 ltac:(lia)) as Hdm.
  pose proof (Z.mod_pos_bound x 1000 ltac:(lia)) as Hr.
  assert (0 ≤ x / 1000) as Hq by (apply Z.div_pos; lia).
  set (q := x / 1000) in *. set (r := x mod 1000) in *.
  assert (0 ≤ q * m ≤ q * 1000) as Hqm by nia. assert (0 ≤ r * m ≤ r * 1000) as Hrm by nia.
  rewrite (w64_small (q * m)) by (unfold is_u64; lia).
  rewrite (w64_small (r * m)) by (unfold is_u64; lia).
  assert (0 ≤ r * m / 1000 ≤ r) as Hd.
  { split; [apply Z.div_pos; lia | apply Z.div_le_upper_bound; lia]. }
  rewrite w64_small by (unfold is_u64; lia).
  rewrite Hdm. replace ((1000 * q + r) * m) with (q * m * 1000 + r * m) by lia.
  by rewrite Z.div_add_l by lia.
Qed.

Lemma scale_per_mille_le x m :
  is_u64 x → 0 ≤ m ≤ 1000 → 0 ≤ scale_per_mille x m ≤ x.
Proof.
  intros Hx Hm. rewrite scale_per_mille_exact by done. unfold is_u64 in Hx. split.
  - apply Z.div_pos; nia.
  - apply Z.div_le_upper_bound; nia.
Qed.

Lemma bucket_loop_bounds n table u b : (b ≤ bucket_loop n table u b ≤ b + n)%nat.
Proof.
  revert b. induction n as [|n IH]; intros b; simpl; [lia|].
  case_match; [specialize (IH (S b)); lia | lia].
Qed.

Lemma bucket_loop_mono n table u1 u2 b :
  u1 ≤ u2 → (bucket_loop n table u1 b ≤ bucket_loop n table u2 b)%nat.
Proof.
  intros Hu. revert b. induction n as [|n IH]; intros b; simpl; [lia|].
  destruct (_ <=? u1) eqn:E1, (_ <=? u2) eqn:E2; bool_prop; auto; [lia|].
  pose proof (bucket_loop_bounds n table u2 (S b)). lia.
Qed.

Definition response_index (table : CongestionResponseTable) (u : Z) : nat :=
  Nat.min (bucket_loop kBucketCount table u 0) (kBucketCount - 1).

Lemma congestion_response_index table u :
  congestion_response table u =
    array_at (crt_rate_numerator_per_mille table) (response_index table u).
Proof.
  unfold congestion_response, response_index.
  by destruct (bucket_loop kBucketCount table u 0).
Qed.

Lemma crt_valid_rate table i :
  crt_is_valid table = true → (i < kBucketCount)%nat →
  0 ≤ array_at (crt_rate_numerator_per_mille table) i ≤ 1000 ∨
  array_at (crt_rate_numerator_per_mille table) i < 0.
Proof.
  unfold crt_is_valid. rewrite forallb_forall. intros H Hi.
  assert (In i (seq 0 kBucketCount)) as Hin by (apply in_seq; lia).
  specialize (H i Hin). unfold crt_check in H. bool_prop. lia.
Qed.

(** The entries of the table are 32-bit unsigned values. *)
Definition table_wf (table : CongestionResponseTable) : Prop :=
  Forall is_u32 (crt_utilization_bps table) ∧
  Forall is_u32 (crt_rate_numerator_per_mille table).

Lemma array_at_nonneg l i : Forall is_u32 l → 0 ≤ array_at l i.
Proof.
  intros H. unfold array_at. destruct (nth_in_or_default i l 0) as [Hin| ->]; [|lia].
  apply list_elem_of_In in Hin. rewrite Forall_forall in H. destruct (H _ Hin). lia.
Qed.

Lemma congestion_response_bounds table u :
  table_wf table → crt_is_valid table = true → 0 ≤ congestion_response table u ≤ 1000.
Proof.
  intros [_ Hw] Hv. rewrite congestion_response_index.
  pose proof (array_at_nonneg _ (response_index table u) Hw).
  destruct (crt_valid_rate table (response_index table u) Hv) as [?|?]; [|lia|lia].
  unfold response_index, kBucketCount. lia.
Qed.

Lemma validate_classes_Forall seen l :
  is_ok (validate_classes seen l) = true →
  Forall (fun c => tcp_priority c ≤ kMaximumPriority ∧
    (tcp_maximum_bandwidth_bps c = kUnlimitedRate ∨
     tcp_minimum_bandwidth_bps c ≤ tcp_maximum_bandwidth_bps c)) l.
Proof.
  revert seen. induction l as [|c l IH]; intros seen; cbn [validate_classes]; [constructor|].
  destruct (16 <=? _); [done|]. case_bool_decide; [done|].
  destruct (_ <? tcp_priority c) eqn:E1; [done|].
  destruct (negb _ && _) eqn:E2; [done|].
  destruct (_ <? tcp_burst_bytes c); [done|]. intros Hl. constructor; [|by eapply IH].
  bool_prop. split; [lia|].
  destruct (tcp_maximum_bandwidth_bps c =? kUnlimitedRate) eqn:E3; bool_prop; [by left|].
  destruct E2; [done|]. bool_prop. by right.
Qed.

(** What the rate computation relies on of a validated policy. *)
Lemma policy_validate_ok policy :
  is_ok (policy_validate policy) = true →
  crt_is_valid (tp_congestion_response policy) = true ∧
  tp_burst_multiplier_per_mille policy ≤ 1000 ∧
  ∀ c tc, find_class policy c = Some tc →
    tcp_maximum_bandwidth_bps tc = kUnlimitedRate ∨
    tcp_minimum_bandwidth_bps tc ≤ tcp_maximum_bandwidth_bps tc.
Proof.
  unfold policy_validate. destruct (is_none _); [done|].
  destruct (zlen (tp_class_policies policy) =? 0); [done|]. destruct (_ <? zlen _); [done|].
  destruct (is_ok (validate_classes _ _)) eqn:Ec; cbn [negb]; [|congruence].
  destruct (find_class policy _) as [u|]; [|done].
  destruct (find_collective policy _) as [k|]; [|done].
  destruct (crt_is_valid _); cbn [negb]; [|done].
  destruct (1000 <? _) eqn:E2; [done|]. intros _. bool_prop. split_and!; [done|lia|].
  intros c tc Hf. apply find_first_Some in Hf as [Hin _].
  apply validate_classes_Forall in Ec. rewrite Forall_forall in Ec. by apply (Ec tc Hin).
Qed.

Definition class_policy_wf (tc : TrafficClassPolicy) : Prop :=
  is_u64 (tcp_minimum_bandwidth_bps tc) ∧ is_u64 (tcp_maximum_bandwidth_bps tc) ∧
  is_u64 (tcp_burst_bytes tc).

Definition policy_wf (policy : TrafficPolicy) : Prop :=
  table_wf (tp_congestion_response policy) ∧ is_u64 (tp_burst_multiplier_per_mille policy) ∧
  Forall class_policy_wf (tp_class_policies policy).

Lemma find_class_wf policy c tc :
  policy_wf policy → find_class policy c = Some tc → class_policy_wf tc.
Proof.
  intros (_ & _ & Hf) [Hin _]%find_first_Some. rewrite Forall_forall in Hf. auto.
Qed.

Lemma observed_capacity_u64 snapshot : is_u64 (observed_capacity snapshot).1.
Proof.
  unfold observed_capacity. repeat case_match; try (unfold is_u64; simpl; lia).
  cbn [fst]. rewrite foldl_w64_sum by (unfold is_u64; lia). apply w64_range.
Qed.

(** A capacity observation the computation may use: installed, of the current topology and
    fresh. *)
Definition capacity_usable (snapshot : EvaluationSnapshot) (capacity : CapacityEvidence) : Prop :=
  es_capacity snapshot = Some capacity ∧ es_capacity_generation snapshot ≠ id_none ∧
  ce_topology_generation capacity = es_topology_generation snapshot ∧
  evidence_age (es_now_monotonic_ms snapshot) (ce_captured_monotonic_ms capacity)
    ≤ fr_capacity_max_age_ms (es_freshness snapshot).

Lemma observed_capacity_spec snapshot :
  (∀ capacity, capacity_usable snapshot capacity →
     (observed_capacity snapshot).1 =
       foldr Z.add 0 (lc_available_bps <$> ce_links capacity) mod two64) ∧
  ((¬ ∃ capacity, capacity_usable snapshot capacity) → (observed_capacity snapshot).1 = 0).
Proof.
  unfold observed_capacity, capacity_usable. split.
  - intros capacity (-> & Hg & -> & Ha%Z.leb_le).
    rewrite (proj2 (is_some_neq _)), id_eqb_refl, Ha by done. cbn [andb fst].
    rewrite foldl_w64_sum by (unfold is_u64; lia). done.
  - intros Hnone. destruct (es_capacity snapshot) as [capacity|]; [|done].
    destruct (is_some _) eqn:E1; [|done]. destruct (_ =i _) eqn:E2; [|done].
    cbn [andb]. destruct (_ <=? _) eqn:E3; [|done]. destruct Hnone. exists capacity.
    apply is_some_neq in E1. apply id_eqb_eq in E2. apply Z.leb_le in E3. done.
Qed.

(** ** Properties *)

(** C2: when the engine grants authority.  [evaluate] admits a flow group exactly when the
    request binds the current collective generation and carries a plan that constructs, every
    generation it names is the installed one, policy and topology are installed, every
    participant is live and its node is part of a fresh topology, the class is known and has a
    treatment (an override only where the policy allows it), the congestion evidence its class
    requires is fresh, and the rate computation can honour the class floor. *)
Theorem evaluate_grants_iff (snapshot : EvaluationSnapshot) (request : DecisionRequest)
    (definition : CollectiveDefinition) (counters : EngineCounters) :
  outcome_grants_authority (de_outcome (evaluate snapshot request definition counters).1) = true
  ↔ authorized snapshot request definition.
Proof.
  destruct (evaluate_cases snapshot request definition counters)
    as [(g & t & policy & cp & tc & Ha & Hs)|[Hn Hr]].
  - split; [intros _; by exists g, t, policy, cp, tc|]. intros _.
    apply (f_equal de_outcome) in Hs. change (de_outcome (strip ?r)) with (de_outcome r) in Hs.
    rewrite Hs. cbn. unfold grant_outcome. by case_bool_decide.
  - destruct Hr as (Ho & _). rewrite Ho. done.
Qed.

(** C32: every refusal is explained: a decision that does not grant authority names the axis
    that defeated it, an error code other than kOk, and at least one reason; a decision that
    grants authority names no axis and no error. *)
Theorem evaluate_refusal_explained (snapshot : EvaluationSnapshot) (request : DecisionRequest)
    (definition : CollectiveDefinition) (counters : EngineCounters) :
  let r := (evaluate snapshot request definition counters).1 in
  if outcome_grants_authority (de_outcome r)
  then de_axis r = AuthorityAxis.kNone ∧ de_code r = ErrorCode.kOk
  else de_axis r ≠ AuthorityAxis.kNone ∧ de_code r ≠ ErrorCode.kOk ∧ de_reasons r ≠ [].
Proof.
  cbv zeta. destruct (evaluate_cases snapshot request definition counters)
    as [(g & t & policy & cp & tc & Ha & Hs)|[Hn (Ho & Hr)]].
  - set (r := (evaluate _ _ _ _).1) in *.
    assert (de_outcome r = grant_outcome tc) as -> by exact (f_equal de_outcome Hs).
    assert (de_axis r = AuthorityAxis.kNone) as -> by exact (f_equal de_axis Hs).
    assert (de_code r = ErrorCode.kOk) as -> by exact (f_equal de_code Hs).
    unfold grant_outcome. by case_bool_decide.
  - by rewrite Ho.
Qed.

(** What a grant is bound to.  A decision that grants authority is, its reasons apart,
    [grant_record]: it carries the constructed flow group, the participants and generation of
    the definition, the epoch, policy, topology, capacity and congestion generations of the
    snapshot, the class, priority and isolation of the policy entry, the rate computed for
    them, and the derived synchronisation sensitivity. *)
Theorem evaluate_grant_binds (snapshot : EvaluationSnapshot) (request : DecisionRequest)
    (definition : CollectiveDefinition) (counters : EngineCounters) :
  outcome_grants_authority (de_outcome (evaluate snapshot request definition counters).1) = true →
  ∃ group t policy cp tc,
    authorized_by snapshot request definition group t policy cp tc ∧
    strip (evaluate snapshot request definition counters).1 =
      grant_record snapshot request definition group policy cp tc.
Proof.
  intros Hg. destruct (evaluate_cases snapshot request definition counters)
    as [H|[_ (Ho & _)]]; [exact H | congruence].
Qed.

Definition demo_generation : Identity := mkIdentity 1 2.

Definition demo_definition : CollectiveDefinition :=
  mkCollectiveDefinition (mkIdentity 1 1) demo_generation CollectiveClass.kAllReduce
    AlgorithmHint.kRing CollectiveScope.kInterNode "job" (mkIdentity 9 1) (mkIdentity 3 3)
    demo_members [] [] [] false 30 1.

Definition demo_peer (p : Identity) : PeerLiveness :=
  mkPeerLiveness p (mkIdentity 4 1) ParticipantState.kLive 100 1000 (mkIdentity 9 1)
    (mkIdentity 6 1).

Definition demo_snapshot : EvaluationSnapshot :=
  mkEvaluationSnapshot (mkIdentity 2 1) (mkIdentity 2 2) (mkIdentity 5 1) (mkIdentity 5 2)
    (mkIdentity 5 3) (Some demo_topology) (Some demo_capacity) (Some demo_congestion)
    (Some ((standard_policy (mkIdentity 2 2))
             <| tp_class_policies := [add_class TrafficClass.kUnclassified 0 0 0 false true
                                        IsolationMode.kShared;
                                      add_class TrafficClass.kBulkData 8 1000 kUnlimitedRate
                                        false true IsolationMode.kShared] |>))
    (demo_peer <$> demo_members) default_freshness 500 true true true true.

Definition demo_request : DecisionRequest :=
  mkDecisionRequest (mkIdentity 6 1)
    (mkCollectiveInstance (mkIdentity 1 1) demo_generation (mkIdentity 1 3) 1)
    (mkIdentity 5 1) (mkIdentity 2 2) (mkIdentity 2 1) id_none id_none true demo_plan
    false TrafficClass.kUnclassified 30.

Definition zero_counters : EngineCounters := mkEngineCounters 0 0 0 0.

Lemma evaluate_grant_binds_witness :
  authorized demo_snapshot demo_request demo_definition.
Proof.
  destruct (evaluate_grant_binds demo_snapshot demo_request demo_definition zero_counters)
    as (g & t & policy & cp & tc & H & _).
  - vm_compute. reflexivity.
  - by exists g, t, policy, cp, tc.
Defined.

(** The rate that the congestion response scales: the ceiling, cut to an observed capacity. *)
Lemma pacing_limit_bounds ceiling available :
  is_u64 ceiling → is_u64 available →
  let limit := if negb (available =? 0) then Z.min ceiling available else ceiling in
  is_u64 limit ∧ limit ≤ ceiling ∧ (available ≠ 0 → limit ≤ available) ∧
  limit = (if available =? 0 then ceiling else Z.min ceiling available).
Proof.
  intros Hc Ha. cbv zeta. unfold is_u64 in *.
  destruct (available =? 0) eqn:E; cbn [negb]; bool_prop; lia.
Qed.

(** The burst: the derived one, cut to a configured one. *)
Lemma pacing_burst_bounds admitted burst derived :
  is_u64 burst → is_u64 admitted → 0 ≤ derived ≤ admitted →
  0 ≤ (if admitted =? kUnlimitedRate then 0
       else if negb (burst =? 0) && (burst <? derived) then burst else derived) ≤ admitted.
Proof.
  intros Hb Ha Hd. unfold is_u64 in *. destruct (admitted =? _); [lia|].
  destruct (negb (burst =? 0) && (burst <? derived)) eqn:E; [bool_prop|]; lia.
Qed.

(** C33: the bounds of the admitted rate under a validated policy.  The observed capacity is the
    sum of what the links of a usable observation offer, modulo 2^64, and 0 without one; it
    limits the rate only when that sum is not 0.  The proposed rate is exactly the limit (the
    class ceiling, or the smaller of it and a sum that is not 0) scaled by the congestion
    response, without overflow; the admitted rate lies between the class floor and the class
    ceiling; when the computation succeeds and the sum is not 0, the admitted rate is the
    proposed one and at most the sum; the burst never exceeds the admitted rate; and the
    computation fails exactly when the sum is not 0 and the proposed rate is below the floor. *)
Theorem compute_pacing_bounds (snapshot : EvaluationSnapshot) (policy : TrafficPolicy)
    (c : TrafficClass) (tc : TrafficClassPolicy) (cp : CollectiveClassPolicy) :
  policy_wf policy → is_ok (policy_validate policy) = true → find_class policy c = Some tc →
  let p := compute_pacing snapshot policy tc cp in
  ((∀ capacity, capacity_usable snapshot capacity → pc_available_bps p =
      foldr Z.add 0 (lc_available_bps <$> ce_links capacity) mod two64) ∧
   ((¬ ∃ capacity, capacity_usable snapshot capacity) → pc_available_bps p = 0)) ∧
  pc_proposed_bps p =
    (if pc_available_bps p =? 0 then tcp_maximum_bandwidth_bps tc
     else Z.min (tcp_maximum_bandwidth_bps tc) (pc_available_bps p))
    * pc_response_per_mille p / 1000 ∧
  tcp_minimum_bandwidth_bps tc ≤ pc_admitted_bps p ≤ tcp_maximum_bandwidth_bps tc ∧
  (pc_code p = ErrorCode.kOk → pc_available_bps p ≠ 0 →
   pc_admitted_bps p = pc_proposed_bps p ∧ pc_admitted_bps p ≤ pc_available_bps p) ∧
  0 ≤ pc_burst_bytes p ≤ pc_admitted_bps p ∧
  (pc_code p ≠ ErrorCode.kOk ↔
   pc_available_bps p ≠ 0 ∧ pc_proposed_bps p < tcp_minimum_bandwidth_bps tc).
Proof.
  intros Hw Hv Hf. cbv zeta. split.
  { assert (pc_available_bps (compute_pacing snapshot policy tc cp) =
      (observed_capacity snapshot).1) as -> by (unfold compute_pacing; repeat case_match; done).
    apply observed_capacity_spec. }
  destruct (policy_validate_ok policy Hv) as (Hcrt & Hmul & Hcls).
  specialize (Hcls c tc Hf). destruct (find_class_wf _ _ _ Hw Hf) as (Hmin & Hmax & Hb).
  destruct Hw as (Htab & Hm64 & _).
  pose proof (observed_capacity_u64 snapshot) as Hcap.
  unfold compute_pacing. destruct (observed_capacity snapshot) as [available used].
  cbn [fst] in Hcap. destruct (observed_congestion _ _) as [utilization cused].
  pose proof (congestion_response_bounds _ utilization Htab Hcrt) as Hresp.
  set (resp := congestion_response _ utilization) in *. clearbody resp.
  set (floor := tcp_minimum_bandwidth_bps tc) in *.
  set (ceiling := tcp_maximum_bandwidth_bps tc) in *.
  set (limit := if negb (available =? 0) then Z.min ceiling available else ceiling).
  destruct (pacing_limit_bounds ceiling available Hmax Hcap) as (Hl & Hlc & Hla & Hle).
  fold limit in Hl, Hlc, Hla, Hle. clearbody limit. pose proof (scale_per_mille_le limit resp Hl Hresp) as Hp.
  pose proof (scale_per_mille_exact limit resp Hl Hresp) as Hpe.
  set (proposed := scale_per_mille limit resp) in *. clearbody proposed.
  set (admitted := if negb (ceiling =? kUnlimitedRate) then _ else _).
  assert (floor ≤ admitted ≤ ceiling ∧ is_u64 admitted ∧
    (floor ≤ proposed → admitted = proposed)) as (Ha & Hau & Hap).
  { unfold admitted, is_u64, kUnlimitedRate in *.
    destruct (ceiling =? _) eqn:E1, (proposed <? floor) eqn:E2; cbn [negb]; bool_prop; lia. }
  clearbody admitted.
  pose proof (scale_per_mille_le admitted (tp_burst_multiplier_per_mille policy) Hau
    ltac:(unfold is_u64 in *; lia)) as Hsb.
  set (derived := scale_per_mille admitted _) in *. clearbody derived.
  assert (∀ b : bool, b = negb (available =? 0) && (proposed <? floor) →
    (b = true ↔ available ≠ 0 ∧ proposed < floor)) as Hcode.
  { intros b ->. rewrite andb_true_iff, negb_true_iff, Z.eqb_neq, Z.ltb_lt. done. }
  pose proof (pacing_burst_bounds admitted (tcp_burst_bytes tc) derived Hb Hau Hsb) as Hburst.
  specialize (Hcode _ eq_refl).
  destruct (negb (available =? 0) && (proposed <? floor)).
  - apply proj1 in Hcode. specialize (Hcode eq_refl). cbn. rewrite <- Hle.
    split_and!; try done; lia.
  - assert (available ≠ 0 → floor ≤ proposed) as Hok.
    { intros Hne. destruct (decide (floor ≤ proposed)); [done|].
      assert (false = true); [|done]. apply Hcode. lia. }
    clear Hcode. destruct (used || cused); cbn; rewrite <- Hle; split_and!;
      try lia; try (split; [done|]); intros; lia.
Qed.

Lemma standard_policy_wf generation : policy_wf (standard_policy generation).
Proof.
  split_and!.
  - split; repeat constructor; unfold is_u32; simpl; lia.
  - unfold is_u64. simpl. lia.
  - repeat constructor; unfold is_u64, kUnlimitedRate; simpl; lia.
Qed.

Lemma compute_pacing_bounds_witness :
  let p := compute_pacing demo_snapshot (standard_policy (mkIdentity 2 2))
             (add_class TrafficClass.kBestEffortBulk 5 0 50000000000 false true
                IsolationMode.kShared)
             (mkCollectiveClassPolicy CollectiveClass.kPointToPoint TrafficClass.kBestEffortBulk
                true true 2000) in
  pc_admitted_bps p = 840000 ∧ pc_admitted_bps p ≤ pc_available_bps p.
Proof.
  cbv zeta.
  destruct (compute_pacing_bounds demo_snapshot (standard_policy (mkIdentity 2 2))
    TrafficClass.kBestEffortBulk
    (add_class TrafficClass.kBestEffortBulk 5 0 50000000000 false true IsolationMode.kShared)
    (mkCollectiveClassPolicy CollectiveClass.kPointToPoint TrafficClass.kBestEffortBulk
       true true 2000)) as (_ & _ & _ & H & _);
    [apply standard_policy_wf | vm_compute; reflexivity | vm_compute; reflexivity |].
  split; [vm_compute; reflexivity|]. apply H; vm_compute; congruence.
Defined.

Lemma response_index_mono table u1 u2 :
  u1 ≤ u2 → (response_index table u1 ≤ response_index table u2 < kBucketCount)%nat.
Proof.
  intros Hu. unfold response_index, kBucketCount.
  pose proof (bucket_loop_mono 5 table u1 u2 0 Hu). lia.
Qed.

(** Congestion never raises the rate: for every table whose rates do not increase, a
    higher utilisation gets a response that is no larger; the default table is one, and its
    response is 1000, 800, 600, 400 and 150 per mille from utilisations 0, 60%, 75%, 85% and
    95% on. *)
Theorem congestion_response_antitone (table : CongestionResponseTable) (u1 u2 : Z) :
  (∀ i j, (i ≤ j < kBucketCount)%nat →
     array_at (crt_rate_numerator_per_mille table) j
       ≤ array_at (crt_rate_numerator_per_mille table) i) →
  u1 ≤ u2 →
  congestion_response table u2 ≤ congestion_response table u1 ∧
  congestion_response standard_congestion_response u2 =
    (if 9500 <=? u2 then 150 else if 8500 <=? u2 then 400 else if 7500 <=? u2 then 600
     else if 6000 <=? u2 then 800 else 1000).
Proof.
  intros Hrates Hu. split.
  - rewrite !congestion_response_index. apply Hrates. by apply response_index_mono.
  - unfold congestion_response, bucket_loop, kBucketCount, array_at. cbn.
    repeat (case_match; bool_prop; try lia).
Qed.

Lemma congestion_response_antitone_witness :
  congestion_response standard_congestion_response 9000 ≤
  congestion_response standard_congestion_response 6500.
Proof.
  apply (congestion_response_antitone standard_congestion_response 6500 9000); [|lia].
  intros i j Hij. unfold kBucketCount in Hij.
  do 5 (destruct i as [|i]; [do 5 (destruct j as [|j]; [cbn; lia|]); lia|]). lia.
Defined.

(** The last boundary of the response table has no effect: with any fifth boundary, the
    fifth rate already applies from the fourth boundary on, although the table is documented
    to use it at or above the last boundary only. *)
Theorem last_boundary_inert (b0 b1 b2 b3 b4 b4' u : Z) (rates : list Z) :
  congestion_response (mkCongestionResponseTable [b0; b1; b2; b3; b4] rates) u =
    congestion_response (mkCongestionResponseTable [b0; b1; b2; b3; b4'] rates) u ∧
  (b0 ≤ u → b1 ≤ u → b2 ≤ u → b3 ≤ u →
   congestion_response (mkCongestionResponseTable [b0; b1; b2; b3; b4] rates) u =
     array_at rates 4).
Proof.
  rewrite !congestion_response_index. unfold response_index, kBucketCount, array_at.
  cbn [bucket_loop crt_utilization_bps crt_rate_numerator_per_mille array_at List.nth].
  split.
  - destruct (b0 <=? u), (b1 <=? u), (b2 <=? u), (b3 <=? u), (b4 <=? u), (b4' <=? u);
      reflexivity.
  - intros H0 H1 H2 H3. apply Z.leb_le in H0, H1, H2, H3. rewrite H0, H1, H2, H3.
    by destruct (b4 <=? u).
Qed.

Lemma last_boundary_inert_witness :
  congestion_response standard_congestion_response 9500 = 150.
Proof.
  apply (last_boundary_inert 6000 7500 8500 9500 9900 9900 9500 [1000; 800; 600; 400; 150]); lia.
Defined.

(** An observed capacity of zero is treated as no observation: with fresh capacity
    evidence for the installed topology in which no link has any available bandwidth, the
    computation marks the evidence as used and still succeeds, with the rate limited only by
    the class ceiling and the congestion response. *)
Theorem zero_capacity_is_not_limiting (snapshot : EvaluationSnapshot) (policy : TrafficPolicy)
    (tc : TrafficClassPolicy) (cp : CollectiveClassPolicy) (capacity : CapacityEvidence) :
  es_capacity snapshot = Some capacity → es_capacity_generation snapshot ≠ id_none →
  ce_topology_generation capacity = es_topology_generation snapshot →
  evidence_age (es_now_monotonic_ms snapshot) (ce_captured_monotonic_ms capacity)
    ≤ fr_capacity_max_age_ms (es_freshness snapshot) →
  ce_links capacity ≠ [] → Forall (fun l => lc_available_bps l = 0) (ce_links capacity) →
  let p := compute_pacing snapshot policy tc cp in
  pc_capacity_used p = true ∧ pc_code p = ErrorCode.kOk ∧
  pc_proposed_bps p =
    scale_per_mille (tcp_maximum_bandwidth_bps tc) (pc_response_per_mille p).
Proof.
  intros H1 H2 H3 H4 H5 H6.
  assert (observed_capacity snapshot = (0, true)) as Ho.
  { unfold observed_capacity. rewrite H1. apply is_some_neq in H2. rewrite H2, H3, id_eqb_refl.
    cbn [andb]. apply Z.leb_le in H4. rewrite H4.
    apply zlen_nil_iff in H5. rewrite H5. cbn [negb]. f_equal.
    clear -H6. induction H6 as [|l ls Hl Hls IH]; [done|]. cbn [foldl]. by rewrite Hl. }
  cbv zeta. unfold compute_pacing. rewrite Ho.
  destruct (observed_congestion _ _) as [u used]. split_and!; reflexivity.
Qed.

Lemma zero_capacity_is_not_limiting_witness :
  let capacity := mkCapacityEvidence (mkIdentity 5 2) (mkIdentity 5 1)
                    [mkLinkCapacity (mkIdentity 7 1) 1000000 0 10000 false 1000] 100 true in
  let tc := add_class TrafficClass.kBulkData 8 1000000000 kUnlimitedRate false true
              IsolationMode.kShared in
  let cp := mkCollectiveClassPolicy CollectiveClass.kAllReduce TrafficClass.kBulkData
              true true 2000 in
  is_ok (capacity_validate capacity) = true ∧
  pc_code (compute_pacing (demo_snapshot <| es_capacity := Some capacity |>)
             (standard_policy (mkIdentity 2 2)) tc cp) = ErrorCode.kOk.
Proof.
  cbv zeta. split; [vm_compute; reflexivity|].
  eapply zero_capacity_is_not_limiting;
    [reflexivity | discriminate | reflexivity | vm_compute; congruence | discriminate |].
  by repeat constructor.
Defined.
