(* ===== verification/Admission.v ===== *)
(** Admission control ([include/ctf/admission.hpp], [src/admission.cpp]): the bounded table of
    token buckets keyed by flow group.

    The theorems show that nothing is released without authority, that the table stays within
    its capacity and never evicts a bucket, and that repeated admissions of one decision
    release no more than the bucket allows. *)
From S2P Require Import Prelude Identity Errors Collective FlowGroup Traffic Decision.

Module AdmissionOutcome.
Inductive AdmissionOutcome :=
  | kGranted | kRateLimited | kClockRegression | kNotApplicable | kBucketTableFull.
Definition AdmissionOutcome_raw (v : AdmissionOutcome) : Z :=
  match v with
  | kGranted => 0
  | kRateLimited => 1
  | kClockRegression => 2
  | kNotApplicable => 3
  | kBucketTableFull => 4
  end.
Definition AdmissionOutcome_to_string (v : AdmissionOutcome) : string :=
  match v with
  | kGranted => "granted"
  | kRateLimited => "rate_limited"
  | kClockRegression => "clock_regression"
  | kNotApplicable => "not_applicable"
  | kBucketTableFull => "bucket_table_full"
  end.
#[global] Instance AdmissionOutcome_eq_dec : EqDecision AdmissionOutcome.
Proof. solve_decision. Defined.
#[global, refine] Instance AdmissionOutcome_enum : WireEnum AdmissionOutcome :=
  {| enum_raw := AdmissionOutcome_raw;
     enum_all :=
       [kGranted; kRateLimited; kClockRegression; kNotApplicable; kBucketTableFull] |}.
Proof. by intros []. Defined.
End AdmissionOutcome.
Abbreviation AdmissionOutcome := AdmissionOutcome.AdmissionOutcome.

Record AdmissionResult := mkAdmissionResult {
  ar_outcome : AdmissionOutcome;
  ar_wait_ms : Z;
  ar_code : ErrorCode;
  ar_bucket : TokenBucketState;
  ar_reasons : ReasonChain;
}.

Definition result_default : AdmissionResult :=
  mkAdmissionResult AdmissionOutcome.kNotApplicable 0 ErrorCode.kOk tb_empty [].

#[export] Instance AdmissionResult_eta : Eta AdmissionResult :=
  fun r => mkAdmissionResult (ar_outcome r) (ar_wait_ms r) (ar_code r) (ar_bucket r)
    (ar_reasons r).

Record AdmissionEntry := mkAdmissionEntry {
  ae_bucket : TokenBucketState;
  ae_last_used_monotonic_ms : Z;
}.

Record AdmissionController := mkAdmissionController {
  ac_buckets : gmap Identity AdmissionEntry;
  ac_capacity : Z;
}.

#[export] Instance AdmissionController_eta : Eta AdmissionController :=
  fun r => mkAdmissionController (ac_buckets r) (ac_capacity r).

Definition admission_new (capacity : Z) : AdmissionController :=
  mkAdmissionController ∅ (if capacity =? 0 then 1 else capacity).

(** [result.outcome = ...; result.code = ...; result.reasons.add(...)] *)
Definition answer (outcome : AdmissionOutcome) (code : ErrorCode) (reason detail : string)
    (subject : Identity) : AdmissionResult :=
  result_default <| ar_outcome := outcome |> <| ar_code := code |>
                 <| ar_reasons := rc_push [] reason detail subject |>.

Definition no_authority (decision : DecisionRecord) : bool :=
  negb (outcome_grants_authority (de_outcome decision)) ||
  negb (de_flow_group_constructed decision).

Definition request_bytes_of (decision : DecisionRecord) : Z :=
  if fg_total_logical_bytes (de_group decision) =? 0 then 1
  else fg_total_logical_bytes (de_group decision).

(** The part of [admit_decision] under the lock, on the entry of the flow group. *)
Definition admit_entry (decision : DecisionRecord) (now : Z) (entry : AdmissionEntry)
    : AdmissionEntry * AdmissionResult :=
  let burst := pi_burst_bytes (de_pacing decision) in
  let request_bytes := request_bytes_of decision in
  let rate := pi_admitted_bandwidth_bps (de_pacing decision) in
  let effective_burst := Z.max burst request_bytes in
  let '(bucket, status) := try_consume (ae_bucket entry) now request_bytes rate effective_burst in
  let entry := mkAdmissionEntry bucket now in
  let result :=
    if is_ok status then
      answer AdmissionOutcome.kGranted ErrorCode.kOk "admission_granted"
        (if burst <? request_bytes
         then "the requested volume exceeds the class burst ceiling, so the bucket depth was raised to one request and this first release was admitted"
         else "token bucket released the requested volume at the admitted rate")
        (de_flow_group decision)
    else if bool_decide (st_code status = ErrorCode.kAdmissionClockRegression) then
      answer AdmissionOutcome.kClockRegression (st_code status) "admission_clock_regression"
        "the supplied monotonic clock moved backwards; tokens were not granted"
        (de_flow_group decision)
    else
      (answer AdmissionOutcome.kRateLimited ErrorCode.kAdmissionRateLimited
         "admission_rate_limited"
         "the token bucket for this flow group is empty; the flow group is deferred, not denied"
         (de_flow_group decision))
        <| ar_wait_ms := delay_until_available_ms bucket request_bytes |> in
  (entry, result <| ar_bucket := bucket |>).

Definition admit_decision (state : AdmissionController) (decision : DecisionRecord) (now : Z)
    : AdmissionController * AdmissionResult :=
  let pacing := de_pacing decision in
  if no_authority decision then
    (state, answer AdmissionOutcome.kNotApplicable ErrorCode.kOk "admission_not_applicable"
       "the decision grants no authority, so no traffic may be released for it"
       (ci_id (de_instance decision)))
  else if bool_decide (pi_mode pacing = PacingMode.kNone) ||
          bool_decide (pi_mode pacing = PacingMode.kImmediate) then
    (state, answer AdmissionOutcome.kGranted ErrorCode.kOk "admission_immediate"
       "the pacing mode releases this flow group immediately" (de_flow_group decision))
  else if pi_admitted_bandwidth_bps pacing =? kUnlimitedRate then
    (state, answer AdmissionOutcome.kGranted ErrorCode.kOk "admission_unlimited"
       "the class ceiling is explicitly unlimited, so no token bucket applies"
       (de_flow_group decision))
  else if pi_admitted_bandwidth_bps pacing =? 0 then
    (state, answer AdmissionOutcome.kRateLimited ErrorCode.kAdmissionRateLimited
       "admission_zero_rate"
       "the admitted rate is zero; no traffic may be released until evidence changes"
       (de_flow_group decision))
  else
    let release entry :=
      let '(entry, result) := admit_entry decision now entry in
      (state <| ac_buckets ::= <[de_flow_group decision := entry]> |>, result) in
    match ac_buckets state !! de_flow_group decision with
    | Some entry => release entry
    | None =>
        if ac_capacity state <=? mapsize (ac_buckets state) then
          (state, answer AdmissionOutcome.kBucketTableFull ErrorCode.kAdmissionBucketCapacity
             "admission_bucket_table_full"
             "the admission table is full; no bucket can be created for this flow group"
             (de_flow_group decision))
        else release (mkAdmissionEntry tb_empty 0)
    end.

Definition peek (state : AdmissionController) (decision : DecisionRecord) (now : Z)
    : AdmissionResult :=
  if no_authority decision then result_default
  else match ac_buckets state !! de_flow_group decision with
  | None =>
      answer AdmissionOutcome.kGranted ErrorCode.kOk "admission_bucket_absent"
        "no bucket exists yet; the first request initializes it with a full allowance"
        (de_flow_group decision)
  | Some entry =>
      let burst := pi_burst_bytes (de_pacing decision) in
      let '(copy, status) :=
        refill (ae_bucket entry) now (pi_admitted_bandwidth_bps (de_pacing decision))
          (if burst =? 0 then 1 else burst) in
      let result := result_default <| ar_bucket := copy |> in
      if negb (is_ok status) then
        result <| ar_outcome := AdmissionOutcome.kClockRegression |>
               <| ar_code := st_code status |>
      else
        let bytes := request_bytes_of decision in
        if bytes <=? tb_tokens copy then result <| ar_outcome := AdmissionOutcome.kGranted |>
        else result <| ar_outcome := AdmissionOutcome.kRateLimited |>
                    <| ar_code := ErrorCode.kAdmissionRateLimited |>
                    <| ar_wait_ms := delay_until_available_ms copy bytes |>
  end.

Definition admission_forget (state : AdmissionController) (group : Identity)
    : AdmissionController := state <| ac_buckets ::= delete group |>.
Definition admission_clear (state : AdmissionController) : AdmissionController :=
  state <| ac_buckets := ∅ |>.
Definition admission_size (state : AdmissionController) : Z := mapsize (ac_buckets state).

(** ** Lemmas *)
Definition admission_wf (state : AdmissionController) : Prop :=
  mapsize (ac_buckets state) ≤ ac_capacity state.

(** The whole effect of [admit_decision] on the table: at most one bucket changes, and only for a
    decision that carries authority. *)
Lemma admit_effect state decision now :
  (admit_decision state decision now).1 = state ∨
  ∃ entry, no_authority decision = false ∧
    (admit_decision state decision now).1 =
      state <| ac_buckets ::= <[de_flow_group decision := entry]> |> ∧
    (is_Some (ac_buckets state !! de_flow_group decision) ∨
     mapsize (ac_buckets state) < ac_capacity state).
Proof.
  unfold admit_decision. destruct (no_authority decision); [by left|].
  destruct (_ || _); [by left|]. destruct (_ =? kUnlimitedRate); [by left|].
  destruct (_ =? 0); [by left|].
  destruct (ac_buckets state !! _) as [entry|] eqn:E.
  - destruct (admit_entry decision now entry) as [entry' r]. right. exists entry'.
    split_and!; [done|done|left; by eexists].
  - destruct (_ <=? _) eqn:E2; [by left|]. bool_prop.
    destruct (admit_entry decision now _) as [entry' r]. right. exists entry'.
    split_and!; [done|done|by right].
Qed.

Lemma admit_granted_authority state decision now :
  ar_outcome (admit_decision state decision now).2 = AdmissionOutcome.kGranted →
  no_authority decision = false.
Proof. unfold admit_decision. by destruct (no_authority decision). Qed.

(** ** Repeated admission of one decision refines the token bucket *)
Section repeated.
Context (decision : DecisionRecord).
Abbreviation rate := (pi_admitted_bandwidth_bps (de_pacing decision)).
Abbreviation bytes := (request_bytes_of decision).
Abbreviation depth := (Z.max (pi_burst_bytes (de_pacing decision)) bytes).

(** The decision is paced by a bucket. *)
Definition paced : Prop :=
  no_authority decision = false ∧ pi_mode (de_pacing decision) ≠ PacingMode.kNone ∧
  pi_mode (de_pacing decision) ≠ PacingMode.kImmediate ∧ rate ≠ kUnlimitedRate ∧ rate ≠ 0.

Definition is_granted (r : AdmissionResult) : bool :=
  bool_decide (ar_outcome r = AdmissionOutcome.kGranted).

Definition admit_step (acc : AdmissionController * Z) (now : Z) : AdmissionController * Z :=
  let '(state, result) := admit_decision acc.1 decision now in
  (state, if is_granted result then acc.2 + bytes else acc.2).

Definition admit_run (state : AdmissionController) (clocks : list Z) : AdmissionController * Z :=
  foldl admit_step (state, 0) clocks.

Lemma admit_entry_bucket now entry :
  (admit_entry decision now entry).1 =
    mkAdmissionEntry (try_consume (ae_bucket entry) now bytes rate depth).1 now ∧
  is_granted (admit_entry decision now entry).2 =
    is_ok (try_consume (ae_bucket entry) now bytes rate depth).2.
Proof.
  unfold admit_entry. destruct (try_consume _ _ _ _ _) as [b status]. cbn [fst snd].
  split; [done|]. destruct (is_ok status); [done|]. by case_bool_decide.
Qed.

Lemma admit_entry_not_full now entry :
  ar_outcome (admit_entry decision now entry).2 ≠ AdmissionOutcome.kBucketTableFull.
Proof.
  unfold admit_entry. destruct (try_consume _ _ _ _ _) as [b status]. cbn [snd].
  destruct (is_ok status); [done|]. by case_bool_decide.
Qed.

Lemma admit_full state now :
  ar_outcome (admit_decision state decision now).2 = AdmissionOutcome.kBucketTableFull →
  (admit_decision state decision now).1 = state.
Proof.
  unfold admit_decision. destruct (no_authority decision); [done|].
  destruct (_ || _); [done|]. destruct (_ =? kUnlimitedRate); [done|].
  destruct (_ =? 0); [done|]. destruct (ac_buckets state !! _) as [e|].
  - pose proof (admit_entry_not_full now e). by destruct (admit_entry decision now e).
  - destruct (_ <=? _); [done|].
    pose proof (admit_entry_not_full now (mkAdmissionEntry tb_empty 0)).
    by destruct (admit_entry decision now _).
Qed.

Lemma admit_paced state now :
  paced → (is_Some (ac_buckets state !! de_flow_group decision) ∨
           mapsize (ac_buckets state) < ac_capacity state) →
  let entry := default (mkAdmissionEntry tb_empty 0) (ac_buckets state !! de_flow_group decision) in
  admit_decision state decision now =
    (state <| ac_buckets ::= <[de_flow_group decision := (admit_entry decision now entry).1]> |>,
     (admit_entry decision now entry).2).
Proof.
  intros (Ha & Hm1 & Hm2 & Hr1 & Hr2) Hroom. unfold admit_decision. rewrite Ha.
  rewrite !bool_decide_eq_false_2 by done. cbn [orb].
  rewrite (proj2 (Z.eqb_neq _ _)) by done. rewrite (proj2 (Z.eqb_neq _ _)) by done.
  destruct (ac_buckets state !! _) as [e|] eqn:E; cbn [from_option id].
  - by destruct (admit_entry decision now e).
  - destruct Hroom as [[? H]|H]; [congruence|]. rewrite (proj2 (Z.leb_gt _ _)) by done.
    by destruct (admit_entry decision now _).
Qed.

(** The bucket of the flow group, as the abstract state of the refinement. *)
Definition bucket_of (state : AdmissionController) : TokenBucketState :=
  ae_bucket (default (mkAdmissionEntry tb_empty 0) (ac_buckets state !! de_flow_group decision)).

Definition has_room (state : AdmissionController) : Prop :=
  is_Some (ac_buckets state !! de_flow_group decision) ∨
  mapsize (ac_buckets state) < ac_capacity state.

Lemma admit_step_refines acc now :
  paced → has_room acc.1 →
  has_room (admit_step acc now).1 ∧
  (bucket_of (admit_step acc now).1, (admit_step acc now).2) =
    bucket_step rate depth (bucket_of acc.1, acc.2) (now, bytes).
Proof.
  intros Hp Hr. destruct acc as [state released]. cbn [fst snd] in *.
  unfold admit_step, bucket_step. cbn [fst snd]. rewrite (admit_paced state now Hp Hr).
  destruct (admit_entry_bucket now (default (mkAdmissionEntry tb_empty 0)
    (ac_buckets state !! de_flow_group decision))) as [E1 E2].
  rewrite E1, E2. cbn [fst snd]. split.
  - left. cbn. rewrite lookup_insert_eq. by eexists.
  - unfold bucket_of. cbn. rewrite lookup_insert_eq. cbn [from_option id ae_bucket].
    by destruct (try_consume _ _ _ _ _).
Qed.

Lemma admit_run_refines acc clocks :
  paced → has_room acc.1 →
  let acc' := foldl admit_step acc clocks in
  (bucket_of acc'.1, acc'.2) =
    foldl (bucket_step rate depth) (bucket_of acc.1, acc.2) ((fun t => (t, bytes)) <$> clocks).
Proof.
  intros Hp. revert acc. induction clocks as [|t clocks IH]; intros acc Hr; [done|].
  destruct (admit_step_refines acc t Hp Hr) as [Hr' E]. cbn [foldl fmap list_fmap].
  by rewrite IH, E.
Qed.
End repeated.

(** ** When admission releases *)

(** A decision that grants authority may be released now: its pacing needs no bucket, or its
    rate is positive and its flow group gets a fresh bucket, or the refilled bucket it has
    holds the bytes of the request. *)
Definition releasable (state : AdmissionController) (decision : DecisionRecord) (now : Z) : Prop :=
  let mode := pi_mode (de_pacing decision) in
  let rate := pi_admitted_bandwidth_bps (de_pacing decision) in
  let bytes := request_bytes_of decision in
  let depth := Z.max (pi_burst_bytes (de_pacing decision)) bytes in
  mode = PacingMode.kNone ∨ mode = PacingMode.kImmediate ∨ rate = kUnlimitedRate ∨
  rate ≠ 0 ∧
  match ac_buckets state !! de_flow_group decision with
  | None => mapsize (ac_buckets state) < ac_capacity state
  | Some entry =>
      tb_initialized (ae_bucket entry) = false ∨
      tb_last_refill_monotonic_ms (ae_bucket entry) ≤ now ∧
      bytes ≤ tb_tokens (refill (ae_bucket entry) now rate depth).1
  end.

Lemma refill_limited b now rate depth :
  rate ≠ kUnlimitedRate → rate ≠ 0 →
  (is_ok (refill b now rate depth).2 = true ↔
   tb_initialized b = false ∨ tb_last_refill_monotonic_ms b ≤ now) ∧
  (is_ok (refill b now rate depth).2 = true → tb_rate_bps (refill b now rate depth).1 = rate) ∧
  (tb_initialized b = false → tb_tokens (refill b now rate depth).1 = depth).
Proof.
  intros H1 H2. unfold refill.
  rewrite (proj2 (Z.eqb_neq rate kUnlimitedRate) H1), (proj2 (Z.eqb_neq rate 0) H2).
  destruct (tb_initialized b); cbn [negb]; [|split_and!; [split; [by left | done]|done..]].
  destruct (Z.ltb_spec now (tb_last_refill_monotonic_ms b)) as [Hlt|Hge].
  { split_and!; [split; [done | intros [?|?]; [done|lia]]|done..]. }
  cbv zeta. split_and!; [split; [by right | done]| |done]. intros _. cbn [fst].
  by destruct (_ <? tb_tokens _), (negb _).
Qed.

(** When a bucket with a positive, limited rate gives out bytes that fit its depth. *)
Lemma try_consume_ok_iff b now bytes rate depth :
  rate ≠ kUnlimitedRate → rate ≠ 0 → bytes ≤ depth →
  is_ok (try_consume b now bytes rate depth).2 = true ↔
  tb_initialized b = false ∨
  tb_last_refill_monotonic_ms b ≤ now ∧ bytes ≤ tb_tokens (refill b now rate depth).1.
Proof.
  intros H1 H2 Hb. destruct (refill_limited b now rate depth H1 H2) as (Ho & Hr & Ht).
  unfold try_consume. destruct (refill b now rate depth) as [b' st]. cbn [fst snd] in *.
  destruct (is_ok st) eqn:Es; cbn [negb].
  - rewrite Hr, (proj2 (Z.eqb_neq rate kUnlimitedRate) H1) by done.
    destruct (tb_initialized b).
    + destruct Ho as [[?|?] _]; [done|done|].
      destruct (Z.leb_spec bytes (tb_tokens b')); [by split; [right|]|].
      split; [done | intros [?|[_ ?]]; [done|lia]].
    + rewrite Ht, (proj2 (Z.leb_le bytes depth) Hb) by done. by split; [left|].
  - cbn [snd]. rewrite Es. split; [done|]. intros [?|[? _]]; apply Ho; auto.
Qed.

Lemma admit_granted_iff state decision now :
  no_authority decision = false →
  ar_outcome (admit_decision state decision now).2 = AdmissionOutcome.kGranted ↔
  releasable state decision now.
Proof.
  intros Hna. unfold admit_decision, releasable. rewrite Hna.
  case_bool_decide as M1; cbn [orb]; [by split; [left|]|].
  case_bool_decide as M2; cbn [orb]; [by split; [right; left|]|].
  destruct (Z.eqb_spec (pi_admitted_bandwidth_bps (de_pacing decision)) kUnlimitedRate) as [R1|R1].
  { split; [by right; right; left | done]. }
  destruct (Z.eqb_spec (pi_admitted_bandwidth_bps (de_pacing decision)) 0) as [R2|R2].
  { split; [done | intros [?|[?|[?|[? _]]]]; done]. }
  assert (∀ entry, ar_outcome (admit_entry decision now entry).2 = AdmissionOutcome.kGranted ↔
    tb_initialized (ae_bucket entry) = false ∨
    tb_last_refill_monotonic_ms (ae_bucket entry) ≤ now ∧
    request_bytes_of decision ≤ tb_tokens (refill (ae_bucket entry) now
      (pi_admitted_bandwidth_bps (de_pacing decision))
      (Z.max (pi_burst_bytes (de_pacing decision)) (request_bytes_of decision))).1) as He.
  { intros entry. rewrite <- (try_consume_ok_iff _ _ _ _ _ R1 R2) by lia.
    destruct (admit_entry_bucket decision now entry) as [_ <-]. unfold is_granted.
    by rewrite bool_decide_eq_true. }
  destruct (ac_buckets state !! de_flow_group decision) as [entry|].
  - specialize (He entry). destruct (admit_entry decision now entry) as [e r]. cbn [snd] in *.
    rewrite He. split; [by right; right; right | intros [?|[?|[?|[_ ?]]]]; done].
  - destruct (Z.leb_spec (ac_capacity state) (mapsize (ac_buckets state))) as [Hf|Hf].
    { split; [done | intros [?|[?|[?|[_ ?]]]]; [done..|lia]]. }
    specialize (He (mkAdmissionEntry tb_empty 0)).
    destruct (admit_entry decision now _) as [e r]. cbn [snd] in *.
    rewrite He. split; [by right; right; right | by left].
Qed.

(** ** Properties *)

(** Admission control never releases without authority and never exceeds its table: a
    grant implies the decision grants authority and has a constructed flow group; the number
    of buckets stays within the capacity; no bucket other than the decision's own changes and
    none is evicted; and a full table refuses an unknown flow group, leaving the table as it
    was. *)
Theorem admit_safe (state : AdmissionController) (decision : DecisionRecord) (now : Z) :
  admission_wf state →
  let '(state', result) := admit_decision state decision now in
  admission_wf state' ∧
  (ar_outcome result = AdmissionOutcome.kGranted →
   outcome_grants_authority (de_outcome decision) = true ∧
   de_flow_group_constructed decision = true) ∧
  (∀ g, g ≠ de_flow_group decision → ac_buckets state' !! g = ac_buckets state !! g) ∧
  (∀ g, is_Some (ac_buckets state !! g) → is_Some (ac_buckets state' !! g)) ∧
  (ar_outcome result = AdmissionOutcome.kBucketTableFull → state' = state).
Proof.
  intros Hw. pose proof (admit_effect state decision now) as He.
  pose proof (admit_granted_authority state decision now) as Hg.
  pose proof (admit_full decision state now) as Hfull.
  destruct (admit_decision state decision now) as [state' result]. cbn [fst snd] in *.
  split_and!; try done.
  - destruct He as [->|(e & _ & -> & Hroom)]; [done|]. unfold admission_wf in *. cbn.
    destruct (ac_buckets state !! de_flow_group decision) as [y|] eqn:E.
    + by rewrite (mapsize_insert_old _ _ _ y).
    + destruct Hroom as [[? ?]|?]; [congruence|]. rewrite mapsize_insert_new by done. lia.
  - intros H. apply Hg in H. unfold no_authority in H. by bool_prop.
  - intros g Hne. destruct He as [->|(e & _ & -> & _)]; [done|]. cbn. by rewrite lookup_insert_ne.
  - intros g Hs. destruct He as [->|(e & _ & -> & _)]; [done|]. cbn.
    destruct (decide (g = de_flow_group decision)) as [->|]; [rewrite lookup_insert_eq; by eexists|].
    by rewrite lookup_insert_ne.
Qed.

Definition demo_decision : DecisionRecord :=
  record_default <| de_outcome := Outcome.kAdmitted |>
    <| de_flow_group := mkIdentity 3 1 |> <| de_flow_group_constructed := true |>
    <| de_group := mkFlowGroup (mkIdentity 3 1) instance_default CollectiveClass.kAllReduce
         FlowPattern.kRing FlowDirection.kUnidirectional [] [] 400 1 1 0 false 1 |>
    <| de_pacing := mkPacingIntent PacingMode.kTokenBucket (mkIdentity 3 1) instance_default
         1000 2000 250 0 0 id_none |>.

Lemma admit_safe_witness :
  ∃ state' result, admit_decision (admission_new 2) demo_decision 10 = (state', result) ∧
    admission_wf state' ∧ ar_outcome result = AdmissionOutcome.kGranted.
Proof.
  pose proof (admit_safe (admission_new 2) demo_decision 10) as H.
  destruct (admit_decision (admission_new 2) demo_decision 10) as [state' result] eqn:E.
  exists state', result. split; [done|]. destruct H as [H _]; [vm_compute; congruence|].
  split; [done|]. apply (f_equal snd) in E. cbn [snd] in E. subst result. reflexivity.
Defined.

(** Repeated admission of a paced decision releases no more than its bucket allows: over
    any sequence of clocks, starting without a bucket and with room in the table, the bytes
    released are at most the larger of the burst and one request, plus the admitted rate over
    the time between the first and the last accepted clock. *)
Theorem admission_conservation (decision : DecisionRecord) (state : AdmissionController)
    (t0 : Z) (clocks : list Z) :
  paced decision → ac_buckets state !! de_flow_group decision = None →
  mapsize (ac_buckets state) < ac_capacity state →
  is_u64 (pi_admitted_bandwidth_bps (de_pacing decision)) →
  is_u64 (pi_burst_bytes (de_pacing decision)) → is_u64 (request_bytes_of decision) →
  is_u64 t0 → Forall is_u64 clocks →
  let '(state', released) := admit_run decision state (t0 :: clocks) in
  1000 * released ≤
    1000 * Z.max (pi_burst_bytes (de_pacing decision)) (request_bytes_of decision) +
    pi_admitted_bandwidth_bps (de_pacing decision) *
      (tb_last_refill_monotonic_ms (bucket_of decision state') - t0).
Proof.
  intros Hp Hn Hroom Hr Hb Hq Ht Hc.
  pose proof (admit_run_refines decision (state, 0) (t0 :: clocks) Hp (or_intror Hroom)) as E.
  unfold admit_run. destruct (foldl _ _ _) as [state' released]. cbn [fst snd] in E.
  assert (bucket_of decision state = tb_empty) as E0 by (unfold bucket_of; by rewrite Hn).
  rewrite E0 in E. pose proof Hp as (_ & _ & _ & Hf & Hz).
  assert (is_u64 (Z.max (pi_burst_bytes (de_pacing decision)) (request_bytes_of decision)))
    as Hd by (unfold is_u64 in *; lia).
  pose proof (bucket_run_inv _ _ Hr Hd Hf Hz t0 _ ((fun t => (t, request_bytes_of decision)) <$> clocks)
    ltac:(apply Forall_fmap; eapply Forall_impl; [exact Hc|]; done)
    (bucket_first_inv _ _ Hr Hd Hf Hz t0 _ Ht Hq)) as Hinv.
  cbn [fmap list_fmap foldl] in E. unfold fmap in *. rewrite <- E in Hinv.
  destruct Hinv as ([Htok _] & _ & _ & Hinv). cbn [fst snd] in *. unfold is_u64 in Htok. lia.
Qed.

Lemma admission_conservation_witness :
  ∃ state' released,
    admit_run demo_decision (admission_new 2) [10; 200; 420; 830] = (state', released) ∧
    released = 1200 ∧
    1000 * released ≤ 1000 * 400 + 1000 * (tb_last_refill_monotonic_ms
                                             (bucket_of demo_decision state') - 10).
Proof.
  assert (Forall is_u64 [200; 420; 830]) as Hc by (repeat constructor; lia).
  pose proof (admission_conservation demo_decision (admission_new 2) 10 [200; 420; 830]
    ltac:(split_and!; done) ltac:(reflexivity) ltac:(vm_compute; reflexivity)
    ltac:(unfold is_u64; cbn; lia) ltac:(unfold is_u64; cbn; lia)
    ltac:(unfold is_u64; cbn; lia) ltac:(unfold is_u64; lia) Hc) as H.
  destruct (admit_run demo_decision (admission_new 2) _) as [state' released] eqn:E.
  exists state', released. split; [done|]. split; [|exact H].
  apply (f_equal snd) in E. cbn [snd] in E. subst released. vm_compute. reflexivity.
Defined.

(** A preview can contradict the admission it previews: for a decision whose request is
    larger than its burst, the preview reports rate limiting at a clock at which admission
    grants the request, because only admission raises the bucket to one request. *)
Theorem peek_underestimates :
  ∃ (state : AdmissionController) (decision : DecisionRecord) (now : Z),
    ar_outcome (peek state decision now) = AdmissionOutcome.kRateLimited ∧
    ar_outcome (admit_decision state decision now).2 = AdmissionOutcome.kGranted.
Proof.
  exists (admit_decision (admission_new 2) demo_decision 0).1, demo_decision, 1000.
  split; vm_compute; reflexivity.
Qed.
