(* ===== verification/Catalog.v ===== *)
(** The durable collective catalog ([include/ctf/catalog.hpp], [src/catalog.cpp]).

    Registration with generation minting, attempts, lifecycle states and the bulk load of the
    replay path.  The theorems give the invariant every operation keeps, that a terminal
    collective is never resurrected by any sequence of operations, that registration is
    idempotent, and when a changed definition gets a generation of its own. *)
From S2P Require Import Prelude Identity Errors Collective.

Module RegistrationResult.
Inductive RegistrationResult :=
  | kRegistered | kGenerationAdvanced | kUnchanged | kRejectedInvalid | kRejectedTerminal
  | kRejectedCapacity.
Definition RegistrationResult_raw (v : RegistrationResult) : Z :=
  match v with
  | kRegistered => 0
  | kGenerationAdvanced => 1
  | kUnchanged => 2
  | kRejectedInvalid => 3
  | kRejectedTerminal => 4
  | kRejectedCapacity => 5
  end.
Definition RegistrationResult_to_string (v : RegistrationResult) : string :=
  match v with
  | kRegistered => "registered"
  | kGenerationAdvanced => "generation_advanced"
  | kUnchanged => "unchanged"
  | kRejectedInvalid => "rejected_invalid"
  | kRejectedTerminal => "rejected_terminal"
  | kRejectedCapacity => "rejected_capacity"
  end.
#[global] Instance RegistrationResult_eq_dec : EqDecision RegistrationResult.
Proof. solve_decision. Defined.
#[global, refine] Instance RegistrationResult_enum : WireEnum RegistrationResult :=
  {| enum_raw := RegistrationResult_raw;
     enum_all :=
       [kRegistered; kGenerationAdvanced; kUnchanged; kRejectedInvalid; kRejectedTerminal;
       kRejectedCapacity] |}.
Proof. by intros []. Defined.
End RegistrationResult.
Abbreviation RegistrationResult := RegistrationResult.RegistrationResult.

Record CollectiveRecord := mkCollectiveRecord {
  cr_definition : CollectiveDefinition;
  cr_state : CollectiveState;
  cr_current_attempt : Identity;
  cr_attempt_transfer_bytes : Z;
  cr_attempt_sequence : Sequence;
  cr_registration_sequence : Sequence;
  cr_last_mutation_sequence : Sequence;
  cr_registered_monotonic_ms : Z;
  cr_last_mutated_monotonic_ms : Z;
  cr_generation_ancestry_depth : Z;
}.

#[export] Instance CollectiveRecord_eta : Eta CollectiveRecord :=
  fun r => mkCollectiveRecord (cr_definition r) (cr_state r) (cr_current_attempt r)
    (cr_attempt_transfer_bytes r) (cr_attempt_sequence r) (cr_registration_sequence r)
    (cr_last_mutation_sequence r) (cr_registered_monotonic_ms r)
    (cr_last_mutated_monotonic_ms r) (cr_generation_ancestry_depth r).

Definition accepts_new_authority (r : CollectiveRecord) : bool :=
  collective_state_accepts_new_authority (cr_state r).

Definition is_live (r : CollectiveRecord) : bool :=
  negb (bool_decide (cr_state r = CollectiveState.kUnregistered)) &&
  negb (collective_state_is_terminal (cr_state r)).

Record RegistrationOutcome := mkRegistrationOutcome {
  ro_result : RegistrationResult;
  ro_generation : Identity;
  ro_attempt : Identity;
  ro_reasons : ReasonChain;
  ro_created : bool;
  ro_advanced : bool;
}.

(** The catalog: its map, its bound and its mutation sequence. *)
Record CollectiveCatalog := mkCollectiveCatalog {
  cc_records : gmap Identity CollectiveRecord;
  cc_capacity : Z;
  cc_mutation_sequence : Sequence;
}.

#[export] Instance CollectiveCatalog_eta : Eta CollectiveCatalog :=
  fun r => mkCollectiveCatalog (cc_records r) (cc_capacity r) (cc_mutation_sequence r).

Definition catalog_new (capacity : Z) : CollectiveCatalog :=
  mkCollectiveCatalog ∅ (if capacity =? 0 then 1 else capacity) 0.

(** ** Validation *)
Definition definitions_equivalent (a b : CollectiveDefinition) : bool :=
  (cd_id a =i cd_id b) &&
  bool_decide (cd_collective_class a = cd_collective_class b) &&
  bool_decide (cd_algorithm_hint a = cd_algorithm_hint b) &&
  bool_decide (cd_scope a = cd_scope b) && bool_decide (cd_label a = cd_label b) &&
  (cd_origin_node a =i cd_origin_node b) && (cd_fabric a =i cd_fabric b) &&
  bool_decide (cd_participants a = cd_participants b) &&
  bool_decide (cd_phases a = cd_phases b) && bool_decide (cd_steps a = cd_steps b) &&
  bool_decide (cd_metadata a = cd_metadata b) &&
  bool_decide (cd_declares_barrier_semantics a = cd_declares_barrier_semantics b) &&
  (cd_logical_bytes a =? cd_logical_bytes b).

Definition check_participant (_ : option Identity) (p : Identity) : option Status :=
  if is_none p
  then Some (mkStatus ErrorCode.kValidationParticipantUnset
               "collective contains an unset participant")
  else None.

Definition check_phase (prev : option CollectivePhase) (phase : CollectivePhase)
    : option Status :=
  if seq_is_unset (cp_phase_index phase) ||
     (limits.kPhasesMaxPerCollective <? cp_phase_index phase)
  then Some (mkStatus ErrorCode.kValidationPhaseOutOfRange "collective phase index out of range")
  else if limits.kLabelBytesMax <? slen (cp_label phase)
  then Some (mkStatus ErrorCode.kValidationLabelTooLong
               "collective phase label exceeds the bound")
  else if match prev with
          | Some p => negb (cp_phase_index p <? cp_phase_index phase)
          | None => false
          end
  then Some (mkStatus ErrorCode.kDecodeNonCanonical
               "collective phases are not strictly ascending")
  else None.

Definition check_step (prev : option CollectiveStep) (step : CollectiveStep) : option Status :=
  if seq_is_unset (cs_phase_index step) || seq_is_unset (cs_step_index step)
  then Some (mkStatus ErrorCode.kValidationStepOutOfRange
               "collective step is missing its indices")
  else if limits.kStepsMaxPerPhase <? cs_step_index step
  then Some (mkStatus ErrorCode.kValidationStepOutOfRange "collective step index out of range")
  else match prev with
  | None => None
  | Some previous =>
      if cs_phase_index step <? cs_phase_index previous
      then Some (mkStatus ErrorCode.kDecodeNonCanonical
                   "collective steps are not ordered by phase")
      else if (cs_phase_index previous =? cs_phase_index step) &&
              negb (cs_step_index previous <? cs_step_index step)
      then Some (mkStatus ErrorCode.kDecodeNonCanonical
                   "collective steps are not strictly ascending")
      else None
  end.

Definition validate_definition (definition : CollectiveDefinition) : Status :=
  if is_none (cd_id definition)
  then mkStatus ErrorCode.kValidationGenerationUnset "collective definition has no identity"
  else if negb (is_known_collective_class (cd_collective_class definition)) &&
          negb (bool_decide (cd_collective_class definition = CollectiveClass.kUnknown)) &&
          negb (bool_decide (cd_collective_class definition = CollectiveClass.kUnknownVendor))
  then mkStatus ErrorCode.kValidationClassUnknownRejected
         "collective definition has an invalid class"
  else if limits.kLabelBytesMax <? slen (cd_label definition)
  then mkStatus ErrorCode.kValidationLabelTooLong "collective label exceeds the bound"
  else if zlen (cd_participants definition) =? 0
  then mkStatus ErrorCode.kValidationParticipantCountOutOfRange "collective has no participants"
  else if limits.kParticipantsMaxPerCollective <? zlen (cd_participants definition)
  then mkStatus ErrorCode.kValidationParticipantCountOutOfRange
         "collective exceeds the participant bound"
  else if negb (participants_are_canonical (cd_participants definition))
  then mkStatus ErrorCode.kDecodeNonCanonical "collective participants are not canonical"
  else match check_each check_participant None (cd_participants definition) with
  | Some s => s
  | None =>
  if limits.kPhasesMaxPerCollective <? zlen (cd_phases definition)
  then mkStatus ErrorCode.kValidationPhaseOutOfRange "collective exceeds the phase bound"
  else match check_each check_phase None (cd_phases definition) with
  | Some s => s
  | None =>
  if limits.kPhasesMaxPerCollective * limits.kStepsMaxPerPhase <? zlen (cd_steps definition)
  then mkStatus ErrorCode.kValidationStepOutOfRange "collective exceeds the step bound"
  else match check_each check_step None (cd_steps definition) with
  | Some s => s
  | None => status_ok
  end end end.

(** ** Registration *)

(** [IdentityMinter minter(seed); generation = minter.next(); if none then 1:1]. *)
Definition mint_generation (seed : Z) : Identity :=
  let generation := (minter_next (minter_new seed)).2 in
  if is_none generation then mkIdentity 1 1 else generation.

Definition rejection (result : RegistrationResult) (reason detail : string) (subject : Identity)
    : RegistrationOutcome :=
  mkRegistrationOutcome result id_none id_none (rc_push [] reason detail subject) false false.

Definition register_definition (catalog : CollectiveCatalog) (definition : CollectiveDefinition)
    (now : Z) : CollectiveCatalog * RegistrationOutcome :=
  let status := validate_definition definition in
  let id := cd_id definition in
  if negb (is_ok status) then
    (catalog, rejection RegistrationResult.kRejectedInvalid "definition_invalid"
                (st_message status) id)
  else match cc_records catalog !! id with
  | None =>
      if cc_capacity catalog <=? mapsize (cc_records catalog) then
        (catalog, rejection RegistrationResult.kRejectedCapacity "catalog_capacity_exhausted"
                    "the live collective bound has been reached; retire definitions first" id)
      else
        let seq := seq_incr (cc_mutation_sequence catalog) in
        let generation :=
          if is_none (cd_generation definition)
          then mint_generation (Z.lxor seq 0xC0FFEE) else cd_generation definition in
        let record :=
          {| cr_definition := definition <| cd_registration_sequence := seq |>
                                         <| cd_generation := generation |>;
             cr_state := CollectiveState.kRegistered;
             cr_current_attempt := id_none;
             cr_attempt_transfer_bytes := 0;
             cr_attempt_sequence := 0;
             cr_registration_sequence := seq;
             cr_last_mutation_sequence := seq;
             cr_registered_monotonic_ms := now;
             cr_last_mutated_monotonic_ms := now;
             cr_generation_ancestry_depth := 1 |} in
        (catalog <| cc_mutation_sequence := seq |> <| cc_records ::= <[id := record]> |>,
         mkRegistrationOutcome RegistrationResult.kRegistered generation id_none
           (rc_push [] "registered" "new durable collective definition stored" id) true false)
  | Some record =>
      if collective_state_is_terminal (cr_state record) then
        (catalog, rejection RegistrationResult.kRejectedTerminal "definition_terminal"
          (String.append "collective is "
             (String.append (CollectiveState.CollectiveState_to_string (cr_state record))
                "; a terminal definition is never resurrected")) id)
      else if definitions_equivalent (cr_definition record) definition then
        (catalog, mkRegistrationOutcome RegistrationResult.kUnchanged
           (cd_generation (cr_definition record)) (cr_current_attempt record)
           (rc_push [] "unchanged" "re-registration matched the stored definition exactly" id)
           false false)
      else
        let generation :=
          mint_generation (Z.lxor (w64 (cc_mutation_sequence catalog + 1)) 0xBEEF) in
        let seq := seq_incr (cc_mutation_sequence catalog) in
        let record := record
          <| cr_definition := definition <| cd_generation := generation |>
                                         <| cd_registration_sequence := seq |> |>
          <| cr_state := CollectiveState.kRegistered |>
          <| cr_registration_sequence := seq |>
          <| cr_last_mutation_sequence := seq |>
          <| cr_last_mutated_monotonic_ms := now |>
          <| cr_current_attempt := id_none |>
          <| cr_attempt_sequence := 0 |>
          <| cr_generation_ancestry_depth ::= fun n => w32 (n + 1) |> in
        (catalog <| cc_mutation_sequence := seq |> <| cc_records ::= <[id := record]> |>,
         mkRegistrationOutcome RegistrationResult.kGenerationAdvanced generation id_none
           (rc_push [] "generation_advanced"
              "definition changed; a new generation was minted and previous decisions are stale"
              id) false true)
  end.

(** ** Attempts and lifecycle *)

(** Returns the previous attempt on success. *)
Definition begin_attempt (catalog : CollectiveCatalog) (id attempt : Identity) (now : Z)
    : CollectiveCatalog * Result Identity :=
  if is_none attempt then
    (catalog, fail ErrorCode.kValidationAttemptUnset "attempt identity is unset")
  else match cc_records catalog !! id with
  | None => (catalog, fail ErrorCode.kStateCollectiveUnknown "collective is not registered")
  | Some record =>
      if negb (accepts_new_authority record) then
        (catalog, fail ErrorCode.kStateNotLive
          (String.append "collective is "
             (String.append (CollectiveState.CollectiveState_to_string (cr_state record))
                " and does not accept a new attempt")))
      else if cr_current_attempt record =i attempt then
        (catalog, fail ErrorCode.kCompletionDuplicate "attempt identity is already current")
      else
        let out_previous := cr_current_attempt record in
        let seq := seq_incr (cc_mutation_sequence catalog) in
        let record := record
          <| cr_current_attempt := attempt |>
          <| cr_attempt_sequence ::= fun s => w64 (s + 1) |>
          <| cr_state := CollectiveState.kPlanning |>
          <| cr_last_mutated_monotonic_ms := now |>
          <| cr_last_mutation_sequence := seq |> in
        (catalog <| cc_mutation_sequence := seq |> <| cc_records ::= <[id := record]> |>,
         Ok out_previous)
  end.

Definition set_state (catalog : CollectiveCatalog) (id : Identity) (state : CollectiveState)
    (now : Z) : CollectiveCatalog * Status :=
  match cc_records catalog !! id with
  | None => (catalog, mkStatus ErrorCode.kStateCollectiveUnknown "collective is not registered")
  | Some record =>
      if collective_state_is_terminal (cr_state record) &&
         negb (collective_state_is_terminal state) then
        (catalog, mkStatus ErrorCode.kStateCollectiveRetired
                    "a terminal collective is never moved back to a live state")
      else
        let seq := seq_incr (cc_mutation_sequence catalog) in
        let record := record
          <| cr_state := state |>
          <| cr_last_mutated_monotonic_ms := now |>
          <| cr_last_mutation_sequence := seq |> in
        (catalog <| cc_mutation_sequence := seq |> <| cc_records ::= <[id := record]> |>,
         status_ok)
  end.

Definition retire (catalog : CollectiveCatalog) (id : Identity) (now : Z) :=
  set_state catalog id CollectiveState.kRetired now.
Definition cancel (catalog : CollectiveCatalog) (id : Identity) (now : Z) :=
  set_state catalog id CollectiveState.kCancelled now.

(** ** Lookup, pages and the replay path *)
Definition catalog_find (catalog : CollectiveCatalog) (id : Identity) : option CollectiveRecord :=
  cc_records catalog !! id.
Definition catalog_contains (catalog : CollectiveCatalog) (id : Identity) : bool :=
  bool_decide (is_Some (cc_records catalog !! id)).

(** [find_mutable] followed by a write to the record. *)
Definition catalog_modify (catalog : CollectiveCatalog) (id : Identity)
    (f : CollectiveRecord → CollectiveRecord) : CollectiveCatalog :=
  catalog <| cc_records ::= alter f id |>.

Definition catalog_ids (catalog : CollectiveCatalog) (offset limit : Z) : list Identity :=
  let all := std_sort id_ltb (fst <$> map_to_list (cc_records catalog)) in
  if (zlen all <=? offset) || (limit =? 0) then []
  else
    let last := Z.min (zlen all) (w64 (offset + limit)) in
    take (Z.to_nat (last - offset)) (drop (Z.to_nat offset) all).

Definition export_all (catalog : CollectiveCatalog) : list CollectiveRecord :=
  std_sort (on_key id_ltb (fun r => cd_id (cr_definition r)))
    (snd <$> map_to_list (cc_records catalog)).

(** The staging loop of [load]: the staged map and the highest sequence. *)
Fixpoint load_loop (records : list CollectiveRecord)
    (staged : gmap Identity CollectiveRecord) (highest : Sequence)
    : Result (gmap Identity CollectiveRecord * Sequence) :=
  match records with
  | [] => Ok (staged, highest)
  | record :: rest =>
      let status := validate_definition (cr_definition record) in
      if negb (is_ok status) then
        fail ErrorCode.kPersistenceImpossibleState
          (String.append "snapshot holds an invalid definition: " (st_message status))
      else if is_none (cd_generation (cr_definition record)) then
        fail ErrorCode.kPersistenceImpossibleState
          "snapshot holds a definition without a generation"
      else if bool_decide (cr_state record = CollectiveState.kUnregistered) then
        fail ErrorCode.kPersistenceImpossibleState "snapshot holds an unregistered collective"
      else match staged !! cd_id (cr_definition record) with
      | Some _ =>
          fail ErrorCode.kPersistenceImpossibleState
            "snapshot holds a duplicate collective identity"
      | None =>
          load_loop rest (<[cd_id (cr_definition record) := record]> staged)
            (Z.max (Z.max highest (cr_registration_sequence record))
               (cr_last_mutation_sequence record))
      end
  end.

Definition catalog_load (catalog : CollectiveCatalog) (records : list CollectiveRecord)
    : CollectiveCatalog * Status :=
  if cc_capacity catalog <? zlen records then
    (catalog, mkStatus ErrorCode.kPersistenceImpossibleState
                "snapshot holds more collectives than the live bound")
  else match load_loop records ∅ 0 with
  | Fail status => (catalog, status)
  | Ok (staged, highest) =>
      (catalog <| cc_records := staged |> <| cc_mutation_sequence := highest |>, status_ok)
  end.

Definition catalog_clear (catalog : CollectiveCatalog) : CollectiveCatalog :=
  catalog <| cc_records := ∅ |> <| cc_mutation_sequence := 0 |>.

(** ** The invariant *)
Definition record_wf (id : Identity) (r : CollectiveRecord) : Prop :=
  cd_id (cr_definition r) = id ∧ is_ok (validate_definition (cr_definition r)) = true ∧
  cd_generation (cr_definition r) ≠ id_none ∧ cr_state r ≠ CollectiveState.kUnregistered.

Definition catalog_wf (c : CollectiveCatalog) : Prop :=
  mapsize (cc_records c) ≤ cc_capacity c ∧
  map_Forall record_wf (cc_records c).

(** Every operation the coordinator performs between restarts, as a step. *)
Inductive catalog_step : CollectiveCatalog → CollectiveCatalog → Prop :=
  | step_register c definition now :
      catalog_step c (register_definition c definition now).1
  | step_begin_attempt c id attempt now :
      catalog_step c (begin_attempt c id attempt now).1
  | step_set_state c id state now :
      state ≠ CollectiveState.kUnregistered →
      catalog_step c (set_state c id state now).1
  | step_declare_bytes c id bytes :
      catalog_step c (catalog_modify c id (fun r => r <| cr_attempt_transfer_bytes := bytes |>)).

(** ** Lemmas *)
Lemma mint_generation_some seed : mint_generation seed ≠ id_none.
Proof.
  unfold mint_generation. destruct (is_none _) eqn:E; [done|].
  intros H. rewrite H in E. done.
Qed.

Lemma validate_definition_stamp d generation seq :
  validate_definition (d <| cd_generation := generation |> <| cd_registration_sequence := seq |>)
    = validate_definition d ∧
  validate_definition (d <| cd_registration_sequence := seq |> <| cd_generation := generation |>)
    = validate_definition d.
Proof. split; reflexivity. Qed.

(** An operation that replaces one record keeps the invariant. *)
Lemma catalog_insert_wf c id r seq :
  catalog_wf c → record_wf id r →
  (is_Some (cc_records c !! id) ∨ mapsize (cc_records c) < cc_capacity c) →
  catalog_wf (c <| cc_mutation_sequence := seq |> <| cc_records ::= <[id := r]> |>).
Proof.
  intros [Hs Hf] Hr Hroom. split; cbn.
  - destruct (cc_records c !! id) as [y|] eqn:E.
    + by rewrite (mapsize_insert_old _ _ _ y).
    + destruct Hroom as [[? ?]|?]; [done|]. rewrite mapsize_insert_new by done. lia.
  - by apply map_Forall_insert_2.
Qed.

Lemma register_wf c d now : catalog_wf c → catalog_wf (register_definition c d now).1.
Proof.
  intros Hw. unfold register_definition.
  destruct (is_ok (validate_definition d)) eqn:Ev; cbn [negb]; [|done].
  destruct (cc_records c !! cd_id d) as [r|] eqn:E.
  - destruct (collective_state_is_terminal _); [done|].
    destruct (definitions_equivalent _ _); [done|]. cbn [fst].
    apply catalog_insert_wf; [done| |left; by eexists].
    split_and!; [done|exact Ev|apply mint_generation_some|done].
  - destruct (_ <=? _) eqn:E2; [done|]. bool_prop. cbn [fst].
    apply catalog_insert_wf; [done| |by right].
    split_and!; [done|exact Ev| |done]. cbn.
    destruct (is_none _) eqn:En; [apply mint_generation_some|].
    intros Hn. rewrite Hn in En. done.
Qed.

Lemma begin_attempt_wf c id attempt now :
  catalog_wf c → catalog_wf (begin_attempt c id attempt now).1.
Proof.
  intros Hw. unfold begin_attempt. destruct (is_none attempt); [done|].
  destruct (cc_records c !! id) as [r|] eqn:E; [|done].
  destruct (accepts_new_authority r); [|done]. cbn [negb]. destruct (_ =i _); [done|]. cbn [fst].
  apply catalog_insert_wf; [done| |left; by eexists].
  destruct Hw as [_ Hf]. destruct (Hf _ _ E) as (?&?&?&?). by split_and!.
Qed.

Lemma set_state_wf c id state now :
  state ≠ CollectiveState.kUnregistered → catalog_wf c → catalog_wf (set_state c id state now).1.
Proof.
  intros Hs Hw. unfold set_state. destruct (cc_records c !! id) as [r|] eqn:E; [|done].
  destruct (_ && _); [done|]. cbn [fst]. apply catalog_insert_wf; [done| |left; by eexists].
  destruct Hw as [_ Hf]. destruct (Hf _ _ E) as (?&?&?&?). by split_and!.
Qed.

Lemma declare_bytes_wf c id bytes :
  catalog_wf c →
  catalog_wf (catalog_modify c id (fun r => r <| cr_attempt_transfer_bytes := bytes |>)).
Proof.
  intros [Hs Hf]. split; cbn; [by rewrite mapsize_alter|].
  intros k r. rewrite lookup_alter_Some. intros [(-> & x & Hx & ->)|[_ Hk]]; [|by apply Hf].
  destruct (Hf _ _ Hx) as (?&?&?&?). by split_and!.
Qed.

Lemma catalog_step_wf c c' : catalog_step c c' → catalog_wf c → catalog_wf c'.
Proof.
  intros [] ?; eauto using register_wf, begin_attempt_wf, set_state_wf, declare_bytes_wf.
Qed.

(** What a terminal record keeps for ever. *)
Definition buried (id : Identity) (definition : CollectiveDefinition) (attempt : Identity)
    (c : CollectiveCatalog) : Prop :=
  ∃ r, cc_records c !! id = Some r ∧ collective_state_is_terminal (cr_state r) = true ∧
       cr_definition r = definition ∧ cr_current_attempt r = attempt.

Lemma buried_step id d a c c' : catalog_step c c' → buried id d a c → buried id d a c'.
Proof.
  intros Hstep (r & Hr & Ht & Hd & Ha). unfold buried.
  destruct Hstep as [c definition now|c id' attempt now|c id' state now Hs|c id' bytes].
  - unfold register_definition. destruct (is_ok _); cbn [negb]; [|by exists r].
    destruct (decide (cd_id definition = id)) as [<-|Hne].
    { rewrite Hr, Ht. by exists r. }
    destruct (cc_records c !! cd_id definition) as [r'|].
    + destruct (collective_state_is_terminal (cr_state r')); [by exists r|].
      destruct (definitions_equivalent _ _); [by exists r|].
      exists r. cbn. by rewrite lookup_insert_ne.
    + destruct (_ <=? _); [by exists r|]. exists r. cbn. by rewrite lookup_insert_ne.
  - unfold begin_attempt. destruct (is_none attempt); [by exists r|].
    destruct (decide (id' = id)) as [->|Hne].
    { rewrite Hr. assert (accepts_new_authority r = false) as ->; [|by exists r].
      unfold accepts_new_authority. by destruct (cr_state r). }
    destruct (cc_records c !! id') as [r'|]; [|by exists r].
    destruct (accepts_new_authority r'); [|by exists r]. cbn [negb].
    destruct (_ =i _); [by exists r|]. exists r. cbn. by rewrite lookup_insert_ne.
  - unfold set_state. destruct (decide (id' = id)) as [->|Hne].
    + rewrite Hr, Ht. destruct (collective_state_is_terminal state) eqn:Es; cbn; [|by exists r].
      eexists. rewrite lookup_insert_eq. split; [done|]. by split_and!.
    + destruct (cc_records c !! id') as [r'|]; [|by exists r].
      destruct (_ && _); [by exists r|]. exists r. cbn. by rewrite lookup_insert_ne.
  - destruct (decide (id' = id)) as [->|Hne].
    + eexists. cbn. rewrite lookup_alter_eq, Hr. split; [done|]. by split_and!.
    + exists r. cbn. by rewrite lookup_alter_ne.
Qed.

Lemma definitions_equivalent_stamp d generation seq :
  definitions_equivalent (d <| cd_generation := generation |> <| cd_registration_sequence := seq |>) d
    = true ∧
  definitions_equivalent (d <| cd_registration_sequence := seq |> <| cd_generation := generation |>) d
    = true.
Proof.
  unfold definitions_equivalent; split; cbn;
    by rewrite !id_eqb_refl, !bool_decide_eq_true_2, Z.eqb_refl.
Qed.

(** Registering a definition whose record was just stored. *)
Lemma register_again c d r seq now :
  is_ok (validate_definition d) = true →
  collective_state_is_terminal (cr_state r) = false →
  definitions_equivalent (cr_definition r) d = true →
  register_definition (c <| cc_mutation_sequence := seq |> <| cc_records ::= <[cd_id d := r]> |>)
    d now =
    (c <| cc_mutation_sequence := seq |> <| cc_records ::= <[cd_id d := r]> |>,
     mkRegistrationOutcome RegistrationResult.kUnchanged (cd_generation (cr_definition r))
       (cr_current_attempt r)
       (rc_push [] "unchanged" "re-registration matched the stored definition exactly" (cd_id d))
       false false).
Proof.
  intros Hv Ht He. unfold register_definition. rewrite Hv. cbn [negb].
  cbn [cc_records set_field]. rewrite lookup_insert_eq, Ht, He. done.
Qed.

(** ** Replay *)
Abbreviation keyed := (fmap (fun r : CollectiveRecord => (cd_id (cr_definition r), r))).

Lemma load_loop_Ok records staged highest :
  Forall (fun r => record_wf (cd_id (cr_definition r)) r) records →
  NoDup (keyed records).*1 →
  Forall (fun r => staged !! cd_id (cr_definition r) = None) records →
  ∃ h, load_loop records staged highest = Ok (list_to_map (keyed records) ∪ staged, h).
Proof.
  revert staged highest. induction records as [|r records IH]; intros staged highest Hw Hn Hs.
  { exists highest. cbn. by rewrite map_empty_union. }
  inversion Hw as [|? ? (_ & Hv & Hg & Hst) Hw']; subst. inversion Hs as [|? ? Hr Hs']; subst.
  cbn in Hn. inversion Hn as [|? ? Hni Hn']; subst. cbn [load_loop]. rewrite Hv. cbn [negb].
  apply is_none_neq in Hg. rewrite Hg. rewrite bool_decide_eq_false_2 by done. rewrite Hr.
  destruct (IH (<[cd_id (cr_definition r):=r]> staged)
    (Z.max (Z.max highest (cr_registration_sequence r)) (cr_last_mutation_sequence r)) Hw' Hn')
    as [h ->].
  - rewrite Forall_forall in Hs' |- *. intros x Hx. rewrite lookup_insert_ne; [by apply Hs'|].
    intros E. apply Hni. rewrite E. apply list_elem_of_fmap.
    exists (cd_id (cr_definition x), x). split; [done|]. by apply (list_elem_of_fmap_2 (fun r => (cd_id (cr_definition r), r))).
  - exists h. do 2 f_equal. cbn [fmap list_fmap list_to_map foldr fst snd].
    rewrite <- insert_union_r by (by apply not_elem_of_list_to_map_1).
    by rewrite insert_union_l.
Qed.

Lemma load_loop_wf records staged highest staged' h :
  map_Forall record_wf staged →
  load_loop records staged highest = Ok (staged', h) →
  map_Forall record_wf staged' ∧ mapsize staged' = mapsize staged + zlen records.
Proof.
  revert staged highest. induction records as [|r records IH]; intros staged highest Hf H.
  { cbn in H. injection H as <- <-. unfold zlen. cbn. split; [done|lia]. }
  cbn [load_loop] in H. destruct (is_ok _) eqn:Ev; cbn [negb] in H; [|done].
  destruct (is_none _) eqn:En; [done|]. case_bool_decide; [done|].
  destruct (staged !! _) eqn:Es; [done|]. apply IH in H as [H1 H2].
  - split; [done|]. rewrite H2, mapsize_insert_new by done. unfold zlen. cbn [length]. lia.
  - apply map_Forall_insert_2; [|done]. split_and!; try done. by apply is_none_neq.
Qed.

Lemma catalog_load_wf c records : catalog_wf c → catalog_wf (catalog_load c records).1.
Proof.
  intros Hw. unfold catalog_load. destruct (cc_capacity c <? zlen records) eqn:E; [done|].
  destruct (load_loop records ∅ 0) as [[staged h]|] eqn:El; [|done].
  apply load_loop_wf in El as [Hf Hs]; [|apply map_Forall_empty]. bool_prop.
  rewrite mapsize_empty in Hs. split; cbn; [lia | done].
Qed.

Lemma export_keyed_perm c :
  map_Forall record_wf (cc_records c) → keyed (export_all c) ≡ₚ map_to_list (cc_records c).
Proof.
  intros Hf. unfold export_all.
  rewrite (std_sort_perm id_ltb (fun r => cd_id (cr_definition r))).
  rewrite <- list_fmap_compose. apply Permutation_refl'.
  etrans; [|apply list_fmap_id]. apply list_fmap_ext. intros i [k r] Hi. cbn.
  assert ((k, r) ∈ map_to_list (cc_records c)) as Hin by (by eapply list_elem_of_lookup_2).
  apply elem_of_map_to_list in Hin. destruct (Hf _ _ Hin) as [<- _]. done.
Qed.

(** ** Properties *)

(** The catalog invariant: from any well-formed catalog, every sequence of registrations,
    attempts, lifecycle changes and volume declarations keeps the number of collectives within
    the bound, and every record filed under its own identity, with a valid definition, a set
    generation and a registered state. *)
Theorem catalog_invariant (c c' : CollectiveCatalog) :
  rtc catalog_step c c' → catalog_wf c → catalog_wf c'.
Proof.
  induction 1 as [|c1 c2 c3 Hstep _ IH]; [done|]. intros Hw. apply IH.
  by eapply catalog_step_wf.
Qed.

Definition demo_collective : CollectiveDefinition :=
  mkCollectiveDefinition (mkIdentity 1 1) id_none CollectiveClass.kAllReduce
    AlgorithmHint.kRing CollectiveScope.kInterNode "job" (mkIdentity 9 1) (mkIdentity 3 3)
    [mkIdentity 0 1; mkIdentity 0 2; mkIdentity 0 3] [] [] [] false 30 0.

Lemma catalog_new_wf capacity : 0 ≤ capacity → catalog_wf (catalog_new capacity).
Proof.
  intros Hc. split; [|apply map_Forall_empty]. cbn. rewrite mapsize_empty.
  destruct (capacity =? 0); lia.
Qed.

Lemma catalog_invariant_witness :
  catalog_wf (register_definition (catalog_new 4) demo_collective 10).1.
Proof.
  apply (catalog_invariant (catalog_new 4)); [|by apply catalog_new_wf].
  apply rtc_once, step_register.
Defined.

(** A terminal collective is never resurrected: once a collective is completed, cancelled,
    retired or timed out, every later sequence of operations leaves it terminal, with the same
    definition, generation and attempt, and it never accepts new authority or a new attempt. *)
Theorem terminal_forever (c c' : CollectiveCatalog) (id : Identity) (r : CollectiveRecord) :
  rtc catalog_step c c' → catalog_find c id = Some r →
  collective_state_is_terminal (cr_state r) = true →
  ∃ r', catalog_find c' id = Some r' ∧ collective_state_is_terminal (cr_state r') = true ∧
    cr_definition r' = cr_definition r ∧ cr_current_attempt r' = cr_current_attempt r ∧
    accepts_new_authority r' = false ∧
    ∀ attempt now, (begin_attempt c' id attempt now).1 = c'.
Proof.
  intros Hsteps Hr Ht.
  assert (buried id (cr_definition r) (cr_current_attempt r) c') as (r' & Hr' & Ht' & Hd & Ha).
  { assert (buried id (cr_definition r) (cr_current_attempt r) c) as Hb by (by exists r).
    clear Hr Ht. induction Hsteps as [|c1 c2 c3 Hstep _ IH]; [done|].
    apply IH. by eapply buried_step. }
  assert (accepts_new_authority r' = false) as Hno.
  { unfold accepts_new_authority. by destruct (cr_state r'). }
  exists r'. split_and!; try done. intros attempt now. unfold begin_attempt.
  destruct (is_none attempt); [done|]. by rewrite Hr', Hno.
Qed.

Lemma terminal_forever_witness :
  let c1 := (cancel (register_definition (catalog_new 4) demo_collective 10).1
               (mkIdentity 1 1) 20).1 in
  let c2 := (register_definition c1 (demo_collective <| cd_label := "again" |>) 30).1 in
  ∃ r, catalog_find c2 (mkIdentity 1 1) = Some r ∧
       collective_state_is_terminal (cr_state r) = true.
Proof.
  cbv zeta. set (c1 := (cancel _ _ _).1).
  destruct (catalog_find c1 (mkIdentity 1 1)) as [r|] eqn:E; [|vm_compute in E; discriminate].
  destruct (terminal_forever c1 (register_definition c1
    (demo_collective <| cd_label := "again" |>) 30).1 (mkIdentity 1 1) r) as (r' & H1 & H2 & _).
  - apply rtc_once, step_register.
  - exact E.
  - assert (cr_state r = CollectiveState.kCancelled) as ->; [|reflexivity].
    vm_compute in E. injection E as <-. reflexivity.
  - exists r'. split; [exact H1 | exact H2].
Defined.

(** Registration is idempotent: after a registration that was accepted, registering the
    same definition again changes nothing, reports "unchanged" and the same generation. *)
Theorem register_idempotent (c : CollectiveCatalog) (d : CollectiveDefinition) (now now' : Z) :
  let '(c1, o1) := register_definition c d now in
  (ro_result o1 = RegistrationResult.kRegistered ∨
   ro_result o1 = RegistrationResult.kGenerationAdvanced ∨
   ro_result o1 = RegistrationResult.kUnchanged) →
  let '(c2, o2) := register_definition c1 d now' in
  c2 = c1 ∧ ro_result o2 = RegistrationResult.kUnchanged ∧
  ro_generation o2 = ro_generation o1.
Proof.
  unfold register_definition at 1. destruct (is_ok (validate_definition d)) eqn:Ev; cbn [negb];
    [|cbn; naive_solver].
  destruct (cc_records c !! cd_id d) as [r|] eqn:E.
  - destruct (collective_state_is_terminal _) eqn:Et; [cbn; naive_solver|].
    destruct (definitions_equivalent (cr_definition r) d) eqn:Eq.
    + intros _. unfold register_definition. rewrite Ev. cbn [negb]. by rewrite E, Et, Eq.
    + cbv zeta. generalize (mint_generation (Z.lxor (w64 (cc_mutation_sequence c + 1)) 0xBEEF)).
      intros g _. rewrite register_again; [split_and!; reflexivity|exact Ev|reflexivity|].
      apply (definitions_equivalent_stamp d).
  - destruct (_ <=? _); [cbn; naive_solver|]. cbv zeta.
    generalize (mint_generation (Z.lxor (seq_incr (cc_mutation_sequence c)) 0xC0FFEE)).
    intros g _. rewrite register_again; [split_and!; reflexivity|exact Ev|reflexivity|]. apply (definitions_equivalent_stamp d).
Qed.

Lemma register_idempotent_witness :
  ∃ c1 o1, register_definition (catalog_new 4) demo_collective 10 = (c1, o1) ∧
    (register_definition c1 demo_collective 20).1 = c1.
Proof.
  pose proof (register_idempotent (catalog_new 4) demo_collective 10 20) as H.
  destruct (register_definition (catalog_new 4) demo_collective 10) as [c1 o1] eqn:E.
  exists c1, o1. split; [done|].
  destruct (register_definition c1 demo_collective 20) as [c2 o2] eqn:E2.
  destruct H as [H _]; [|exact H].
  apply (f_equal (fun p => ro_result p.2)) in E. cbn [snd] in E. rewrite <- E.
  left. vm_compute. reflexivity.
Defined.

Lemma export_load c target :
  catalog_wf c → mapsize (cc_records c) ≤ cc_capacity target →
  ∃ h, catalog_load target (export_all c) =
    (target <| cc_records := cc_records c |> <| cc_mutation_sequence := h |>, status_ok).
Proof.
  intros [_ Hf] Hroom. pose proof (export_keyed_perm c Hf) as Hp.
  assert (NoDup (keyed (export_all c)).*1) as Hn by (rewrite Hp; apply NoDup_fst_map_to_list).
  assert (zlen (export_all c) = mapsize (cc_records c)) as Hl.
  { unfold zlen, mapsize. f_equal. rewrite <- length_map_to_list, <- Hp.
    by rewrite length_fmap. }
  assert (Forall (fun r => record_wf (cd_id (cr_definition r)) r) (export_all c)) as Hw.
  { apply Forall_forall. intros r Hr.
    assert ((cd_id (cr_definition r), r) ∈ map_to_list (cc_records c)) as Hin.
    { rewrite <- Hp. by apply (list_elem_of_fmap_2 (fun r => (cd_id (cr_definition r), r))). }
    apply elem_of_map_to_list in Hin. exact (Hf _ _ Hin). }
  destruct (load_loop_Ok (export_all c) ∅ 0 Hw Hn) as [h Hload].
  { apply Forall_forall. intros r _. apply lookup_empty. }
  exists h. unfold catalog_load. rewrite (proj2 (Z.ltb_ge _ _)) by lia. rewrite Hload.
  rewrite map_union_empty, (list_to_map_proper _ _ Hn Hp), list_to_map_to_list. done.
Qed.

(** Replaying what was exported restores the catalog: loading [export_all] of a
    well-formed catalog into any catalog with room for it succeeds and installs exactly its
    records; a load that succeeds leaves a well-formed catalog whatever was loaded, and a load
    that fails changes nothing. *)
Theorem catalog_replay (c target : CollectiveCatalog) (records : list CollectiveRecord) :
  (catalog_wf c → mapsize (cc_records c) ≤ cc_capacity target →
   ∃ h, catalog_load target (export_all c) =
     (target <| cc_records := cc_records c |> <| cc_mutation_sequence := h |>, status_ok)) ∧
  (let '(c', status) := catalog_load target records in
   if is_ok status then catalog_wf c' ∧ mapsize (cc_records c') = zlen records
   else c' = target).
Proof.
  split; [apply export_load|].
  unfold catalog_load. destruct (_ <? _) eqn:E; [done|]. bool_prop.
  destruct (load_loop records ∅ 0) as [[staged h]|s] eqn:El.
  - apply load_loop_wf in El as [H1 H2]; [|apply map_Forall_empty].
    rewrite mapsize_empty in H2. eval_ok. split; [split; cbn; [lia|done] | cbn; lia].
  - assert (∀ st hi, load_loop records st hi = Fail s → is_ok s = false) as Hs.
    { clear. induction records as [|r records IH]; intros st hi; cbn [load_loop]; [done|].
      unfold fail. destruct (is_ok (validate_definition _)); cbn [negb];
        [|by intros [= <-]]. destruct (is_none _); [by intros [= <-]|].
      case_bool_decide; [by intros [= <-]|]. destruct (st !! _); [by intros [= <-]|].
      apply IH. }
    by rewrite (Hs _ _ El).
Qed.

Lemma catalog_replay_witness :
  ∃ h, catalog_load (catalog_new 2)
         (export_all (register_definition (catalog_new 4) demo_collective 10).1) =
    ((catalog_new 2)
       <| cc_records := cc_records (register_definition (catalog_new 4) demo_collective 10).1 |>
       <| cc_mutation_sequence := h |>, status_ok).
Proof.
  apply (catalog_replay (register_definition (catalog_new 4) demo_collective 10).1
    (catalog_new 2) []); [|vm_compute; congruence].
  apply register_wf. by apply catalog_new_wf.
Defined.

Lemma mint_generation_inj s1 s2 :
  is_u64 s1 → is_u64 s2 → mint_generation s1 = mint_generation s2 →
  s1 = s2 ∨ mint_generation s1 = mkIdentity 1 1.
Proof.
  intros H1 H2. unfold mint_generation.
  destruct (is_none (minter_next (minter_new s1)).2) eqn:E1; [by right|].
  destruct (is_none (minter_next (minter_new s2)).2) eqn:E2; [intros ->; by right|].
  intros E. left. apply (f_equal id_high) in E. rewrite !minter_first_high in E.
  by do 3 (apply id_mix64_inj in E; [|auto using id_mix64_u64..]).
Qed.

Lemma register_advanced c d now :
  ro_result (register_definition c d now).2 = RegistrationResult.kGenerationAdvanced →
  ro_generation (register_definition c d now).2 =
    mint_generation (Z.lxor (w64 (cc_mutation_sequence c + 1)) 0xBEEF).
Proof.
  unfold register_definition. destruct (is_ok _); cbn [negb]; [|done].
  destruct (cc_records c !! _); [|by destruct (_ <=? _)].
  destruct (collective_state_is_terminal _); [done|]. by destruct (definitions_equivalent _ _).
Qed.

(** Two changes of definitions at different points of the mutation sequence mint different
    generations, except for the reserved identity 1:1, so a decision bound to the generation
    of an earlier change is stale after a later one. *)
Theorem advanced_generations_differ (c1 c2 : CollectiveCatalog) (d1 d2 : CollectiveDefinition)
    (now1 now2 : Z) :
  let o1 := (register_definition c1 d1 now1).2 in
  let o2 := (register_definition c2 d2 now2).2 in
  ro_result o1 = RegistrationResult.kGenerationAdvanced →
  ro_result o2 = RegistrationResult.kGenerationAdvanced →
  is_u64 (cc_mutation_sequence c1) → is_u64 (cc_mutation_sequence c2) →
  cc_mutation_sequence c1 ≠ cc_mutation_sequence c2 →
  ro_generation o1 ≠ ro_generation o2 ∨ ro_generation o1 = mkIdentity 1 1.
Proof.
  cbv zeta. intros H1 H2 Hu1 Hu2 Hne.
  rewrite (register_advanced _ _ _ H1), (register_advanced _ _ _ H2).
  destruct (decide (mint_generation (Z.lxor (w64 (cc_mutation_sequence c1 + 1)) 0xBEEF) =
    mint_generation (Z.lxor (w64 (cc_mutation_sequence c2 + 1)) 0xBEEF))) as [E|]; [|by left].
  right. apply mint_generation_inj in E as [E|E]; [exfalso|done|
    apply lxor_u64; [apply w64_range | unfold is_u64; lia]..].
  apply (f_equal (fun x => Z.lxor x 0xBEEF)) in E.
  rewrite !Z.lxor_assoc, Z.lxor_nilpotent, !Z.lxor_0_r in E.
  by apply add_const_inj in E.
Qed.

Lemma advanced_generations_differ_witness :
  let c1 := (register_definition (catalog_new 4) demo_collective 10).1 in
  let o1 := (register_definition c1 (demo_collective <| cd_label := "b" |>) 20).2 in
  let c2 := (register_definition c1 (demo_collective <| cd_label := "b" |>) 20).1 in
  let o2 := (register_definition c2 (demo_collective <| cd_label := "c" |>) 30).2 in
  ro_generation o1 ≠ ro_generation o2.
Proof.
  cbv zeta. set (c1 := (register_definition (catalog_new 4) demo_collective 10).1).
  set (c2 := (register_definition c1 _ 20).1).
  destruct (advanced_generations_differ c1 c2 (demo_collective <| cd_label := "b" |>)
    (demo_collective <| cd_label := "c" |>) 20 30) as [H|H];
    [vm_compute; reflexivity | vm_compute; reflexivity
    |unfold is_u64; vm_compute; split; congruence
    |unfold is_u64; vm_compute; split; congruence|vm_compute; congruence|exact H|].
  exfalso. vm_compute in H. discriminate.
Defined.

(** [n] lifecycle changes of one collective. *)
Definition touch (n : nat) (id : Identity) (now : Z) (c : CollectiveCatalog)
    : CollectiveCatalog :=
  Nat.iter n (fun c => (set_state c id CollectiveState.kActive now).1) c.

Lemma touch_spec n id now c r :
  cc_records c !! id = Some r → collective_state_is_terminal (cr_state r) = false →
  is_u64 (cc_mutation_sequence c) →
  ∃ r', cc_records (touch n id now c) !! id = Some r' ∧
    collective_state_is_terminal (cr_state r') = false ∧
    cr_definition r' = cr_definition r ∧
    cc_mutation_sequence (touch n id now c) = w64 (cc_mutation_sequence c + Z.of_nat n) ∧
    rtc catalog_step c (touch n id now c).
Proof.
  intros Hr Ht Hu. induction n as [|n (r' & Hr' & Ht' & Hd & Hs & Hsteps)].
  - exists r. split_and!; try done. cbn. by rewrite Z.add_0_r, w64_small.
  - change (touch (S n) id now c) with
      ((set_state (touch n id now c) id CollectiveState.kActive now).1).
    assert (catalog_step (touch n id now c)
      (set_state (touch n id now c) id CollectiveState.kActive now).1) as Hstep
      by (by apply step_set_state).
    unfold set_state in *. rewrite Hr', Ht' in *. cbn [andb fst] in *.
    eexists. cbn [cc_records cc_mutation_sequence set_field].
    rewrite lookup_insert_eq. split_and!; [done|done|done| |by eapply rtc_r].
    rewrite Hs. unfold seq_incr, w64. rewrite Zplus_mod_idemp_l. f_equal. lia.
Qed.

(** A changed definition can keep its generation.  A collective registered first (its
    generation seeded with the sequence xor 0xC0FFEE) and changed after the catalog reached
    sequence 12599551 (seeded with the next sequence xor 0xBEEF) is reported as advanced and
    gets the generation it already had, so decisions bound to the old definition stay
    current. *)
Theorem changed_definition_keeps_generation :
  ∃ n : nat,
    let '(c1, o1) := register_definition (catalog_new 4) demo_collective 10 in
    let c2 := touch n (cd_id demo_collective) 20 c1 in
    let '(c3, o3) := register_definition c2 (demo_collective <| cd_label := "changed" |>) 30 in
    rtc catalog_step c1 c3 ∧
    ro_result o3 = RegistrationResult.kGenerationAdvanced ∧
    ro_generation o3 = ro_generation o1.
Proof.
  exists (Z.to_nat 12599550).
  destruct (register_definition (catalog_new 4) demo_collective 10) as [c1 o1] eqn:E1.
  assert (∃ r, cc_records c1 !! cd_id demo_collective = Some r ∧
    collective_state_is_terminal (cr_state r) = false ∧
    cd_label (cr_definition r) = "job" ∧ cc_mutation_sequence c1 = 1) as (r & Hr & Ht & Hl & Hs).
  { vm_compute in E1. injection E1 as <- <-. eexists. split; [vm_compute; reflexivity|]. done. }
  cbv zeta.
  destruct (touch_spec (Z.to_nat 12599550) (cd_id demo_collective) 20 c1 r Hr Ht)
    as (r' & Hr' & Ht' & Hd & Hs' & Hsteps); [rewrite Hs; unfold is_u64; lia|].
  rewrite Hs, Z2Nat.id in Hs' by lia.
  set (c2 := touch _ _ _ _) in *. clearbody c2.
  pose proof (register_advanced c2 (demo_collective <| cd_label := "changed" |>) 30) as Hg.
  assert (ro_result (register_definition c2 (demo_collective <| cd_label := "changed" |>) 30).2
    = RegistrationResult.kGenerationAdvanced) as Hres.
  { unfold register_definition.
    replace (is_ok (validate_definition (demo_collective <| cd_label := "changed" |>)))
      with true by (vm_compute; reflexivity). cbn [negb].
    change (cd_id (demo_collective <| cd_label := "changed" |>)) with (cd_id demo_collective).
    rewrite Hr', Ht'.
    replace (definitions_equivalent _ _) with false; [done|]. symmetry.
    unfold definitions_equivalent. rewrite Hd.
    rewrite (bool_decide_eq_false_2 (cd_label (cr_definition r) = _)) by (rewrite Hl; done).
    by rewrite !andb_false_r. }
  specialize (Hg Hres).
  pose proof (step_register c2 (demo_collective <| cd_label := "changed" |>) 30) as Hstep.
  destruct (register_definition c2 _ 30) as [c3 o3]. cbn [fst snd] in *.
  split_and!; [by eapply rtc_r|done|]. rewrite Hg, Hs'.
  apply (f_equal (fun p => ro_generation p.2)) in E1. cbn [snd] in E1. rewrite <- E1.
  vm_compute. reflexivity.
Qed.
