(* ===== verification/Authority.v ===== *)
(** Coordinator authority ([include/ctf/authority.hpp], [src/authority.cpp]): the epoch, the
    installed policy, topology, capacity and congestion evidence with their replay histories,
    participant liveness with incarnation fencing, and the frozen snapshot.

    The theorems give the invariant of every operation, that a fenced incarnation never holds
    authority again within a boot, that the snapshot's binary search is the map lookup, that
    booting terminates with a fresh epoch and clears everything dynamic, and how far replayed
    generations are refused. *)
From S2P Require Import Prelude Identity Errors Participant Traffic Evidence.

Module InstallResult.
Inductive InstallResult :=
  | kInstalled | kRejectedOlderGeneration | kRejectedInvalid | kRejectedOversized
  | kRejectedSameGeneration.
Definition InstallResult_raw (v : InstallResult) : Z :=
  match v with
  | kInstalled => 0
  | kRejectedOlderGeneration => 1
  | kRejectedInvalid => 2
  | kRejectedOversized => 3
  | kRejectedSameGeneration => 4
  end.
Definition InstallResult_to_string (v : InstallResult) : string :=
  match v with
  | kInstalled => "installed"
  | kRejectedOlderGeneration => "rejected_older_generation"
  | kRejectedInvalid => "rejected_invalid"
  | kRejectedOversized => "rejected_oversized"
  | kRejectedSameGeneration => "rejected_same_generation"
  end.
#[global] Instance InstallResult_eq_dec : EqDecision InstallResult.
Proof. solve_decision. Defined.
#[global, refine] Instance InstallResult_enum : WireEnum InstallResult :=
  {| enum_raw := InstallResult_raw;
     enum_all :=
       [kInstalled; kRejectedOlderGeneration; kRejectedInvalid; kRejectedOversized;
       kRejectedSameGeneration] |}.
Proof. by intros []. Defined.
End InstallResult.
Abbreviation InstallResult := InstallResult.InstallResult.

(** [AuthorityState::PublishResult] *)
Module PublishResult.
Inductive PublishResult :=
  | kAccepted | kFencedStaleIncarnation | kRejectedCapacity | kRejectedInvalid.
#[global] Instance PublishResult_eq_dec : EqDecision PublishResult.
Proof. solve_decision. Defined.
End PublishResult.
Abbreviation PublishResult := PublishResult.PublishResult.

(** ** The bounded history of accepted generations *)
Definition kGenerationHistoryCapacity : Z := 64.

Definition gh_remember (seen : list Identity) (generation : Identity) : list Identity :=
  if is_none generation then seen
  else
    let seen := seen ++ [generation] in
    if kGenerationHistoryCapacity <? zlen seen then drop 1 seen else seen.

Definition gh_contains (seen : list Identity) (generation : Identity) : bool :=
  match find_first (fun entry => entry =i generation) seen with
  | Some _ => true
  | None => false
  end.

(** ** State *)
Record DurableAuthority := mkDurableAuthority {
  da_last_epoch : Identity;
  da_policy_generation : Identity;
  da_topology_generation : Identity;
  da_topology : TopologyEvidence;
  da_policy : TrafficPolicy;
  da_restart_count : Z;
}.

#[export] Instance DurableAuthority_eta : Eta DurableAuthority :=
  fun r => mkDurableAuthority (da_last_epoch r) (da_policy_generation r) (da_topology_generation r)
    (da_topology r) (da_policy r) (da_restart_count r).

Record AuthorityState := mkAuthorityState {
  au_epoch : Identity;
  au_last_durable_epoch : Identity;
  au_policy_generation : Identity;
  au_topology_generation : Identity;
  au_capacity_generation : Identity;
  au_congestion_generation : Identity;
  au_policy : option TrafficPolicy;
  au_topology : option TopologyEvidence;
  au_capacity : option CapacityEvidence;
  au_congestion : option CongestionEvidence;
  au_policy_history : list Identity;
  au_topology_history : list Identity;
  au_capacity_history : list Identity;
  au_congestion_history : list Identity;
  au_peers : gmap Identity PeerLiveness;
  au_highest_incarnation : gmap Identity Identity;
  au_freshness : FreshnessPolicy;
  au_boot_monotonic_ms : Z;
}.

#[export] Instance AuthorityState_eta : Eta AuthorityState :=
  fun r => mkAuthorityState (au_epoch r) (au_last_durable_epoch r) (au_policy_generation r)
    (au_topology_generation r) (au_capacity_generation r)
    (au_congestion_generation r) (au_policy r) (au_topology r) (au_capacity r)
    (au_congestion r) (au_policy_history r) (au_topology_history r)
    (au_capacity_history r) (au_congestion_history r) (au_peers r)
    (au_highest_incarnation r) (au_freshness r) (au_boot_monotonic_ms r).

Definition authority_new : AuthorityState :=
  mkAuthorityState id_none id_none id_none id_none id_none id_none None None None None
    [] [] [] [] ∅ ∅ default_freshness 0.

(** Default-constructed evidence and policy, returned when none is installed. *)
Definition topology_default : TopologyEvidence := mkTopologyEvidence id_none [] [] 0 true.
Definition capacity_default : CapacityEvidence := mkCapacityEvidence id_none id_none [] 0 true.
Definition congestion_default : CongestionEvidence :=
  mkCongestionEvidence id_none id_none [] 0 0 true.
Definition policy_default : TrafficPolicy :=
  mkTrafficPolicy id_none [] [] standard_congestion_response kUnlimitedRate 250.
Definition peer_default : PeerLiveness :=
  mkPeerLiveness id_none id_none ParticipantState.kUnspecified 0 0 id_none id_none.

(** ** Boot *)

(** The minting loop of [begin_boot], over the process counter; [None] when the fuel runs
    out, which [begin_boot_fresh] excludes. *)
Fixpoint mint_epoch (fuel : nat) (entropy counter : Z) (last current : Identity)
    : option (Identity * Z) :=
  match fuel with
  | O => None
  | S fuel' =>
      let candidate := mint_identity entropy counter in
      let counter := w64 (counter + 1) in
      if (candidate =i last) || (candidate =i current)
      then mint_epoch fuel' entropy counter last current
      else Some (candidate, counter)
  end.

Definition boot_fuel : nat := 4.

Definition clear_evidence (s : AuthorityState) : AuthorityState :=
  s <| au_capacity := None |> <| au_congestion := None |>
    <| au_capacity_generation := id_none |> <| au_congestion_generation := id_none |>.

Definition begin_boot (s : AuthorityState) (entropy counter : Z) (last_durable_epoch : Identity)
    : option (AuthorityState * Z) :=
  match mint_epoch boot_fuel entropy counter last_durable_epoch (au_epoch s) with
  | None => None
  | Some (candidate, counter) =>
      Some (clear_evidence
              (s <| au_last_durable_epoch := last_durable_epoch |>
                 <| au_epoch := candidate |>
                 <| au_peers := ∅ |> <| au_highest_incarnation := ∅ |>), counter)
  end.

Definition epoch_is_current (s : AuthorityState) (candidate : Identity) : bool :=
  is_some candidate && (candidate =i au_epoch s).

(** ** Installation of generations *)

(** A pointer that is not null. *)
Definition present {A} (pointer : option A) : bool :=
  match pointer with Some _ => true | None => false end.

Definition install_policy (s : AuthorityState) (policy : TrafficPolicy)
    : AuthorityState * InstallResult :=
  if negb (is_ok (policy_validate policy)) then (s, InstallResult.kRejectedInvalid)
  else if is_none (tp_generation policy) then (s, InstallResult.kRejectedInvalid)
  else if present (au_policy s) &&
          (au_policy_generation s =i tp_generation policy)
  then (s, InstallResult.kRejectedSameGeneration)
  else if gh_contains (au_policy_history s) (tp_generation policy)
  then (s, InstallResult.kRejectedOlderGeneration)
  else (s <| au_policy_history ::= fun h => gh_remember h (tp_generation policy) |>
          <| au_policy_generation := tp_generation policy |>
          <| au_policy := Some policy |>, InstallResult.kInstalled).

Definition install_topology (s : AuthorityState) (topology : TopologyEvidence)
    : AuthorityState * InstallResult :=
  let topology := topology_canonicalize topology in
  if negb (is_ok (topology_validate topology)) then (s, InstallResult.kRejectedInvalid)
  else if present (au_topology s) && (au_topology_generation s =i te_generation topology)
  then (s, InstallResult.kRejectedSameGeneration)
  else if gh_contains (au_topology_history s) (te_generation topology)
  then (s, InstallResult.kRejectedOlderGeneration)
  else (clear_evidence
          (s <| au_topology_history ::= fun h => gh_remember h (te_generation topology) |>
             <| au_topology_generation := te_generation topology |>
             <| au_topology := Some topology |>), InstallResult.kInstalled).

Definition install_capacity (s : AuthorityState) (capacity : CapacityEvidence)
    : AuthorityState * InstallResult :=
  let capacity := capacity_canonicalize capacity in
  if negb (is_ok (capacity_validate capacity)) then (s, InstallResult.kRejectedInvalid)
  else if negb (present (au_topology s)) ||
          negb (ce_topology_generation capacity =i au_topology_generation s)
  then (s, InstallResult.kRejectedInvalid)
  else if present (au_capacity s) && (au_capacity_generation s =i ce_generation capacity)
  then (s, InstallResult.kRejectedSameGeneration)
  else if gh_contains (au_capacity_history s) (ce_generation capacity)
  then (s, InstallResult.kRejectedOlderGeneration)
  else (s <| au_capacity_history ::= fun h => gh_remember h (ce_generation capacity) |>
          <| au_capacity_generation := ce_generation capacity |>
          <| au_capacity := Some capacity |>, InstallResult.kInstalled).

Definition install_congestion (s : AuthorityState) (congestion : CongestionEvidence)
    : AuthorityState * InstallResult :=
  let congestion := congestion_canonicalize congestion in
  if negb (is_ok (congestion_validate congestion)) then (s, InstallResult.kRejectedInvalid)
  else if negb (present (au_topology s)) ||
          negb (ge_topology_generation congestion =i au_topology_generation s)
  then (s, InstallResult.kRejectedInvalid)
  else if present (au_congestion s) && (au_congestion_generation s =i ge_generation congestion)
  then (s, InstallResult.kRejectedSameGeneration)
  else if gh_contains (au_congestion_history s) (ge_generation congestion)
  then (s, InstallResult.kRejectedOlderGeneration)
  else (s <| au_congestion_history ::= fun h => gh_remember h (ge_generation congestion) |>
          <| au_congestion_generation := ge_generation congestion |>
          <| au_congestion := Some congestion |>, InstallResult.kInstalled).

Definition policy_snapshot (s : AuthorityState) : TrafficPolicy :=
  default policy_default (au_policy s).
Definition topology_snapshot (s : AuthorityState) : TopologyEvidence :=
  default topology_default (au_topology s).
Definition capacity_snapshot (s : AuthorityState) : CapacityEvidence :=
  default capacity_default (au_capacity s).
Definition congestion_snapshot (s : AuthorityState) : CongestionEvidence :=
  default congestion_default (au_congestion s).
Definition capacity_available (s : AuthorityState) : bool := present (au_capacity s).
Definition congestion_available (s : AuthorityState) : bool := present (au_congestion s).

Definition invalidate_dynamic_evidence (s : AuthorityState) : AuthorityState := clear_evidence s.

(** ** Participants *)
Definition publish_liveness (s : AuthorityState) (liveness : PeerLiveness)
    : AuthorityState * PublishResult :=
  let p := pr_participant liveness in
  let install (s : AuthorityState) :=
    if (limits.kPeersMax <=? mapsize (au_peers s)) && negb (present (au_peers s !! p))
    then (s, PublishResult.kRejectedCapacity)
    else (s <| au_highest_incarnation ::= <[p := pr_incarnation liveness]> |>
            <| au_peers ::= <[p := liveness]> |>, PublishResult.kAccepted) in
  if is_none p || is_none (pr_incarnation liveness)
  then (s, PublishResult.kRejectedInvalid)
  else if bool_decide (pr_state liveness = ParticipantState.kUnspecified)
  then (s, PublishResult.kRejectedInvalid)
  else match au_highest_incarnation s !! p with
  | Some highest =>
      if pr_incarnation liveness <i highest then (s, PublishResult.kFencedStaleIncarnation)
      else if pr_incarnation liveness =i highest then
        if match au_peers s !! p with
           | None => true
           | Some stored =>
               bool_decide (pr_state stored = ParticipantState.kLive) ||
               bool_decide (pr_state stored = ParticipantState.kSuspect) ||
               bool_decide (pr_state stored = ParticipantState.kAdvertised)
           end
        then (s <| au_peers ::= <[p := liveness]> |>, PublishResult.kAccepted)
        else (s, PublishResult.kFencedStaleIncarnation)
      else install s
  | None => install s
  end.

Definition heartbeat (s : AuthorityState) (participant incarnation : Identity) (now ttl_ms : Z)
    : AuthorityState * bool :=
  if is_none participant || is_none incarnation then (s, false)
  else
    let refused :=
      match au_highest_incarnation s !! participant with
      | None => false
      | Some highest =>
          (incarnation <i highest) ||
          ((incarnation =i highest) &&
           match au_peers s !! participant with
           | None => true
           | Some stored =>
               bool_decide (pr_state stored = ParticipantState.kFenced) ||
               bool_decide (pr_state stored = ParticipantState.kExpired) ||
               bool_decide (pr_state stored = ParticipantState.kRetired)
           end)
      end in
    if refused then (s, false)
    else
      let stored := default peer_default (au_peers s !! participant) in
      let same_boot := pr_incarnation stored =i incarnation in
      let stored := stored
        <| pr_participant := participant |>
        <| pr_incarnation := incarnation |>
        <| pr_state := ParticipantState.kLive |>
        <| pr_last_seen_monotonic_ms := now |>
        <| pr_expires_at_monotonic_ms := w64 (now + ttl_ms) |> in
      let stored :=
        if negb same_boot then stored <| pr_node := id_none |> <| pr_bound_session := id_none |>
        else stored in
      (s <| au_highest_incarnation ::= <[participant := incarnation]> |>
         <| au_peers ::= <[participant := stored]> |>, true).

(** [state = kFenced; expires_at = now] *)
Definition fence (now : Z) (l : PeerLiveness) : PeerLiveness :=
  l <| pr_state := ParticipantState.kFenced |> <| pr_expires_at_monotonic_ms := now |>.

Definition bound_to (session : Identity) (l : PeerLiveness) : bool :=
  (pr_bound_session l =i session) && is_some session.

Definition expire_session (s : AuthorityState) (session : Identity) (now : Z)
    : AuthorityState * Z :=
  (s <| au_peers ::= fmap (fun l => if bound_to session l then fence now l else l) |>,
   zlen (filter (fun e => bound_to session e.2 = true) (map_to_list (au_peers s)))).

Definition is_due (now : Z) (l : PeerLiveness) : bool :=
  bool_decide (pr_state l = ParticipantState.kLive) && (pr_expires_at_monotonic_ms l <=? now).

Definition expire_due (s : AuthorityState) (now : Z) : AuthorityState * list Identity :=
  (s <| au_peers ::= fmap (fun l => if is_due now l then fence now l else l) |>,
   std_sort id_ltb
     ((fun e => pr_participant e.2) <$>
        filter (fun e => is_due now e.2 = true) (map_to_list (au_peers s)))).

Definition peer_snapshot (s : AuthorityState) (participant : Identity) : PeerLiveness :=
  default peer_default (au_peers s !! participant).

Definition peers_snapshot (s : AuthorityState) : list PeerLiveness :=
  std_sort (on_key id_ltb pr_participant) (snd <$> map_to_list (au_peers s)).

Definition peer_count (s : AuthorityState) : Z := mapsize (au_peers s).

Definition live_peer_count (s : AuthorityState) (now : Z) : Z :=
  zlen (filter (fun e => pr_is_current e.2 now = true) (map_to_list (au_peers s))).

Definition set_freshness_policy (s : AuthorityState) (policy : FreshnessPolicy)
    : AuthorityState := s <| au_freshness := policy |>.

(** ** Durable state *)
Definition durable_snapshot (s : AuthorityState) : DurableAuthority :=
  {| da_last_epoch := au_epoch s;
     da_policy_generation := au_policy_generation s;
     da_topology_generation := au_topology_generation s;
     da_topology := default topology_default (au_topology s);
     da_policy := default policy_default (au_policy s);
     da_restart_count := 0 |}.

Definition durable_check (durable : DurableAuthority) : option Status :=
  let topology_failure :=
    if is_some (da_topology_generation durable) then
      let status := topology_validate (da_topology durable) in
      if negb (is_ok status) then
        Some (mkStatus ErrorCode.kPersistenceImpossibleState
                (String.append "durable topology is not usable: " (st_message status)))
      else if negb (te_generation (da_topology durable) =i da_topology_generation durable) then
        Some (mkStatus ErrorCode.kPersistenceImpossibleState
                "durable topology generation disagrees with the durable record")
      else None
    else None in
  match topology_failure with
  | Some failure => Some failure
  | None =>
      if is_some (da_policy_generation durable) then
        let status := policy_validate (da_policy durable) in
        if negb (is_ok status) then
          Some (mkStatus ErrorCode.kPersistenceImpossibleState
                  (String.append "durable policy is not usable: " (st_message status)))
        else if negb (tp_generation (da_policy durable) =i da_policy_generation durable) then
          Some (mkStatus ErrorCode.kPersistenceImpossibleState
                  "durable policy generation disagrees with the durable record")
        else None
      else None
  end.

Definition restore_durable (s : AuthorityState) (durable : DurableAuthority) (now : Z)
    : AuthorityState * Status :=
  match durable_check durable with
  | Some failure => (s, failure)
  | None =>
      let s := s <| au_last_durable_epoch := da_last_epoch durable |> in
      let s :=
        if is_some (da_topology_generation durable)
        then s <| au_topology_generation := da_topology_generation durable |>
               <| au_topology := Some (da_topology durable) |>
        else s in
      let s :=
        if is_some (da_policy_generation durable)
        then s <| au_policy_generation := da_policy_generation durable |>
               <| au_policy := Some (da_policy durable) |>
        else s in
      let s := clear_evidence s in
      (s <| au_peers := ∅ |> <| au_highest_incarnation := ∅ |>
         <| au_boot_monotonic_ms := now |>, status_ok)
  end.

(** ** The snapshot *)
Definition authority_snapshot (s : AuthorityState) (now : Z) : EvaluationSnapshot :=
  {| es_epoch := au_epoch s;
     es_policy_generation := au_policy_generation s;
     es_topology_generation := au_topology_generation s;
     es_capacity_generation := au_capacity_generation s;
     es_congestion_generation := au_congestion_generation s;
     es_topology := au_topology s;
     es_capacity := au_capacity s;
     es_congestion := au_congestion s;
     es_policy := au_policy s;
     es_peers := std_sort (on_key id_ltb pr_participant) (snd <$> map_to_list (au_peers s));
     es_freshness := au_freshness s;
     es_now_monotonic_ms := now;
     es_capacity_observation_available := present (au_capacity s);
     es_congestion_observation_available := present (au_congestion s);
     es_topology_available := present (au_topology s);
     es_policy_available := present (au_policy s) |}.

(** ** The invariant *)
Definition peer_wf (s : AuthorityState) (p : Identity) (l : PeerLiveness) : Prop :=
  pr_participant l = p ∧ p ≠ id_none ∧ pr_incarnation l ≠ id_none ∧
  pr_state l ≠ ParticipantState.kUnspecified ∧
  au_highest_incarnation s !! p = Some (pr_incarnation l).

(** Evidence [e] of generation [g] is installed exactly under generation [current]. *)
Definition installed {A} (e : option A) (generation : A → Identity) (current : Identity)
    (valid : A → Prop) : Prop :=
  match e with
  | None => current = id_none
  | Some x => generation x = current ∧ current ≠ id_none ∧ valid x
  end.

Record authority_wf (s : AuthorityState) : Prop := {
  wf_policy : installed (au_policy s) tp_generation (au_policy_generation s)
    (fun p => is_ok (policy_validate p) = true);
  wf_topology : installed (au_topology s) te_generation (au_topology_generation s)
    (fun t => is_ok (topology_validate t) = true);
  wf_capacity : installed (au_capacity s) ce_generation (au_capacity_generation s)
    (fun c => is_ok (capacity_validate c) = true ∧
       ce_topology_generation c = au_topology_generation s);
  wf_congestion : installed (au_congestion s) ge_generation (au_congestion_generation s)
    (fun c => is_ok (congestion_validate c) = true ∧
       ge_topology_generation c = au_topology_generation s);
  wf_peers : map_Forall (peer_wf s) (au_peers s);
  wf_highest : ∀ p, is_Some (au_highest_incarnation s !! p) → is_Some (au_peers s !! p);
  wf_histories : Forall (fun h => zlen h ≤ kGenerationHistoryCapacity)
    [au_policy_history s; au_topology_history s; au_capacity_history s;
     au_congestion_history s];
}.

(** One call on the authority within a boot. *)
Inductive live_step : AuthorityState → AuthorityState → Prop :=
  | step_policy s p : live_step s (install_policy s p).1
  | step_topology s t : live_step s (install_topology s t).1
  | step_capacity s c : live_step s (install_capacity s c).1
  | step_congestion s c : live_step s (install_congestion s c).1
  | step_invalidate s : live_step s (invalidate_dynamic_evidence s)
  | step_publish s l : live_step s (publish_liveness s l).1
  | step_heartbeat s p i now ttl : live_step s (heartbeat s p i now ttl).1
  | step_expire_session s session now : live_step s (expire_session s session now).1
  | step_expire_due s now : live_step s (expire_due s now).1
  | step_freshness s f : live_step s (set_freshness_policy s f).

(** Any call, boots and restores included. *)
Inductive authority_step : AuthorityState → AuthorityState → Prop :=
  | step_live s s' : live_step s s' → authority_step s s'
  | step_boot s entropy counter last s' counter' :
      begin_boot s entropy counter last = Some (s', counter') → authority_step s s'
  | step_restore s durable now : authority_step s (restore_durable s durable now).1.

Lemma gh_remember_bound h g :
  zlen h ≤ kGenerationHistoryCapacity → zlen (gh_remember h g) ≤ kGenerationHistoryCapacity.
Proof.
  intros Hh. unfold gh_remember. destruct (is_none g); [done|].
  destruct (kGenerationHistoryCapacity <? _) eqn:E; bool_prop; [|done].
  unfold zlen, kGenerationHistoryCapacity in *. rewrite length_drop.
  rewrite length_app in *. simpl in *. lia.
Qed.

Lemma authority_new_wf : authority_wf authority_new.
Proof.
  split; try done; [by intros p [? ?] | by repeat constructor].
Qed.

Lemma clear_evidence_wf s : authority_wf s → authority_wf (clear_evidence s).
Proof. intros []. by split. Qed.

(** Installing a policy or evidence keeps everything about participants. *)
Lemma install_policy_wf s p : authority_wf s → authority_wf (install_policy s p).1.
Proof.
  intros Hwf. unfold install_policy.
  destruct (is_ok (policy_validate p)) eqn:E1; [|done]. cbn [negb].
  destruct (is_none (tp_generation p)) eqn:E2; [done|].
  destruct (present _ && _); [done|]. destruct (gh_contains _ _); [done|].
  destruct Hwf as [????? ? Hh]. split; try done.
  - simpl. split_and!; [done | by apply is_none_neq | done].
  - inversion Hh; subst. constructor; [by apply gh_remember_bound | done].
Qed.

Lemma install_topology_wf s t : authority_wf s → authority_wf (install_topology s t).1.
Proof.
  intros Hwf. unfold install_topology. generalize (topology_canonicalize t). clear t. intros t.
  destruct (is_ok (topology_validate t)) eqn:E1; [|done]. cbn [negb].
  destruct (present _ && _); [done|]. destruct (gh_contains _ _); [done|].
  destruct Hwf as [????? ? Hh]. split; try done.
  - simpl. apply topology_validate_ok in E1 as H. split_and!; [done | apply H | done].
  - inversion Hh as [|?? ? Hh1]; inversion Hh1 as [|?? ? Hh2]; subst.
    constructor; [done|]. constructor; [by apply gh_remember_bound | done].
Qed.

Lemma install_capacity_wf s c : authority_wf s → authority_wf (install_capacity s c).1.
Proof.
  intros Hwf. unfold install_capacity. generalize (capacity_canonicalize c). clear c. intros c.
  destruct (is_ok (capacity_validate c)) eqn:E1; [|done]. cbn [negb].
  destruct (ce_topology_generation c =i au_topology_generation s) eqn:E2;
    [|by rewrite orb_true_r].
  rewrite orb_false_r. destruct (negb _); [done|].
  destruct (present _ && _); [done|]. destruct (gh_contains _ _); [done|].
  destruct Hwf as [????? ? Hh]. split; try done.
  - simpl. apply capacity_validate_ok in E1 as H. apply id_eqb_eq in E2.
    split_and!; [done | apply H | done | done].
  - do 2 (inversion Hh as [|?? ? Hh1]; clear Hh; rename Hh1 into Hh; subst).
    inversion Hh; subst. do 2 (constructor; [done|]).
    constructor; [by apply gh_remember_bound | done].
Qed.

Lemma install_congestion_wf s c : authority_wf s → authority_wf (install_congestion s c).1.
Proof.
  intros Hwf. unfold install_congestion. generalize (congestion_canonicalize c). clear c.
  intros c. destruct (is_ok (congestion_validate c)) eqn:E1; [|done]. cbn [negb].
  destruct (ge_topology_generation c =i au_topology_generation s) eqn:E2;
    [|by rewrite orb_true_r].
  rewrite orb_false_r. destruct (negb _); [done|].
  destruct (present _ && _); [done|]. destruct (gh_contains _ _); [done|].
  destruct Hwf as [????? ? Hh]. split; try done.
  - simpl. apply congestion_validate_ok in E1 as H. apply id_eqb_eq in E2.
    split_and!; [done | apply H | done | done].
  - do 3 (inversion Hh as [|?? ? Hh1]; clear Hh; rename Hh1 into Hh; subst).
    inversion Hh; subst. do 3 (constructor; [done|]).
    constructor; [by apply gh_remember_bound | done].
Qed.

(** Recording a participant under its incarnation. *)
Lemma insert_peer_wf s p l :
  authority_wf s → pr_participant l = p → p ≠ id_none → pr_incarnation l ≠ id_none →
  pr_state l ≠ ParticipantState.kUnspecified →
  authority_wf (s <| au_highest_incarnation ::= <[p := pr_incarnation l]> |>
                  <| au_peers ::= <[p := l]> |>).
Proof.
  intros [???? Hp Hh ?] Hpl Hne Hi Hs. split; try done.
  - intros q k. simpl. rewrite lookup_insert. case_decide as E; [subst q|].
    + intros [= <-]. unfold peer_wf. simpl. by rewrite lookup_insert_eq.
    + intros Hk. destruct (Hp q k Hk) as (?&?&?&?&?). unfold peer_wf. simpl.
      by rewrite lookup_insert_ne.
  - intros q. simpl. rewrite !lookup_insert. case_decide; [by eexists | apply Hh].
Qed.

Lemma publish_liveness_wf s l : authority_wf s → authority_wf (publish_liveness s l).1.
Proof.
  intros Hwf. unfold publish_liveness.
  destruct (is_none _ || _) eqn:E1; [done|]. bool_prop.
  apply is_none_neq in H, H0. case_bool_decide; [done|].
  destruct (au_highest_incarnation s !! pr_participant l) as [h|] eqn:Eh.
  - destruct (_ <i h); [done|]. destruct (_ =i h) eqn:Eq.
    + destruct (match _ with None => _ | Some _ => _ end); [|done]. apply id_eqb_eq in Eq.
      replace (s <| au_peers ::= <[pr_participant l:=l]> |>) with
        (s <| au_highest_incarnation ::= <[pr_participant l := pr_incarnation l]> |>
           <| au_peers ::= <[pr_participant l := l]> |>); [by apply insert_peer_wf|].
      destruct s; unfold set_field; simpl in *. f_equal. rewrite insert_id; congruence.
    + destruct (_ && _); [done|]. by apply insert_peer_wf.
  - destruct (_ && _); [done|]. by apply insert_peer_wf.
Qed.

Lemma heartbeat_wf s p i now ttl : authority_wf s → authority_wf (heartbeat s p i now ttl).1.
Proof.
  intros Hwf. unfold heartbeat. destruct (is_none p || is_none i) eqn:E1; [done|]. bool_prop.
  apply is_none_neq in H, H0. destruct (match _ with None => _ | Some _ => _ end); [done|].
  cbn [fst]. set (l := if negb _ then _ else _).
  replace i with (pr_incarnation l) at 1 by (subst l; by case_match).
  apply insert_peer_wf; try done; subst l; by case_match.
Qed.

(** Fencing some participants changes neither their keys nor their incarnations. *)
Lemma fence_some_wf s (sel : PeerLiveness → bool) now :
  authority_wf s →
  authority_wf (s <| au_peers ::= fmap (fun l => if sel l then fence now l else l) |>).
Proof.
  intros [???? Hp Hh ?]. split; try done.
  - intros q k. simpl. rewrite lookup_fmap_Some. intros (l & <- & Hl).
    destruct (Hp q l Hl) as (?&?&?&?&?). by destruct (sel l).
  - intros q. simpl. rewrite lookup_fmap, fmap_is_Some. apply Hh.
Qed.

Lemma live_step_wf s s' : live_step s s' → authority_wf s → authority_wf s'.
Proof.
  intros [] Hwf; eauto using install_policy_wf, install_topology_wf, install_capacity_wf,
    install_congestion_wf, publish_liveness_wf, heartbeat_wf, clear_evidence_wf.
  - by apply fence_some_wf.
  - by apply fence_some_wf.
  - destruct Hwf. by split.
Qed.

Lemma drop_peers_wf s now :
  authority_wf s →
  authority_wf (s <| au_peers := ∅ |> <| au_highest_incarnation := ∅ |>
                  <| au_boot_monotonic_ms := now |>).
Proof. intros []. split; try done; by intros p [? ?]. Qed.

Lemma begin_boot_wf s entropy counter last s' counter' :
  begin_boot s entropy counter last = Some (s', counter') → authority_wf s → authority_wf s'.
Proof.
  unfold begin_boot. destruct (mint_epoch _ _ _ _ _) as [[e c]|]; [|done].
  intros [= <- <-] Hwf. apply clear_evidence_wf. destruct Hwf.
  split; try done; by intros p [? ?].
Qed.

Lemma restore_durable_wf s durable now :
  authority_wf s → authority_wf (restore_durable s durable now).1.
Proof.
  intros Hwf. unfold restore_durable. destruct (durable_check durable) eqn:Ec; [done|].
  cbn [fst]. apply drop_peers_wf. unfold durable_check in Ec.
  destruct (is_some (da_topology_generation durable)) eqn:Et,
    (is_some (da_policy_generation durable)) eqn:Ep.
  all: repeat match type of Ec with context [negb ?b] => destruct b eqn:?; simpl in Ec; [|done] end.
  all: rewrite ?is_some_neq in *; rewrite ?id_eqb_eq in *; destruct Hwf; split; done.
Qed.

(** ** Fencing *)
Definition is_spent_state (st : ParticipantState) : bool :=
  bool_decide (st = ParticipantState.kFenced) || bool_decide (st = ParticipantState.kExpired) ||
  bool_decide (st = ParticipantState.kRetired).

(** An incarnation that can hold no authority any more: an older one than the highest seen,
    or the highest one once it was fenced, expired or retired. *)
Definition spent (s : AuthorityState) (p incarnation : Identity) : Prop :=
  ∃ h, au_highest_incarnation s !! p = Some h ∧
    ((incarnation <i h) = true ∨
     incarnation = h ∧ ∃ l, au_peers s !! p = Some l ∧ is_spent_state (pr_state l) = true).

Lemma spent_insert s p i l :
  spent s p i → (i <i pr_incarnation l) = true →
  spent (s <| au_highest_incarnation ::= <[p := pr_incarnation l]> |>
           <| au_peers ::= <[p := l]> |>) p i.
Proof.
  intros _ Hlt. exists (pr_incarnation l). simpl. rewrite lookup_insert_eq. auto.
Qed.

Lemma spent_insert_other s p q i l :
  p ≠ q → spent s p i →
  spent (s <| au_highest_incarnation ::= <[q := pr_incarnation l]> |>
           <| au_peers ::= <[q := l]> |>) p i.
Proof.
  intros Hne (h & Hh & Hc). exists h. simpl. by rewrite !lookup_insert_ne.
Qed.

(** A newer incarnation than the highest supersedes everything spent before. *)
Lemma spent_newer s p i h inc :
  spent s p i → au_highest_incarnation s !! p = Some h →
  (inc <i h) = false → (inc =i h) = false → (i <i inc) = true.
Proof.
  intros (h' & Hh' & Hc) Hh Hlt Heq. assert (h' = h) as -> by congruence.
  apply id_eqb_neq in Heq. assert ((h <i inc) = true) as Hhi.
  { destruct (h <i inc) eqn:E; [done|]. destruct Heq. by apply st_total. }
  destruct Hc as [Hi|[-> _]]; [by eapply st_trans | done].
Qed.

Lemma spent_not_restorable st :
  is_spent_state st = true →
  bool_decide (st = ParticipantState.kLive) || bool_decide (st = ParticipantState.kSuspect) ||
    bool_decide (st = ParticipantState.kAdvertised) = false.
Proof. by destruct st. Qed.

(** Publication and heartbeat refuse a spent incarnation. *)
Lemma publish_spent s l :
  spent s (pr_participant l) (pr_incarnation l) → pr_participant l ≠ id_none →
  pr_incarnation l ≠ id_none → pr_state l ≠ ParticipantState.kUnspecified →
  publish_liveness s l = (s, PublishResult.kFencedStaleIncarnation).
Proof.
  intros (h & Hh & Hc) Hp%is_none_neq Hi%is_none_neq Hs. unfold publish_liveness.
  rewrite Hp, Hi. cbn [orb]. rewrite bool_decide_eq_false_2 by done. rewrite Hh.
  destruct Hc as [->|[-> (k & Hk & Hsp)]]; [done|].
  rewrite st_irrefl, id_eqb_refl, Hk. by rewrite spent_not_restorable.
Qed.

Lemma heartbeat_spent s p i now ttl : spent s p i → heartbeat s p i now ttl = (s, false).
Proof.
  intros (h & Hh & Hc). unfold heartbeat. destruct (_ || _); [done|]. rewrite Hh.
  destruct Hc as [->|[-> (k & Hk & Hsp)]]; [done|].
  rewrite st_irrefl, id_eqb_refl, Hk. cbn [orb andb]. unfold is_spent_state in Hsp.
  by rewrite Hsp.
Qed.

Lemma publish_keeps_spent s l p i :
  spent s p i → spent (publish_liveness s l).1 p i.
Proof.
  intros Hsp. destruct (decide (p = pr_participant l)) as [->|Hne].
  - unfold publish_liveness. destruct (_ || _); [done|]. case_bool_decide; [done|].
    pose proof Hsp as (h & Hh & Hc). rewrite Hh.
    destruct (pr_incarnation l <i h) eqn:E1; [done|].
    destruct (pr_incarnation l =i h) eqn:E2.
    + destruct (au_peers s !! pr_participant l) as [k|] eqn:Ek.
      * destruct (_ || _) eqn:E3; [|done]. exists h. simpl. split; [done|].
        destruct Hc as [?|[-> (k' & Hk' & Hs')]]; [by left|]. exfalso. simplify_eq.
        by rewrite (spent_not_restorable _ Hs') in E3.
      * exists h. simpl. split; [done|]. destruct Hc as [?|[_ (k & ? & _)]]; [by left|done].
    + destruct (_ && _); [done|]. apply spent_insert; [done|].
      by eapply spent_newer.
  - unfold publish_liveness. destruct (_ || _); [done|]. case_bool_decide; [done|].
    assert (spent (s <| au_peers ::= <[pr_participant l:=l]> |>) p i) as Hs2.
    { destruct Hsp as (h & Hh & Hc). exists h. simpl. by rewrite lookup_insert_ne. }
    destruct (au_highest_incarnation s !! pr_participant l) as [h|];
      repeat case_match; try done; by apply spent_insert_other.
Qed.

Lemma heartbeat_keeps_spent s q inc now ttl p i :
  spent s p i → spent (heartbeat s q inc now ttl).1 p i.
Proof.
  intros Hsp. unfold heartbeat. destruct (_ || _); [done|].
  destruct (match au_highest_incarnation s !! q with None => _ | Some _ => _ end) eqn:Er; [done|].
  cbn [fst]. set (l := if negb _ then _ else _).
  assert (pr_incarnation l = inc) as Hl by (clear Er; subst l; by case_match).
  clearbody l. rewrite <- Hl. destruct (decide (p = q)) as [->|Hne];
    [|by apply spent_insert_other]. apply spent_insert; [done|].
  pose proof Hsp as (h & Hh & Hc). rewrite Hh in Er. apply orb_false_iff in Er as [E1 E2].
  rewrite Hl. destruct (inc =i h) eqn:E3; [|by eapply spent_newer].
  apply id_eqb_eq in E3 as ->. destruct Hc as [?|[-> (k & Hk & Hs)]]; [done|].
  rewrite Hk in E2. unfold is_spent_state in Hs. simpl in E2. congruence.
Qed.

Lemma fence_some_keeps_spent s (sel : PeerLiveness → bool) now p i :
  spent s p i →
  spent (s <| au_peers ::= fmap (fun l => if sel l then fence now l else l) |>) p i.
Proof.
  intros (h & Hh & Hc). exists h. split; [done|].
  destruct Hc as [?|[-> (k & Hk & Hs)]]; [by left|]. right. split; [done|].
  exists (if sel k then fence now k else k). simpl. rewrite lookup_fmap, Hk.
  split; [done|]. by destruct (sel k).
Qed.

Lemma live_step_keeps_spent s s' p i : live_step s s' → spent s p i → spent s' p i.
Proof.
  intros [] Hsp; try done; auto using publish_keeps_spent, heartbeat_keeps_spent.
  - unfold install_policy. by repeat case_match.
  - unfold install_topology. generalize (topology_canonicalize t). intros t'.
    by repeat case_match.
  - unfold install_capacity. generalize (capacity_canonicalize c). intros c'.
    by repeat case_match.
  - unfold install_congestion. generalize (congestion_canonicalize c). intros c'.
    by repeat case_match.
  - by apply fence_some_keeps_spent.
  - by apply fence_some_keeps_spent.
Qed.

Lemma spent_not_current s p i l now :
  authority_wf s → spent s p i → au_peers s !! p = Some l → pr_incarnation l = i →
  pr_is_current l now = false.
Proof.
  intros Hwf (h & Hh & Hc) Hl <-. destruct (wf_peers s Hwf p l Hl) as (_ & _ & _ & _ & Hi).
  assert (h = pr_incarnation l) as -> by congruence.
  destruct Hc as [Hc|[_ (k & Hk & Hs)]]; [by rewrite st_irrefl in Hc|]. simplify_eq.
  unfold pr_is_current. destruct (pr_state k) eqn:E; try done.
  all: rewrite ?bool_decide_eq_false_2 by done; simpl; by rewrite ?andb_false_r, ?andb_false_l.
Qed.

(** ** The snapshot *)
Lemma find_peer_lookup s now p :
  authority_wf s → find_peer (authority_snapshot s now) p = au_peers s !! p.
Proof.
  intros Hwf. apply option_eq. intros l. unfold find_peer, authority_snapshot. cbn [es_peers].
  rewrite binary_find_Some.
  - rewrite (std_sort_perm id_ltb pr_participant), list_elem_of_fmap. split.
    + intros [([q k] & -> & Hk%elem_of_map_to_list) <-]. simpl in *.
      destruct (wf_peers s Hwf q k Hk) as (-> & _). done.
    + intros Hl. split; [|apply (wf_peers s Hwf p l Hl)]. exists (p, l).
      split; [done | by apply elem_of_map_to_list].
  - apply (kle_sorted_nodup_klt id_ltb pr_participant);
      [apply (std_sort_sorted id_ltb pr_participant)|].
    rewrite (std_sort_perm id_ltb pr_participant), <- list_fmap_compose.
    replace ((pr_participant ∘ snd) <$> map_to_list (au_peers s)) with
      (fst <$> map_to_list (au_peers s)); [apply NoDup_fst_map_to_list|].
    apply list_fmap_ext. intros _ [q k] Hk%list_elem_of_lookup_2%elem_of_map_to_list.
    simpl. by destruct (wf_peers s Hwf q k Hk) as (-> & _).
Qed.

Lemma authority_step_reach s : rtc authority_step authority_new s → authority_wf s.
Proof.
  assert (∀ a b, authority_step a b → authority_wf a → authority_wf b) as Hstep.
  { intros a b [] Hwf; eauto using live_step_wf, begin_boot_wf, restore_durable_wf. }
  intros Hr. assert (authority_wf authority_new) as Hw by apply authority_new_wf.
  revert Hw. induction Hr; eauto.
Qed.

(** ** Boot *)
Lemma w64_succ c k : w64 (w64 (c + 1) + k) = w64 (c + (k + 1)).
Proof. unfold w64. rewrite Zplus_mod_idemp_l. f_equal. lia. Qed.

Lemma mint_epoch_spec fuel entropy counter last current :
  is_u64 counter →
  match mint_epoch fuel entropy counter last current with
  | Some (e, counter') =>
      (∃ c, e = mint_identity entropy c) ∧ e ≠ last ∧ e ≠ current ∧ is_u64 counter'
  | None => ∀ k, 0 ≤ k < Z.of_nat fuel →
      let e := mint_identity entropy (w64 (counter + k)) in e = last ∨ e = current
  end.
Proof.
  revert counter. induction fuel as [|fuel IH]; intros counter Hc; [simpl; lia|].
  cbn [mint_epoch]. specialize (IH (w64 (counter + 1)) (w64_range _)).
  destruct ((mint_identity entropy counter =i last) || _) eqn:E.
  - destruct (mint_epoch fuel _ _ _ _) as [[e c']|]; [done|]. intros k Hk. cbv zeta.
    destruct (decide (k = 0)) as [->|Hne].
    + rewrite Z.add_0_r, w64_small by done. apply orb_true_iff in E as [E|E];
        apply id_eqb_eq in E; auto.
    + specialize (IH (k - 1) ltac:(lia)). cbv zeta in IH. rewrite w64_succ in IH.
      by replace (k - 1 + 1) with k in IH by lia.
  - apply orb_false_iff in E as [E1 E2]. rewrite id_eqb_neq in E1, E2.
    split_and!; [by eexists | done | done | apply w64_range].
Qed.

(** Four consecutive mints have four distinct low words, and a rejected one has the low word of
    one of the two refused epochs, or zero. *)
Lemma mint_epoch_total entropy counter last current :
  is_u64 counter → mint_epoch boot_fuel entropy counter last current ≠ None.
Proof.
  intros Hc Hn. pose proof (mint_epoch_spec boot_fuel entropy counter last current Hc) as Hs.
  rewrite Hn in Hs.
  assert (∀ k, 0 ≤ k < 4 → mint_low entropy (w64 (counter + k)) = id_low last ∨
    mint_low entropy (w64 (counter + k)) = id_low current ∨
    mint_low entropy (w64 (counter + k)) = 0) as Hl.
  { intros k Hk. destruct (mint_identity_low entropy (w64 (counter + k))) as [<-|[_ ?]];
      [|auto]. destruct (Hs k Hk) as [-> | ->]; auto. }
  assert (∀ j k, 0 ≤ j < 4 → 0 ≤ k < 4 → j ≠ k →
    mint_low entropy (w64 (counter + j)) ≠ mint_low entropy (w64 (counter + k))) as Hd.
  { intros j k Hj Hk Hne E. apply mint_low_inj in E; [|apply w64_range..].
    rewrite (Z.add_comm counter j), (Z.add_comm counter k) in E.
    apply add_const_inj in E; unfold is_u64; lia. }
  pose proof (Hl 0 ltac:(lia)). pose proof (Hl 1 ltac:(lia)). pose proof (Hl 2 ltac:(lia)).
  pose proof (Hl 3 ltac:(lia)).
  pose proof (Hd 0 1). pose proof (Hd 0 2). pose proof (Hd 0 3). pose proof (Hd 1 2).
  pose proof (Hd 1 3). pose proof (Hd 2 3). lia.
Qed.

(** ** The replay window *)
Definition window (l : list Identity) : list Identity := drop (length l - 64) l.

Lemma gh_remember_window l g : g ≠ id_none → gh_remember (window l) g = window (l ++ [g]).
Proof.
  intros Hg%is_none_neq. unfold gh_remember, window, zlen, kGenerationHistoryCapacity.
  rewrite Hg, !length_app, length_drop. simpl.
  destruct (decide (length l < 64)%nat).
  - replace (length l - 64)%nat with 0%nat by lia.
    replace (length l + 1 - 64)%nat with 0%nat by lia.
    rewrite (proj2 (Z.ltb_ge _ _)) by lia. by rewrite !drop_0.
  - rewrite (proj2 (Z.ltb_lt _ _)) by lia.
    rewrite <- drop_app_le by lia. rewrite drop_drop. f_equal. lia.
Qed.

Lemma gh_contains_elem l g : gh_contains l g = true ↔ g ∈ l.
Proof.
  unfold gh_contains. destruct (find_first _ l) as [x|] eqn:E.
  - apply find_first_Some in E as [Hx E]. apply id_eqb_eq in E as ->. done.
  - apply find_first_None in E. split; [done|]. intros Hg. rewrite Forall_forall in E.
    specialize (E g Hg). simpl in E. by rewrite id_eqb_refl in E.
Qed.

(** The installations of a list of policies, all of which succeed. *)
Fixpoint install_policies (s : AuthorityState) (ps : list TrafficPolicy)
    : option AuthorityState :=
  match ps with
  | [] => Some s
  | p :: ps' =>
      match install_policy s p with
      | (s', InstallResult.kInstalled) => install_policies s' ps'
      | _ => None
      end
  end.

Lemma install_policy_installed s p :
  (install_policy s p).2 = InstallResult.kInstalled →
  is_ok (policy_validate p) = true ∧ tp_generation p ≠ id_none ∧
  tp_generation p ∉ au_policy_history s ∧
  (install_policy s p).1 =
    s <| au_policy_history ::= fun h => gh_remember h (tp_generation p) |>
      <| au_policy_generation := tp_generation p |> <| au_policy := Some p |>.
Proof.
  unfold install_policy. destruct (is_ok (policy_validate p)); [|done]. cbn [negb].
  destruct (is_none (tp_generation p)) eqn:E1; [done|].
  destruct (present _ && _); [done|].
  destruct (gh_contains _ _) eqn:E2; [done|]. intros _. split_and!; [done| |..|done].
  - by apply is_none_neq.
  - rewrite <- gh_contains_elem. congruence.
Qed.

Lemma install_policies_history s ps s' l :
  install_policies s ps = Some s' → au_policy_history s = window l →
  au_policy_history s' = window (l ++ (tp_generation <$> ps)) ∧
  (ps ≠ [] → au_policy_generation s' ∈ tp_generation <$> ps).
Proof.
  revert s l. induction ps as [|p ps IH]; intros s l H Hh.
  { simpl in *. simplify_eq. by rewrite app_nil_r. }
  cbn [install_policies] in H. pose proof (install_policy_installed s p) as Hp.
  destruct (install_policy s p) as [s1 r]. destruct r; try done.
  destruct Hp as (_ & Hne & _ & Es); [done|]. cbn [fst] in Es.
  destruct (IH s1 (l ++ [tp_generation p]) H) as [H1 H2].
  { rewrite Es. simpl. by rewrite Hh, gh_remember_window. }
  rewrite <- app_assoc in H1. split; [done|]. intros _. rewrite fmap_cons, elem_of_cons.
  destruct ps as [|p' ps]; [left|right; by apply H2]. simpl in H. simplify_eq. done.
Qed.

Lemma window_elem (l1 l2 : list Identity) g :
  g ∉ l1 → g ∉ l2 → (length l1 ≤ 64)%nat →
  g ∈ window (l1 ++ g :: l2) ↔ (length l2 < 64)%nat.
Proof.
  intros H1 H2 Hlen. unfold window. rewrite length_app. simpl. split.
  - intros Hg. destruct (decide (length l2 < 64)%nat); [done|]. exfalso. apply H2.
    rewrite drop_app_ge in Hg by lia.
    destruct (length l1 + S (length l2) - 64 - length l1)%nat as [|k] eqn:E; [lia|].
    simpl in Hg. apply list_elem_of_lookup in Hg as [i Hi]. rewrite lookup_drop in Hi.
    by eapply list_elem_of_lookup_2.
  - intros Hl. rewrite drop_app_le by lia. set_solver.
Qed.

(** ** Properties *)

(** The authority keeps its invariant under every call, boots and restores included: what
    is installed passed validation and carries exactly the generation in force, capacity and
    congestion describe the current topology, every participant is stored under its own
    identity with the highest incarnation seen, and the replay histories stay bounded. *)
Theorem authority_invariant (s : AuthorityState) :
  rtc authority_step authority_new s → authority_wf s.
Proof.
  apply authority_step_reach.
Qed.

Definition demo_liveness (p inc : Identity) (st : ParticipantState) (expires : Z)
    : PeerLiveness :=
  mkPeerLiveness p inc st 0 expires id_none (mkIdentity 9 9).

Definition demo_live : PeerLiveness :=
  demo_liveness (mkIdentity 3 1) (mkIdentity 4 1) ParticipantState.kLive 1000.

Lemma authority_invariant_witness :
  authority_wf (install_capacity
    (publish_liveness (install_topology authority_new demo_topology).1 demo_live).1
    demo_capacity).1.
Proof.
  apply authority_invariant.
  eapply rtc_l; [apply step_live, (step_topology _ demo_topology)|].
  eapply rtc_l; [apply step_live, (step_publish _ demo_live)|].
  apply rtc_once, step_live, step_capacity.
Defined.

(** C7: fencing is permanent within a boot: once an incarnation is older than the highest one
    seen, or was fenced, expired or retired, no sequence of calls other than a boot or a
    restore makes it hold authority again; the snapshot never shows it current, and every
    publication or heartbeat of it is refused without effect. *)
Theorem fenced_incarnation_never_returns (s s' : AuthorityState) (p incarnation : Identity) :
  authority_wf s → spent s p incarnation → rtc live_step s s' →
  (∀ now l, find_peer (authority_snapshot s' now) p = Some l →
     pr_incarnation l = incarnation → pr_is_current l now = false) ∧
  (∀ l, pr_participant l = p → pr_incarnation l = incarnation → p ≠ id_none →
     incarnation ≠ id_none → pr_state l ≠ ParticipantState.kUnspecified →
     publish_liveness s' l = (s', PublishResult.kFencedStaleIncarnation)) ∧
  (∀ now ttl, heartbeat s' p incarnation now ttl = (s', false)).
Proof.
  intros Hwf Hsp Hr. assert (authority_wf s' ∧ spent s' p incarnation) as [Hwf' Hsp'].
  { clear -Hwf Hsp Hr. induction Hr; eauto using live_step_wf, live_step_keeps_spent. }
  split_and!.
  - intros now l Hl Hi. rewrite find_peer_lookup in Hl by done. by eapply spent_not_current.
  - intros l <- <- ???. by apply publish_spent.
  - intros now ttl. by apply heartbeat_spent.
Qed.

(** The session of a live participant is torn down, then its old boot keeps beating. *)
Lemma fenced_incarnation_never_returns_witness :
  let s0 := (publish_liveness authority_new demo_live).1 in
  let s1 := (expire_session s0 (mkIdentity 9 9) 50).1 in
  pr_is_current (peer_snapshot s0 (mkIdentity 3 1)) 60 = true ∧
  heartbeat s1 (mkIdentity 3 1) (mkIdentity 4 1) 60 1000 = (s1, false).
Proof.
  cbv zeta. split; [vm_compute; reflexivity|].
  eapply (fenced_incarnation_never_returns _ _ (mkIdentity 3 1) (mkIdentity 4 1));
    [| |apply rtc_refl].
  - apply fence_some_wf, publish_liveness_wf, authority_new_wf.
  - exists (mkIdentity 4 1). split; [reflexivity|]. right. split; [reflexivity|].
    exists (fence 50 demo_live). split; reflexivity.
Defined.

(** The frozen snapshot shows exactly the stored liveness: the binary search over its
    sorted peer list answers every participant the way the map does, and a participant is
    counted live iff the snapshot shows it current. *)
Theorem snapshot_peers_correct (s : AuthorityState) (now : Z) (p : Identity) :
  rtc authority_step authority_new s →
  find_peer (authority_snapshot s now) p = au_peers s !! p ∧
  live_peer_count s now =
    zlen (filter (fun l => pr_is_current l now = true) (es_peers (authority_snapshot s now))).
Proof.
  intros Hr. apply authority_step_reach in Hr as Hwf.
  split; [by apply find_peer_lookup|]. unfold live_peer_count, authority_snapshot.
  cbn [es_peers]. rewrite (std_sort_perm id_ltb pr_participant). unfold zlen. f_equal.
  induction (map_to_list (au_peers s)) as [|[q k] l IH]; [done|]. rewrite fmap_cons.
  rewrite !filter_cons. simpl. case_decide; simpl; congruence.
Qed.

Lemma snapshot_peers_correct_witness :
  find_peer (authority_snapshot (publish_liveness authority_new demo_live).1 10)
    (mkIdentity 3 1) = Some demo_live.
Proof.
  destruct (snapshot_peers_correct (publish_liveness authority_new demo_live).1 10
    (mkIdentity 3 1)) as [E _]; [apply rtc_once, step_live, step_publish|].
  rewrite E. reflexivity.
Defined.

(** C36: a boot always completes, with an epoch that is neither the last durable one nor the
    one in force before, and it leaves no participant and no dynamic evidence behind: no
    participant is current in any snapshot of the new boot, while the installed policy and
    topology survive. *)
Theorem boot_fresh (s : AuthorityState) (entropy counter : Z) (last : Identity) :
  is_u64 counter →
  ∃ s' counter', begin_boot s entropy counter last = Some (s', counter') ∧
    is_u64 counter' ∧ au_epoch s' ≠ id_none ∧ au_epoch s' ≠ last ∧ au_epoch s' ≠ au_epoch s ∧
    epoch_is_current s' (au_epoch s) = false ∧
    (∀ now p, find_peer (authority_snapshot s' now) p = None) ∧
    capacity_available s' = false ∧ congestion_available s' = false ∧
    au_policy s' = au_policy s ∧ au_topology s' = au_topology s.
Proof.
  intros Hc. pose proof (mint_epoch_total entropy counter last (au_epoch s) Hc) as Ht.
  pose proof (mint_epoch_spec boot_fuel entropy counter last (au_epoch s) Hc) as Hs.
  unfold begin_boot. destruct (mint_epoch _ _ _ _ _) as [[e c']|]; [|done].
  destruct Hs as ((c & ->) & Hl & He & Hc'). eexists _, c'. split; [reflexivity|].
  pose proof (mint_identity_some entropy c) as Hm. revert Hl He Hm.
  generalize (mint_identity entropy c). intros e Hl He Hm.
  split_and!; try done. unfold epoch_is_current. simpl.
  replace (au_epoch s =i e) with false; [apply andb_false_r|].
  symmetry. apply id_eqb_neq. congruence.
Qed.

Lemma boot_fresh_witness :
  ∃ s' counter', begin_boot authority_new 7 1 (mkIdentity 1 1) = Some (s', counter') ∧
    au_epoch s' ≠ mkIdentity 1 1.
Proof.
  destruct (boot_fresh authority_new 7 1 (mkIdentity 1 1)) as (s' & c' & E & _ & _ & H & _);
    [unfold is_u64; lia|]. exists s', c'. split; [exact E | exact H].
Defined.

(** The exact replay window of policy generations: after a policy was installed and
    [length ps] later ones replaced it, installing its generation again is refused iff fewer
    than 64 installations followed; from the 64th on, the superseded generation is accepted
    again. *)
Theorem policy_replay_window (s s1 s2 : AuthorityState) (p : TrafficPolicy)
    (ps : list TrafficPolicy) :
  rtc authority_step authority_new s →
  install_policies s [p] = Some s1 → install_policies s1 ps = Some s2 →
  tp_generation p ∉ tp_generation <$> ps →
  (install_policy s2 p).2 = InstallResult.kInstalled ↔ (64 ≤ length ps)%nat.
Proof.
  intros Hr H1 H2 Hg. apply authority_step_reach, wf_histories in Hr as Hh.
  apply Forall_inv in Hh. unfold zlen, kGenerationHistoryCapacity in Hh.
  destruct (install_policies_history s [p] s1 (au_policy_history s) H1) as [Eh1 _].
  { unfold window. by replace (_ - 64)%nat with 0%nat by lia. }
  destruct (install_policies_history s1 ps s2 _ H2 Eh1) as [Eh2 Eg2].
  cbn [install_policies] in H1. pose proof (install_policy_installed s p) as Hp.
  destruct (install_policy s p) as [s1' r]. destruct r; try done.
  destruct Hp as (Hok & Hne%is_none_neq & Hni & _); [done|].
  unfold install_policy. rewrite Hok, Hne. cbn [negb].
  pose proof (window_elem _ (tp_generation <$> ps) (tp_generation p) Hni Hg ltac:(lia)) as Hw.
  rewrite length_fmap in Hw. rewrite <- app_assoc in Eh2. cbn [fmap list_fmap app] in Eh2.
  rewrite <- Eh2, <- gh_contains_elem in Hw.
  destruct (present (au_policy s2) && _) eqn:Eb.
  - split; [done|]. intros Hl. exfalso. apply andb_true_iff in Eb as [_ Eb].
    apply id_eqb_eq in Eb. apply Hg. rewrite <- Eb. apply Eg2. intros ->. simpl in Hl. lia.
  - destruct (gh_contains _ _); cbn [snd].
    + split; [done|]. pose proof (proj1 Hw eq_refl). lia.
    + split; [intros _|done]. destruct (decide (length ps < 64)%nat) as [Hl|]; [|lia].
      by apply Hw in Hl.
Qed.

Definition replay_policies : list TrafficPolicy :=
  (fun n => standard_policy (mkIdentity 2 (Z.of_nat n))) <$> seq 0 64.

Lemma policy_replay_window_witness :
  ∃ s1 s2, install_policies authority_new [standard_policy (mkIdentity 1 1)] = Some s1 ∧
    install_policies s1 replay_policies = Some s2 ∧
    (install_policy s2 (standard_policy (mkIdentity 1 1))).2 = InstallResult.kInstalled.
Proof.
  destruct (install_policies authority_new [standard_policy (mkIdentity 1 1)]) as [s1|] eqn:E1;
    [|vm_compute in E1; discriminate].
  destruct (install_policies s1 replay_policies) as [s2|] eqn:E2.
  - exists s1, s2. split; [reflexivity|]. split; [exact E2|].
    apply (policy_replay_window authority_new s1 s2 _ replay_policies);
      [apply rtc_refl | exact E1 | exact E2 | | vm_compute; lia].
    apply (bool_decide_eq_true_1 _). vm_compute. reflexivity.
  - exfalso. vm_compute in E1. injection E1 as <-. vm_compute in E2. discriminate.
Defined.

(** The participant table is bounded against publication but not against heartbeats: in
    any state, publishing never grows it beyond [kPeersMax] participants, while a heartbeat of
    an unknown participant always creates an entry. *)
Theorem peer_table_bound (s : AuthorityState) (l : PeerLiveness) (p i : Identity)
    (now ttl : Z) :
  rtc authority_step authority_new s →
  peer_count (publish_liveness s l).1 ≤ Z.max limits.kPeersMax (peer_count s) ∧
  (p ≠ id_none → i ≠ id_none → au_peers s !! p = None →
   (heartbeat s p i now ttl).2 = true ∧
   peer_count (heartbeat s p i now ttl).1 = peer_count s + 1).
Proof.
  intros Hr. apply authority_step_reach in Hr as Hwf. unfold peer_count. split.
  - unfold publish_liveness. destruct (_ || _); [simpl; lia|]. case_bool_decide; [simpl; lia|].
    assert (∀ s' : AuthorityState,
      (limits.kPeersMax <=? mapsize (au_peers s)) && negb (present (au_peers s !! pr_participant l))
        = false → au_peers s' = <[pr_participant l := l]> (au_peers s) →
      mapsize (au_peers s') ≤ Z.max limits.kPeersMax (mapsize (au_peers s))) as Hi.
    { intros s' Hb ->. destruct (au_peers s !! pr_participant l) eqn:E.
      - rewrite (mapsize_insert_old _ _ _ _ E). lia.
      - rewrite mapsize_insert_new by done. rewrite andb_true_r in Hb. bool_prop. lia. }
    destruct (au_highest_incarnation s !! pr_participant l) as [h|] eqn:Eh.
    + destruct (_ <i h); [simpl; lia|]. destruct (_ =i h).
      * destruct (match _ with None => _ | Some _ => _ end); [|simpl; lia]. simpl.
        destruct (wf_highest s Hwf (pr_participant l)) as [k Hk]; [by eexists|].
        rewrite (mapsize_insert_old _ _ _ _ Hk). lia.
      * destruct (_ && _) eqn:Eb; [simpl; lia|]. by apply Hi.
    + destruct (_ && _) eqn:Eb; [simpl; lia|]. by apply Hi.
  - intros Hp%is_none_neq Hi%is_none_neq Hn. unfold heartbeat. rewrite Hp, Hi. cbn [orb].
    destruct (au_highest_incarnation s !! p) as [h|] eqn:Eh.
    { destruct (wf_highest s Hwf p) as [k Hk]; [by eexists | congruence]. }
    cbn [fst snd]. split; [done|]. simpl. by rewrite mapsize_insert_new.
Qed.

Lemma peer_table_bound_witness :
  peer_count (heartbeat authority_new (mkIdentity 3 1) (mkIdentity 4 1) 0 10).1 = 1.
Proof.
  destruct (peer_table_bound authority_new demo_live (mkIdentity 3 1) (mkIdentity 4 1) 0 10)
    as [_ H]; [apply rtc_refl|]. apply H; [discriminate | discriminate | reflexivity].
Defined.
