(* ===== verification/History.v ===== *)
(** The bounded decision history ([include/ctf/history.hpp], [src/history.cpp]): a ring of the
    newest decisions with stable insertion ordinals, the correlation index and the histogram.

    The abstract specification is the unbounded log of everything recorded since the last
    [clear]; the theorems show that every query answers from that log, restricted to the
    retained window, and that the ring never exceeds its capacity. *)
From S2P Require Import Prelude Identity Errors Collective Decision.

Module HistoryStatus.
Inductive HistoryStatus := kOk | kEvicted | kFuture | kEmpty.
Definition HistoryStatus_raw (v : HistoryStatus) : Z :=
  match v with kOk => 0 | kEvicted => 1 | kFuture => 2 | kEmpty => 3 end.
Definition HistoryStatus_to_string (v : HistoryStatus) : string :=
  match v with kOk => "ok" | kEvicted => "evicted" | kFuture => "future" | kEmpty => "empty" end.
#[global] Instance HistoryStatus_eq_dec : EqDecision HistoryStatus.
Proof. solve_decision. Defined.
#[global, refine] Instance HistoryStatus_enum : WireEnum HistoryStatus :=
  {| enum_raw := HistoryStatus_raw; enum_all := [kOk; kEvicted; kFuture; kEmpty] |}.
Proof. by intros []. Defined.
End HistoryStatus.
Abbreviation HistoryStatus := HistoryStatus.HistoryStatus.

Record DecisionHistory := mkDecisionHistory {
  dh_capacity : Z;
  dh_records : list DecisionRecord;
  dh_correlations : gmap Identity Z;
  dh_first_ordinal : Z;
  dh_next_ordinal : Z;
  dh_evicted : Z;
}.

#[export] Instance DecisionHistory_eta : Eta DecisionHistory :=
  fun r => mkDecisionHistory (dh_capacity r) (dh_records r) (dh_correlations r)
    (dh_first_ordinal r) (dh_next_ordinal r) (dh_evicted r).

(** ** Operations *)

(** [while (records_.size() > capacity_) { pop_front; ++first_ordinal_; ++evicted_; }] *)
Fixpoint evict_loop (capacity : Z) (records : list DecisionRecord) (first evicted : Z)
    : list DecisionRecord * Z * Z :=
  match records with
  | [] => ([], first, evicted)
  | _ :: rest =>
      if capacity <? zlen records
      then evict_loop capacity rest (w64 (first + 1)) (w64 (evicted + 1))
      else (records, first, evicted)
  end.

Definition evict (h : DecisionHistory) : DecisionHistory :=
  let '(records, first, evicted) :=
    evict_loop (dh_capacity h) (dh_records h) (dh_first_ordinal h) (dh_evicted h) in
  h <| dh_records := records |> <| dh_first_ordinal := first |> <| dh_evicted := evicted |>.

Definition clamp_capacity (capacity : Z) : Z :=
  let capacity := if capacity =? 0 then 1 else capacity in
  if limits.kDecisionHistoryCapacityMax <? capacity
  then limits.kDecisionHistoryCapacityMax else capacity.

Definition history_set_capacity (h : DecisionHistory) (capacity : Z) : DecisionHistory :=
  evict (h <| dh_capacity := clamp_capacity capacity |>).

Definition history_new (capacity : Z) : DecisionHistory :=
  history_set_capacity (mkDecisionHistory 0 [] ∅ 1 1 0) capacity.

Definition history_size (h : DecisionHistory) : Z := zlen (dh_records h).

Definition stamp (decision : DecisionRecord) (ordinal : Z) : DecisionRecord :=
  decision <| de_decision_sequence := ordinal |>.

Definition history_record (h : DecisionHistory) (decision : DecisionRecord)
    : DecisionHistory * Z :=
  let ordinal := dh_next_ordinal h in
  let h := h <| dh_next_ordinal := w64 (ordinal + 1) |>
             <| dh_records ::= fun rs => rs ++ [stamp decision ordinal] |> in
  (evict h, ordinal).

Definition history_latest (h : DecisionHistory) (limit : Z) : list DecisionRecord :=
  let size := zlen (dh_records h) in
  let limit := if size <? limit then size else limit in
  omap (fun index => dh_records h !! Z.to_nat (size - 1 - Z.of_nat index))
    (seq 0 (Z.to_nat limit)).

Definition history_page (h : DecisionHistory) (offset_ordinal limit : Z)
    : list DecisionRecord :=
  if (zlen (dh_records h) =? 0) || (dh_next_ordinal h <=? offset_ordinal) then []
  else
    let start :=
      if offset_ordinal <? dh_first_ordinal h then dh_first_ordinal h else offset_ordinal in
    take (Z.to_nat limit) (drop (Z.to_nat (w64 (start - dh_first_ordinal h))) (dh_records h)).

(** A query returns its status and, when it is [kOk], the record it assigned to [out]. *)
Definition retained_at (h : DecisionHistory) (ordinal : Z) : option DecisionRecord :=
  dh_records h !! Z.to_nat (w64 (ordinal - dh_first_ordinal h)).

Definition history_get (h : DecisionHistory) (ordinal : Z)
    : HistoryStatus * option DecisionRecord :=
  if zlen (dh_records h) =? 0 then (HistoryStatus.kEmpty, None)
  else if dh_next_ordinal h <=? ordinal then (HistoryStatus.kFuture, None)
  else if ordinal <? dh_first_ordinal h then (HistoryStatus.kEvicted, None)
  else (HistoryStatus.kOk, retained_at h ordinal).

(** The scan from the newest record back. *)
Definition newest (h : DecisionHistory) (p : DecisionRecord → bool)
    : HistoryStatus * option DecisionRecord :=
  if zlen (dh_records h) =? 0 then (HistoryStatus.kEmpty, None)
  else match find_first p (reverse (dh_records h)) with
  | Some record => (HistoryStatus.kOk, Some record)
  | None => (HistoryStatus.kEvicted, None)
  end.

Definition history_find_instance (h : DecisionHistory) (i : CollectiveInstance) :=
  newest h (fun r => ci_eqb (de_instance r) i).

Definition attempt_matches (id attempt : Identity) (r : DecisionRecord) : bool :=
  (ci_id (de_instance r) =i id) &&
  (if is_none attempt then true else ci_attempt (de_instance r) =i attempt).

Definition history_find_attempt (h : DecisionHistory) (id attempt : Identity) :=
  newest h (attempt_matches id attempt).

Definition history_bind_correlation (h : DecisionHistory) (correlation ordinal : Z)
    : DecisionHistory :=
  if correlation =? 0 then h
  else
    let h := if dh_capacity h <=? mapsize (dh_correlations h)
             then h <| dh_correlations := ∅ |> else h in
    h <| dh_correlations ::= <[mkIdentity correlation 0 := ordinal]> |>.

Definition history_find_correlation (h : DecisionHistory) (correlation : Z)
    : HistoryStatus * option DecisionRecord :=
  match dh_correlations h !! mkIdentity correlation 0 with
  | None => (HistoryStatus.kEvicted, None)
  | Some ordinal =>
      if dh_next_ordinal h <=? ordinal then (HistoryStatus.kFuture, None)
      else if ordinal <? dh_first_ordinal h then (HistoryStatus.kEvicted, None)
      else (HistoryStatus.kOk, retained_at h ordinal)
  end.

(** The histogram: one linear pass that increments the entry of the outcome's name, then a
    sort by name. *)
Fixpoint bump (name : string) (counts : list (string * Z)) : list (string * Z) :=
  match counts with
  | [] => [(name, 1)]
  | (n, c) :: rest =>
      if bool_decide (n = name) then (n, w64 (c + 1)) :: rest else (n, c) :: bump name rest
  end.

Fixpoint string_codes (s : string) : list Z :=
  match s with
  | EmptyString => []
  | String c rest => char_code c :: string_codes rest
  end.
Definition string_less (a b : string) : bool := lexZ (string_codes a) (string_codes b).

Definition outcome_name (r : DecisionRecord) : string :=
  Outcome.Outcome_to_string (de_outcome r).

Definition outcome_histogram (h : DecisionHistory) : list (string * Z) :=
  std_sort (on_key string_less fst)
    (foldl (fun counts r => bump (outcome_name r) counts) [] (dh_records h)).

Definition history_clear (h : DecisionHistory) : DecisionHistory :=
  h <| dh_records := [] |> <| dh_correlations := ∅ |> <| dh_first_ordinal := 1 |>
    <| dh_next_ordinal := 1 |> <| dh_evicted := 0 |>.

(** ** The abstract specification: the log *)

(** The record stored for the decision at index [i] of the log. *)
Definition stamped (log : list DecisionRecord) : list DecisionRecord :=
  imap (fun i d => stamp d (Z.of_nat i + 1)) log.

(** The history holds the log from entry [k] on. *)
Record represents (h : DecisionHistory) (log : list DecisionRecord) (k : nat) : Prop := {
  rep_records : dh_records h = drop k (stamped log);
  rep_window : (k ≤ length log)%nat;
  rep_kept : log ≠ [] → (k < length log)%nat;
  rep_first : dh_first_ordinal h = Z.of_nat k + 1;
  rep_next : dh_next_ordinal h = zlen log + 1;
  rep_evicted : dh_evicted h = Z.of_nat k;
  rep_capacity : 1 ≤ dh_capacity h ≤ limits.kDecisionHistoryCapacityMax;
  rep_bound : zlen (dh_records h) ≤ dh_capacity h;
}.

Inductive HistoryOp :=
  | OpRecord (decision : DecisionRecord)
  | OpSetCapacity (capacity : Z)
  | OpBind (correlation ordinal : Z)
  | OpClear.

Definition history_step (h : DecisionHistory) (op : HistoryOp) : DecisionHistory :=
  match op with
  | OpRecord d => (history_record h d).1
  | OpSetCapacity c => history_set_capacity h c
  | OpBind c o => history_bind_correlation h c o
  | OpClear => history_clear h
  end.

Definition log_step (log : list DecisionRecord) (op : HistoryOp) : list DecisionRecord :=
  match op with
  | OpRecord d => log ++ [d]
  | OpClear => []
  | _ => log
  end.

Definition history_run (h : DecisionHistory) (ops : list HistoryOp) : DecisionHistory :=
  foldl history_step h ops.
Definition log_of (ops : list HistoryOp) : list DecisionRecord := foldl log_step [] ops.

(** What a search for the newest retained decision with a property may answer: the decision
    itself; [kEvicted] when no retained one has it; [kEmpty] on the empty log. *)
Definition newest_match (log : list DecisionRecord) (k : nat) (P : DecisionRecord → Prop)
    (answer : HistoryStatus * option DecisionRecord) : Prop :=
  match answer with
  | (HistoryStatus.kOk, Some r) =>
      ∃ n, (k ≤ n)%nat ∧ stamped log !! n = Some r ∧ P r ∧
        ∀ m r', (n < m)%nat → stamped log !! m = Some r' → ¬ P r'
  | (HistoryStatus.kEvicted, None) =>
      log ≠ [] ∧ ∀ n r, (k ≤ n)%nat → stamped log !! n = Some r → ¬ P r
  | (HistoryStatus.kEmpty, None) => log = []
  | _ => False
  end.

(** The ordinal a correlation was last bound to since the last [clear]. *)
Definition bind_step (correlation : Z) (bound : option Z) (op : HistoryOp) : option Z :=
  match op with
  | OpBind c o => if bool_decide (c = correlation ∧ c ≠ 0) then Some o else bound
  | OpClear => None
  | _ => bound
  end.
Definition bound_of (ops : list HistoryOp) (correlation : Z) : option Z :=
  foldl (bind_step correlation) None ops.

(** The answer of the log for a bound ordinal. *)
Definition bound_answer (log : list DecisionRecord) (k : nat) (ordinal : Z)
    : HistoryStatus * option DecisionRecord :=
  if zlen log <? ordinal then (HistoryStatus.kFuture, None)
  else if ordinal <=? Z.of_nat k then (HistoryStatus.kEvicted, None)
  else (HistoryStatus.kOk, stamped log !! Z.to_nat (ordinal - 1)).

Lemma stamped_length log : length (stamped log) = length log.
Proof. apply length_imap. Qed.

Lemma stamped_snoc log d : stamped (log ++ [d]) = stamped log ++ [stamp d (zlen log + 1)].
Proof. unfold stamped. rewrite imap_app. simpl. by rewrite Nat.add_0_r. Qed.

Lemma stamped_lookup log i d : log !! i = Some d →
  stamped log !! i = Some (stamp d (Z.of_nat i + 1)).
Proof. intros Hi. unfold stamped. rewrite list_lookup_imap, Hi. done. Qed.

(** The loop drops exactly the excess, from the oldest end. *)
Lemma evict_loop_spec capacity records first evicted :
  0 ≤ capacity → 0 ≤ first → 0 ≤ evicted →
  first + zlen records < two64 → evicted + zlen records < two64 →
  let n := Z.to_nat (zlen records - capacity) in
  evict_loop capacity records first evicted =
    (drop n records, first + Z.of_nat n, evicted + Z.of_nat n).
Proof.
  intros Hc. revert first evicted. induction records as [|r records IH];
    intros first evicted Hf He Hf2 He2.
  { simpl. replace (Z.to_nat _) with 0%nat by (unfold zlen; simpl; lia). simpl.
    by rewrite !Z.add_0_r. }
  cbv zeta. cbn [evict_loop]. unfold zlen in *. simpl length in *.
  destruct (capacity <? _) eqn:E; bool_prop.
  - rewrite !w64_small by (unfold is_u64; lia). rewrite IH by lia.
    replace (Z.to_nat (Z.of_nat (S (length records)) - capacity)) with
      (S (Z.to_nat (Z.of_nat (length records) - capacity))) by lia.
    cbn [drop]. f_equal; [f_equal|]; lia.
  - replace (Z.to_nat _) with 0%nat by lia. simpl. by rewrite !Z.add_0_r.
Qed.

Lemma evict_represents h log k :
  dh_records h = drop k (stamped log) → (k ≤ length log)%nat →
  (log ≠ [] → (k < length log)%nat) →
  dh_first_ordinal h = Z.of_nat k + 1 → dh_next_ordinal h = zlen log + 1 →
  dh_evicted h = Z.of_nat k → 1 ≤ dh_capacity h ≤ limits.kDecisionHistoryCapacityMax →
  zlen log + 1 < two64 →
  represents (evict h) log (k + Z.to_nat (zlen (dh_records h) - dh_capacity h)).
Proof.
  intros Hr Hk Hk2 Hf Hn He Hc Hlog. assert (zlen (dh_records h) = zlen log - Z.of_nat k) as Hz.
  { rewrite Hr. unfold zlen. rewrite length_drop, stamped_length. lia. }
  unfold evict. rewrite evict_loop_spec by (unfold zlen in *; lia).
  set (n := Z.to_nat (zlen (dh_records h) - dh_capacity h)).
  split; simpl.
  - by rewrite Hr, drop_drop.
  - unfold zlen in *. lia.
  - intros Hne. specialize (Hk2 Hne). unfold zlen in *. lia.
  - lia.
  - done.
  - lia.
  - done.
  - unfold zlen in *. rewrite length_drop. lia.
Qed.

Lemma clamp_capacity_bounds c : 0 ≤ c → 1 ≤ clamp_capacity c ≤ limits.kDecisionHistoryCapacityMax.
Proof.
  intros Hc. unfold clamp_capacity, limits.kDecisionHistoryCapacityMax.
  repeat case_match; bool_prop; lia.
Qed.

Definition op_wf (op : HistoryOp) : Prop :=
  match op with OpSetCapacity c => 0 ≤ c | _ => True end.

Lemma history_step_represents h log k op :
  represents h log k → op_wf op → zlen (log_step log op) + 1 < two64 →
  ∃ k', represents (history_step h op) (log_step log op) k' ∧
    match op with
    | OpRecord _ => k' = (k + Z.to_nat (zlen (dh_records h) + 1 - dh_capacity h))%nat
    | _ => True
    end.
Proof.
  intros [Hr Hk Hk2 Hf Hn He Hc Hb] Hop Hlen. destruct op as [d|c|c o|]; simpl in *.
  - assert (zlen (dh_records h ++ [d]) = zlen (dh_records h) + 1) as Hz
      by (by rewrite zlen_app).
    rewrite zlen_app in Hlen. unfold zlen in Hlen at 2. simpl in Hlen.
    unfold history_record. cbn [fst].
    set (h1 := _ <| dh_records ::= _ |>).
    exists (k + Z.to_nat (zlen (dh_records h1) - dh_capacity h1))%nat. split.
    + apply evict_represents; subst h1; simpl; try done.
      * rewrite stamped_snoc, drop_app_le by (rewrite stamped_length; lia).
        by rewrite Hr, Hn.
      * rewrite length_app. simpl. lia.
      * intros _. rewrite length_app. simpl. lia.
      * rewrite Hn, zlen_app. change (zlen [d]) with 1. apply w64_small.
        unfold is_u64, zlen in *. lia.
      * rewrite zlen_app. change (zlen [d]) with 1. lia.
    + subst h1. simpl. rewrite zlen_app. done.
  - eexists. split; [|done]. apply evict_represents; simpl; try done.
    by apply clamp_capacity_bounds.
  - exists k. split; [|done]. unfold history_bind_correlation.
    repeat case_match; by split.
  - exists 0%nat. split; [|done]. split; simpl; try done; unfold zlen; simpl; lia.
Qed.

Lemma history_new_represents c : 0 ≤ c → represents (history_new c) [] 0.
Proof.
  intros Hc. pose proof (clamp_capacity_bounds c Hc).
  unfold history_new, history_set_capacity, evict. simpl.
  split; simpl; try done; unfold zlen; simpl; lia.
Qed.

Lemma history_run_represents ops h log k :
  represents h log k → Forall op_wf ops →
  (∀ n, zlen (foldl log_step log (take n ops)) + 1 < two64) →
  ∃ k', represents (history_run h ops) (foldl log_step log ops) k'.
Proof.
  revert h log k. induction ops as [|op ops IH]; intros h log k Hrep Hwf Hlen; [by exists k|].
  inversion Hwf; subst. simpl.
  destruct (history_step_represents h log k op) as (k' & Hk' & _); [done|done| |].
  { apply (Hlen 1%nat). }
  apply (IH _ _ k'); [done|done|]. intros n. apply (Hlen (S n)).
Qed.

(** ** Queries on a represented log *)

(** The scan from the back finds the last match. *)
Lemma find_last_Some {A} (p : A → bool) l x :
  find_first p (reverse l) = Some x →
  ∃ n, l !! n = Some x ∧ p x = true ∧ ∀ m y, (n < m)%nat → l !! m = Some y → p y = false.
Proof.
  induction l as [|z l IH] using rev_ind; [done|]. rewrite reverse_snoc. cbn [find_first].
  destruct (p z) eqn:E.
  - intros [= <-]. exists (length l). rewrite lookup_app_r, Nat.sub_diag by lia.
    split_and!; [done..|]. intros m y Hm Hy%lookup_lt_Some. rewrite length_app in Hy. cbn in Hy. lia.
  - intros (n & Hn & Hp & Hlast)%IH. exists n.
    split_and!; [by apply lookup_app_l_Some|done|]. intros m y Hm.
    intros [Hy|[Hge Hy]]%lookup_app_Some; [by eapply Hlast|].
    apply list_lookup_singleton_Some in Hy as [_ <-]. done.
Qed.

(** Instances are compared by identity, generation and attempt. *)
Definition same_instance (i : CollectiveInstance) (r : DecisionRecord) : Prop :=
  ci_id (de_instance r) = ci_id i ∧ ci_generation (de_instance r) = ci_generation i ∧
  ci_attempt (de_instance r) = ci_attempt i.

Lemma ci_eqb_same i r : ci_eqb (de_instance r) i = true ↔ same_instance i r.
Proof. unfold ci_eqb. rewrite !andb_true_iff, !id_eqb_eq. unfold same_instance. tauto. Qed.

Lemma attempt_matches_iff id attempt r :
  attempt_matches id attempt r = true ↔
  ci_id (de_instance r) = id ∧ (attempt = id_none ∨ ci_attempt (de_instance r) = attempt).
Proof.
  unfold attempt_matches. rewrite andb_true_iff, id_eqb_eq.
  destruct (is_none attempt) eqn:E.
  - apply is_none_eq in E. naive_solver.
  - rewrite id_eqb_eq. apply is_none_neq in E. naive_solver.
Qed.
Section queries.
Context (h : DecisionHistory) (log : list DecisionRecord) (k : nat).
Hypothesis Hrep : represents h log k.
Hypothesis Hlen : zlen log + 1 < two64.

Lemma records_length : zlen (dh_records h) = zlen log - Z.of_nat k.
Proof.
  destruct Hrep as [Hr Hk ? ? ? ? ? ?]. rewrite Hr. unfold zlen.
  rewrite length_drop, stamped_length. lia.
Qed.

Lemma retained_at_spec ordinal :
  Z.of_nat k + 1 ≤ ordinal ≤ zlen log →
  retained_at h ordinal = stamped log !! Z.to_nat (ordinal - 1) ∧
  is_Some (retained_at h ordinal).
Proof.
  destruct Hrep as [Hr Hk ? Hf ? ? ? ?]. intros Ho. unfold retained_at.
  rewrite Hf, Hr, w64_small, lookup_drop by (unfold is_u64, zlen in *; lia).
  replace (k + Z.to_nat (ordinal - (Z.of_nat k + 1)))%nat with (Z.to_nat (ordinal - 1)) by lia.
  split; [done|]. apply lookup_lt_is_Some_2. rewrite stamped_length. unfold zlen in *. lia.
Qed.

Lemma history_get_spec ordinal :
  history_get h ordinal =
    if zlen log =? 0 then (HistoryStatus.kEmpty, None)
    else if zlen log <? ordinal then (HistoryStatus.kFuture, None)
    else if ordinal <=? Z.of_nat k then (HistoryStatus.kEvicted, None)
    else (HistoryStatus.kOk, stamped log !! Z.to_nat (ordinal - 1)).
Proof.
  destruct Hrep as [Hr Hk Hk2 Hf Hn ? ? ?]. unfold history_get.
  rewrite records_length, Hf, Hn.
  destruct (zlen log =? 0) eqn:E0; bool_prop.
  { by replace (zlen log - Z.of_nat k =? 0) with true
      by (symmetry; apply Z.eqb_eq; unfold zlen in *; lia). }
  assert (k < length log)%nat.
  { apply Hk2. intros ->. done. }
  replace (zlen log - Z.of_nat k =? 0) with false
    by (symmetry; apply Z.eqb_neq; unfold zlen in *; lia).
  destruct (zlen log <? ordinal) eqn:E1; bool_prop.
  { rewrite (proj2 (Z.leb_le _ _)) by lia. done. }
  rewrite (proj2 (Z.leb_gt _ _)) by lia.
  destruct (ordinal <=? Z.of_nat k) eqn:E2; bool_prop.
  { rewrite (proj2 (Z.ltb_lt _ _)) by lia. done. }
  rewrite (proj2 (Z.ltb_ge _ _)) by lia.
  by rewrite (proj1 (retained_at_spec ordinal ltac:(lia))).
Qed.

Lemma history_page_spec offset limit :
  0 ≤ offset → is_u64 limit →
  history_page h offset limit =
    take (Z.to_nat limit) (drop (Z.to_nat (Z.max (offset - 1) (Z.of_nat k))) (stamped log)).
Proof.
  destruct Hrep as [Hr Hk Hk2 Hf Hn ? ? ?]. intros Ho Hl. unfold history_page.
  destruct (_ || _) eqn:E.
  - rewrite drop_ge; [by rewrite take_nil|]. rewrite stamped_length.
    rewrite records_length, Hn in E. unfold zlen in *. bool_prop. destruct E; bool_prop; lia.
  - apply orb_false_iff in E as [_ E]. rewrite Hn in E. bool_prop.
    rewrite Hr, Hf, drop_drop. do 2 f_equal.
    destruct (offset <? Z.of_nat k + 1) eqn:E2; bool_prop.
    + rewrite Z.sub_diag. change (w64 0) with 0. lia.
    + rewrite w64_small by (unfold is_u64, zlen in *; lia). lia.
Qed.

Lemma newest_spec (p : DecisionRecord → bool) (P : DecisionRecord → Prop) :
  (∀ r, p r = true ↔ P r) → newest_match log k P (newest h p).
Proof.
  intros HP. destruct Hrep as [Hr Hk Hk2 _ _ _ _ _]. unfold newest, newest_match.
  rewrite records_length. destruct (zlen log - Z.of_nat k =? 0) eqn:E0; bool_prop.
  { destruct log; [done|]. specialize (Hk2 ltac:(done)). unfold zlen in E0. lia. }
  assert (log ≠ []) by (intros ->; unfold zlen in E0; cbn in *; lia).
  destruct (find_first p (reverse _)) as [r|] eqn:Ef.
  - apply find_last_Some in Ef as (n & Hn & Hp & Hlast). rewrite Hr, lookup_drop in Hn.
    exists (k + n)%nat. split_and!; [lia|done|by apply HP|]. intros m r' Hm Hl.
    rewrite <- HP, not_true_iff_false. apply (Hlast (m - k)%nat); [lia|].
    rewrite Hr, lookup_drop. by replace (k + (m - k))%nat with m by lia.
  - split; [done|]. intros n r Hn Hl. rewrite <- HP, not_true_iff_false.
    apply find_first_None in Ef. rewrite Forall_reverse, Hr in Ef.
    eapply Forall_lookup_1 in Ef; [exact Ef|]. rewrite lookup_drop.
    by replace (k + (n - k))%nat with n by lia.
Qed.

Lemma find_correlation_spec correlation :
  history_find_correlation h correlation =
    match dh_correlations h !! mkIdentity correlation 0 with
    | Some ordinal => bound_answer log k ordinal
    | None => (HistoryStatus.kEvicted, None)
    end.
Proof.
  destruct Hrep as [_ _ _ Hf Hn _ _ _]. unfold history_find_correlation, bound_answer.
  destruct (_ !! _) as [ordinal|]; [|done]. rewrite Hf, Hn.
  destruct (zlen log <? ordinal) eqn:E1; bool_prop; [by rewrite (proj2 (Z.leb_le _ _)) by lia|].
  rewrite (proj2 (Z.leb_gt _ _)) by lia.
  destruct (ordinal <=? Z.of_nat k) eqn:E2; bool_prop;
    [by rewrite (proj2 (Z.ltb_lt _ _)) by lia|].
  rewrite (proj2 (Z.ltb_ge _ _)) by lia.
  by rewrite (proj1 (retained_at_spec ordinal ltac:(lia))).
Qed.
End queries.

(** The table of correlations only forgets. *)
Lemma evict_correlations h : dh_correlations (evict h) = dh_correlations h.
Proof. unfold evict. by destruct (evict_loop _ _ _ _) as [[? ?] ?]. Qed.

Lemma history_new_correlations capacity : dh_correlations (history_new capacity) = ∅.
Proof. apply evict_correlations. Qed.

Lemma history_run_snoc h ops op :
  history_run h (ops ++ [op]) = history_step (history_run h ops) op.
Proof. unfold history_run. by rewrite foldl_app. Qed.

Lemma bind_lookup h c o correlation ordinal :
  dh_correlations (history_bind_correlation h c o) !! mkIdentity correlation 0 = Some ordinal →
  (c = correlation ∧ c ≠ 0 ∧ o = ordinal) ∨
  (¬ (c = correlation ∧ c ≠ 0) ∧ dh_correlations h !! mkIdentity correlation 0 = Some ordinal).
Proof.
  unfold history_bind_correlation. destruct (c =? 0) eqn:E; bool_prop; [by right; intuition|].
  assert (∀ table : gmap Identity Z, <[mkIdentity c 0 := o]> table !! mkIdentity correlation 0 =
    Some ordinal → (c = correlation ∧ c ≠ 0 ∧ o = ordinal) ∨
    (¬ (c = correlation ∧ c ≠ 0) ∧ table !! mkIdentity correlation 0 = Some ordinal)) as Hins.
  { intros table [[[= ->] ->]|[Hne Hl]]%lookup_insert_Some; [by left|].
    right. split; [|done]. intros [-> _]. done. }
  destruct (_ <=? _); cbn; intros [?|[? Hl]]%Hins; [by left|by rewrite lookup_empty in Hl|by left|].
  by right.
Qed.

Lemma correlations_bound capacity ops correlation ordinal :
  dh_correlations (history_run (history_new capacity) ops) !! mkIdentity correlation 0 = Some ordinal →
  bound_of ops correlation = Some ordinal.
Proof.
  induction ops as [|op ops IH] using rev_ind.
  { cbn [history_run foldl]. by rewrite history_new_correlations, lookup_empty. }
  rewrite history_run_snoc. unfold bound_of. rewrite foldl_app. cbn [foldl].
  destruct op as [d|c|c o|]; cbn [history_step bind_step].
  - unfold history_record. cbn [fst]. by rewrite evict_correlations.
  - unfold history_set_capacity. by rewrite evict_correlations.
  - intros [(-> & ? & ->)|[Hn Hl]]%bind_lookup; [by rewrite bool_decide_true|].
    rewrite bool_decide_false by done. by apply IH.
  - cbn. by rewrite lookup_empty.
Qed.

Lemma bind_found h c o : c ≠ 0 →
  dh_correlations (history_bind_correlation h c o) !! mkIdentity c 0 = Some o.
Proof.
  intros Hc. unfold history_bind_correlation. rewrite (proj2 (Z.eqb_neq _ _)) by done.
  by destruct (_ <=? _); cbn; rewrite lookup_insert_eq.
Qed.

Lemma log_step_length log op : (length (log_step log op) ≤ S (length log))%nat.
Proof. destruct op; simpl; rewrite ?length_app; simpl; lia. Qed.

Lemma log_run_length ops log :
  (length (foldl log_step log ops) ≤ length log + length ops)%nat.
Proof.
  revert log. induction ops as [|op ops IH]; intros log; simpl; [lia|].
  specialize (IH (log_step log op)). pose proof (log_step_length log op). lia.
Qed.

(** As long as nobody changes the capacity, the ring keeps as much as it can. *)
Definition keeps_capacity (op : HistoryOp) : bool :=
  match op with OpSetCapacity _ => false | _ => true end.

Lemma history_run_full ops h log k :
  represents h log k → zlen (dh_records h) = Z.min (zlen log) (dh_capacity h) →
  Forall (fun op => keeps_capacity op = true) ops →
  zlen log + zlen ops + 1 < two64 →
  zlen (dh_records (history_run h ops)) =
    Z.min (zlen (foldl log_step log ops)) (dh_capacity h) ∧
  dh_capacity (history_run h ops) = dh_capacity h.
Proof.
  revert h log k. induction ops as [|op ops IH]; intros h log k Hrep Hz Hk Hlen; [done|].
  inversion Hk as [|? ? Hop Hk']; subst. unfold zlen in Hlen. simpl in Hlen.
  pose proof (log_step_length log op) as Hl.
  assert (op_wf op) as Hwf by (by destruct op).
  destruct (history_step_represents h log k op) as (k' & Hrep' & Ek'); [done|done| |].
  { unfold zlen. lia. }
  assert (dh_capacity (history_step h op) = dh_capacity h) as Hc.
  { destruct op as [d| |c o|]; try done; simpl.
    - unfold evict. simpl. by destruct (evict_loop _ _ _ _) as [[? ?] ?].
    - unfold history_bind_correlation. by repeat case_match. }
  assert (zlen (dh_records (history_step h op)) =
    Z.min (zlen (log_step log op)) (dh_capacity h)) as Hz'.
  { destruct Hrep as [? ? ? ? ? ? ? ?]. destruct op as [d| |c o|]; simpl in Hop; try done.
    - pose proof (records_length _ _ _ Hrep') as Hr'. simpl in Hr' |- *.
      pose proof (records_length h log k ltac:(by split)) as Hr.
      rewrite zlen_app in *. change (zlen [d]) with 1 in *. lia.
    - simpl. unfold history_bind_correlation. by repeat case_match.
    - simpl. unfold zlen. simpl. lia. }
  simpl. rewrite <- Hc in *. apply (IH _ _ k'); try done. unfold zlen in *. lia.
Qed.

Lemma history_latest_spec h limit :
  0 ≤ limit → history_latest h limit = take (Z.to_nat limit) (reverse (dh_records h)).
Proof.
  intros Hl. unfold history_latest. set (rs := dh_records h).
  apply list_eq. intros i.
  set (n := Z.to_nat (if zlen rs <? limit then zlen rs else limit)).
  assert (n = Nat.min (Z.to_nat limit) (length rs)) as En.
  { subst n. unfold zlen. case_match; bool_prop; lia. }
  assert (∀ j, (j < n)%nat → rs !! Z.to_nat (zlen rs - 1 - Z.of_nat j) = reverse rs !! j) as Hj.
  { intros j Hj. rewrite reverse_lookup by lia. f_equal. unfold zlen. lia. }
  assert (omap (fun index => rs !! Z.to_nat (zlen rs - 1 - Z.of_nat index)) (seq 0 n) =
    take n (reverse rs)) as ->.
  { assert (n ≤ length rs)%nat as Hn by lia. clear En i. clearbody n. induction n as [|n IHn]; [done|].
    rewrite seq_S, omap_app, IHn by (intros; try apply Hj; lia). simpl. rewrite Hj by lia.
    destruct (lookup_lt_is_Some_2 (reverse rs) n) as [x Hx];
      [rewrite length_reverse; lia|].
    rewrite Hx. by rewrite (take_S_r _ _ _ Hx). }
  rewrite En. destruct (decide (Z.to_nat limit ≤ length rs)%nat).
  - by rewrite Nat.min_l by lia.
  - rewrite Nat.min_r by lia. by rewrite !take_ge by (rewrite length_reverse; lia).
Qed.

(** ** The histogram *)
#[export] Instance string_less_strict : StrictTotal string_less.
Proof.
  apply (strict_total_key lexZ string_less string_codes); [|done].
  intros a. induction a as [|c a IH]; intros [|c' b]; try done. simpl.
  intros [= Hc Ha]. f_equal; [|by apply IH].
  unfold char_code in Hc. apply (inj Z.of_N) in Hc.
  by rewrite <- (Ascii.ascii_N_embedding c), <- (Ascii.ascii_N_embedding c'), Hc.
Qed.

Definition count_of (name : string) (counts : list (string * Z)) : Z :=
  match find_first (fun e => bool_decide (e.1 = name)) counts with
  | Some e => e.2
  | None => 0
  end.

Lemma bump_keys name counts :
  NoDup counts.*1 → NoDup (bump name counts).*1 ∧
  (∀ n, n ∈ (bump name counts).*1 ↔ n = name ∨ n ∈ counts.*1).
Proof.
  induction counts as [|[n c] counts IH]; simpl; intros Hn.
  - split; [apply NoDup_singleton | set_solver].
  - apply NoDup_cons in Hn as [Hni Hn]. destruct (IH Hn) as [IH1 IH2].
    clear IH. case_bool_decide as E; simpl.
    + subst n. split; [by constructor|]. intros m. rewrite elem_of_cons. tauto.
    + split.
      * constructor; [|done]. rewrite IH2. tauto.
      * intros m. rewrite !elem_of_cons, IH2. tauto.
Qed.

Lemma bump_count name counts n :
  0 ≤ count_of name counts < two64 - 1 →
  count_of n (bump name counts) =
    (if decide (n = name) then 1 else 0) + count_of n counts.
Proof.
  unfold count_of. induction counts as [|[m c] counts IH]; simpl; intros Hc.
  - clear Hc. case_bool_decide; case_decide; subst; done.
  - case_bool_decide as E1; simpl.
    + subst m. simpl in Hc. rewrite !(bool_decide_ext (name = n) (n = name)) by naive_solver.
      case_bool_decide as E2; [rewrite decide_True by done | by rewrite decide_False]. simpl.
      rewrite w64_small by (unfold is_u64; lia). lia.
    + case_bool_decide as E2; [subst; rewrite decide_False by done; done|]. by apply IH.
Qed.

Lemma histogram_fold records counts :
  NoDup counts.*1 →
  (∀ n, 0 ≤ count_of n counts ∧ count_of n counts + zlen records < two64) →
  let out := foldl (fun counts r => bump (outcome_name r) counts) counts records in
  NoDup out.*1 ∧
  (∀ n, count_of n out = count_of n counts + occurrences n (outcome_name <$> records)) ∧
  (∀ n, n ∈ out.*1 ↔ n ∈ counts.*1 ∨ n ∈ outcome_name <$> records).
Proof.
  revert counts. induction records as [|r records IH]; intros counts Hn Hc; cbv zeta.
  - simpl. split_and!; [done| |set_solver]. intros n. rewrite occurrences_nil. lia.
  - destruct (bump_keys (outcome_name r) counts Hn) as [Hn' Hk].
    assert (∀ n, count_of n (bump (outcome_name r) counts) =
      (if decide (n = outcome_name r) then 1 else 0) + count_of n counts) as Hb.
    { intros n. apply bump_count. destruct (Hc (outcome_name r)). unfold zlen in *.
      simpl in *. lia. }
    destruct (IH (bump (outcome_name r) counts) Hn') as (IH1 & IH2 & IH3).
    { intros n. rewrite Hb. destruct (Hc n). unfold zlen in *. simpl in *. case_decide; lia. }
    simpl foldl. split_and!; [done| |].
    + intros n. rewrite IH2, Hb, fmap_cons, occurrences_cons.
      rewrite (decide_ext (n = outcome_name r) (outcome_name r = n)) by naive_solver. lia.
    + intros n. rewrite IH3, Hk, fmap_cons, elem_of_cons. naive_solver.
Qed.

(** The histogram is exact: over the retained decisions, its entries are sorted by
    distinct names, it has an entry for exactly the outcomes that occur, and each entry counts
    the occurrences of its outcome. *)
Lemma outcome_histogram_exact (h : DecisionHistory) :
  zlen (dh_records h) < two64 →
  StronglySorted (fun a b => string_less a.1 b.1 = true) (outcome_histogram h) ∧
  (∀ name, name ∈ (outcome_histogram h).*1 ↔ name ∈ outcome_name <$> dh_records h) ∧
  (∀ name count, (name, count) ∈ outcome_histogram h →
     count = occurrences name (outcome_name <$> dh_records h)).
Proof.
  intros Hlen. destruct (histogram_fold (dh_records h) []) as (Hn & Hc & Hk);
    [constructor | intros n; unfold count_of; simpl; lia|].
  unfold outcome_histogram. set (counts := foldl _ [] _) in *.
  pose proof (std_sort_perm string_less (@fst string Z) counts) as Hp. split_and!.
  - apply (kle_sorted_nodup_klt string_less fst); [apply (std_sort_sorted string_less fst)|].
    by rewrite Hp.
  - intros name. rewrite Hp, Hk. set_solver.
  - intros name count. rewrite Hp. intros Hin. specialize (Hc name).
    change (count_of name []) with 0 in Hc. rewrite Z.add_0_l in Hc. rewrite <- Hc.
    clear -Hin Hn. unfold count_of.
    induction counts as [|[n c] counts IH]; [by apply not_elem_of_nil in Hin|]. simpl in *.
    apply NoDup_cons in Hn as [Hni Hn]. apply elem_of_cons in Hin as [[= <- <-]|Hin].
    + by rewrite bool_decide_eq_true_2.
    + rewrite bool_decide_eq_false_2; [by apply IH|]. intros ->. apply Hni.
      apply list_elem_of_fmap. by exists (name, count).
Qed.

Lemma stamped_outcomes k log : outcome_name <$> drop k (stamped log) = outcome_name <$> drop k log.
Proof.
  rewrite !fmap_drop. f_equal. unfold stamped. rewrite fmap_imap.
  apply list_eq. intros i. rewrite list_lookup_imap, list_lookup_fmap. by destruct (log !! i).
Qed.

(** ** Properties *)

(** C35: the ring refines the log: after any sequence of calls on a new history, fewer than
    2^64, every query answers from the complete log of the decisions recorded since the last
    [clear], stamped with their ordinals, of which it retains all but the oldest ones.  An
    ordinal is answered [kOk] with its own decision when retained, [kEvicted] when it was
    dropped and [kFuture] when it was never recorded; pages and the newest-first list are
    segments of the log; the searches by instance (identity, generation and attempt) and by
    attempt find the newest retained decision that matches and answer [kEvicted] when none is
    retained, whether one was dropped or none was ever recorded; a correlation is answered with the decision of the ordinal it
    was last bound to, or [kEvicted] once forgotten, and never forgotten directly after; the
    histogram counts the retained outcomes.  The ring never exceeds its capacity, and while the
    capacity is left alone it retains as many decisions as fit. *)
Theorem history_refines_log (capacity : Z) (ops : list HistoryOp) :
  0 ≤ capacity → Forall op_wf ops → zlen ops + 1 < two64 →
  let h := history_run (history_new capacity) ops in
  let log := log_of ops in
  ∃ k : nat,
    dh_evicted h = Z.of_nat k ∧ history_size h = zlen log - Z.of_nat k ∧
    history_size h ≤ dh_capacity h ≤ limits.kDecisionHistoryCapacityMax ∧
    (∀ ordinal, history_get h ordinal =
       if zlen log =? 0 then (HistoryStatus.kEmpty, None)
       else if zlen log <? ordinal then (HistoryStatus.kFuture, None)
       else if ordinal <=? Z.of_nat k then (HistoryStatus.kEvicted, None)
       else (HistoryStatus.kOk, stamped log !! Z.to_nat (ordinal - 1))) ∧
    (∀ offset limit, is_u64 offset → is_u64 limit → history_page h offset limit =
       take (Z.to_nat limit) (drop (Z.to_nat (Z.max (offset - 1) (Z.of_nat k))) (stamped log))) ∧
    (∀ limit, 0 ≤ limit → history_latest h limit =
       take (Z.to_nat limit) (reverse (drop k (stamped log)))) ∧
    (∀ i, newest_match log k (same_instance i) (history_find_instance h i)) ∧
    (∀ id attempt, newest_match log k
       (fun r => ci_id (de_instance r) = id ∧
          (attempt = id_none ∨ ci_attempt (de_instance r) = attempt))
       (history_find_attempt h id attempt)) ∧
    (∀ correlation, history_find_correlation h correlation = (HistoryStatus.kEvicted, None) ∨
       ∃ ordinal, bound_of ops correlation = Some ordinal ∧
         history_find_correlation h correlation = bound_answer log k ordinal) ∧
    (∀ correlation ordinal, last ops = Some (OpBind correlation ordinal) → correlation ≠ 0 →
       history_find_correlation h correlation = bound_answer log k ordinal) ∧
    (StronglySorted (fun a b => string_less a.1 b.1 = true) (outcome_histogram h) ∧
     (∀ name, name ∈ (outcome_histogram h).*1 ↔ name ∈ outcome_name <$> drop k log) ∧
     ∀ name count, (name, count) ∈ outcome_histogram h →
       count = occurrences name (outcome_name <$> drop k log)) ∧
    (Forall (fun op => keeps_capacity op = true) ops →
     history_size h = Z.min (zlen log) (clamp_capacity capacity)).
Proof.
  intros Hc Hwf Hlen h log.
  assert (∀ n, zlen (foldl log_step [] (take n ops)) + 1 < two64) as Hlog.
  { intros n. pose proof (log_run_length (take n ops) []) as Hl. simpl in Hl.
    rewrite length_take in Hl. unfold zlen in *. lia. }
  destruct (history_run_represents ops (history_new capacity) [] 0
    (history_new_represents capacity Hc) Hwf Hlog) as (k & Hk).
  assert (zlen (log_of ops) + 1 < two64) as Hll.
  { specialize (Hlog (length ops)). by rewrite take_ge in Hlog. }
  exists k. fold h in Hk. fold (log_of ops) in Hk. fold log in Hk, Hll.
  assert (zlen (dh_records h) < two64) as Hsize by (rewrite (records_length _ _ _ Hk); lia).
  pose proof (outcome_histogram_exact h Hsize) as Hhist.
  rewrite (rep_records _ _ _ Hk), stamped_outcomes in Hhist.
  split_and!.
  - apply Hk.
  - by apply records_length.
  - apply Hk.
  - apply Hk.
  - intros ordinal. by apply history_get_spec.
  - intros offset limit [? ?] ?. by apply history_page_spec.
  - intros limit Hl. rewrite history_latest_spec by done. by rewrite (rep_records _ _ _ Hk).
  - intros i. apply newest_spec; [done..|]. apply ci_eqb_same.
  - intros id attempt. apply newest_spec; [done..|]. apply attempt_matches_iff.
  - intros correlation. rewrite (find_correlation_spec _ _ _ Hk Hll).
    destruct (_ !! _) as [ordinal|] eqn:Ec; [right|by left]. exists ordinal.
    split; [by eapply correlations_bound | done].
  - intros correlation ordinal Hlast Hc0. rewrite (find_correlation_spec _ _ _ Hk Hll).
    apply last_Some in Hlast as [ops' E]. subst h. rewrite E, history_run_snoc.
    cbn [history_step]. by rewrite bind_found.
  - apply Hhist.
  - apply Hhist.
  - apply Hhist.
  - intros Hcap. subst h log. unfold log_of, history_size.
    destruct (history_run_full ops (history_new capacity) [] 0) as [-> _];
      [by apply history_new_represents | | done | unfold zlen in *; simpl; lia | done].
    pose proof (clamp_capacity_bounds capacity Hc).
    unfold history_new, history_set_capacity, evict, zlen. simpl. lia.
Qed.

Definition demo_entry (n : Z) : DecisionRecord :=
  record_default <| de_decided_monotonic_ms := n |>.

Lemma history_refines_log_witness :
  let h := history_run (history_new 2)
    [OpRecord (demo_entry 10); OpRecord (demo_entry 20); OpRecord (demo_entry 30)] in
  (history_get h 1).1 = HistoryStatus.kEvicted ∧
  history_get h 2 = (HistoryStatus.kOk, Some (stamp (demo_entry 20) 2)) ∧ history_size h = 2.
Proof.
  destruct (history_refines_log 2
    [OpRecord (demo_entry 10); OpRecord (demo_entry 20); OpRecord (demo_entry 30)])
    as (k & He & Hs & _ & Hg & _);
    [lia | repeat constructor | unfold zlen; simpl; lia|].
  assert (Z.of_nat k = 1) by (rewrite <- He; vm_compute; reflexivity).
  assert (k = 1%nat) as -> by lia.
  split_and!; [rewrite Hg; reflexivity | rewrite Hg; reflexivity | exact Hs].
Defined.

Lemma outcome_histogram_exact_witness :
  let h := history_run (history_new 5) [OpRecord (demo_entry 10); OpRecord (demo_entry 20)] in
  outcome_histogram h = [("REJECTED_STALE", 2)] ∧
  occurrences "REJECTED_STALE" (outcome_name <$> dh_records h) = 2.
Proof.
  cbv zeta. split; [vm_compute; reflexivity|]. symmetry.
  apply (outcome_histogram_exact (history_run (history_new 5)
    [OpRecord (demo_entry 10); OpRecord (demo_entry 20)]));
    [vm_compute; reflexivity|]. vm_compute. left.
Defined.
