(* ===== verification/Service.v ===== *)
(** The coordinator service ([include/ctf/service.hpp], [src/service.cpp]): sessions and frame
    envelopes, participant publication, the lifecycle of collectives, decisions with admission,
    evidence ingestion, inspection, and the flush and restore of durable state.

    Every public method holds the service mutex for its whole critical section, so a method is
    one atomic state transformer; [stop] and [flush] release it while the file is written and
    are two transformers around the write.  The process-wide identity minter is part of the
    state.  The clock is the method's argument, and what the file system answered is an
    argument too. *)
From S2P Require Import Prelude Identity Errors Participant Collective FlowGroup Traffic.
From S2P Require Import Evidence Sync Decision Engine Admission Catalog Authority History.

Module LoadDisposition.
Inductive LoadDisposition :=
  | kLoaded | kMissing | kRejectedCorrupt | kRejectedTruncated | kRejectedIntegrity
  | kRejectedVersion | kRejectedOversized | kRejectedImpossible | kRejectedIo.
Definition LoadDisposition_raw (v : LoadDisposition) : Z :=
  match v with
  | kLoaded => 0
  | kMissing => 1
  | kRejectedCorrupt => 2
  | kRejectedTruncated => 3
  | kRejectedIntegrity => 4
  | kRejectedVersion => 5
  | kRejectedOversized => 6
  | kRejectedImpossible => 7
  | kRejectedIo => 8
  end.
Definition LoadDisposition_to_string (v : LoadDisposition) : string :=
  match v with
  | kLoaded => "loaded"
  | kMissing => "missing"
  | kRejectedCorrupt => "rejected_corrupt"
  | kRejectedTruncated => "rejected_truncated"
  | kRejectedIntegrity => "rejected_integrity"
  | kRejectedVersion => "rejected_version"
  | kRejectedOversized => "rejected_oversized"
  | kRejectedImpossible => "rejected_impossible"
  | kRejectedIo => "rejected_io"
  end.
#[global] Instance LoadDisposition_eq_dec : EqDecision LoadDisposition.
Proof. solve_decision. Defined.
#[global, refine] Instance LoadDisposition_enum : WireEnum LoadDisposition :=
  {| enum_raw := LoadDisposition_raw;
     enum_all :=
       [kLoaded; kMissing; kRejectedCorrupt; kRejectedTruncated; kRejectedIntegrity;
       kRejectedVersion; kRejectedOversized; kRejectedImpossible; kRejectedIo] |}.
Proof. by intros []. Defined.
End LoadDisposition.
Abbreviation LoadDisposition := LoadDisposition.LoadDisposition.


Definition kSnapshotFormatVersion : Z := 1.

Record SnapshotContents := mkSnapshotContents {
  sc_format_version : Z;
  sc_written_monotonic_ms : Z;
  sc_authority : DurableAuthority;
  sc_records : list CollectiveRecord;
}.

Record EnvelopeView := mkEnvelopeView {
  ev_session : Identity;
  ev_incarnation : Identity;
  ev_epoch : Identity;
  ev_frame_sequence : Sequence;
  ev_correlation : Z;
}.

Record SessionBinding := mkSessionBinding {
  sb_id : Identity;
  sb_incarnation : Identity;
  sb_epoch : Identity;
  sb_peer_label : string;
  sb_opened_monotonic_ms : Z;
  sb_last_frame_monotonic_ms : Z;
  sb_last_frame_sequence : Sequence;
  sb_frames_received : Z;
  sb_frames_rejected : Z;
  sb_accepted_participants : Z;
}.

#[export] Instance SessionBinding_eta : Eta SessionBinding :=
  fun r => mkSessionBinding (sb_id r) (sb_incarnation r) (sb_epoch r) (sb_peer_label r)
    (sb_opened_monotonic_ms r) (sb_last_frame_monotonic_ms r) (sb_last_frame_sequence r)
    (sb_frames_received r) (sb_frames_rejected r) (sb_accepted_participants r).

Record AttemptOutcome := mkAttemptOutcome {
  ao_id : Identity;
  ao_attempt : Identity;
  ao_previous_attempt : Identity;
  ao_state : CollectiveState;
  ao_reasons : ReasonChain;
}.

#[export] Instance AttemptOutcome_eta : Eta AttemptOutcome :=
  fun r => mkAttemptOutcome (ao_id r) (ao_attempt r) (ao_previous_attempt r) (ao_state r)
    (ao_reasons r).

Record ServiceRequestContext := mkServiceRequestContext {
  cx_session : Identity;
  cx_incarnation : Identity;
  cx_epoch : Identity;
  cx_now_monotonic_ms : Z;
  cx_correlation : Z;
}.

Record ServiceConfig := mkServiceConfig {
  cf_decision_history_capacity : Z;
  cf_participant_ttl_ms : Z;
  cf_session_idle_ttl_ms : Z;
  cf_congestion_valid_for_ms : Z;
  cf_require_congestion_evidence : bool;
  cf_coordinator_label : string;
}.

Definition config_default : ServiceConfig :=
  mkServiceConfig limits.kDecisionHistoryDefaultCapacity 3000 30000 2000 true "ctf-coordinator".

(** [CoordinatorService::Counters] *)
Record Counters := mkCounters {
  k_sessions_opened : Z;
  k_sessions_closed : Z;
  k_registrations : Z;
  k_generation_advances : Z;
  k_decisions : Z;
  k_admissions : Z;
  k_rejections : Z;
  k_rate_limited : Z;
  k_deferred : Z;
  k_replans : Z;
  k_fences : Z;
  k_evidence_ingests : Z;
  k_rejections_stale : Z;
  k_cancellations : Z;
  k_retirements : Z;
  k_stale_completions_rejected : Z;
  k_persists : Z;
  k_restores : Z;
}.

#[export] Instance Counters_eta : Eta Counters :=
  fun r => mkCounters (k_sessions_opened r) (k_sessions_closed r) (k_registrations r)
    (k_generation_advances r) (k_decisions r) (k_admissions r)
    (k_rejections r) (k_rate_limited r) (k_deferred r)
    (k_replans r) (k_fences r) (k_evidence_ingests r)
    (k_rejections_stale r) (k_cancellations r) (k_retirements r)
    (k_stale_completions_rejected r) (k_persists r) (k_restores r).

Definition counters_zero : Counters :=
  mkCounters 0 0 0 0 0 0 0 0 0 0 0 0 0 0 0 0 0 0.

Record CoordinatorService := mkCoordinatorService {
  sv_config : ServiceConfig;
  sv_authority : AuthorityState;
  sv_catalog : CollectiveCatalog;
  sv_history : DecisionHistory;
  sv_admission : AdmissionController;
  sv_counters : Counters;
  sv_sessions : gmap Identity SessionBinding;
  sv_mutation_sequence : Z;
  sv_persistence_dirty : bool;
  sv_running : bool;
  sv_persistence_path : string;
  sv_last_flush_monotonic_ms : Z;
  (* the process-wide minter behind [mint_identity] *)
  sv_entropy : Z;
  sv_mint_counter : Z;
}.

#[export] Instance CoordinatorService_eta : Eta CoordinatorService :=
  fun r => mkCoordinatorService (sv_config r) (sv_authority r) (sv_catalog r) (sv_history r)
    (sv_admission r) (sv_counters r) (sv_sessions r) (sv_mutation_sequence r)
    (sv_persistence_dirty r) (sv_running r) (sv_persistence_path r)
    (sv_last_flush_monotonic_ms r) (sv_entropy r) (sv_mint_counter r).

(** The constructor; [entropy] and [counter] are the process minter's. *)
Definition service_new (config : ServiceConfig) (entropy counter : Z) : CoordinatorService :=
  {| sv_config := config;
     sv_authority := authority_new;
     sv_catalog := catalog_new limits.kCollectivesMaxLive;
     sv_history := history_set_capacity
       (history_new limits.kDecisionHistoryDefaultCapacity) (cf_decision_history_capacity config);
     sv_admission := admission_new limits.kTokenBucketsMax;
     sv_counters := counters_zero;
     sv_sessions := ∅;
     sv_mutation_sequence := 0;
     sv_persistence_dirty := false;
     sv_running := false;
     sv_persistence_path := "";
     sv_last_flush_monotonic_ms := 0;
     sv_entropy := entropy;
     sv_mint_counter := counter |}.

(** [++counters_.field] and [counters_.field += n]. *)
Definition count_n (field : Counters → Z) `{!Setter field} (n : Z) (s : CoordinatorService)
    : CoordinatorService :=
  s <| sv_counters ::= set_field field (fun c => w64 (c + n)) |>.
Abbreviation count field := (count_n field 1).

Definition mark_durable_mutation (s : CoordinatorService) : CoordinatorService :=
  s <| sv_mutation_sequence ::= fun n => w64 (n + 1) |> <| sv_persistence_dirty := true |>.

(** [mint_identity()], advancing the process counter. *)
Definition mint (s : CoordinatorService) : CoordinatorService * Identity :=
  (s <| sv_mint_counter ::= fun c => w64 (c + 1) |>,
   mint_identity (sv_entropy s) (sv_mint_counter s)).

Definition age_ms (now thenn : Z) : Z := if thenn <=? now then now - thenn else 0.

Definition participants_without_authority (participants : list Identity)
    (snapshot : EvaluationSnapshot) : list Identity :=
  std_sort id_ltb
    (filter (fun p => (match find_peer snapshot p with
                       | None => true
                       | Some l => negb (pr_is_current l (es_now_monotonic_ms snapshot))
                       end) = true) participants).

(** ** Lifecycle *)
Definition snapshot_contents (s : CoordinatorService) (now : Z) : SnapshotContents :=
  {| sc_format_version := kSnapshotFormatVersion;
     sc_written_monotonic_ms := now;
     sc_authority := durable_snapshot (sv_authority s);
     sc_records := export_all (sv_catalog s) |}.

(** [None] when [begin_boot] runs out of fuel, which [boot_fresh] excludes. *)
Definition start (s : CoordinatorService) (now : Z) : option (CoordinatorService * Status) :=
  if sv_running s then
    Some (s, mkStatus ErrorCode.kStateDuplicateRegistration
               "the coordinator is already running")
  else match begin_boot (sv_authority s) (sv_entropy s) (sv_mint_counter s)
               (au_epoch (sv_authority s)) with
  | None => None
  | Some (authority, counter) =>
      let freshness :=
        mkFreshnessPolicy (fr_topology_max_age_ms default_freshness)
          (fr_capacity_max_age_ms default_freshness)
          (cf_congestion_valid_for_ms (sv_config s))
          (fr_peer_liveness_max_age_ms default_freshness)
          (fr_stale_requires_revalidation default_freshness) in
      Some (s <| sv_authority := set_freshness_policy authority freshness |>
              <| sv_mint_counter := counter |> <| sv_running := true |>, status_ok)
  end.

(** What a critical section captured for the write that follows it. *)
Record PendingWrite := mkPendingWrite {
  pw_contents : SnapshotContents;
  pw_path : string;
  pw_captured_sequence : Z;
}.

Definition capture (s : CoordinatorService) (now : Z) : PendingWrite :=
  mkPendingWrite (snapshot_contents s now) (sv_persistence_path s) (sv_mutation_sequence s).

Definition expire_sessions (authority : AuthorityState) (sessions : list Identity) (now : Z)
    : AuthorityState :=
  foldl (fun a session => (expire_session a session now).1) authority sessions.

(** The critical section of [stop]: the write to perform, when there is one. *)
Definition stop_begin (s : CoordinatorService) (now : Z)
    : CoordinatorService * Result (option PendingWrite) :=
  if negb (sv_running s) then
    (s, fail ErrorCode.kStateNotLive "the coordinator is not running")
  else
    let authority :=
      expire_sessions (sv_authority s) (fst <$> map_to_list (sv_sessions s)) now in
    let s := s <| sv_running := false |>
               <| sv_authority := invalidate_dynamic_evidence authority |>
               <| sv_sessions := ∅ |>
               <| sv_history ::= history_clear |>
               <| sv_admission ::= admission_clear |> in
    (s, Ok (if sv_persistence_dirty s && negb (slen (sv_persistence_path s) =? 0)
            then Some (capture s now) else None)).

(** The second critical section of [stop] and of [flush], after [store.save]. *)
Definition write_done (s : CoordinatorService) (pending : PendingWrite) (saved : Status)
    : CoordinatorService :=
  if is_ok saved then
    count k_persists
      (if sv_mutation_sequence s =? pw_captured_sequence pending
       then s <| sv_persistence_dirty := false |> else s)
  else s.

(** [stop] with nothing between its critical sections; [save] is what the store answers. *)
Definition stop (s : CoordinatorService) (now : Z) (save : PendingWrite → Status)
    : CoordinatorService * Status :=
  match stop_begin s now with
  | (s, Fail status) => (s, status)
  | (s, Ok None) => (s, status_ok)
  | (s, Ok (Some pending)) => (write_done s pending (save pending), save pending)
  end.

Definition has_policy (s : CoordinatorService) : bool :=
  is_some (tp_generation (policy_snapshot (sv_authority s))).

(** ** Sessions *)
Definition open_session (s : CoordinatorService) (peer_label : string) (now : Z)
    : CoordinatorService * Result SessionBinding :=
  if negb (sv_running s) then
    (s, fail ErrorCode.kStateShuttingDown "the coordinator is not accepting sessions")
  else if limits.kSessionsMax <=? mapsize (sv_sessions s) then
    (s, fail ErrorCode.kTransportSessionLimit "the session limit has been reached")
  else
    let '(s, id) := mint s in
    let '(s, incarnation) := mint s in
    let binding :=
      {| sb_id := id;
         sb_incarnation := incarnation;
         sb_epoch := au_epoch (sv_authority s);
         sb_peer_label :=
           if limits.kLabelBytesMax <? slen peer_label
           then String.substring 0 (Z.to_nat limits.kLabelBytesMax) peer_label else peer_label;
         sb_opened_monotonic_ms := now;
         sb_last_frame_monotonic_ms := now;
         sb_last_frame_sequence := 0;
         sb_frames_received := 0;
         sb_frames_rejected := 0;
         sb_accepted_participants := 0 |} in
    (* [emplace] keeps an existing entry *)
    let s := if present (sv_sessions s !! id) then s
             else s <| sv_sessions ::= <[id := binding]> |> in
    (count k_sessions_opened s, Ok binding).

Definition check_session_locked (s : CoordinatorService) (envelope : EnvelopeView) (now : Z)
    (reasons : ReasonChain) : CoordinatorService * ReasonChain * Status :=
  if is_none (ev_session envelope) then
    (s, rc_push reasons "envelope_session_missing" "the frame carries no session identity" id_none,
     mkStatus ErrorCode.kEnvelopeSessionUnknown "the frame carries no session identity")
  else match sv_sessions s !! ev_session envelope with
  | None =>
      (s, rc_push reasons "envelope_session_unknown"
            "the session is not known to this coordinator" (ev_session envelope),
       mkStatus ErrorCode.kEnvelopeSessionUnknown "unknown session")
  | Some binding =>
      if is_none (ev_epoch envelope) || negb (ev_epoch envelope =i au_epoch (sv_authority s)) then
        (s, rc_push reasons "envelope_epoch_stale"
              "the frame names a coordinator epoch that is not current; a restart invalidates every earlier authority"
              (ev_epoch envelope),
         mkStatus ErrorCode.kEnvelopeEpochStale "stale coordinator epoch")
      else if is_none (ev_incarnation envelope) then
        (s, rc_push reasons "envelope_incarnation_missing"
              "the frame carries no boot incarnation" id_none,
         mkStatus ErrorCode.kEnvelopeIncarnationStale "missing boot incarnation")
      else if negb (ev_incarnation envelope =i sb_incarnation binding) then
        if ev_incarnation envelope <i sb_incarnation binding then
          (s, rc_push reasons "envelope_incarnation_fenced"
                "the frame comes from a boot incarnation that has been fenced"
                (ev_incarnation envelope),
           mkStatus ErrorCode.kEnvelopeIncarnationStale "fenced boot incarnation")
        else
          (s, reasons, mkStatus ErrorCode.kEnvelopeSessionMismatch
                         "boot incarnation does not match this session")
      else if seq_is_unset (ev_frame_sequence envelope) then
        (s, rc_push reasons "envelope_sequence_missing" "the frame carries no sequence number"
              id_none,
         mkStatus ErrorCode.kEnvelopeSequenceRegression "missing frame sequence")
      else if ev_frame_sequence envelope <=? sb_last_frame_sequence binding then
        (s, rc_push reasons "envelope_sequence_regression"
              "the frame sequence did not advance; replays and reordered frames are refused"
              (ev_session envelope),
         mkStatus ErrorCode.kEnvelopeReplayed "frame sequence did not advance")
      else
        let binding := binding
          <| sb_last_frame_sequence := ev_frame_sequence envelope |>
          <| sb_last_frame_monotonic_ms := now |>
          <| sb_frames_received ::= fun n => w64 (n + 1) |> in
        (s <| sv_sessions ::= <[ev_session envelope := binding]> |>, reasons, status_ok)
  end.

Definition validate_envelope := check_session_locked.

(** The teardown shared by [close_session] and the sweep. *)
Definition drop_session (s : CoordinatorService) (session : Identity) (now : Z)
    : CoordinatorService :=
  let '(authority, expired) := expire_session (sv_authority s) session now in
  let s := count_n k_fences expired (s <| sv_authority := authority |>) in
  count k_sessions_closed (s <| sv_sessions ::= delete session |>).

Definition close_session (s : CoordinatorService) (session : Identity) (now : Z)
    : CoordinatorService * Status :=
  match sv_sessions s !! session with
  | None => (s, mkStatus ErrorCode.kEnvelopeSessionUnknown "unknown session")
  | Some _ => (drop_session s session now, status_ok)
  end.

Definition session_count (s : CoordinatorService) : Z := mapsize (sv_sessions s).

Definition is_idle (s : CoordinatorService) (now : Z) (binding : SessionBinding) : bool :=
  cf_session_idle_ttl_ms (sv_config s) <? age_ms now (sb_last_frame_monotonic_ms binding).

Definition sweep_idle_sessions (s : CoordinatorService) (now : Z) : CoordinatorService * Z :=
  let stale := std_sort id_ltb
    (fst <$> filter (fun e => is_idle s now e.2 = true) (map_to_list (sv_sessions s))) in
  (foldl (fun s session => drop_session s session now) s stale, zlen stale).

(** ** Participants *)
Definition publish_participant (s : CoordinatorService) (context : ServiceRequestContext)
    (participant incarnation node : Identity) (state : ParticipantState)
    : CoordinatorService * Status :=
  let now := cx_now_monotonic_ms context in
  let fenced s := (count k_fences s, mkStatus ErrorCode.kEnvelopeIncarnationStale
        "a newer boot incarnation for this participant has already been observed") in
  if is_none participant || is_none incarnation then
    (s, mkStatus ErrorCode.kValidationParticipantUnset
          "participant or incarnation identity is unset")
  else if negb (participant_state_holds_authority state) then
    let liveness :=
      mkPeerLiveness participant incarnation state now now node (cx_session context) in
    let '(authority, published) := publish_liveness (sv_authority s) liveness in
    let s := s <| sv_authority := authority |> in
    match published with
    | PublishResult.kFencedStaleIncarnation => fenced s
    | _ => (s, status_ok)
    end
  else
    let liveness :=
      mkPeerLiveness participant incarnation ParticipantState.kLive now
        (w64 (now + cf_participant_ttl_ms (sv_config s))) node (cx_session context) in
    let '(authority, published) := publish_liveness (sv_authority s) liveness in
    let s := s <| sv_authority := authority |> in
    match published with
    | PublishResult.kFencedStaleIncarnation => fenced s
    | PublishResult.kRejectedCapacity =>
        (s, mkStatus ErrorCode.kStateCapacityExceeded "the participant table is full")
    | _ =>
        (s <| sv_sessions ::= alter (fun b : SessionBinding =>
               b <| sb_accepted_participants ::= fun n => w64 (n + 1) |>) (cx_session context) |>,
         status_ok)
    end.

Definition heartbeat (s : CoordinatorService) (context : ServiceRequestContext)
    (participant incarnation : Identity) : CoordinatorService * Status :=
  if is_none participant || is_none incarnation then
    (s, mkStatus ErrorCode.kValidationParticipantUnset
          "participant or incarnation identity is unset")
  else
    let '(authority, beat) :=
      Authority.heartbeat (sv_authority s) participant incarnation
        (cx_now_monotonic_ms context) (cf_participant_ttl_ms (sv_config s)) in
    let s := s <| sv_authority := authority |> in
    if beat then (s, status_ok)
    else (count k_fences s, mkStatus ErrorCode.kEnvelopeIncarnationStale
            "the heartbeat comes from a boot incarnation that has been fenced").

Definition peers (s : CoordinatorService) : list PeerLiveness :=
  peers_snapshot (sv_authority s).

(** ** Collectives *)
Definition register_collective (s : CoordinatorService) (context : ServiceRequestContext)
    (definition : CollectiveDefinition)
    : CoordinatorService * Status * option RegistrationOutcome :=
  if negb (sv_running s) then
    (s, mkStatus ErrorCode.kStateShuttingDown "the coordinator is not running", None)
  else if negb (present (sv_sessions s !! cx_session context)) then
    (s, mkStatus ErrorCode.kEnvelopeSessionUnknown "unknown session", None)
  else
    let '(catalog, outcome) :=
      register_definition (sv_catalog s) definition (cx_now_monotonic_ms context) in
    let s := s <| sv_catalog := catalog |> in
    let '(s, status) :=
      match ro_result outcome with
      | RegistrationResult.kRegistered =>
          (mark_durable_mutation (count k_registrations s), status_ok)
      | RegistrationResult.kGenerationAdvanced =>
          (mark_durable_mutation (count k_generation_advances (count k_registrations s)),
           status_ok)
      | RegistrationResult.kUnchanged => (s, status_ok)
      | RegistrationResult.kRejectedCapacity =>
          (s, mkStatus ErrorCode.kStateCapacityExceeded
                "the live collective bound has been reached")
      | RegistrationResult.kRejectedTerminal =>
          (s, mkStatus ErrorCode.kStateCollectiveRetired
                "the collective is terminal; a durable definition is never resurrected")
      | RegistrationResult.kRejectedInvalid =>
          (s, mkStatus ErrorCode.kValidationClassUnknownRejected "the definition was rejected")
      end in
    (s, status, Some outcome).

Definition begin_attempt (s : CoordinatorService) (context : ServiceRequestContext)
    (id generation attempt : Identity) (transfer_bytes : Z)
    : CoordinatorService * Status * option AttemptOutcome :=
  let outcome := mkAttemptOutcome id attempt id_none CollectiveState.kUnregistered [] in
  let explain (o : AttemptOutcome) reason detail :=
    o <| ao_reasons := rc_push [] reason detail id |> in
  if negb (sv_running s) then
    (s, mkStatus ErrorCode.kStateShuttingDown "the coordinator is not running", None)
  else match catalog_find (sv_catalog s) id with
  | None =>
      (count k_stale_completions_rejected s,
       mkStatus ErrorCode.kCompletionUnknownCollective "collective is not registered",
       Some (explain outcome "collective_unknown"
               "no durable definition exists for this identity"))
  | Some record =>
      if negb (cd_generation (cr_definition record) =i generation) then
        (count k_stale_completions_rejected s,
         mkStatus ErrorCode.kCompletionStaleGeneration "collective generation is stale",
         Some (explain (outcome <| ao_state := cr_state record |>) "attempt_generation_stale"
                 "the attempt names a collective generation that is not current"))
      else if collective_state_is_terminal (cr_state record) then
        (count k_stale_completions_rejected s,
         mkStatus (if bool_decide (cr_state record = CollectiveState.kCancelled)
                   then ErrorCode.kCompletionCancelled else ErrorCode.kCompletionRetired)
           "collective is terminal",
         Some (explain (outcome <| ao_state := cr_state record |>) "collective_terminal"
                 "a cancelled, retired or completed collective never resumes"))
      else
        let '(catalog, begun) :=
          Catalog.begin_attempt (sv_catalog s) id attempt (cx_now_monotonic_ms context) in
        let s := s <| sv_catalog := catalog |> in
        match begun with
        | Fail status =>
            (s, status, Some (explain outcome "attempt_rejected" (st_message status)))
        | Ok previous =>
            let s := s <| sv_catalog ::= fun c =>
              catalog_modify c id (fun r => r <| cr_attempt_transfer_bytes := transfer_bytes |>) |> in
            let state := match catalog_find (sv_catalog s) id with
                         | Some updated => cr_state updated
                         | None => CollectiveState.kPlanning
                         end in
            (mark_durable_mutation s, status_ok,
             Some (explain (outcome <| ao_previous_attempt := previous |> <| ao_state := state |>)
                     "attempt_begun"
                     "a new attempt was opened; every decision bound to the previous attempt is now stale"))
        end
  end.

(** The texts and codes in which [cancel_collective] and [retire_collective] differ. *)
Definition names_stale_attempt (record : CollectiveRecord) (attempt : Identity) : bool :=
  is_some (cr_current_attempt record) && is_some attempt &&
  negb (cr_current_attempt record =i attempt).

(** [out_state] is assigned only on some paths. *)
Definition cancel_collective (s : CoordinatorService) (context : ServiceRequestContext)
    (id generation attempt : Identity) (reasons : ReasonChain)
    : CoordinatorService * Status * option CollectiveState * ReasonChain :=
  match catalog_find (sv_catalog s) id with
  | None =>
      (s, mkStatus ErrorCode.kCompletionUnknownCollective "collective is not registered", None,
       rc_push reasons "collective_unknown" "no durable definition exists for this identity" id)
  | Some record =>
      if negb (cd_generation (cr_definition record) =i generation) then
        (count k_stale_completions_rejected s,
         mkStatus ErrorCode.kCompletionStaleGeneration "collective generation is stale", None,
         rc_push reasons "cancellation_generation_stale"
           "the cancellation names a generation that is not current; it is refused rather than applied to the wrong generation" id)
      else if collective_state_is_terminal (cr_state record) then
        (s, mkStatus (if bool_decide (cr_state record = CollectiveState.kCancelled)
                      then ErrorCode.kCompletionDuplicate else ErrorCode.kCompletionRetired)
              "collective is already terminal", Some (cr_state record),
         rc_push reasons "cancellation_terminal" "the collective is already terminal" id)
      else if names_stale_attempt record attempt then
        (count k_stale_completions_rejected s,
         mkStatus ErrorCode.kCompletionStaleAttempt "attempt is stale", None,
         rc_push reasons "cancellation_attempt_stale"
           "the cancellation names an attempt that is no longer current" id)
      else
        let '(catalog, status) := cancel (sv_catalog s) id (cx_now_monotonic_ms context) in
        let s := s <| sv_catalog := catalog |> in
        if negb (is_ok status) then
          (s, status, None, rc_push reasons "cancellation_failed" (st_message status) id)
        else
          (mark_durable_mutation (count k_cancellations s), status_ok,
           Some CollectiveState.kCancelled,
           rc_push reasons "cancelled"
             "the collective is cancelled; a later completion for any earlier generation or attempt cannot restore it" id)
  end.

Definition retire_collective (s : CoordinatorService) (context : ServiceRequestContext)
    (id generation attempt : Identity) (reasons : ReasonChain)
    : CoordinatorService * Status * option CollectiveState * ReasonChain :=
  match catalog_find (sv_catalog s) id with
  | None =>
      (s, mkStatus ErrorCode.kCompletionUnknownCollective "collective is not registered", None,
       rc_push reasons "collective_unknown" "no durable definition exists for this identity" id)
  | Some record =>
      if negb (cd_generation (cr_definition record) =i generation) then
        (count k_stale_completions_rejected s,
         mkStatus ErrorCode.kCompletionStaleGeneration "collective generation is stale", None,
         rc_push reasons "retirement_generation_stale"
           "the retirement names a generation that is not current" id)
      else if collective_state_is_terminal (cr_state record) then
        (s, mkStatus ErrorCode.kCompletionDuplicate "collective is already terminal",
         Some (cr_state record),
         rc_push reasons "retirement_terminal" "the collective is already terminal" id)
      else if names_stale_attempt record attempt then
        (count k_stale_completions_rejected s,
         mkStatus ErrorCode.kCompletionStaleAttempt "attempt is stale", None,
         rc_push reasons "retirement_attempt_stale"
           "the retirement names an attempt that is no longer current" id)
      else
        let '(catalog, status) := retire (sv_catalog s) id (cx_now_monotonic_ms context) in
        let s := s <| sv_catalog := catalog |> in
        if negb (is_ok status) then
          (s, status, None, rc_push reasons "retirement_failed" (st_message status) id)
        else
          (mark_durable_mutation (count k_retirements s), status_ok,
           Some CollectiveState.kRetired,
           rc_push reasons "retired"
             "the durable definition is retired and never resurrected" id)
  end.

(** ** Decisions *)

(** The stale answer [plan_flow_group] builds before it evaluates anything. *)
Definition stale_decision (context : ServiceRequestContext) (request : DecisionRequest)
    (collective_class : CollectiveClass) (axis : AuthorityAxis) (code : ErrorCode)
    (reason detail : string) : DecisionRecord :=
  record_default
    <| de_instance := dr_instance request |>
    <| de_collective_class := collective_class |>
    <| de_outcome := Outcome.kRejectedStale |>
    <| de_axis := axis |>
    <| de_code := code |>
    <| de_decided_monotonic_ms := cx_now_monotonic_ms context |>
    <| de_reasons := rc_push [] reason detail (ci_id (dr_instance request)) |>.

(** Records the decision and answers with it. *)
Definition answer_stale (s : CoordinatorService) (decision : DecisionRecord)
    : CoordinatorService * Status * option DecisionRecord :=
  let s := count k_stale_completions_rejected s in
  (s <| sv_history ::= fun h => (history_record h decision).1 |>, status_ok, Some decision).

Definition effective_definition (record : CollectiveRecord) : CollectiveDefinition :=
  if (cd_logical_bytes (cr_definition record) =? 0) &&
     negb (cr_attempt_transfer_bytes record =? 0)
  then (cr_definition record) <| cd_logical_bytes := cr_attempt_transfer_bytes record |>
  else cr_definition record.

Definition append_reasons (decision : DecisionRecord) (reasons : ReasonChain) : DecisionRecord :=
  decision <| de_reasons ::= fun rs =>
    foldl (fun rs r => rc_push rs (r_code r) (r_detail r) (r_subject r)) rs reasons |>.

(** [evaluate] against the frozen snapshot, rebound to the request's instance. *)
Definition evaluated_decision (s : CoordinatorService) (now : Z) (request : DecisionRequest)
    (record : CollectiveRecord) : DecisionRecord :=
  let snapshot := authority_snapshot (sv_authority s) now in
  let evaluated :=
    (evaluate snapshot request (effective_definition record) (mkEngineCounters 0 0 0 0)).1 in
  evaluated <| de_instance := dr_instance request |>.

(** The [switch] on the admission outcome. *)
Definition apply_admission (s : CoordinatorService) (now : Z) (evaluated : DecisionRecord)
    (admission : AdmissionResult) : CoordinatorService * DecisionRecord :=
  match ar_outcome admission with
  | AdmissionOutcome.kGranted => (count k_admissions s, evaluated)
  | AdmissionOutcome.kRateLimited =>
      (count k_rate_limited s,
       evaluated
         <| de_pacing ::= fun p : PacingIntent =>
              p <| pi_release_after_monotonic_ms := w64 (now + ar_wait_ms admission) |> |>
         <| de_outcome := Outcome.kRateLimited |>
         <| de_code := ErrorCode.kAdmissionRateLimited |>)
  | AdmissionOutcome.kClockRegression =>
      (count k_deferred s,
       evaluated
         <| de_outcome := Outcome.kDeferred |>
         <| de_code := ErrorCode.kAdmissionClockRegression |>
         <| de_pacing ::= fun p : PacingIntent => p <| pi_release_after_monotonic_ms := 0 |> |>)
  | AdmissionOutcome.kBucketTableFull =>
      (count k_rejections s,
       evaluated
         <| de_outcome := Outcome.kRejectedCapacity |>
         <| de_axis := AuthorityAxis.kCapacityEvidence |>
         <| de_code := ErrorCode.kAdmissionBucketCapacity |>)
  | AdmissionOutcome.kNotApplicable => (s, evaluated)
  end.

(** What follows the evaluation: activation and admission of a grant, or the counters of a
    refusal. *)
Definition settle (s : CoordinatorService) (now : Z) (request : DecisionRequest)
    (evaluated : DecisionRecord) : CoordinatorService * DecisionRecord :=
  if outcome_grants_authority (de_outcome evaluated) then
    let '(catalog, advanced) :=
      set_state (sv_catalog s) (ci_id (dr_instance request)) CollectiveState.kActive now in
    let s := s <| sv_catalog := catalog |> in
    if negb (is_ok advanced) then
      (s, evaluated
            <| de_outcome := Outcome.kRejectedStale |>
            <| de_axis := AuthorityAxis.kLifecycle |>
            <| de_code := st_code advanced |>
            <| de_reasons ::= fun rs => rc_push rs "activation_failed" (st_message advanced)
                                          (ci_id (dr_instance request)) |>)
    else
      let '(controller, admission) := Admission.admit_decision (sv_admission s) evaluated now in
      apply_admission (s <| sv_admission := controller |>) now
        (append_reasons evaluated (ar_reasons admission)) admission
  else if outcome_is_rejection (de_outcome evaluated) then
    let s := count k_rejections s in
    let s := if bool_decide (de_outcome evaluated = Outcome.kRejectedStale)
             then count k_rejections_stale s else s in
    let s := if bool_decide (de_outcome evaluated = Outcome.kUnknownSemantics)
             then count k_rejections s else s in
    (s, evaluated)
  else if outcome_requires_replan (de_outcome evaluated) then (count k_replans s, evaluated)
  else (s, evaluated).

(** The session gate of [plan_flow_group]. *)
Definition plan_gate (s : CoordinatorService) (context : ServiceRequestContext) : option Status :=
  if is_some (cx_session context) then
    match sv_sessions s !! cx_session context with
    | None => Some (mkStatus ErrorCode.kEnvelopeSessionUnknown "unknown session")
    | Some session =>
        if negb (sb_incarnation session =i cx_incarnation context) then
          Some (mkStatus ErrorCode.kEnvelopeSessionMismatch "session incarnation does not match")
        else if is_some (cx_epoch context) &&
                negb (cx_epoch context =i au_epoch (sv_authority s)) then
          Some (mkStatus ErrorCode.kEnvelopeEpochStale "stale coordinator epoch")
        else None
    end
  else None.

Definition plan_flow_group (s : CoordinatorService) (context : ServiceRequestContext)
    (request : DecisionRequest) : CoordinatorService * Status * option DecisionRecord :=
  let now := cx_now_monotonic_ms context in
  let id := ci_id (dr_instance request) in
  if negb (sv_running s) then
    (s, mkStatus ErrorCode.kStateShuttingDown "the coordinator is not running", None)
  else match plan_gate s context with
  | Some status => (s, status, None)
  | None =>
  let validated := validate_decision_request request in
  if negb (is_ok validated) then (s, validated, None)
  else match catalog_find (sv_catalog s) id with
  | None =>
      answer_stale (count k_rejections_stale (count k_rejections s))
        (stale_decision context request (de_collective_class record_default)
           AuthorityAxis.kCollectiveGeneration ErrorCode.kCompletionUnknownCollective
           "collective_unknown"
           "no durable definition exists for this identity; a decision requires a registered collective")
  | Some record =>
      let class := cd_collective_class (cr_definition record) in
      if negb (cd_generation (cr_definition record) =i ci_generation (dr_instance request)) then
        answer_stale (count k_rejections_stale (count k_rejections s))
          (stale_decision context request class AuthorityAxis.kCollectiveGeneration
             ErrorCode.kCompletionStaleGeneration "collective_generation_stale"
             "the request names a generation that is not current; membership or semantics changed and every earlier decision is stale")
      else if is_none (cr_current_attempt record) ||
              negb (cr_current_attempt record =i ci_attempt (dr_instance request)) then
        answer_stale (count k_rejections_stale (count k_rejections s))
          (stale_decision context request class AuthorityAxis.kAttemptGeneration
             ErrorCode.kCompletionStaleAttempt "attempt_stale"
             "the request names an attempt that is not the current attempt of this generation; flow group authority cannot be reused across attempts")
      else if collective_state_is_terminal (cr_state record) then
        answer_stale (count k_rejections s)
          (stale_decision context request class AuthorityAxis.kLifecycle
             (if bool_decide (cr_state record = CollectiveState.kCancelled)
              then ErrorCode.kCompletionCancelled else ErrorCode.kCompletionRetired)
             "collective_terminal"
             (String.append "the collective is "
                (String.append (CollectiveState.CollectiveState_to_string (cr_state record))
                   "; it cannot be restored by a later completion")))
      else
        let '(s, decision) := settle s now request (evaluated_decision s now request record) in
        let s := count k_decisions s in
        let '(history, ordinal) := history_record (sv_history s) decision in
        let history :=
          if is_some (cx_session context) && negb (cx_correlation context =? 0)
          then history_bind_correlation history (cx_correlation context) ordinal else history in
        (s <| sv_history := history |>, status_ok, Some decision)
  end end.

(** ** Evidence *)
Definition check_context_locked (s : CoordinatorService) (context : ServiceRequestContext)
    (reasons : ReasonChain) : ReasonChain * Status :=
  match sv_sessions s !! cx_session context with
  | None =>
      (rc_push reasons "session_unknown"
         "the request does not come from a session this coordinator owns" (cx_session context),
       mkStatus ErrorCode.kEnvelopeSessionUnknown "unknown session")
  | Some session =>
      if is_none (cx_incarnation context) ||
         negb (sb_incarnation session =i cx_incarnation context) then
        (rc_push reasons "session_incarnation_mismatch"
           "the request carries a boot incarnation that this session does not own"
           (cx_incarnation context),
         mkStatus ErrorCode.kEnvelopeSessionMismatch "session incarnation does not match")
      else if is_some (cx_epoch context) &&
              negb (cx_epoch context =i au_epoch (sv_authority s)) then
        (rc_push reasons "epoch_stale"
           "the request names a coordinator epoch that is not current; a restart invalidates every earlier authority"
           (cx_epoch context),
         mkStatus ErrorCode.kEnvelopeEpochStale "stale coordinator epoch")
      else (reasons, status_ok)
  end.

(** [if (generation.is_none()) generation = mint_identity();] *)
Definition mint_if_none (s : CoordinatorService) (generation : Identity)
    : CoordinatorService * Identity :=
  if is_none generation then mint s else (s, generation).

(** The answer of an ingestion: the state, the generation in force, the reasons, the status;
    the generation is not assigned when the caller is refused. *)
Abbreviation Ingested :=
  (CoordinatorService * option Identity * ReasonChain * Status)%type.

Definition ingest_capacity (s : CoordinatorService) (context : ServiceRequestContext)
    (evidence : CapacityEvidence) (reasons : ReasonChain) : Ingested :=
  let '(reasons, authority) := check_context_locked s context reasons in
  if negb (is_ok authority) then (s, None, reasons, authority)
  else
    let '(s, generation) := mint_if_none s (ce_generation evidence) in
    let evidence := evidence <| ce_generation := generation |> in
    let '(state, result) := install_capacity (sv_authority s) evidence in
    let s := count k_evidence_ingests (s <| sv_authority := state |>) in
    let out_generation := Some (au_capacity_generation (sv_authority s)) in
    match result with
    | InstallResult.kInstalled =>
        (s, out_generation, rc_push reasons "capacity_installed"
           "capacity observation installed for the current topology" generation, status_ok)
    | InstallResult.kRejectedOlderGeneration =>
        (s, out_generation, rc_push reasons "capacity_generation_stale"
           "a newer capacity observation is already installed; an older one is refused" generation,
         mkStatus ErrorCode.kEnvelopeEpochStale "capacity generation is not newer")
    | InstallResult.kRejectedInvalid =>
        (s, out_generation, rc_push reasons "capacity_invalid"
           "the capacity observation does not match the current topology or is malformed"
           (ce_topology_generation evidence),
         mkStatus ErrorCode.kValidationTopologyMissing "capacity evidence rejected")
    | InstallResult.kRejectedOversized | InstallResult.kRejectedSameGeneration =>
        (s, out_generation, rc_push reasons "capacity_oversized"
           "the capacity observation exceeds the accepted bound" generation,
         mkStatus ErrorCode.kDecodeCountOutOfRange "capacity evidence too large")
    end.

Definition ingest_congestion (s : CoordinatorService) (context : ServiceRequestContext)
    (evidence : CongestionEvidence) (reasons : ReasonChain) : Ingested :=
  let '(reasons, authority) := check_context_locked s context reasons in
  if negb (is_ok authority) then (s, None, reasons, authority)
  else
    let '(s, generation) := mint_if_none s (ge_generation evidence) in
    let evidence := evidence <| ge_generation := generation |> in
    let bound := Z.min (ge_valid_for_ms evidence) (cf_congestion_valid_for_ms (sv_config s)) in
    let evidence := if negb (bound =? ge_valid_for_ms evidence)
                    then evidence <| ge_valid_for_ms := bound |> else evidence in
    let '(state, result) := install_congestion (sv_authority s) evidence in
    let s := count k_evidence_ingests (s <| sv_authority := state |>) in
    let out_generation := Some (au_congestion_generation (sv_authority s)) in
    match result with
    | InstallResult.kInstalled =>
        (s, out_generation, rc_push reasons "congestion_installed"
           "congestion observation installed for the current topology" generation, status_ok)
    | InstallResult.kRejectedOlderGeneration =>
        (s, out_generation, rc_push reasons "congestion_generation_stale"
           "a newer congestion observation is already installed; an older one is refused"
           generation,
         mkStatus ErrorCode.kEnvelopeEpochStale "congestion generation is not newer")
    | InstallResult.kRejectedInvalid =>
        (s, out_generation, rc_push reasons "congestion_invalid"
           "the congestion observation does not match the current topology or is malformed"
           (ge_topology_generation evidence),
         mkStatus ErrorCode.kValidationTopologyMissing "congestion evidence rejected")
    | InstallResult.kRejectedOversized | InstallResult.kRejectedSameGeneration =>
        (s, out_generation, rc_push reasons "congestion_oversized"
           "the congestion observation exceeds the accepted bound" generation,
         mkStatus ErrorCode.kDecodeCountOutOfRange "congestion evidence too large")
    end.

Definition ingest_topology (s : CoordinatorService) (context : ServiceRequestContext)
    (evidence : TopologyEvidence) (reasons : ReasonChain) : Ingested :=
  let '(reasons, authority) := check_context_locked s context reasons in
  if negb (is_ok authority) then (s, None, reasons, authority)
  else
    let '(s, generation) := mint_if_none s (te_generation evidence) in
    let evidence := evidence <| te_generation := generation |> in
    let '(state, result) := install_topology (sv_authority s) evidence in
    let s := count k_evidence_ingests (s <| sv_authority := state |>) in
    let out_generation := Some (au_topology_generation (sv_authority s)) in
    match result with
    | InstallResult.kInstalled =>
        (mark_durable_mutation s, out_generation, rc_push reasons "topology_installed"
           "topology installed; capacity and congestion observations were dropped because they describe a previous topology"
           generation, status_ok)
    | InstallResult.kRejectedOlderGeneration =>
        (s, out_generation, rc_push reasons "topology_generation_stale"
           "a newer topology is already installed; an older one is refused" generation,
         mkStatus ErrorCode.kEnvelopeEpochStale "topology generation is not newer")
    | InstallResult.kRejectedInvalid =>
        (s, out_generation, rc_push reasons "topology_invalid"
           "the topology observation is malformed" generation,
         mkStatus ErrorCode.kValidationNodeUnknown "topology evidence rejected")
    | InstallResult.kRejectedOversized | InstallResult.kRejectedSameGeneration =>
        (s, out_generation, rc_push reasons "topology_oversized"
           "the topology observation exceeds the accepted bound" generation,
         mkStatus ErrorCode.kDecodeCountOutOfRange "topology evidence too large")
    end.

Definition install_policy (s : CoordinatorService) (context : ServiceRequestContext)
    (policy : TrafficPolicy) (reasons : ReasonChain) : Ingested :=
  let '(reasons, authority) := check_context_locked s context reasons in
  if negb (is_ok authority) then (s, None, reasons, authority)
  else
    let '(s, generation) := mint_if_none s (tp_generation policy) in
    let policy := policy <| tp_generation := generation |> in
    let '(state, result) := Authority.install_policy (sv_authority s) policy in
    let s := s <| sv_authority := state |> in
    let out := au_policy_generation (sv_authority s) in
    match result with
    | InstallResult.kInstalled =>
        (mark_durable_mutation s, Some out, rc_push reasons "policy_installed"
           "traffic policy installed; earlier decisions bound to a previous policy generation are now stale"
           out, status_ok)
    | InstallResult.kRejectedSameGeneration =>
        (s, Some out, rc_push reasons "policy_generation_reused"
           "the policy generation equals the one already installed; a different policy under the same generation would make two incompatible decisions indistinguishable"
           out,
         mkStatus ErrorCode.kEnvelopeEpochStale "policy generation is already installed")
    | InstallResult.kRejectedOlderGeneration =>
        (s, Some out, rc_push reasons "policy_generation_superseded"
           "this policy generation has already been superseded by a newer one" out,
         mkStatus ErrorCode.kEnvelopeEpochStale "policy generation is superseded")
    | InstallResult.kRejectedOversized | InstallResult.kRejectedInvalid =>
        (s, Some out, rc_push reasons "policy_rejected"
           "the traffic policy is not internally consistent" id_none,
         mkStatus ErrorCode.kValidationPolicyMissing "traffic policy rejected")
    end.

(** ** Persistence *)
Definition configure_persistence (s : CoordinatorService) (path : string) (now : Z)
    : CoordinatorService * Status :=
  (s <| sv_persistence_path := path |> <| sv_persistence_dirty := false |>
     <| sv_last_flush_monotonic_ms := now |>, status_ok).

(** [loaded], [contents] and [diagnostic] are what [SnapshotStore::load] answered for [path]. *)
Definition restore (s : CoordinatorService) (path : string) (now : Z)
    (loaded : LoadDisposition) (contents : SnapshotContents) (diagnostic : string)
    : CoordinatorService * LoadDisposition * Status :=
  match loaded with
  | LoadDisposition.kMissing =>
      (s, loaded, mkStatus ErrorCode.kPersistenceOpenFailed
                    "no snapshot file exists at the configured path")
  | LoadDisposition.kLoaded =>
      let '(authority, status) :=
        restore_durable (sv_authority s) (sc_authority contents) now in
      let s := s <| sv_authority := authority |> in
      if negb (is_ok status) then (s, LoadDisposition.kRejectedImpossible, status)
      else
        let '(catalog, status) := catalog_load (sv_catalog s) (sc_records contents) in
        let s := s <| sv_catalog := catalog |> in
        if negb (is_ok status) then (s, LoadDisposition.kRejectedImpossible, status)
        else (count k_restores (s <| sv_persistence_path := path |>
                                  <| sv_persistence_dirty := false |>), loaded, status_ok)
  | _ =>
      (s, loaded, mkStatus ErrorCode.kPersistenceCorrupt
                    (if slen diagnostic =? 0 then "snapshot rejected" else diagnostic))
  end.

(** The first critical section of [flush]; [Ok None] when there is nothing to write. *)
Definition flush_begin (s : CoordinatorService) (now : Z)
    : CoordinatorService * Result (option PendingWrite) :=
  if slen (sv_persistence_path s) =? 0 then
    (s, fail ErrorCode.kPersistenceDirectoryUnavailable "no persistence path is configured")
  else if negb (sv_persistence_dirty s) then (s, Ok None)
  else (s <| sv_last_flush_monotonic_ms := now |>, Ok (Some (capture s now))).

Definition flush (s : CoordinatorService) (now : Z) (save : PendingWrite → Status)
    : CoordinatorService * Status :=
  match flush_begin s now with
  | (s, Fail status) => (s, status)
  | (s, Ok None) => (s, status_ok)
  | (s, Ok (Some pending)) =>
      let status := save pending in
      if negb (is_ok status) then (s, status) else (write_done s pending status, status_ok)
  end.

Definition persistence_configured (s : CoordinatorService) : bool :=
  negb (slen (sv_persistence_path s) =? 0).

Definition reset_counters (s : CoordinatorService) : CoordinatorService :=
  s <| sv_counters := counters_zero |>.

Definition set_config (s : CoordinatorService) (config : ServiceConfig) : CoordinatorService :=
  s <| sv_config := config |>
    <| sv_history ::= fun h => history_set_capacity h (cf_decision_history_capacity config) |>.

(** ** Inspection *)
Definition concat_all (parts : list string) : string := String.concat "" parts.

Definition render_definition (definition : CollectiveDefinition) : string :=
  concat_all
    ["  class="; CollectiveClass.CollectiveClass_to_string (cd_collective_class definition);
     " hint="; AlgorithmHint.AlgorithmHint_to_string (cd_algorithm_hint definition);
     " scope="; CollectiveScope.CollectiveScope_to_string (cd_scope definition); newline;
     "  label="; if slen (cd_label definition) =? 0 then "-" else cd_label definition; newline;
     "  participants="; decimal (zlen (cd_participants definition));
     " phases="; decimal (zlen (cd_phases definition));
     " steps="; decimal (zlen (cd_steps definition));
     " logical_bytes="; decimal (cd_logical_bytes definition); newline;
     "  barrier_semantics="; yes_no (cd_declares_barrier_semantics definition);
     " fabric=";
     if is_some (cd_fabric definition) then id_to_string (cd_fabric definition) else "-";
     newline].

Definition inspect_collective (s : CoordinatorService) (id : Identity) : string :=
  match catalog_find (sv_catalog s) id with
  | None => concat_all ["collective "; id_to_string id; " is not registered"; newline]
  | Some record =>
      concat_all
        ["collective: "; id_to_string (cd_id (cr_definition record)); newline;
         "  generation: "; id_to_string (cd_generation (cr_definition record)); newline;
         "  state: "; CollectiveState.CollectiveState_to_string (cr_state record); newline;
         "  current_attempt: "; identity_or_none (cr_current_attempt record); newline;
         "  attempt_sequence: "; decimal (cr_attempt_sequence record); newline;
         "  registration_sequence: "; decimal (cr_registration_sequence record); newline;
         "  generation_ancestry_depth: "; decimal (cr_generation_ancestry_depth record); newline;
         "  accepts_new_authority: "; yes_no (accepts_new_authority record); newline;
         render_definition (cr_definition record)]
  end.

Definition inspect_decisions (s : CoordinatorService) (offset limit : Z)
    : list DecisionRecord := history_page (sv_history s) offset limit.

(** [explain] and [explain_correlation]: the decision, when one is retained, and the text. *)
Definition explained (found : DecisionRecord) : string :=
  concat_all ["decision_ordinal: "; decimal (de_decision_sequence found); newline;
              Decision.explain found].

Definition explain (s : CoordinatorService) (id attempt : Identity)
    : option DecisionRecord * string :=
  match history_find_attempt (sv_history s) id attempt with
  | (HistoryStatus.kOk, Some found) => (Some found, explained found)
  | (status, _) =>
      (None, concat_all ["no retained decision exists for collective "; id_to_string id;
               " attempt "; if is_some attempt then id_to_string attempt else "(latest)";
               "; history status: "; HistoryStatus.HistoryStatus_to_string status; newline])
  end.

Definition explain_correlation (s : CoordinatorService) (correlation : Z)
    : option DecisionRecord * string :=
  match history_find_correlation (sv_history s) correlation with
  | (HistoryStatus.kOk, Some found) => (Some found, explained found)
  | _ => (None, concat_all ["no retained decision matches that correlation"; newline])
  end.

(** ** Service calls as sequences of component steps *)

Definition history_bounded (h : DecisionHistory) : Prop :=
  zlen (dh_records h) ≤ dh_capacity h ∧
  1 ≤ dh_capacity h ≤ limits.kDecisionHistoryCapacityMax.

Definition session_wf (epoch : Identity) (id : Identity) (b : SessionBinding) : Prop :=
  sb_id b = id ∧ id ≠ id_none ∧ sb_incarnation b ≠ id_none ∧ sb_epoch b = epoch.

Definition sessions_wf (s : CoordinatorService) : Prop :=
  mapsize (sv_sessions s) ≤ limits.kSessionsMax ∧
  map_Forall (session_wf (au_epoch (sv_authority s))) (sv_sessions s) ∧
  (sv_running s = false → sv_sessions s = ∅).

(** Sessions are only closed, and the frame sequence of one that stays never goes back. *)
Definition kept (s s' : CoordinatorService) : Prop :=
  ∀ id b', sv_sessions s' !! id = Some b' →
    ∃ b, sv_sessions s !! id = Some b ∧ sb_last_frame_sequence b ≤ sb_last_frame_sequence b'.

Lemma kept_same s s' : sv_sessions s' = sv_sessions s → kept s s'.
Proof. intros E id b'. rewrite E. intros H. exists b'. split; [done | lia]. Qed.

Lemma kept_trans s1 s2 s3 : kept s1 s2 → kept s2 s3 → kept s1 s3.
Proof.
  intros H1 H2 id b3 Hb3. destruct (H2 _ _ Hb3) as (b2 & Hb2 & ?).
  destruct (H1 _ _ Hb2) as (b1 & Hb1 & ?). exists b1. split; [done | lia].
Qed.

(** Discharges the components a call leaves alone. *)
Ltac evolve_split := split; try done; try (by apply kept_same).

(** What a call other than [open_session], [start] and [restore] does: its components only
    take their own steps, and the bounds are kept. *)
Record evolves (s s' : CoordinatorService) : Prop := {
  ev_authority : rtc live_step (sv_authority s) (sv_authority s');
  ev_catalog : rtc catalog_step (sv_catalog s) (sv_catalog s');
  ev_history : history_bounded (sv_history s) → history_bounded (sv_history s');
  ev_admission : admission_wf (sv_admission s) → admission_wf (sv_admission s');
  ev_sessions : sessions_wf s → sessions_wf s';
  ev_minter : is_u64 (sv_mint_counter s) → is_u64 (sv_mint_counter s');
  ev_kept : kept s s';
}.

Lemma evolves_refl s : evolves s s.
Proof. evolve_split. Qed.

Lemma evolves_trans s1 s2 s3 : evolves s1 s2 → evolves s2 s3 → evolves s1 s3.
Proof. intros [] []. split; [by etrans | by etrans | auto.. | by eapply kept_trans]. Qed.

Lemma live_step_epoch a a' : live_step a a' → au_epoch a' = au_epoch a.
Proof.
  destruct 1; try done.
  - unfold Authority.install_policy. by repeat case_match.
  - unfold install_topology. generalize (topology_canonicalize t). intros. by repeat case_match.
  - unfold install_capacity. generalize (capacity_canonicalize c). intros. by repeat case_match.
  - unfold install_congestion. generalize (congestion_canonicalize c). intros.
    by repeat case_match.
  - unfold publish_liveness. by repeat case_match.
  - unfold Authority.heartbeat. destruct (_ || _); [done|].
    by destruct (match au_highest_incarnation s !! p with None => _ | Some _ => _ end).
Qed.

Lemma live_steps_epoch a a' : rtc live_step a a' → au_epoch a' = au_epoch a.
Proof.
  induction 1 as [|a b c Hstep _ IH]; [done|]. rewrite IH. by apply live_step_epoch.
Qed.

(** A call that changes only the components named. *)
Lemma evolves_authority s a :
  rtc live_step (sv_authority s) a → evolves s (s <| sv_authority := a |>).
Proof.
  intros Ha. evolve_split. intros (? & Hs & ?). split_and!; [done| |done]. simpl.
  by rewrite (live_steps_epoch _ _ Ha).
Qed.

Lemma evolves_catalog s c :
  rtc catalog_step (sv_catalog s) c → evolves s (s <| sv_catalog := c |>).
Proof. intros Hc. evolve_split. Qed.

Lemma evolves_history s h :
  (history_bounded (sv_history s) → history_bounded h) → evolves s (s <| sv_history := h |>).
Proof. intros Hh. evolve_split. Qed.

Lemma evolves_admission s c :
  (admission_wf (sv_admission s) → admission_wf c) → evolves s (s <| sv_admission := c |>).
Proof. intros Hc. evolve_split. Qed.

Lemma evolves_session s id (f : SessionBinding → SessionBinding) :
  (∀ b, sv_sessions s !! id = Some b →
     sb_id (f b) = sb_id b ∧ sb_incarnation (f b) = sb_incarnation b ∧
     sb_epoch (f b) = sb_epoch b ∧ sb_last_frame_sequence b ≤ sb_last_frame_sequence (f b)) →
  evolves s (s <| sv_sessions ::= alter f id |>).
Proof.
  intros Hf. evolve_split.
  2:{ intros k b'. simpl. rewrite lookup_alter_Some. intros [(-> & x & Hx & ->)|[_ Hk]].
      - exists x. split; [done|]. apply Hf. done.
      - exists b'. split; [done | lia]. }
  intros (Hn & Hs & Hr). split_and!; simpl.
  - by rewrite mapsize_alter.
  - intros k b. rewrite lookup_alter_Some. intros [(-> & x & Hx & ->)|[_ Hk]]; [|by apply Hs].
    destruct (Hf x Hx) as (E1 & E2 & E3 & _). destruct (Hs _ _ Hx) as (?&?&?&?).
    by split_and!; congruence.
  - intros Hn'. by rewrite Hr by done.
Qed.

Lemma evolves_count field `{!Setter field} n s : evolves s (count_n field n s).
Proof. evolve_split. Qed.

Lemma evolves_mark s : evolves s (mark_durable_mutation s).
Proof. evolve_split. Qed.

Lemma evolves_mint s : evolves s (mint s).1.
Proof. evolve_split. intros _. apply w64_range. Qed.

(** *** The history *)
Lemma evict_loop_length capacity records first evicted :
  0 ≤ capacity →
  zlen (evict_loop capacity records first evicted).1.1 ≤ capacity.
Proof.
  intros Hc. revert first evicted.
  induction records as [|r records IH]; intros; cbn [evict_loop]; [done|].
  destruct (capacity <? _) eqn:E; bool_prop; [apply IH | done].
Qed.

Lemma evict_bounded h :
  1 ≤ dh_capacity h ≤ limits.kDecisionHistoryCapacityMax → history_bounded (evict h).
Proof.
  intros Hc. unfold evict.
  pose proof (evict_loop_length (dh_capacity h) (dh_records h) (dh_first_ordinal h)
    (dh_evicted h) ltac:(lia)) as Hl.
  destruct (evict_loop _ _ _ _) as [[rs f] e]. by split.
Qed.

Lemma history_record_bounded h d : history_bounded h → history_bounded (history_record h d).1.
Proof. intros [_ Hc]. by apply evict_bounded. Qed.

Lemma history_bind_bounded h c o :
  history_bounded h → history_bounded (history_bind_correlation h c o).
Proof. intros []. unfold history_bind_correlation. repeat case_match; by split. Qed.

Lemma history_clear_bounded h : history_bounded h → history_bounded (history_clear h).
Proof. intros [_ Hc]. split; [|done]. unfold zlen. simpl. lia. Qed.

Lemma admit_wf c d now : admission_wf c → admission_wf (Admission.admit_decision c d now).1.
Proof.
  intros Hw. destruct (admit_effect c d now) as [->|(e & _ & -> & Hroom)]; [done|].
  unfold admission_wf in *. simpl. destruct (ac_buckets c !! de_flow_group d) as [y|] eqn:E.
  - by rewrite (mapsize_insert_old _ _ _ y).
  - destruct Hroom as [[? ?]|?]; [done|]. rewrite mapsize_insert_new by done. lia.
Qed.

(** *** Composition, as a hint database *)
Create HintDb evolve.

Lemma evolves_count_r field `{!Setter field} n s s' :
  evolves s s' → evolves s (count_n field n s').
Proof. intros. eapply evolves_trans; [done | apply evolves_count]. Qed.
Lemma evolves_mark_r s s' : evolves s s' → evolves s (mark_durable_mutation s').
Proof. intros. eapply evolves_trans; [done | apply evolves_mark]. Qed.
Lemma evolves_authority_r s s' a :
  rtc live_step (sv_authority s') a → evolves s s' → evolves s (s' <| sv_authority := a |>).
Proof. intros. eapply evolves_trans; [done | by apply evolves_authority]. Qed.
Lemma evolves_catalog_r s s' c :
  rtc catalog_step (sv_catalog s') c → evolves s s' → evolves s (s' <| sv_catalog := c |>).
Proof. intros. eapply evolves_trans; [done | by apply evolves_catalog]. Qed.
Lemma evolves_history_r s s' h :
  (history_bounded (sv_history s') → history_bounded h) → evolves s s' →
  evolves s (s' <| sv_history := h |>).
Proof. intros. eapply evolves_trans; [done | by apply evolves_history]. Qed.
Lemma evolves_admission_r s s' c :
  (admission_wf (sv_admission s') → admission_wf c) → evolves s s' →
  evolves s (s' <| sv_admission := c |>).
Proof. intros. eapply evolves_trans; [done | by apply evolves_admission]. Qed.
#[export] Hint Resolve evolves_refl evolves_count_r evolves_mark_r evolves_authority_r
  evolves_catalog_r evolves_history_r evolves_admission_r : evolve.

(** *** Sessions *)
Lemma expire_sessions_live a ids now : rtc live_step a (expire_sessions a ids now).
Proof.
  revert a. induction ids as [|i ids IH]; intros a; [done|]. simpl.
  eapply rtc_l; [apply (step_expire_session a i now) | apply IH].
Qed.

Lemma stop_begin_evolves s now : evolves s (stop_begin s now).1.
Proof.
  unfold stop_begin. destruct (sv_running s); simpl; [|apply evolves_refl].
  set (a := expire_sessions _ _ _). split; simpl; try done.
  - etrans; [apply expire_sessions_live|]. apply rtc_once, step_invalidate.
  - apply history_clear_bounded.
  - intros Hw. unfold admission_wf in *. simpl. rewrite mapsize_empty.
    pose proof (mapsize_nonneg (ac_buckets (sv_admission s))). lia.
Qed.

Lemma write_done_evolves s pending saved : evolves s (write_done s pending saved).
Proof.
  unfold write_done. destruct (is_ok saved); [|apply evolves_refl].
  apply evolves_count_r. destruct (_ =? _); evolve_split.
Qed.

(** [open_session] adds at most one session, under a fresh entry. *)
Lemma open_session_spec s label now :
  let s' := (open_session s label now).1 in
  sv_authority s' = sv_authority s ∧ sv_catalog s' = sv_catalog s ∧
  sv_history s' = sv_history s ∧ sv_admission s' = sv_admission s ∧
  (is_u64 (sv_mint_counter s) → is_u64 (sv_mint_counter s')) ∧
  (sessions_wf s → sessions_wf s') ∧ sv_sessions s ⊆ sv_sessions s'.
Proof.
  cbv zeta. unfold open_session.
  destruct (sv_running s) eqn:Er; cbn [negb fst]; [|by split_and!].
  destruct (limits.kSessionsMax <=? _) eqn:En; cbn [fst]; [by split_and!|]. bool_prop.
  pose proof (mint_identity_some (sv_entropy s) (sv_mint_counter s)) as Hid.
  pose proof (mint_identity_some (sv_entropy s) (w64 (sv_mint_counter s + 1))) as Hinc.
  revert Hid Hinc. unfold mint. cbn [sv_entropy sv_mint_counter set_field fst snd].
  generalize (mint_identity (sv_entropy s) (sv_mint_counter s)). intros id Hid.
  generalize (mint_identity (sv_entropy s) (w64 (sv_mint_counter s + 1))). intros inc Hinc.
  cbn [sv_sessions set_field]. destruct (sv_sessions s !! id) as [b|] eqn:Eid; simpl.
  { split_and!; try done. intros _. apply w64_range. }
  split_and!; try done; [intros _; apply w64_range| |by apply insert_subseteq].
  intros (Hn & Hs & Hr). split_and!; simpl.
  - rewrite mapsize_insert_new by done. lia.
  - apply map_Forall_insert_2; [|done]. by split_and!.
  - congruence.
Qed.

Lemma insert_as_alter (m : gmap Identity SessionBinding) id b (f : SessionBinding → SessionBinding) :
  m !! id = Some b → <[id := f b]> m = alter f id m.
Proof.
  intros Hb. apply map_eq. intros i. rewrite lookup_insert, lookup_alter.
  case_decide as E; [subst; by rewrite Hb | done].
Qed.

Lemma check_session_evolves s envelope now reasons :
  evolves s (check_session_locked s envelope now reasons).1.1.
Proof.
  unfold check_session_locked. destruct (is_none _); [apply evolves_refl|].
  destruct (sv_sessions s !! ev_session envelope) as [b|] eqn:Eb; [|apply evolves_refl].
  destruct (is_none (ev_epoch envelope) || _); [apply evolves_refl|].
  destruct (is_none (ev_incarnation envelope)); [apply evolves_refl|].
  destruct (negb _).
  { destruct (_ <i _); apply evolves_refl. }
  destruct (seq_is_unset _); [apply evolves_refl|].
  destruct (_ <=? _) eqn:Eseq; [apply evolves_refl|]. cbn [fst].
  set (f := fun b : SessionBinding => b
    <| sb_last_frame_sequence := ev_frame_sequence envelope |>
    <| sb_last_frame_monotonic_ms := now |>
    <| sb_frames_received ::= fun n => w64 (n + 1) |>).
  change (evolves s (s <| sv_sessions := <[ev_session envelope := f b]> (sv_sessions s) |>)).
  rewrite (insert_as_alter _ _ b f) by done. apply (evolves_session s (ev_session envelope)). intros b' Hb'.
  assert (b' = b) as -> by congruence. split_and!; [done..|]. bool_prop. simpl. lia.
Qed.

Lemma drop_session_evolves s session now : evolves s (drop_session s session now).
Proof.
  unfold drop_session. pose proof (step_expire_session (sv_authority s) session now) as Hst.
  destruct (expire_session (sv_authority s) session now) as [a n]. simpl in Hst.
  apply evolves_count_r. set (s1 := count_n _ _ _).
  apply (evolves_trans _ s1).
  - apply evolves_count_r, evolves_authority_r; [by apply rtc_once | apply evolves_refl].
  - evolve_split.
    2:{ intros id b'. simpl. rewrite lookup_delete_Some. intros [_ Hb']. exists b'.
        split; [done | lia]. }
    intros (Hn & Hs & Hr). split_and!; simpl.
    + pose proof (mapsize_delete_le (sv_sessions s1) session). simpl in *. lia.
    + by apply map_Forall_delete.
    + intros Hr'. specialize (Hr Hr'). subst s1. simpl in *. rewrite Hr. apply delete_empty.
Qed.

Lemma close_session_evolves s session now : evolves s (close_session s session now).1.
Proof. unfold close_session. case_match; [apply drop_session_evolves | apply evolves_refl]. Qed.

Lemma sweep_evolves s now : evolves s (sweep_idle_sessions s now).1.
Proof.
  unfold sweep_idle_sessions. cbn [fst]. generalize (std_sort id_ltb
    (fst <$> filter (fun e => is_idle s now e.2 = true) (map_to_list (sv_sessions s)))).
  intros ids. revert s. induction ids as [|i ids IH]; intros s; [apply evolves_refl|]. simpl.
  eapply evolves_trans; [apply drop_session_evolves | apply IH].
Qed.

(** *** Participants, collectives, decisions and evidence *)
Lemma publish_participant_evolves s context p i node st :
  evolves s (publish_participant s context p i node st).1.
Proof.
  unfold publish_participant. destruct (_ || _); [apply evolves_refl|].
  destruct (participant_state_holds_authority st); cbn [negb].
  - match goal with |- context [publish_liveness _ ?l] =>
      pose proof (step_publish (sv_authority s) l) as Hst;
      destruct (publish_liveness (sv_authority s) l) as [a r] end.
    cbn [fst] in Hst. apply rtc_once in Hst.
    destruct r; cbn [fst]; eauto with evolve;
      (eapply evolves_trans; [by apply evolves_authority|]; by apply evolves_session; intros; split_and!; try done; simpl; lia).
  - match goal with |- context [publish_liveness _ ?l] =>
      pose proof (step_publish (sv_authority s) l) as Hst;
      destruct (publish_liveness (sv_authority s) l) as [a r] end.
    cbn [fst] in Hst. apply rtc_once in Hst. destruct r; cbn [fst]; eauto with evolve.
Qed.

Lemma heartbeat_evolves s context p i : evolves s (heartbeat s context p i).1.
Proof.
  unfold heartbeat. destruct (_ || _); [apply evolves_refl|].
  pose proof (step_heartbeat (sv_authority s) p i (cx_now_monotonic_ms context)
    (cf_participant_ttl_ms (sv_config s))) as Hst.
  destruct (Authority.heartbeat _ _ _ _ _) as [a b]. cbn [fst] in Hst. apply rtc_once in Hst.
  destruct b; cbn [fst]; eauto with evolve.
Qed.

Lemma register_evolves s context d : evolves s (register_collective s context d).1.1.
Proof.
  unfold register_collective. destruct (negb _); [apply evolves_refl|].
  destruct (negb _); [apply evolves_refl|].
  pose proof (step_register (sv_catalog s) d (cx_now_monotonic_ms context)) as Hst.
  destruct (register_definition _ _ _) as [c o]. cbn [fst] in Hst. apply rtc_once in Hst.
  destruct (ro_result o); cbn [fst]; eauto 6 with evolve.
Qed.

Lemma begin_attempt_evolves s context id g a bytes :
  evolves s (begin_attempt s context id g a bytes).1.1.
Proof.
  unfold begin_attempt. destruct (negb _); [apply evolves_refl|].
  destruct (catalog_find _ _) as [r|]; cbn [fst]; [|eauto with evolve].
  destruct (negb _); cbn [fst]; [eauto with evolve|].
  destruct (collective_state_is_terminal _); cbn [fst]; [eauto with evolve|].
  pose proof (step_begin_attempt (sv_catalog s) id a (cx_now_monotonic_ms context)) as Hst.
  destruct (Catalog.begin_attempt _ _ _ _) as [c o]. cbn [fst] in Hst. apply rtc_once in Hst.
  destruct o; cbn [fst]; [|eauto with evolve]. apply evolves_mark_r.
  apply (evolves_trans _ (s <| sv_catalog := c |>)); [by apply evolves_catalog|].
  apply (evolves_catalog (s <| sv_catalog := c |>)). apply rtc_once, step_declare_bytes.
Qed.

Lemma set_state_steps c id st now :
  st ≠ CollectiveState.kUnregistered → rtc catalog_step c (set_state c id st now).1.
Proof. intros. by apply rtc_once, step_set_state. Qed.

Lemma cancel_evolves s context id g a reasons :
  evolves s (cancel_collective s context id g a reasons).1.1.1.
Proof.
  unfold cancel_collective. destruct (catalog_find _ _) as [r|]; [|apply evolves_refl].
  destruct (negb _); cbn [fst]; [eauto with evolve|].
  destruct (collective_state_is_terminal _); cbn [fst]; [eauto with evolve|].
  destruct (names_stale_attempt _ _); cbn [fst]; [eauto with evolve|].
  pose proof (set_state_steps (sv_catalog s) id CollectiveState.kCancelled
    (cx_now_monotonic_ms context) ltac:(done)) as Hst. unfold cancel.
  destruct (set_state _ _ _ _) as [c st]. cbn [fst] in Hst.
  destruct (is_ok st); cbn [negb fst]; eauto 6 with evolve.
Qed.

Lemma retire_evolves s context id g a reasons :
  evolves s (retire_collective s context id g a reasons).1.1.1.
Proof.
  unfold retire_collective. destruct (catalog_find _ _) as [r|]; [|apply evolves_refl].
  destruct (negb _); cbn [fst]; [eauto with evolve|].
  destruct (collective_state_is_terminal _); cbn [fst]; [eauto with evolve|].
  destruct (names_stale_attempt _ _); cbn [fst]; [eauto with evolve|].
  pose proof (set_state_steps (sv_catalog s) id CollectiveState.kRetired
    (cx_now_monotonic_ms context) ltac:(done)) as Hst. unfold retire.
  destruct (set_state _ _ _ _) as [c st]. cbn [fst] in Hst.
  destruct (is_ok st); cbn [negb fst]; eauto 6 with evolve.
Qed.

Lemma apply_admission_evolves s s' now e a : evolves s s' → evolves s (apply_admission s' now e a).1.
Proof. intros H. unfold apply_admission. destruct (ar_outcome a); cbn [fst]; eauto with evolve. Qed.

Lemma settle_evolves s now request e : evolves s (settle s now request e).1.
Proof.
  unfold settle. destruct (outcome_grants_authority _).
  - pose proof (set_state_steps (sv_catalog s) (ci_id (dr_instance request))
      CollectiveState.kActive now ltac:(done)) as Hst.
    destruct (set_state _ _ _ _) as [c st]. cbn [fst] in Hst.
    destruct (is_ok st); cbn [negb fst]; [|eauto with evolve].
    cbn [sv_admission set_field]. pose proof (admit_wf (sv_admission s) e now) as Ha.
    destruct (Admission.admit_decision _ _ _) as [ctl adm]. cbn [fst] in Ha.
    apply apply_admission_evolves. eauto with evolve.
  - destruct (outcome_is_rejection _); cbn [fst].
    + repeat case_bool_decide; eauto 6 with evolve.
    + destruct (outcome_requires_replan _); cbn [fst]; eauto with evolve.
Qed.

Lemma answer_stale_evolves s s' d : evolves s s' → evolves s (answer_stale s' d).1.1.
Proof.
  intros H. unfold answer_stale. cbn [fst].
  apply (evolves_history_r s (count k_stale_completions_rejected s')
    (history_record (sv_history s') d).1); [apply history_record_bounded | eauto with evolve].
Qed.

Lemma plan_evolves s context request : evolves s (plan_flow_group s context request).1.1.
Proof.
  unfold plan_flow_group. destruct (negb _); [apply evolves_refl|].
  destruct (plan_gate s context); [apply evolves_refl|].
  destruct (negb _); [apply evolves_refl|].
  destruct (catalog_find _ _) as [r|]; [|apply answer_stale_evolves; eauto with evolve].
  destruct (negb _); [apply answer_stale_evolves; eauto with evolve|].
  destruct (_ || _); [apply answer_stale_evolves; eauto with evolve|].
  destruct (collective_state_is_terminal _); [apply answer_stale_evolves; eauto with evolve|].
  generalize (evaluated_decision s (cx_now_monotonic_ms context) request r). intros e.
  pose proof (settle_evolves s (cx_now_monotonic_ms context) request e) as Hs.
  destruct (settle _ _ _ e) as [s' d]. cbn [fst] in Hs.
  pose proof (history_record_bounded (sv_history (count k_decisions s')) d) as Hh.
  destruct (history_record _ d) as [h o]. cbn [fst] in Hh |- *.
  apply evolves_history_r; [|eauto with evolve]. intros Hb%Hh.
  destruct (_ && _); [by apply history_bind_bounded | done].
Qed.

Lemma mint_if_none_evolves s g : evolves s (mint_if_none s g).1.
Proof. unfold mint_if_none. destruct (is_none g); [apply evolves_mint | apply evolves_refl]. Qed.

Lemma ingest_capacity_evolves s context e reasons :
  evolves s (ingest_capacity s context e reasons).1.1.1.
Proof.
  unfold ingest_capacity. destruct (check_context_locked _ _ _) as [rs st].
  destruct (is_ok st); cbn [negb fst]; [|apply evolves_refl].
  pose proof (mint_if_none_evolves s (ce_generation e)) as Hm.
  destruct (mint_if_none s _) as [s1 g]. cbn [fst] in Hm.
  set (e' := set_field _ _ e). clearbody e'.
  pose proof (step_capacity (sv_authority s1) e') as Hst.
  destruct (install_capacity _ e') as [a r]. cbn [fst] in Hst. apply rtc_once in Hst.
  destruct r; cbn [fst]; eauto with evolve.
Qed.

Lemma ingest_congestion_evolves s context e reasons :
  evolves s (ingest_congestion s context e reasons).1.1.1.
Proof.
  unfold ingest_congestion. destruct (check_context_locked _ _ _) as [rs st].
  destruct (is_ok st); cbn [negb fst]; [|apply evolves_refl].
  pose proof (mint_if_none_evolves s (ge_generation e)) as Hm.
  destruct (mint_if_none s _) as [s1 g]. cbn [fst] in Hm.
  match goal with |- context [install_congestion _ ?x] => set (e' := x) end. clearbody e'.
  pose proof (step_congestion (sv_authority s1) e') as Hst.
  destruct (install_congestion _ e') as [a r]. cbn [fst] in Hst. apply rtc_once in Hst.
  destruct r; cbn [fst]; eauto with evolve.
Qed.

Lemma ingest_topology_evolves s context e reasons :
  evolves s (ingest_topology s context e reasons).1.1.1.
Proof.
  unfold ingest_topology. destruct (check_context_locked _ _ _) as [rs st].
  destruct (is_ok st); cbn [negb fst]; [|apply evolves_refl].
  pose proof (mint_if_none_evolves s (te_generation e)) as Hm.
  destruct (mint_if_none s _) as [s1 g]. cbn [fst] in Hm.
  set (e' := set_field _ _ e). clearbody e'.
  pose proof (step_topology (sv_authority s1) e') as Hst.
  destruct (install_topology _ e') as [a r]. cbn [fst] in Hst. apply rtc_once in Hst.
  destruct r; cbn [fst]; eauto with evolve.
Qed.

Lemma install_policy_evolves s context p reasons :
  evolves s (install_policy s context p reasons).1.1.1.
Proof.
  unfold install_policy. destruct (check_context_locked _ _ _) as [rs st].
  destruct (is_ok st); cbn [negb fst]; [|apply evolves_refl].
  pose proof (mint_if_none_evolves s (tp_generation p)) as Hm.
  destruct (mint_if_none s _) as [s1 g]. cbn [fst] in Hm.
  set (p' := set_field _ _ p). clearbody p'.
  pose proof (step_policy (sv_authority s1) p') as Hst.
  destruct (Authority.install_policy _ p') as [a r]. cbn [fst] in Hst. apply rtc_once in Hst.
  destruct r; cbn [fst]; eauto with evolve.
Qed.

(** One call on the service, other than [open_session], [start] and [restore]; [stop] and
    [flush] are their critical sections. [may] says which participants may be published or
    heartbeat for. *)
Inductive call_step_of (may : Identity → Prop) : CoordinatorService → CoordinatorService → Prop :=
  | call_stop s now : call_step_of may s (stop_begin s now).1
  | call_flush s now : call_step_of may s (flush_begin s now).1
  | call_write_done s pending saved : call_step_of may s (write_done s pending saved)
  | call_envelope s envelope now reasons :
      call_step_of may s (validate_envelope s envelope now reasons).1.1
  | call_close s session now : call_step_of may s (close_session s session now).1
  | call_sweep s now : call_step_of may s (sweep_idle_sessions s now).1
  | call_publish s context p i node st : may p →
      call_step_of may s (publish_participant s context p i node st).1
  | call_heartbeat s context p i : may p → call_step_of may s (heartbeat s context p i).1
  | call_register s context d : call_step_of may s (register_collective s context d).1.1
  | call_attempt s context id g a bytes :
      call_step_of may s (begin_attempt s context id g a bytes).1.1
  | call_cancel s context id g a reasons :
      call_step_of may s (cancel_collective s context id g a reasons).1.1.1
  | call_retire s context id g a reasons :
      call_step_of may s (retire_collective s context id g a reasons).1.1.1
  | call_plan s context request : call_step_of may s (plan_flow_group s context request).1.1
  | call_capacity s context e reasons : call_step_of may s (ingest_capacity s context e reasons).1.1.1
  | call_congestion s context e reasons :
      call_step_of may s (ingest_congestion s context e reasons).1.1.1
  | call_topology s context e reasons : call_step_of may s (ingest_topology s context e reasons).1.1.1
  | call_policy s context p reasons : call_step_of may s (install_policy s context p reasons).1.1.1
  | call_configure s path now : call_step_of may s (configure_persistence s path now).1
  | call_reset s : call_step_of may s (reset_counters s)
  | call_config s config :
      0 ≤ cf_decision_history_capacity config → call_step_of may s (set_config s config).

Abbreviation call_step := (call_step_of (fun _ => True)).

Lemma call_step_any may s s' : call_step_of may s s' → call_step s s'.
Proof. destruct 1; by constructor. Qed.

(** The simulation of the service by its components. *)
Lemma call_step_evolves s s' : call_step s s' → evolves s s'.
Proof.
  destruct 1; eauto using stop_begin_evolves, write_done_evolves,
    check_session_evolves, close_session_evolves, sweep_evolves, publish_participant_evolves,
    heartbeat_evolves, register_evolves, begin_attempt_evolves, cancel_evolves, retire_evolves,
    plan_evolves, ingest_capacity_evolves, ingest_congestion_evolves, ingest_topology_evolves,
    install_policy_evolves.
  - unfold flush_begin. destruct (_ =? 0); [apply evolves_refl|].
    destruct (negb _); [apply evolves_refl|]. evolve_split.
  - evolve_split.
  - evolve_split.
  - evolve_split. intros _. apply evict_bounded. by apply clamp_capacity_bounds.
Qed.

Lemma calls_evolve s s' : rtc call_step s s' → evolves s s'.
Proof.
  induction 1 as [|a b c Hstep _ IH]; [apply evolves_refl|].
  eapply evolves_trans; [by apply call_step_evolves | done].
Qed.

(** ** The invariant of the service *)
Record service_wf (s : CoordinatorService) : Prop := {
  sw_authority : authority_wf (sv_authority s);
  sw_catalog : catalog_wf (sv_catalog s);
  sw_history : history_bounded (sv_history s);
  sw_admission : admission_wf (sv_admission s);
  sw_sessions : sessions_wf s;
  sw_minter : is_u64 (sv_mint_counter s);
}.

(** Every call but [restore], and every call. *)
Inductive run_step : CoordinatorService → CoordinatorService → Prop :=
  | run_call s s' : call_step s s' → run_step s s'
  | run_open s label now : run_step s (open_session s label now).1
  | run_start s now s' status : start s now = Some (s', status) → run_step s s'.

Inductive service_step : CoordinatorService → CoordinatorService → Prop :=
  | service_run s s' : run_step s s' → service_step s s'
  | service_restore s path now loaded contents diagnostic :
      service_step s (restore s path now loaded contents diagnostic).1.1.

Lemma live_steps_wf a a' : rtc live_step a a' → authority_wf a → authority_wf a'.
Proof. induction 1; eauto using live_step_wf. Qed.

Lemma evolves_wf s s' : evolves s s' → service_wf s → service_wf s'.
Proof.
  intros [Ha Hc Hh Hd Hs Hm _] []. split; auto.
  - by eapply live_steps_wf.
  - clear -Hc sw_catalog0. induction Hc; eauto using catalog_step_wf.
Qed.

Lemma service_new_wf config entropy counter :
  0 ≤ cf_decision_history_capacity config → is_u64 counter →
  service_wf (service_new config entropy counter).
Proof.
  intros Hc Hm. split; [apply authority_new_wf | by apply catalog_new_wf | | | | done].
  - apply evict_bounded. by apply clamp_capacity_bounds.
  - unfold admission_wf. simpl. rewrite mapsize_empty. done.
  - split_and!; [done | apply map_Forall_empty | done].
Qed.

(** What [start] does to a stopped service. *)
Lemma start_spec s now :
  service_wf s → sv_running s = false →
  ∃ s', start s now = Some (s', status_ok) ∧ service_wf s' ∧ sv_running s' = true ∧
    sv_sessions s' = ∅ ∧ au_peers (sv_authority s') = ∅ ∧
    au_epoch (sv_authority s') ≠ au_epoch (sv_authority s) ∧
    sv_catalog s' = sv_catalog s.
Proof.
  intros [Ha Hc Hh Hd (Hn & Hs & Hempty) Hm] Hr. unfold start. rewrite Hr.
  pose proof (mint_epoch_total (sv_entropy s) (sv_mint_counter s)
    (au_epoch (sv_authority s)) (au_epoch (sv_authority s)) Hm) as Ht.
  pose proof (mint_epoch_spec boot_fuel (sv_entropy s) (sv_mint_counter s)
    (au_epoch (sv_authority s)) (au_epoch (sv_authority s)) Hm) as Hsp.
  destruct (begin_boot _ _ _ _) as [[a c]|] eqn:Eb.
  - pose proof (begin_boot_wf _ _ _ _ _ _ Eb Ha) as Hw. unfold begin_boot in Eb.
    destruct (mint_epoch _ _ _ _ _) as [[e c']|]; [|done]. injection Eb as <- <-.
    destruct Hsp as (_ & _ & He & Hc'). eexists. split; [reflexivity|].
    split_and!; [|reflexivity|exact (Hempty Hr)|reflexivity|exact He|reflexivity].
    split; [exact (live_step_wf _ _ (step_freshness _ _) Hw) | exact Hc | exact Hh | exact Hd | | exact Hc'].
    split_and!; simpl; [exact Hn | | discriminate].
    rewrite (Hempty Hr). apply map_Forall_empty.
  - unfold begin_boot in Eb. by destruct (mint_epoch _ _ _ _ _) as [[e c']|].
Qed.

Lemma restore_durable_epoch a d now : au_epoch (restore_durable a d now).1 = au_epoch a.
Proof.
  unfold restore_durable. destruct (durable_check d); [done|]. simpl.
  by destruct (is_some (da_topology_generation d)), (is_some (da_policy_generation d)).
Qed.

Lemma restore_wf s path now loaded contents diagnostic :
  service_wf s → service_wf (restore s path now loaded contents diagnostic).1.1.
Proof.
  intros [Ha Hc Hh Hd (Hn & Hs & Hempty) Hm]. unfold restore.
  destruct loaded; try done.
  pose proof (restore_durable_wf (sv_authority s) (sc_authority contents) now Ha) as Hw.
  pose proof (restore_durable_epoch (sv_authority s) (sc_authority contents) now) as He.
  destruct (restore_durable _ _ _) as [a st]. cbn [fst] in Hw, He.
  assert (∀ s1, sv_authority s1 = a → sv_sessions s1 = sv_sessions s →
    sv_running s1 = sv_running s → sessions_wf s1) as Hsess.
  { intros s1 E1 E2 E3. unfold sessions_wf. rewrite E1, E2, E3, He. by split_and!. }
  destruct (is_ok st); cbn [negb fst]; [|by split; try done; apply Hsess].
  pose proof (catalog_load_wf (sv_catalog s) (sc_records contents) Hc) as Hl.
  cbn [sv_catalog set_field]. destruct (catalog_load _ _) as [c st2]. cbn [fst] in Hl.
  destruct (is_ok st2); cbn [negb fst]; split; try done; by apply Hsess.
Qed.

Lemma run_step_wf s s' : run_step s s' → service_wf s → service_wf s'.
Proof.
  intros Hst Hw. destruct Hst as [s s' Hc|s label now|s now s' status H].
  - eapply evolves_wf; [by apply call_step_evolves | done].
  - destruct (open_session_spec s label now) as (E1 & E2 & E3 & E4 & Hm & Hs & _).
    destruct Hw. split; rewrite ?E1, ?E2, ?E3, ?E4; auto.
  - destruct (sv_running s) eqn:Er.
    + unfold start in H. rewrite Er in H. by injection H as <- <-.
    + destruct (start_spec s now Hw Er) as (s1 & E & Hw1 & _). congruence.
Qed.

Lemma service_step_wf s s' : service_step s s' → service_wf s → service_wf s'.
Proof. intros [] ?; [by eapply run_step_wf | by apply restore_wf]. Qed.

Lemma service_reach config entropy counter s :
  0 ≤ cf_decision_history_capacity config → is_u64 counter →
  rtc service_step (service_new config entropy counter) s → service_wf s.
Proof.
  intros Hc Hm Hr. pose proof (service_new_wf config entropy counter Hc Hm) as Hw.
  revert Hw. induction Hr; eauto using service_step_wf.
Qed.

(** ** Decisions *)

(** What the coordinator asks of the caller of a planning request: it names no session, or it
    names an open session and that session's incarnation, and any epoch it names is the
    current one. *)
Definition caller_current (s : CoordinatorService) (context : ServiceRequestContext) : Prop :=
  cx_session context = id_none ∨
  ∃ session, sv_sessions s !! cx_session context = Some session ∧
    cx_incarnation context = sb_incarnation session ∧
    (cx_epoch context = id_none ∨ cx_epoch context = au_epoch (sv_authority s)).

Lemma plan_gate_passes s context : plan_gate s context = None ↔ caller_current s context.
Proof.
  unfold plan_gate, caller_current. destruct (is_some (cx_session context)) eqn:E0.
  2:{ apply negb_false_iff, is_none_eq in E0. by split; [left|]. }
  apply is_some_neq in E0.
  destruct (sv_sessions s !! _) as [session|]; [|naive_solver].
  destruct (sb_incarnation session =i _) eqn:E1; cbn [negb].
  2:{ apply id_eqb_neq in E1. naive_solver. }
  apply id_eqb_eq in E1. destruct (is_some (cx_epoch context)) eqn:E2; cbn [andb].
  2:{ apply negb_false_iff, is_none_eq in E2. naive_solver. }
  apply is_some_neq in E2. destruct (_ =i au_epoch _) eqn:E3; cbn [negb].
  - apply id_eqb_eq in E3. naive_solver.
  - apply id_eqb_neq in E3. naive_solver.
Qed.

(** A request that reaches the engine: it passes every gate of [plan_flow_group]. *)
Record plannable (s : CoordinatorService) (context : ServiceRequestContext)
    (request : DecisionRequest) (record : CollectiveRecord) : Prop := {
  pl_running : sv_running s = true;
  pl_caller : caller_current s context;
  pl_valid : well_formed_request request;
  pl_record : catalog_find (sv_catalog s) (ci_id (dr_instance request)) = Some record;
  pl_generation : cd_generation (cr_definition record) = ci_generation (dr_instance request);
  pl_attempt : cr_current_attempt record = ci_attempt (dr_instance request);
  pl_attempt_some : cr_current_attempt record ≠ id_none;
  pl_state : collective_state_is_terminal (cr_state record) = false;
}.

(** The two shapes of an answer: nothing granted because a gate failed, or the settled
    evaluation, recorded in the history. *)
Lemma plan_cases s context request :
  let now := cx_now_monotonic_ms context in
  let answer := plan_flow_group s context request in
  ((∀ record, ¬ plannable s context request record) ∧
   ∀ d, answer.2 = Some d → de_outcome d = Outcome.kRejectedStale) ∨
  (∃ record, plannable s context request record ∧
   ∃ s1 d, settle s now request (evaluated_decision s now request record) = (s1, d) ∧
     answer.2 = Some d ∧ answer.1.2 = status_ok ∧ sv_catalog answer.1.1 = sv_catalog s1 ∧
     sv_authority answer.1.1 = sv_authority s1 ∧
     dh_records (sv_history answer.1.1) = dh_records (history_record (sv_history s1) d).1).
Proof.
  cbv zeta. unfold plan_flow_group.
  destruct (sv_running s) eqn:E1; cbn [negb]; [|left; split; [by intros ? []; congruence|done]].
  pose proof (plan_gate_passes s context) as Hgate.
  destruct (plan_gate s context).
  { left. split; [|done]. intros ? Hp. by apply pl_caller, Hgate in Hp. }
  pose proof (validate_decision_request_iff request) as Hvalid.
  destruct (is_ok (validate_decision_request request)); cbn [negb].
  2:{ left. split; [|done]. intros ? Hp. by apply pl_valid, Hvalid in Hp. }
  destruct (catalog_find _ _) as [r|] eqn:E4;
    [|left; split; [by intros ? []; congruence|by intros d [= <-]]].
  destruct (cd_generation _ =i _) eqn:E5; cbn [negb].
  2:{ apply id_eqb_neq in E5. left. split; [by intros ? []; congruence|by intros d [= <-]]. }
  apply id_eqb_eq in E5.
  destruct (is_none (cr_current_attempt r)) eqn:E6; cbn [orb].
  { apply is_none_eq in E6. left. split; [by intros ? []; congruence|by intros d [= <-]]. }
  apply is_none_neq in E6.
  destruct (cr_current_attempt r =i _) eqn:E7; cbn [negb].
  2:{ apply id_eqb_neq in E7. left. split; [by intros ? []; congruence|by intros d [= <-]]. }
  apply id_eqb_eq in E7.
  destruct (collective_state_is_terminal _) eqn:E8;
    [left; split; [by intros ? []; congruence|by intros d [= <-]]|].
  right. exists r. split; [by split; try done; apply Hgate || apply Hvalid|].
  destruct (settle _ _ _ _) as [s1 d]. exists s1, d. cbn [sv_history count_n set_field].
  destruct (history_record (sv_history s1) d) as [h o]. cbn [fst snd].
  split_and!; try reflexivity. cbn [sv_history set_field].
  destruct (_ && _); [|done]. unfold history_bind_correlation. by repeat case_match.
Qed.

(** An admission that is asked about a grant answers about the release only. *)
Lemma admit_applies c d now :
  outcome_grants_authority (de_outcome d) = true → de_flow_group_constructed d = true →
  ar_outcome (Admission.admit_decision c d now).2 ≠ AdmissionOutcome.kNotApplicable.
Proof.
  intros Hg Hf. unfold Admission.admit_decision, no_authority. rewrite Hg, Hf. cbn [negb orb].
  destruct (_ || _); [done|]. destruct (_ =? kUnlimitedRate); [done|].
  destruct (_ =? 0); [done|].
  assert (∀ e, ar_outcome (admit_entry d now e).2 ≠ AdmissionOutcome.kNotApplicable) as He.
  { intros e. unfold admit_entry. destruct (try_consume _ _ _ _ _) as [b st]. cbn [snd].
    destruct (is_ok st); [done|]. by case_bool_decide. }
  destruct (ac_buckets c !! _) as [e|]; [|destruct (_ <=? _); [done|]].
  - specialize (He e). by destruct (admit_entry d now e).
  - specialize (He (mkAdmissionEntry tb_empty 0)). by destruct (admit_entry d now _).
Qed.

Lemma apply_admission_grants s now e a :
  ar_outcome a ≠ AdmissionOutcome.kNotApplicable →
  outcome_grants_authority (de_outcome e) = true →
  outcome_grants_authority (de_outcome (apply_admission s now e a).2) = true ↔
  ar_outcome a = AdmissionOutcome.kGranted.
Proof. intros Hn Hg. unfold apply_admission. by destruct (ar_outcome a). Qed.

(** When the settled decision grants, for a record that is not terminal. *)
Lemma settle_grants s now request e record :
  catalog_find (sv_catalog s) (ci_id (dr_instance request)) = Some record →
  collective_state_is_terminal (cr_state record) = false →
  (outcome_grants_authority (de_outcome e) = true → de_flow_group_constructed e = true) →
  outcome_grants_authority (de_outcome (settle s now request e).2) = true ↔
  outcome_grants_authority (de_outcome e) = true ∧
  ar_outcome (Admission.admit_decision (sv_admission s) e now).2 = AdmissionOutcome.kGranted.
Proof.
  intros Hr Ht Hf. unfold settle. destruct (outcome_grants_authority (de_outcome e)) eqn:Eg.
  - unfold set_state. unfold catalog_find in Hr. rewrite Hr, Ht. cbn [andb].
    change (is_ok status_ok) with true. cbn [negb sv_admission set_field].
    pose proof (admit_applies (sv_admission s) e now Eg (Hf eq_refl)) as Ha.
    destruct (Admission.admit_decision _ _ _) as [c a]. cbn [snd] in Ha |- *.
    rewrite apply_admission_grants by done. naive_solver.
  - assert (∀ x : CoordinatorService, outcome_grants_authority (de_outcome ((x, e).2)) = true ↔
      false = true ∧ ar_outcome (Admission.admit_decision (sv_admission s) e now).2 =
        AdmissionOutcome.kGranted) as Hx.
    { intros x. cbn [snd]. rewrite Eg. naive_solver. }
    destruct (outcome_is_rejection _); [apply Hx|].
    destruct (outcome_requires_replan _); apply Hx.
Qed.

Lemma evaluated_grants s now request record :
  outcome_grants_authority (de_outcome (evaluated_decision s now request record)) = true ↔
  authorized (authority_snapshot (sv_authority s) now) request (effective_definition record).
Proof.
  change (de_outcome (evaluated_decision s now request record)) with
    (de_outcome (evaluate (authority_snapshot (sv_authority s) now) request
      (effective_definition record) (mkEngineCounters 0 0 0 0)).1).
  destruct (evaluate_cases (authority_snapshot (sv_authority s) now) request
    (effective_definition record) (mkEngineCounters 0 0 0 0))
    as [(g & t & policy & cp & tc & Ha & Hs)|[Hn (Ho & _)]].
  - split; [intros _; by exists g, t, policy, cp, tc|]. intros _.
    apply (f_equal de_outcome) in Hs. change (de_outcome (strip ?r)) with (de_outcome r) in Hs.
    rewrite Hs. cbn. unfold grant_outcome. by case_bool_decide.
  - rewrite Ho. done.
Qed.

(** What a granting evaluation carries. *)
Lemma evaluated_binds s now request record :
  outcome_grants_authority (de_outcome (evaluated_decision s now request record)) = true →
  let d := evaluated_decision s now request record in
  de_flow_group_constructed d = true ∧ de_instance d = dr_instance request ∧
  de_epoch d = au_epoch (sv_authority s) ∧
  de_participants d = cd_participants (cr_definition record) ∧
  de_policy_generation d = au_policy_generation (sv_authority s) ∧
  de_topology_generation d = au_topology_generation (sv_authority s).
Proof.
  intros Hg. cbv zeta. unfold evaluated_decision in *.
  set (e := (evaluate _ _ _ _).1) in *.
  change (de_outcome (e <| de_instance := dr_instance request |>)) with (de_outcome e) in Hg.
  destruct (evaluate_cases (authority_snapshot (sv_authority s) now) request
    (effective_definition record) (mkEngineCounters 0 0 0 0))
    as [(g & t & policy & cp & tc & Ha & Hs)|[Hn (Ho & _)]]; fold e in Hs || fold e in Ho;
    [|congruence].
  split_and!; [exact (f_equal de_flow_group_constructed Hs) | reflexivity
    | exact (f_equal de_epoch Hs) | | exact (f_equal de_policy_generation Hs)
    | exact (f_equal de_topology_generation Hs)].
  etrans; [exact (f_equal de_participants Hs)|]. cbn. unfold effective_definition.
  by destruct (_ && _).
Qed.

Lemma settle_activates s now request e record :
  catalog_find (sv_catalog s) (ci_id (dr_instance request)) = Some record →
  outcome_grants_authority (de_outcome (settle s now request e).2) = true →
  ∃ record', catalog_find (sv_catalog (settle s now request e).1) (ci_id (dr_instance request)) =
    Some record' ∧ cr_state record' = CollectiveState.kActive ∧
    cr_definition record' = cr_definition record ∧
    cr_current_attempt record' = cr_current_attempt record.
Proof.
  intros Hr. unfold settle. destruct (outcome_grants_authority (de_outcome e)) eqn:Eg.
  - unfold set_state, catalog_find in *. rewrite Hr.
    destruct (_ && _); [done|]. change (is_ok status_ok) with true. cbn [negb].
    destruct (Admission.admit_decision _ _ _) as [c a]. intros _.
    assert (∀ x e', sv_catalog (apply_admission x now e' a).1 = sv_catalog x) as ->.
    { intros x e'. unfold apply_admission. by destruct (ar_outcome a). }
    cbn [sv_catalog set_field cc_records]. rewrite lookup_insert_eq.
    eexists. by split_and!.
  - destruct (outcome_is_rejection _); cbn [fst snd]; [by rewrite Eg|].
    destruct (outcome_requires_replan _); cbn [fst snd]; by rewrite Eg.
Qed.

Lemma settle_fields s now request e :
  let d := (settle s now request e).2 in
  de_instance d = de_instance e ∧ de_epoch d = de_epoch e ∧
  de_participants d = de_participants e ∧
  de_policy_generation d = de_policy_generation e ∧
  de_topology_generation d = de_topology_generation e ∧
  sv_authority (settle s now request e).1 = sv_authority s.
Proof.
  cbv zeta. unfold settle. destruct (outcome_grants_authority _).
  - destruct (set_state _ _ _ _) as [c st]. destruct (is_ok st); cbn [negb]; [|done].
    destruct (Admission.admit_decision _ _ _) as [ctl a]. unfold apply_admission.
    by destruct (ar_outcome a).
  - destruct (outcome_is_rejection _); [by repeat case_bool_decide|].
    by destruct (outcome_requires_replan _).
Qed.

(** The newest record of a history after a decision was recorded. *)
Lemma history_record_last h d :
  1 ≤ dh_capacity h →
  last (dh_records (history_record h d).1) = Some (stamp d (dh_next_ordinal h)).
Proof.
  intros Hc. unfold history_record, evict. cbn [fst dh_capacity dh_records set_field].
  set (x := stamp d _).
  assert (∀ rs f e, last (evict_loop (dh_capacity h) (rs ++ [x]) f e).1.1 = Some x) as Hl.
  { intros rs. induction rs as [|r rs IH]; intros f e.
    - cbn [app evict_loop]. replace (_ <? _) with false; [done|].
      symmetry. apply Z.ltb_ge. unfold zlen. simpl. lia.
    - cbn [app evict_loop]. destruct (_ <? _); [apply IH|]. cbn [fst].
      by rewrite app_comm_cons, last_snoc. }
  specialize (Hl (dh_records h) (dh_first_ordinal h) (dh_evicted h)).
  by destruct (evict_loop _ _ _ _) as [[rs f] e].
Qed.

(** ** Properties *)

(** The service invariant: from its construction, whatever sequence of calls, starts and
    restores is applied, every component keeps its own invariant, at most [kSessionsMax]
    sessions exist, each filed under its own identity and opened in the current epoch, a
    stopped service has none, and the decision history stays within its capacity. *)
Theorem service_invariant (config : ServiceConfig) (entropy counter : Z)
    (s : CoordinatorService) :
  0 ≤ cf_decision_history_capacity config → is_u64 counter →
  rtc service_step (service_new config entropy counter) s → service_wf s.
Proof. apply service_reach. Qed.

Definition demo_service : CoordinatorService := service_new config_default 7 1.

Lemma service_invariant_witness :
  service_wf (open_session demo_service "peer" 5).1.
Proof.
  apply (service_invariant config_default 7 1); [vm_compute; congruence | by unfold is_u64|].
  apply rtc_once, service_run, run_open.
Defined.

(** C1: end to end, when the coordinator grants: [plan_flow_group] answers with a decision
    that grants authority iff the coordinator runs, the caller names no session or an open one
    with its incarnation and, if any, the current epoch, the request is well formed, the
    collective is registered under the requested generation, the requested attempt is its
    current one, it is not terminal, the evaluation of the frozen authority snapshot
    authorizes it, and admission control can release it now: its pacing needs no bucket, or
    its rate is positive and a bucket, new or refilled, holds the bytes of the request. *)
Theorem plan_grants_iff (s : CoordinatorService) (context : ServiceRequestContext)
    (request : DecisionRequest) :
  let now := cx_now_monotonic_ms context in
  (∃ d, (plan_flow_group s context request).2 = Some d ∧
        outcome_grants_authority (de_outcome d) = true) ↔
  ∃ record, plannable s context request record ∧
    authorized (authority_snapshot (sv_authority s) now) request
      (effective_definition record) ∧
    releasable (sv_admission s) (evaluated_decision s now request record) now.
Proof.
  cbv zeta. set (now := cx_now_monotonic_ms context).
  destruct (plan_cases s context request)
    as [[Hn Hd]|(r & Hp & s1 & d & Hs & Ha & _)].
  - split; [|naive_solver]. intros (d & Ed & Hg). by rewrite (Hd d Ed) in Hg.
  - pose proof (settle_grants s now request (evaluated_decision s now request r) r
      (pl_record _ _ _ _ Hp) (pl_state _ _ _ _ Hp)
      (fun H => proj1 (evaluated_binds s now request r H))) as Hgr.
    fold now in Hs. rewrite Hs in Hgr. cbn [snd] in Hgr.
    rewrite Ha. split.
    + intros (d' & [= <-] & Hg). apply Hgr in Hg as [H1 H2]. exists r. split; [done|].
      split; [by apply evaluated_grants|]. apply admit_granted_iff; [|done].
      by eapply admit_granted_authority.
    + intros (r' & Hp' & H1 & H2). assert (r' = r) as ->.
      { pose proof (pl_record _ _ _ _ Hp). pose proof (pl_record _ _ _ _ Hp'). congruence. }
      exists d. split; [done|]. apply Hgr. apply evaluated_grants in H1. split; [done|].
      apply admit_granted_iff; [|done]. unfold no_authority.
      by rewrite H1, (proj1 (evaluated_binds s now request r H1)).
Qed.

(** C3: what a grant by the coordinator means: every participant of the collective is recorded
    live and unexpired at the time of the decision, the decision is bound to the requested
    instance and to the epoch, policy and topology in force, the collective is active
    afterwards under an unchanged definition and attempt, and the decision is the newest one
    of the history. *)
Theorem plan_grant_sound (s : CoordinatorService) (context : ServiceRequestContext)
    (request : DecisionRequest) (d : DecisionRecord) :
  service_wf s → (plan_flow_group s context request).2 = Some d →
  outcome_grants_authority (de_outcome d) = true →
  let now := cx_now_monotonic_ms context in
  let s' := (plan_flow_group s context request).1.1 in
  Forall (fun p => ∃ l, au_peers (sv_authority s) !! p = Some l ∧ pr_is_current l now = true)
    (de_participants d) ∧
  de_instance d = dr_instance request ∧ de_epoch d = au_epoch (sv_authority s) ∧
  de_policy_generation d = au_policy_generation (sv_authority s) ∧
  de_topology_generation d = au_topology_generation (sv_authority s) ∧
  (∃ record, catalog_find (sv_catalog s') (ci_id (dr_instance request)) = Some record ∧
     cr_state record = CollectiveState.kActive ∧
     cr_current_attempt record = ci_attempt (dr_instance request) ∧
     cd_generation (cr_definition record) = ci_generation (dr_instance request) ∧
     de_participants d = cd_participants (cr_definition record)) ∧
  ∃ ordinal, last (dh_records (sv_history s')) = Some (stamp d ordinal).
Proof.
  intros Hw Ed Hg. cbv zeta. set (now := cx_now_monotonic_ms context).
  destruct (plan_cases s context request)
    as [[Hn Hd]|(r & Hp & s1 & d' & Hs & Ha & _ & Hc & Hau & Hh)].
  { by rewrite (Hd d Ed) in Hg. }
  rewrite Ed in Ha. injection Ha as <-. fold now in Hs.
  pose proof (settle_grants s now request (evaluated_decision s now request r) r
    (pl_record _ _ _ _ Hp) (pl_state _ _ _ _ Hp)
    (fun H => proj1 (evaluated_binds s now request r H))) as Hgr.
  pose proof (settle_activates s now request (evaluated_decision s now request r) r
    (pl_record _ _ _ _ Hp)) as Hact.
  destruct (settle_fields s now request (evaluated_decision s now request r))
    as (F1 & F2 & F3 & F4 & F5 & _).
  pose proof (settle_evolves s now request (evaluated_decision s now request r)) as Hev.
  rewrite Hs in Hgr, Hact, F1, F2, F3, F4, F5, Hev. cbn [fst snd] in *.
  destruct (Hact Hg) as (r' & Hr' & Hst & Hdef & Hatt).
  destruct (proj1 Hgr Hg) as [He _].
  destruct (evaluated_binds s now request r He) as (_ & B1 & B2 & B3 & B4 & B5).
  apply (evaluated_grants s now request r) in He as (g & t & policy & cp & tc & Hauth).
  split_and!; [| congruence | congruence | congruence | congruence | |].
  - destruct Hauth as (_ & _ & _ & (_ & _ & _ & _ & _ & _ & _ & Hlive) & _).
    rewrite F3, B3. replace (cd_participants (effective_definition r)) with
      (cd_participants (cr_definition r)) in Hlive
      by (unfold effective_definition; by destruct (_ && _)).
    eapply Forall_impl; [exact Hlive|]. intros p (l & Hl & Hs1 & Hs2).
    rewrite find_peer_lookup in Hl by apply Hw. exists l. split; [done|].
    unfold pr_is_current. rewrite bool_decide_eq_true_2 by done. by apply Z.ltb_lt.
  - exists r'. rewrite Hc. split_and!; [done|done| | |].
    + rewrite Hatt. apply Hp.
    + rewrite Hdef. apply Hp.
    + rewrite Hdef. congruence.
  - exists (dh_next_ordinal (sv_history s1)). rewrite Hh. apply history_record_last.
    apply Hev, Hw.
Qed.

(** A coordinator brought up to the point of a decision: started, one session, a policy, a
    topology with its evidence, three live participants, one collective with one attempt. *)
Definition demo_started : CoordinatorService :=
  match start demo_service 0 with Some (s, _) => s | None => demo_service end.
Definition demo_opened : CoordinatorService := (open_session demo_started "peer" 5).1.
Definition demo_binding : Identity * Identity :=
  match (open_session demo_started "peer" 5).2 with
  | Ok b => (sb_id b, sb_incarnation b)
  | Fail _ => (id_none, id_none)
  end.
Definition demo_context (now : Z) : ServiceRequestContext :=
  mkServiceRequestContext demo_binding.1 demo_binding.2 (au_epoch (sv_authority demo_started))
    now 77.
Definition demo_policy : TrafficPolicy :=
  (standard_policy (mkIdentity 2 2))
    <| tp_class_policies := [add_class TrafficClass.kUnclassified 0 0 0 false true
                               IsolationMode.kShared;
                             add_class TrafficClass.kBulkData 8 1000 kUnlimitedRate
                               false true IsolationMode.kShared] |>.
Definition demo_evidence : CoordinatorService :=
  (ingest_congestion (ingest_capacity (ingest_topology
     (install_policy demo_opened (demo_context 10) demo_policy []).1.1.1
     (demo_context 20) demo_topology []).1.1.1
     (demo_context 30) demo_capacity []).1.1.1
     (demo_context 40) demo_congestion []).1.1.1.
Definition demo_published : CoordinatorService :=
  foldl (fun s p => (publish_participant s (demo_context 100) p (mkIdentity 4 1)
                       (mkIdentity 9 1) ParticipantState.kLive).1) demo_evidence demo_members.
Definition demo_ready : CoordinatorService :=
  (begin_attempt (register_collective demo_published (demo_context 110) demo_definition).1.1
     (demo_context 120) (mkIdentity 1 1) demo_generation (mkIdentity 1 3) 30).1.1.
Definition demo_plan_request : DecisionRequest :=
  demo_request <| dr_observed_epoch := au_epoch (sv_authority demo_started) |>.

Lemma demo_ready_calls : rtc call_step demo_opened demo_ready.
Proof.
  unfold demo_ready, demo_published, demo_evidence, demo_members. cbn [foldl].
  eapply rtc_l; [apply (call_policy _ _ (demo_context 10) demo_policy [])|].
  eapply rtc_l; [apply (call_topology _ _ (demo_context 20) demo_topology [])|].
  eapply rtc_l; [apply (call_capacity _ _ (demo_context 30) demo_capacity [])|].
  eapply rtc_l; [apply (call_congestion _ _ (demo_context 40) demo_congestion [])|].
  do 3 (eapply rtc_l; [by apply (call_publish _ _ (demo_context 100))|]).
  eapply rtc_l; [apply (call_register _ _ (demo_context 110) demo_definition)|].
  apply rtc_once, call_attempt.
Qed.

Lemma demo_started_wf : service_wf demo_started.
Proof.
  destruct (start_spec demo_service 0) as (s' & E & Hw & _); [|reflexivity|].
  - apply service_new_wf; [vm_compute; congruence | by unfold is_u64].
  - unfold demo_started. rewrite E. exact Hw.
Qed.

Lemma demo_opened_wf : service_wf demo_opened.
Proof. eapply run_step_wf; [apply run_open | apply demo_started_wf]. Qed.

Lemma demo_ready_wf : service_wf demo_ready.
Proof. eapply evolves_wf; [apply calls_evolve, demo_ready_calls | apply demo_opened_wf]. Qed.

Lemma plan_grant_sound_witness :
  ∃ d, (plan_flow_group demo_ready (demo_context 500) demo_plan_request).2 = Some d ∧
    de_epoch d = au_epoch (sv_authority demo_ready) ∧
    de_instance d = dr_instance demo_plan_request.
Proof.
  destruct ((plan_flow_group demo_ready (demo_context 500) demo_plan_request).2) as [d|] eqn:E;
    [|vm_compute in E; discriminate].
  exists d. split; [reflexivity|].
  destruct (plan_grant_sound demo_ready (demo_context 500) demo_plan_request d)
    as (_ & H1 & H2 & _); [apply demo_ready_wf | exact E | |].
  - vm_compute in E. injection E as <-. reflexivity.
  - split; [exact H2 | exact H1].
Defined.

Lemma run_step_catalog s s' : run_step s s' → rtc catalog_step (sv_catalog s) (sv_catalog s').
Proof.
  destruct 1 as [s s' Hc|s label now|s now s' status H].
  - by apply call_step_evolves.
  - destruct (open_session_spec s label now) as (_ & -> & _). done.
  - unfold start in H. destruct (sv_running s); [by injection H as <- <-|].
    destruct (begin_boot _ _ _ _) as [[a c]|]; [|done]. by injection H as <- <-.
Qed.

(** A collective that is terminal in a catalog, and one that a snapshot holds as terminal. *)
Definition terminal_in (id : Identity) (c : CollectiveCatalog) : Prop :=
  ∃ r, catalog_find c id = Some r ∧ collective_state_is_terminal (cr_state r) = true.

Definition holds_terminal (id : Identity) (contents : SnapshotContents) : Prop :=
  Exists (fun r => cd_id (cr_definition r) = id ∧ collective_state_is_terminal (cr_state r) = true)
    (sc_records contents).

(** Every call, where a snapshot is only restored if it holds the collective as terminal. *)
Inductive settled_step (id : Identity) : CoordinatorService → CoordinatorService → Prop :=
  | settled_run s s' : run_step s s' → settled_step id s s'
  | settled_restore s path now loaded contents diagnostic :
      (loaded = LoadDisposition.kLoaded → holds_terminal id contents) →
      settled_step id s (restore s path now loaded contents diagnostic).1.1.

Lemma settled_is_step id s s' : settled_step id s s' → service_step s s'.
Proof. destruct 1; by constructor. Qed.

Lemma terminal_in_step id c c' : rtc catalog_step c c' → terminal_in id c → terminal_in id c'.
Proof.
  intros Hst (r & Hr & Ht).
  assert (buried id (cr_definition r) (cr_current_attempt r) c) as Hb by (by exists r).
  clear Hr Ht. assert (buried id (cr_definition r) (cr_current_attempt r) c') as (r' & ? & ? & _).
  { induction Hst; eauto using buried_step. }
  by exists r'.
Qed.

Lemma load_loop_keeps records staged highest staged' h id r :
  load_loop records staged highest = Ok (staged', h) → staged !! id = Some r →
  staged' !! id = Some r.
Proof.
  revert staged highest. induction records as [|x records IH]; intros staged highest H Hr.
  { by injection H as <- <-. }
  cbn [load_loop] in H. destruct (negb _); [done|]. destruct (is_none _); [done|].
  case_bool_decide; [done|]. destruct (staged !! cd_id _) eqn:Es; [done|].
  apply IH in H; [done|]. rewrite lookup_insert_ne by congruence. done.
Qed.

Lemma load_loop_holds records staged highest staged' h :
  load_loop records staged highest = Ok (staged', h) →
  Forall (fun r => staged' !! cd_id (cr_definition r) = Some r) records.
Proof.
  revert staged highest. induction records as [|x records IH]; intros staged highest H; [done|].
  cbn [load_loop] in H. destruct (negb _); [done|]. destruct (is_none _); [done|].
  case_bool_decide; [done|]. destruct (staged !! cd_id _) eqn:Es; [done|]. constructor.
  - eapply load_loop_keeps; [exact H | apply lookup_insert_eq].
  - by eapply IH.
Qed.

Lemma catalog_load_terminal id c records :
  terminal_in id c →
  Exists (fun r => cd_id (cr_definition r) = id ∧ collective_state_is_terminal (cr_state r) = true)
    records →
  terminal_in id (catalog_load c records).1.
Proof.
  intros Hc Hr. unfold catalog_load. destruct (_ <? _); [done|].
  destruct (load_loop records ∅ 0) as [[staged h]|] eqn:El; [|done].
  apply load_loop_holds in El. apply Exists_exists in Hr as (r & Hin & <- & Ht).
  rewrite Forall_forall in El. exists r. split; [by apply El | done].
Qed.

Lemma settled_step_terminal id s s' :
  settled_step id s s' → terminal_in id (sv_catalog s) → terminal_in id (sv_catalog s').
Proof.
  intros [s1 s1' Hst|s1 path now loaded contents diagnostic Hl] Ht.
  { eapply terminal_in_step; [by apply run_step_catalog | done]. }
  unfold restore. destruct loaded; try done. specialize (Hl eq_refl).
  destruct (restore_durable _ _ _) as [a st]. destruct (is_ok st); cbn [negb fst]; [|done].
  pose proof (catalog_load_terminal id (sv_catalog s1) (sc_records contents) Ht Hl) as Hc.
  cbn [sv_catalog set_field]. destruct (catalog_load _ _) as [c st2]. cbn [fst] in Hc.
  by destruct (is_ok st2).
Qed.

(** A snapshot of a coordinator holds its terminal collectives as terminal. *)
Lemma snapshot_holds_terminal id s now :
  service_wf s → terminal_in id (sv_catalog s) → holds_terminal id (snapshot_contents s now).
Proof.
  intros Hw (r & Hr & Ht). apply Exists_exists. exists r.
  destruct (proj2 (sw_catalog s Hw) id r Hr) as (Hid & _). split; [|done].
  cbn [snapshot_contents sc_records]. unfold export_all.
  rewrite (std_sort_perm id_ltb (fun r => cd_id (cr_definition r))).
  apply list_elem_of_fmap. exists (id, r). split; [done|]. by apply elem_of_map_to_list.
Qed.

(** C5: a cancelled, retired or completed collective is never granted authority again: after
    any sequence of calls, sessions, starts and restores in which every restored snapshot
    holds the collective as terminal, no request for it is answered with a decision that
    grants, whatever its generation, attempt and caller; and every snapshot that is captured
    then holds it as terminal, so that it may itself be restored. Only the restoration of a
    snapshot from before the collective ended can revive it. *)
Theorem terminal_never_granted (s s' : CoordinatorService) (id : Identity) :
  service_wf s → terminal_in id (sv_catalog s) → rtc (settled_step id) s s' →
  (∀ context request d, ci_id (dr_instance request) = id →
     (plan_flow_group s' context request).2 = Some d →
     outcome_grants_authority (de_outcome d) = false) ∧
  ∀ now, holds_terminal id (snapshot_contents s' now).
Proof.
  intros Hw Ht Hrtc. assert (service_wf s' ∧ terminal_in id (sv_catalog s')) as [Hw' Ht'].
  { induction Hrtc as [|a b c Hst _ IH]; [done|].
    apply IH; [by eapply service_step_wf, Hw; apply settled_is_step with id |
               by eapply settled_step_terminal]. }
  split; [|intros now; by apply snapshot_holds_terminal].
  intros context request d <- Hd. destruct Ht' as (r & Hr' & Ht').
  destruct (plan_cases s' context request) as [[_ Hn]|(r2 & Hp & _)].
  - by rewrite (Hn d Hd).
  - pose proof (pl_record _ _ _ _ Hp) as H1. pose proof (pl_state _ _ _ _ Hp) as H2. congruence.
Qed.

Definition demo_cancelled : CoordinatorService :=
  (cancel_collective demo_ready (demo_context 130) (mkIdentity 1 1) demo_generation
     (mkIdentity 1 3) []).1.1.1.

Lemma demo_cancelled_wf : service_wf demo_cancelled.
Proof. eapply run_step_wf; [apply run_call, call_cancel | apply demo_ready_wf]. Qed.

Lemma demo_cancelled_terminal : terminal_in (mkIdentity 1 1) (sv_catalog demo_cancelled).
Proof.
  destruct (catalog_find (sv_catalog demo_cancelled) (mkIdentity 1 1)) as [r|] eqn:Er;
    [|vm_compute in Er; discriminate].
  exists r. split; [exact Er|]. vm_compute in Er. injection Er as <-. reflexivity.
Qed.

(** The coordinator restores the snapshot of its own cancelled collective. *)
Definition demo_reloaded : CoordinatorService :=
  (restore demo_cancelled "/var/lib/ctf/state" 140 LoadDisposition.kLoaded
     (snapshot_contents demo_cancelled 135) "").1.1.

Lemma terminal_never_granted_witness :
  ∃ d, (plan_flow_group demo_reloaded (demo_context 500) demo_plan_request).2 = Some d ∧
    outcome_grants_authority (de_outcome d) = false.
Proof.
  destruct ((plan_flow_group demo_reloaded (demo_context 500) demo_plan_request).2)
    as [d|] eqn:E; [|vm_compute in E; discriminate].
  exists d. split; [reflexivity|].
  apply (terminal_never_granted demo_cancelled demo_reloaded (mkIdentity 1 1)) with
    (context := demo_context 500) (request := demo_plan_request);
    [apply demo_cancelled_wf | apply demo_cancelled_terminal | | reflexivity | exact E].
  apply rtc_once, settled_restore. intros _.
  apply snapshot_holds_terminal; [apply demo_cancelled_wf | apply demo_cancelled_terminal].
Defined.

(** A snapshot from before the cancellation revives the collective. *)
Lemma older_snapshot_revives :
  let s' := (restore demo_cancelled "/var/lib/ctf/state" 140 LoadDisposition.kLoaded
               (snapshot_contents demo_ready 125) "").1.1 in
  collective_state_is_terminal <$> (cr_state <$> catalog_find (sv_catalog demo_cancelled)
    (mkIdentity 1 1)) = Some true ∧
  collective_state_is_terminal <$> (cr_state <$> catalog_find (sv_catalog s')
    (mkIdentity 1 1)) = Some false.
Proof. by vm_compute. Qed.

(** ** Frames *)
Lemma check_session_ok s envelope now reasons :
  is_ok (check_session_locked s envelope now reasons).2 = true →
  ∃ b, sv_sessions s !! ev_session envelope = Some b ∧
    ev_epoch envelope = au_epoch (sv_authority s) ∧
    ev_incarnation envelope = sb_incarnation b ∧
    sb_last_frame_sequence b < ev_frame_sequence envelope ∧
    sv_sessions (check_session_locked s envelope now reasons).1.1 =
      <[ev_session envelope := b
          <| sb_last_frame_sequence := ev_frame_sequence envelope |>
          <| sb_last_frame_monotonic_ms := now |>
          <| sb_frames_received ::= fun n => w64 (n + 1) |>]> (sv_sessions s).
Proof.
  unfold check_session_locked. destruct (is_none (ev_session envelope)); [done|].
  destruct (sv_sessions s !! ev_session envelope) as [b|] eqn:Eb; [|done].
  destruct (is_none (ev_epoch envelope)); [done|]. cbn [orb].
  destruct (ev_epoch envelope =i _) eqn:E1; [|done]. cbn [negb].
  destruct (is_none (ev_incarnation envelope)); [done|].
  destruct (ev_incarnation envelope =i sb_incarnation b) eqn:E2; cbn [negb];
    [|by destruct (_ <i _)].
  destruct (seq_is_unset _); [done|]. destruct (_ <=? _) eqn:E3; [done|]. intros _.
  apply id_eqb_eq in E1, E2. bool_prop. exists b. by split_and!.
Qed.

(** A step after which the session is open. *)
Definition open_step (session : Identity) (s s' : CoordinatorService) : Prop :=
  run_step s s' ∧ is_Some (sv_sessions s' !! session).

Lemma open_step_sequence session s s' b b' :
  open_step session s s' → sv_sessions s !! session = Some b →
  sv_sessions s' !! session = Some b' → sb_last_frame_sequence b ≤ sb_last_frame_sequence b'.
Proof.
  intros [Hst _] Hb Hb'. destruct Hst as [s s' Hc|s label now|s now s' status H].
  - apply call_step_evolves, ev_kept in Hc. destruct (Hc _ _ Hb') as (b1 & Hb1 & ?).
    simplify_eq. lia.
  - destruct (open_session_spec s label now) as (_ & _ & _ & _ & _ & _ & Hsub).
    pose proof (lookup_weaken _ _ _ _ Hb Hsub) as E. simplify_eq. lia.
  - assert (sv_sessions s' = sv_sessions s) as E; [|rewrite E in Hb'; simplify_eq; lia].
    unfold start in H. destruct (sv_running s); [by injection H as <- <-|].
    destruct (begin_boot _ _ _ _) as [[a c]|]; [|done]. by injection H as <- <-.
Qed.

(** C8: no frame is accepted twice: when a frame of a session was accepted, then for as long
    as the session stays open, whatever else the coordinator does, a later frame of it is
    accepted only with a strictly greater sequence number; and an accepted frame names the
    current epoch and the incarnation minted for its session. *)
Theorem frame_sequences_increase (s1 s2 : CoordinatorService) (e1 e2 : EnvelopeView)
    (now1 now2 : Z) (reasons1 reasons2 : ReasonChain) :
  is_ok (validate_envelope s1 e1 now1 reasons1).2 = true →
  rtc (open_step (ev_session e1)) (validate_envelope s1 e1 now1 reasons1).1.1 s2 →
  ev_session e2 = ev_session e1 →
  is_ok (validate_envelope s2 e2 now2 reasons2).2 = true →
  ev_frame_sequence e1 < ev_frame_sequence e2 ∧ ev_epoch e2 = au_epoch (sv_authority s2) ∧
  ∃ b, sv_sessions s2 !! ev_session e2 = Some b ∧ sb_incarnation b = ev_incarnation e2.
Proof.
  unfold validate_envelope. intros (b1 & _ & _ & _ & _ & Hs1)%check_session_ok Hr Hid.
  intros (b2 & Hb2 & He2 & Hi2 & Hlt & _)%check_session_ok.
  split_and!; [|done|by exists b2]. set (s1' := (check_session_locked _ _ _ _).1.1) in *.
  assert (∃ b, sv_sessions s1' !! ev_session e1 = Some b ∧
    sb_last_frame_sequence b = ev_frame_sequence e1) as (b & Hb & <-).
  { rewrite Hs1, lookup_insert_eq. by eexists. }
  rewrite Hid in Hb2. clearbody s1'. clear Hs1.
  assert (sb_last_frame_sequence b ≤ sb_last_frame_sequence b2); [|lia].
  clear -Hr Hb Hb2. revert b Hb. induction Hr as [a|a c d Hst _ IH]; intros b Hb.
  { simplify_eq. lia. }
  destruct Hst as [Hst [bc Hbc]]. specialize (IH Hb2 bc Hbc).
  pose proof (open_step_sequence _ _ _ _ _ (conj Hst (mk_is_Some _ _ Hbc)) Hb Hbc). lia.
Qed.

Definition demo_frame (n : Z) : EnvelopeView :=
  mkEnvelopeView demo_binding.1 demo_binding.2 (au_epoch (sv_authority demo_started)) n 0.

(** The same frame is refused when it comes again. *)
Lemma frame_sequences_increase_witness :
  let s1 := (validate_envelope demo_opened (demo_frame 4) 6 []).1.1 in
  is_ok (validate_envelope demo_opened (demo_frame 4) 6 []).2 = true ∧
  is_ok (validate_envelope s1 (demo_frame 4) 7 []).2 = false.
Proof.
  cbv zeta. assert (is_ok (validate_envelope demo_opened (demo_frame 4) 6 []).2 = true) as H1
    by (vm_compute; reflexivity).
  split; [exact H1|].
  destruct (is_ok (validate_envelope (validate_envelope demo_opened (demo_frame 4) 6 []).1.1
    (demo_frame 4) 7 []).2) eqn:E; [|reflexivity]. exfalso.
  destruct (frame_sequences_increase demo_opened _ (demo_frame 4) (demo_frame 4) 6 7 [] []
    H1 (rtc_refl _ _) eq_refl E) as [H _]. cbn in H. lia.
Defined.

(** ** Teardown and restart *)

(** Any call or new session within one boot. *)
Inductive boot_step : CoordinatorService → CoordinatorService → Prop :=
  | boot_call s s' : call_step s s' → boot_step s s'
  | boot_open s label now : boot_step s (open_session s label now).1.

Lemma boot_step_live s s' :
  rtc boot_step s s' → rtc live_step (sv_authority s) (sv_authority s').
Proof.
  induction 1 as [|a b c [x y Hc|x label now] _ IH]; [done|..].
  - etrans; [apply (call_step_evolves _ _ Hc) | done].
  - destruct (open_session_spec x label now) as (E & _). by rewrite E in IH.
Qed.

(** C23: closing a session ends what it published, for the rest of the boot: the session is
    unknown to every later check, and each participant bound to it is fenced, so that neither
    it nor any later heartbeat or publication under its incarnation makes it current again,
    whatever calls follow. *)
Theorem close_session_fences (s s' : CoordinatorService) (session : Identity) (now : Z)
    (p : Identity) (l : PeerLiveness) :
  service_wf s → is_Some (sv_sessions s !! session) →
  au_peers (sv_authority s) !! p = Some l → pr_bound_session l = session →
  rtc boot_step (close_session s session now).1 s' →
  sv_sessions (close_session s session now).1 !! session = None ∧
  (∀ t l', au_peers (sv_authority s') !! p = Some l' →
     pr_incarnation l' = pr_incarnation l → pr_is_current l' t = false) ∧
  (∀ context, is_ok (heartbeat s' context p (pr_incarnation l)).2 = false).
Proof.
  intros Hw [b Hb] Hl Hbound Hr. pose proof (sw_authority s Hw) as Ha.
  destruct (wf_peers _ Ha p l Hl) as (Hp & Hpn & Hin & _ & Hhigh).
  assert (session ≠ id_none) as Hsn.
  { destruct (sw_sessions s Hw) as (_ & Hs & _). by destruct (Hs _ _ Hb) as (_ & ? & _). }
  assert (spent (sv_authority (close_session s session now).1) p (pr_incarnation l)) as Hsp.
  { unfold close_session, drop_session. rewrite Hb. simpl. exists (pr_incarnation l).
    split; [done|]. right. split; [done|]. exists (fence now l). simpl.
    rewrite lookup_fmap, Hl. simpl. unfold bound_to. rewrite Hbound, id_eqb_refl.
    apply is_some_neq in Hsn. by rewrite Hsn. }
  apply boot_step_live in Hr.
  assert (authority_wf (sv_authority s')) as Ha'.
  { eapply live_steps_wf; [exact Hr|].
    eapply live_steps_wf; [apply close_session_evolves | done]. }
  assert (spent (sv_authority s') p (pr_incarnation l)) as Hsp'.
  { clear -Hr Hsp. induction Hr; eauto using live_step_keeps_spent. }
  split_and!.
  - unfold close_session. rewrite Hb. cbn [fst].
    replace (sv_sessions (drop_session s session now)) with (delete session (sv_sessions s))
      by (unfold drop_session; by destruct (expire_session _ _ _)).
    apply lookup_delete_eq.
  - intros t l' Hl' Hi. by eapply spent_not_current.
  - intros context. unfold heartbeat. apply is_none_neq in Hpn, Hin. rewrite Hpn, Hin.
    cbn [orb]. by rewrite heartbeat_spent.
Qed.

Lemma close_session_fences_witness :
  let s' := (close_session demo_ready demo_binding.1 200).1 in
  is_ok (heartbeat s' (demo_context 210) (mkIdentity 0 1) (mkIdentity 4 1)).2 = false.
Proof.
  cbv zeta.
  destruct (au_peers (sv_authority demo_ready) !! mkIdentity 0 1) as [l|] eqn:El;
    [|vm_compute in El; discriminate].
  assert (pr_incarnation l = mkIdentity 4 1 ∧ pr_bound_session l = demo_binding.1) as [Hi Hb].
  { vm_compute in El. injection El as <-. split; vm_compute; reflexivity. }
  destruct (close_session_fences demo_ready (close_session demo_ready demo_binding.1 200).1
    demo_binding.1 200 (mkIdentity 0 1) l
    demo_ready_wf) as (_ & _ & H); [vm_compute; by eexists | exact El | exact Hb
    | apply rtc_refl |]. rewrite <- Hi. apply H.
Defined.

Lemma validated_participants d :
  is_ok (validate_definition d) = true → cd_participants d ≠ [].
Proof.
  unfold validate_definition. destruct (is_none _); [done|]. destruct (_ && _ && _); [done|].
  destruct (_ <? _); [done|]. destruct (zlen (cd_participants d) =? 0) eqn:E; [done|].
  intros _. by apply zlen_nil_iff.
Qed.

Lemma effective_participants r :
  cd_participants (effective_definition r) = cd_participants (cr_definition r).
Proof. unfold effective_definition. by destruct (_ && _). Qed.

(** *** Participants that nobody published *)

Lemma mint_if_none_frame s g :
  let s' := (mint_if_none s g).1 in
  sv_authority s' = sv_authority s ∧ sv_catalog s' = sv_catalog s ∧
  sv_mutation_sequence s' = sv_mutation_sequence s ∧
  sv_persistence_dirty s' = sv_persistence_dirty s.
Proof. unfold mint_if_none. by destruct (is_none g). Qed.

(** The authority knows nothing of the participant. *)
Definition unseen (p : Identity) (s : CoordinatorService) : Prop :=
  au_peers (sv_authority s) !! p = None.

(** What installations do to the participants. *)
Lemma install_policy_peers a p : au_peers (Authority.install_policy a p).1 = au_peers a.
Proof. unfold Authority.install_policy. by repeat case_match. Qed.
Lemma install_topology_peers a t : au_peers (install_topology a t).1 = au_peers a.
Proof. unfold install_topology. generalize (topology_canonicalize t). intros. by repeat case_match. Qed.
Lemma install_capacity_peers a t : au_peers (install_capacity a t).1 = au_peers a.
Proof. unfold install_capacity. generalize (capacity_canonicalize t). intros. by repeat case_match. Qed.
Lemma install_congestion_peers a t : au_peers (install_congestion a t).1 = au_peers a.
Proof.
  unfold install_congestion. generalize (congestion_canonicalize t). intros. by repeat case_match.
Qed.

Lemma expire_session_unseen a session now p :
  au_peers a !! p = None → au_peers (expire_session a session now).1 !! p = None.
Proof. intros H. unfold expire_session. cbn. by rewrite lookup_fmap, H. Qed.

Lemma drop_session_unseen p s session now : unseen p s → unseen p (drop_session s session now).
Proof.
  intros H. unfold unseen, drop_session.
  pose proof (expire_session_unseen (sv_authority s) session now p H) as He.
  by destruct (expire_session _ _ _) as [a n].
Qed.

Lemma drop_sessions_unseen p now ids s :
  unseen p s → unseen p (foldl (fun s id => drop_session s id now) s ids).
Proof. revert s. induction ids as [|i ids IH]; intros s H; [done|]. apply IH. by apply drop_session_unseen. Qed.

Lemma publish_liveness_other a l p :
  pr_participant l ≠ p → au_peers a !! p = None → au_peers (publish_liveness a l).1 !! p = None.
Proof.
  intros Hne H. unfold publish_liveness. repeat case_match; try done; cbn;
    rewrite lookup_insert_ne by done; done.
Qed.

Lemma heartbeat_other a q i now ttl p :
  q ≠ p → au_peers a !! p = None → au_peers (Authority.heartbeat a q i now ttl).1 !! p = None.
Proof.
  intros Hne H. unfold Authority.heartbeat. repeat case_match; try done; cbn;
    rewrite lookup_insert_ne by done; done.
Qed.

Lemma plan_authority s context request :
  sv_authority (plan_flow_group s context request).1.1 = sv_authority s.
Proof.
  unfold plan_flow_group. destruct (negb _); [done|].
  destruct (plan_gate s context); [done|]. destruct (negb _); [done|].
  destruct (catalog_find _ _) as [r|]; [|done]. destruct (negb _); [done|].
  destruct (_ || _); [done|]. destruct (collective_state_is_terminal _); [done|].
  generalize (evaluated_decision s (cx_now_monotonic_ms context) request r). intros e.
  assert (sv_authority (settle s (cx_now_monotonic_ms context) request e).1 = sv_authority s) as Hs.
  { unfold settle. destruct (outcome_grants_authority _).
    - destruct (set_state _ _ _ _) as [c st]. destruct (is_ok st); cbn [negb]; [|done].
      destruct (Admission.admit_decision _ _ _) as [ctl a]. unfold apply_admission.
      by destruct (ar_outcome a).
    - destruct (outcome_is_rejection _); [by repeat case_bool_decide|].
      by destruct (outcome_requires_replan _). }
  destruct (settle _ _ _ e) as [s1 d]. cbn [fst] in Hs.
  by destruct (history_record _ d) as [h o].
Qed.

Lemma lifecycle_authority s :
  (∀ context d, sv_authority (register_collective s context d).1.1 = sv_authority s) ∧
  (∀ context id g a bytes, sv_authority (begin_attempt s context id g a bytes).1.1 = sv_authority s) ∧
  (∀ context id g a rs, sv_authority (cancel_collective s context id g a rs).1.1.1 = sv_authority s) ∧
  (∀ context id g a rs, sv_authority (retire_collective s context id g a rs).1.1.1 = sv_authority s).
Proof.
  split_and!; intros.
  - unfold register_collective. destruct (negb _); [done|]. destruct (negb _); [done|].
    destruct (register_definition _ _ _) as [? o]. by destruct (ro_result o).
  - unfold begin_attempt. destruct (negb _); [done|]. destruct (catalog_find _ _); [|done].
    destruct (negb _); [done|]. destruct (collective_state_is_terminal _); [done|].
    by destruct (Catalog.begin_attempt _ _ _ _) as [? []].
  - unfold cancel_collective. destruct (catalog_find _ _); [|done]. destruct (negb _); [done|].
    destruct (collective_state_is_terminal _); [done|]. destruct (names_stale_attempt _ _); [done|].
    destruct (cancel _ _ _) as [? st]. by destruct (negb _).
  - unfold retire_collective. destruct (catalog_find _ _); [|done]. destruct (negb _); [done|].
    destruct (collective_state_is_terminal _); [done|]. destruct (names_stale_attempt _ _); [done|].
    destruct (retire _ _ _) as [? st]. by destruct (negb _).
Qed.

(** An ingestion: the context check, the generation and the installation [install], whose
    effect on the participants is [peers]. *)
Ltac ingestion_unseen Hp s g install peers :=
  destruct (check_context_locked _ _ _) as [? st]; destruct (negb _); [done|];
  destruct (mint_if_none_frame s g) as (E & _);
  destruct (mint_if_none s _) as [s1 ?]; cbn [fst] in E; rewrite <- E in Hp;
  match goal with |- context [install _ ?x] =>
    rewrite <- (peers (sv_authority s1) x) in Hp;
    destruct (install (sv_authority s1) x) as [a []] end; done.

Lemma evidence_unseen p s :
  unseen p s →
  (∀ context e rs, unseen p (ingest_capacity s context e rs).1.1.1) ∧
  (∀ context e rs, unseen p (ingest_congestion s context e rs).1.1.1) ∧
  (∀ context e rs, unseen p (ingest_topology s context e rs).1.1.1) ∧
  (∀ context e rs, unseen p (install_policy s context e rs).1.1.1).
Proof.
  intros Hp. unfold unseen in *. split_and!; intros context e rs.
  - unfold ingest_capacity. ingestion_unseen Hp s (ce_generation e) install_capacity install_capacity_peers.
  - unfold ingest_congestion.
    ingestion_unseen Hp s (ge_generation e) install_congestion install_congestion_peers.
  - unfold ingest_topology. ingestion_unseen Hp s (te_generation e) install_topology install_topology_peers.
  - unfold install_policy.
    ingestion_unseen Hp s (tp_generation e) Authority.install_policy install_policy_peers.
Qed.

Lemma stop_begin_unseen p s now : unseen p s → unseen p (stop_begin s now).1.
Proof.
  intros Hp. unfold stop_begin. destruct (negb _); [done|]. unfold unseen. cbn.
  revert Hp. unfold unseen, expire_sessions. generalize (sv_authority s).
  generalize (fst <$> map_to_list (sv_sessions s)). intros ids.
  induction ids as [|i ids IH]; intros a Ha; [done|]. cbn [foldl]. apply IH.
  by apply expire_session_unseen.
Qed.

(** A publication or heartbeat makes known only the participant it names. *)
Lemma publish_unseen p s context q i node st :
  q ≠ p → unseen p s → unseen p (publish_participant s context q i node st).1.
Proof.
  intros Hne Hp. unfold unseen in *. unfold publish_participant. destruct (_ || _); [done|].
  destruct (negb _);
    match goal with |- context [publish_liveness _ ?l] =>
      pose proof (publish_liveness_other (sv_authority s) l p Hne Hp) as H;
      destruct (publish_liveness (sv_authority s) l) as [a []] end; done.
Qed.

Lemma heartbeat_unseen p s context q i :
  q ≠ p → unseen p s → unseen p (heartbeat s context q i).1.
Proof.
  intros Hne Hp. unfold unseen in *. unfold heartbeat. destruct (_ || _); [done|].
  pose proof (heartbeat_other (sv_authority s) q i (cx_now_monotonic_ms context)
    (cf_participant_ttl_ms (sv_config s)) p Hne Hp) as H.
  by destruct (Authority.heartbeat _ _ _ _ _) as [a []].
Qed.

(** A call that neither publishes nor heartbeats for a participant does not make it known. *)
Lemma call_unseen p s s' : call_step_of (fun q => q ≠ p) s s' → unseen p s → unseen p s'.
Proof.
  intros Hst Hp. destruct Hst;
    try (by apply stop_begin_unseen || by apply publish_unseen || by apply heartbeat_unseen ||
         by apply evidence_unseen).
  - unfold flush_begin. by repeat case_match.
  - unfold write_done. by repeat case_match.
  - unfold validate_envelope, check_session_locked. by repeat case_match.
  - unfold close_session. case_match; [by apply drop_session_unseen | done].
  - by apply drop_sessions_unseen.
  - unfold unseen. destruct (lifecycle_authority s) as (-> & _). done.
  - unfold unseen. destruct (lifecycle_authority s) as (_ & -> & _). done.
  - unfold unseen. destruct (lifecycle_authority s) as (_ & _ & -> & _). done.
  - unfold unseen. destruct (lifecycle_authority s) as (_ & _ & _ & ->). done.
  - unfold unseen. by rewrite plan_authority.
  - done.
  - done.
  - done.
Qed.

(** Every step in which the participant is not published and sends no heartbeat, and every
    step that opens no session. *)
Inductive quiet_step (p : Identity) : CoordinatorService → CoordinatorService → Prop :=
  | quiet_call s s' : call_step_of (fun q => q ≠ p) s s' → quiet_step p s s'
  | quiet_open s label now : quiet_step p s (open_session s label now).1
  | quiet_start s now s' status : start s now = Some (s', status) → quiet_step p s s'
  | quiet_restore s path now loaded contents diagnostic :
      quiet_step p s (restore s path now loaded contents diagnostic).1.1.

Inductive unopened_step : CoordinatorService → CoordinatorService → Prop :=
  | unopened_call s s' : call_step s s' → unopened_step s s'
  | unopened_start s now s' status : start s now = Some (s', status) → unopened_step s s'
  | unopened_restore s path now loaded contents diagnostic :
      unopened_step s (restore s path now loaded contents diagnostic).1.1.

Lemma quiet_is_step p s s' : quiet_step p s s' → service_step s s'.
Proof.
  destruct 1; [| | |by constructor]; apply service_run;
    [by eapply run_call, call_step_any | by constructor | by econstructor].
Qed.

Lemma restore_sessions s path now loaded contents diagnostic :
  sv_sessions (restore s path now loaded contents diagnostic).1.1 = sv_sessions s.
Proof. unfold restore. by repeat case_match. Qed.

Lemma quiet_unseen p s s' : quiet_step p s s' → unseen p s → unseen p s'.
Proof.
  intros Hst Hp. destruct Hst as [s s' Hc|s label now|s now s' status Hst|s path now loaded contents diagnostic].
  - by eapply call_unseen.
  - unfold unseen. by destruct (open_session_spec s label now) as (-> & _).
  - unfold start in Hst. destruct (sv_running s); [by injection Hst as <- <-|].
    unfold begin_boot in Hst. destruct (mint_epoch _ _ _ _ _) as [[e c]|]; [|done].
    by injection Hst as <- <-.
  - unfold restore. destruct loaded; try done.
    assert (au_peers (restore_durable (sv_authority s) (sc_authority contents) now).1 !! p = None)
      as Ha.
    { unfold restore_durable. by destruct (durable_check _). }
    destruct (restore_durable _ _ _) as [a st]. destruct (negb _); [done|].
    destruct (catalog_load _ _) as [c st2]. by destruct (negb _).
Qed.

Lemma unopened_sessions s s' : unopened_step s s' → sv_sessions s = ∅ → sv_sessions s' = ∅.
Proof.
  intros Hst He. apply map_empty. intros id.
  destruct Hst as [s s' Hc|s now s' status Hst|s path now loaded contents diagnostic].
  - apply call_step_evolves, ev_kept in Hc. apply eq_None_not_Some. intros [b Hb].
    destruct (Hc _ _ Hb) as (b1 & Hb1 & _). by rewrite He in Hb1.
  - unfold start in Hst. destruct (sv_running s); [by injection Hst as <- <-; rewrite He|].
    destruct (begin_boot _ _ _ _) as [[a c]|]; [|done]. injection Hst as <- <-. cbn. by rewrite He.
  - by rewrite restore_sessions, He.
Qed.

Lemma unseen_not_granted p s context request d record :
  service_wf s → unseen p s → catalog_find (sv_catalog s) (ci_id (dr_instance request)) = Some record →
  p ∈ cd_participants (cr_definition record) →
  (plan_flow_group s context request).2 = Some d → outcome_grants_authority (de_outcome d) = false.
Proof.
  intros Hw Hun Hrec Hin Hd. destruct (plan_cases s context request)
    as [[_ Hn]|(r & Hpl & s1 & d' & Hset & Ha & _)]; [by rewrite (Hn d Hd)|].
  destruct (outcome_grants_authority (de_outcome d)) eqn:Eg; [|done]. exfalso.
  rewrite Hd in Ha. injection Ha as <-.
  pose proof (settle_grants s (cx_now_monotonic_ms context) request
    (evaluated_decision s (cx_now_monotonic_ms context) request r) r
    (pl_record _ _ _ _ Hpl) (pl_state _ _ _ _ Hpl)
    (fun H => proj1 (evaluated_binds s (cx_now_monotonic_ms context) request r H))) as Hgr.
  rewrite Hset in Hgr. cbn [snd] in Hgr. apply Hgr in Eg as [Eg _].
  apply evaluated_grants in Eg as (g & t & policy & cp & tc & Hauth).
  destruct Hauth as (_ & _ & _ & (_ & _ & _ & _ & _ & _ & _ & Hlive) & _).
  rewrite effective_participants in Hlive.
  pose proof (pl_record _ _ _ _ Hpl) as Hr. rewrite Hrec in Hr. injection Hr as <-.
  rewrite Forall_forall in Hlive. destruct (Hlive p Hin) as (l & Hl & _).
  rewrite find_peer_lookup in Hl by apply Hw. unfold unseen in Hun. congruence.
Qed.

(** C24: a restart revokes everything: starting a stopped coordinator always succeeds, with an
    epoch other than the previous one; from then on, whatever calls, stops, starts and
    restores follow, no frame is accepted as long as no session is opened; and, whatever
    calls, sessions, stops, starts and restores follow, no collective is granted as long as
    one of its participants has neither published nor sent a heartbeat. *)
Theorem restart_revokes (s : CoordinatorService) (now : Z) :
  service_wf s → sv_running s = false →
  ∃ s0, start s now = Some (s0, status_ok) ∧ sv_running s0 = true ∧
    au_epoch (sv_authority s0) ≠ au_epoch (sv_authority s) ∧
    (∀ s' envelope t reasons, rtc unopened_step s0 s' →
       is_ok (validate_envelope s' envelope t reasons).2 = false) ∧
    (∀ p s' context request d record, rtc (quiet_step p) s0 s' →
       catalog_find (sv_catalog s') (ci_id (dr_instance request)) = Some record →
       p ∈ cd_participants (cr_definition record) →
       (plan_flow_group s' context request).2 = Some d →
       outcome_grants_authority (de_outcome d) = false).
Proof.
  intros Hw Hr. destruct (start_spec s now Hw Hr) as (s0 & E & Hw0 & Hr0 & Hs & Hp & He & Hc).
  exists s0. split_and!; [done..| |].
  - intros s' envelope t reasons Hst. assert (sv_sessions s' = ∅) as Hs'.
    { clear -Hst Hs. induction Hst; eauto using unopened_sessions. }
    destruct (is_ok _) eqn:Eok; [|done]. exfalso.
    apply check_session_ok in Eok as (b & Hb & _). by rewrite Hs' in Hb.
  - intros p s' context request d record Hst Hrec Hin Hd.
    assert (service_wf s' ∧ unseen p s') as [Hw' Hu'].
    { assert (unseen p s0) as Hu by (unfold unseen; by rewrite Hp).
      clear -Hst Hw0 Hu. induction Hst as [|x y z H _ IH]; [done|].
      apply IH; [by eapply service_step_wf, Hw0; eapply quiet_is_step | by eapply quiet_unseen]. }
    by eapply unseen_not_granted.
Qed.

(** The ready coordinator is stopped and started again, and one session is opened. *)
Definition demo_stopped : CoordinatorService := (stop_begin demo_ready 300).1.

Lemma restart_revokes_witness :
  ∃ s0, start demo_stopped 400 = Some (s0, status_ok) ∧
    ∀ d record, let s' := (open_session s0 "peer" 410).1 in
      catalog_find (sv_catalog s') (ci_id (dr_instance demo_plan_request)) = Some record →
      mkIdentity 0 1 ∈ cd_participants (cr_definition record) →
      (plan_flow_group s' (demo_context 500) demo_plan_request).2 = Some d →
      outcome_grants_authority (de_outcome d) = false.
Proof.
  destruct (restart_revokes demo_stopped 400) as (s0 & E & _ & _ & _ & H).
  - apply (evolves_wf demo_ready); [apply stop_begin_evolves | apply demo_ready_wf].
  - vm_compute. reflexivity.
  - exists s0. split; [exact E|]. intros d record s' Hr Hin. apply (H (mkIdentity 0 1) s') with record;
      [apply rtc_once, quiet_open | exact Hr | exact Hin].
Defined.

(** ** Durable mutations *)

(** The state a snapshot file holds. *)
Definition durable (s : CoordinatorService) :=
  (durable_snapshot (sv_authority s), cc_records (sv_catalog s)).
















(** A decision never marks a durable mutation. *)
Lemma settle_frame s now request e :
  let s' := (settle s now request e).1 in
  sv_persistence_dirty s' = sv_persistence_dirty s ∧
  sv_mutation_sequence s' = sv_mutation_sequence s ∧
  sv_persistence_path s' = sv_persistence_path s.
Proof.
  cbv zeta. unfold settle. destruct (outcome_grants_authority _).
  - destruct (set_state _ _ _ _) as [c st]. destruct (is_ok st); cbn [negb]; [|done].
    destruct (Admission.admit_decision _ _ _) as [ctl a]. unfold apply_admission.
    by destruct (ar_outcome a).
  - destruct (outcome_is_rejection _); [by repeat case_bool_decide|].
    by destruct (outcome_requires_replan _).
Qed.

Lemma plan_frame s context request :
  let s' := (plan_flow_group s context request).1.1 in
  sv_persistence_dirty s' = sv_persistence_dirty s ∧
  sv_mutation_sequence s' = sv_mutation_sequence s ∧
  sv_persistence_path s' = sv_persistence_path s.
Proof.
  cbv zeta. unfold plan_flow_group. destruct (negb _); [done|].
  destruct (plan_gate s context); [done|]. destruct (negb _); [done|].
  destruct (catalog_find _ _) as [r|]; [|done]. destruct (negb _); [done|].
  destruct (_ || _); [done|]. destruct (collective_state_is_terminal _); [done|].
  generalize (evaluated_decision s (cx_now_monotonic_ms context) request r). intros e.
  pose proof (settle_frame s (cx_now_monotonic_ms context) request e) as Hs.
  destruct (settle _ _ _ e) as [s1 d]. cbn [fst] in Hs.
  destruct (history_record _ d) as [h o]. exact Hs.
Qed.

(** *** What a flush may miss *)

(** A decision activates a collective: its record is as before, or is active since. *)
Definition activated (decisions : bool) (r r' : CollectiveRecord) : Prop :=
  r' = r ∨
  decisions = true ∧ ∃ at_ms sequence,
    r' = r <| cr_state := CollectiveState.kActive |>
           <| cr_last_mutated_monotonic_ms := at_ms |>
           <| cr_last_mutation_sequence := sequence |>.

(** The durable state is the same, up to collectives that decisions activated. *)
Definition durable_to (decisions : bool) (s s' : CoordinatorService) : Prop :=
  durable_snapshot (sv_authority s') = durable_snapshot (sv_authority s) ∧
  ∀ id, option_Forall2 (activated decisions) (catalog_find (sv_catalog s) id)
          (catalog_find (sv_catalog s') id).



#[export] Instance activated_preorder decisions : PreOrder (activated decisions).
Proof.
  split; [by left|]. intros r1 r2 r3 [->|(E & t & q & ->)] [->|(E' & t' & q' & ->)].
  - by left.
  - right. split; [done|]. by exists t', q'.
  - right. split; [done|]. by exists t, q.
  - right. split; [done|]. by exists t', q'.
Qed.

#[export] Instance durable_to_preorder decisions : PreOrder (durable_to decisions).
Proof.
  split.
  - intros s. split; [done|]. intros id. reflexivity.
  - intros s1 s2 s3 [A1 C1] [A2 C2]. split; [congruence|]. intros id. by transitivity (catalog_find (sv_catalog s2) id).
Qed.
















Definition demo_configured : CoordinatorService :=
  demo_ready <| sv_persistence_path := "/var/lib/ctf/state" |>.


(** A decision activates its collective without marking the durable state: when a granted
    request moves the collective to active, the record changes but the dirty flag and the
    mutation sequence do not, so a coordinator that was clean has nothing to flush and the
    activation is lost by a restart. *)
Theorem activation_not_durable (s : CoordinatorService) (context : ServiceRequestContext)
    (request : DecisionRequest) (record : CollectiveRecord) (d : DecisionRecord) (now : Z) :
  catalog_find (sv_catalog s) (ci_id (dr_instance request)) = Some record →
  cr_state record ≠ CollectiveState.kActive →
  (plan_flow_group s context request).2 = Some d →
  outcome_grants_authority (de_outcome d) = true →
  sv_persistence_dirty s = false → slen (sv_persistence_path s) ≠ 0 →
  let s' := (plan_flow_group s context request).1.1 in
  durable s' ≠ durable s ∧ flush_begin s' now = (s', Ok None).
Proof.
  intros Hr Hst Ed Hg Hdirty Hpath. cbv zeta.
  assert (sv_persistence_dirty (plan_flow_group s context request).1.1 = false ∧
    sv_persistence_path (plan_flow_group s context request).1.1 = sv_persistence_path s)
    as [Hd' Hp'].
  { destruct (plan_frame s context request) as (-> & _ & ->). done. }
  split.
  - destruct (plan_cases s context request)
      as [[Hn Hd]|(r & Hp & s1 & d' & Hs & Ha & _ & Hc & _)].
    { by rewrite (Hd d Ed) in Hg. }
    rewrite Ed in Ha. injection Ha as <-.
    pose proof (settle_activates s (cx_now_monotonic_ms context) request
      (evaluated_decision s (cx_now_monotonic_ms context) request r) r
      (pl_record _ _ _ _ Hp)) as Hact.
    rewrite Hs in Hact. destruct (Hact Hg) as (r' & Hr' & Hact' & _). cbn [fst] in Hr'.
    unfold durable, catalog_find in *. intros E. apply (f_equal snd) in E. cbn [snd] in E.
    rewrite Hc in E. rewrite E in Hr'. congruence.
  - unfold flush_begin. rewrite Hp'. destruct (_ =? 0) eqn:E0; [bool_prop; lia|].
    by rewrite Hd'.
Qed.

Definition demo_clean : CoordinatorService := demo_configured <| sv_persistence_dirty := false |>.

Lemma activation_not_durable_witness :
  let s' := (plan_flow_group demo_clean (demo_context 500) demo_plan_request).1.1 in
  flush_begin s' 600 = (s', Ok None).
Proof.
  cbv zeta.
  destruct ((plan_flow_group demo_clean (demo_context 500) demo_plan_request).2) as [d|] eqn:E;
    [|vm_compute in E; discriminate].
  destruct (catalog_find (sv_catalog demo_clean) (ci_id (dr_instance demo_plan_request)))
    as [r|] eqn:Er; [|vm_compute in Er; discriminate].
  apply (activation_not_durable demo_clean (demo_context 500) demo_plan_request r d 600);
    [exact Er | | exact E | | reflexivity | vm_compute; congruence].
  - vm_compute in Er. injection Er as <-. discriminate.
  - vm_compute in E. injection E as <-. reflexivity.
Defined.

(** A rejected snapshot is applied in part: when the durable authority is usable but the
    records are not, [restore] reports the snapshot as impossible and leaves the catalog
    alone, yet the policy, topology and liveness of the authority are already replaced. *)
Theorem restore_not_atomic (s : CoordinatorService) (path : string) (now : Z)
    (contents : SnapshotContents) (diagnostic : string) :
  is_ok (restore_durable (sv_authority s) (sc_authority contents) now).2 = true →
  is_ok (catalog_load (sv_catalog s) (sc_records contents)).2 = false →
  let '(s', disposition, status) :=
    restore s path now LoadDisposition.kLoaded contents diagnostic in
  is_ok status = false ∧ disposition = LoadDisposition.kRejectedImpossible ∧
  sv_catalog s' = sv_catalog s ∧
  sv_authority s' = (restore_durable (sv_authority s) (sc_authority contents) now).1.
Proof.
  intros H1 H2. unfold restore.
  destruct (restore_durable _ _ _) as [a st]. cbn [fst snd] in *. rewrite H1.
  cbn [negb sv_catalog set_field].
  assert ((catalog_load (sv_catalog s) (sc_records contents)).1 = sv_catalog s) as Hc.
  { unfold catalog_load in *. destruct (_ <? _); [done|].
    by destruct (load_loop _ _ _) as [[staged h]|]. }
  destruct (catalog_load _ _) as [c st2]. cbn [fst snd] in *. rewrite H2. subst c.
  split_and!; [exact H2 | reflexivity..].
Qed.

(** A snapshot whose authority is sound and whose only record has no generation. *)
Definition demo_bad_contents : SnapshotContents :=
  mkSnapshotContents 1 0 (durable_snapshot (sv_authority demo_ready))
    [mkCollectiveRecord demo_collective CollectiveState.kRegistered id_none 0 0 1 1 0 0 1].

Lemma restore_not_atomic_witness :
  let '(s', disposition, status) :=
    restore demo_started "/var/lib/ctf/state" 5 LoadDisposition.kLoaded demo_bad_contents "" in
  is_ok status = false ∧ present (au_policy (sv_authority demo_started)) = false ∧
  present (au_policy (sv_authority s')) = true.
Proof.
  pose proof (restore_not_atomic demo_started "/var/lib/ctf/state" 5 demo_bad_contents "") as H.
  destruct (restore demo_started "/var/lib/ctf/state" 5 LoadDisposition.kLoaded
    demo_bad_contents "") as [[s' disposition] status].
  destruct H as (H1 & _ & _ & H4); [vm_compute; reflexivity | vm_compute; reflexivity|].
  split; [exact H1|]. split; [vm_compute; reflexivity|]. rewrite H4. vm_compute. reflexivity.
Defined.
