(* ===== verification/Codec.v ===== *)
(** Byte strings, little-endian words, decoders and the laws of a codec.

    The wire protocol ([src/protocol.cpp]) and the snapshot format ([src/persistence.cpp]) are
    two formats built the same way: a writer appends fields, a reader takes them off again and
    stops at the first failure.  A writer is modelled by the bytes it appends.  A reader is
    modelled by the bytes it has left ([data_ + offset_] up to [size_]), and a reading function
    by [Parser E A]: it fails with an [E], or yields a value and the bytes that are left.  No
    caller looks at a reader after a failure, so a failure carries no reader.

    [Encodes] and [Decodes] are the interface between a format's fields and its messages: a
    message's laws are proved from the laws of its fields, whatever the format. *)
From S2P Require Import Prelude Identity Errors.

(** A [std::vector<std::uint8_t>] is a list of values below 256. *)
Abbreviation byte_string := (Forall is_u8).

(** ** Little-endian words *)
Definition put_le (n : nat) (value : Z) : list Z :=
  (fun index => Z.land (Z.shiftr value (8 * Z.of_nat index)) 255) <$> seq 0 n.

(** [for (index = n - 1; index >= 0; --index) value = (value << 8) | data[index]], in the
    width of [wrap]. *)
Definition read_le (wrap : Z → Z) (data : list Z) : Z :=
  foldr (fun byte value => Z.lor (wrap (Z.shiftl value 8)) byte) 0 data.

(** ** Text: a [std::string] holds bytes *)
Definition string_bytes (text : string) : list Z :=
  char_code <$> String.list_ascii_of_string text.
Definition bytes_string (data : list Z) : string :=
  String.string_of_list_ascii ((fun b => Ascii.ascii_of_N (Z.to_N b)) <$> data).

(** ** Decoders *)
Definition Parser (E A : Type) : Type := list Z → E + (A * list Z).

Section parsers.
Context {E : Type}.

Definition p_ret {A} (a : A) : Parser E A := fun bs => inr (a, bs).
Definition p_fail {A} (e : E) : Parser E A := fun _ => inl e.
Definition p_bind {A B} (p : Parser E A) (k : A → Parser E B) : Parser E B :=
  fun bs => match p bs with inl e => inl e | inr (a, rest) => k a rest end.

(** [take(count)] followed by the [count] bytes and the advance of the offset. *)
Definition p_take (truncated : E) (count : Z) : Parser E (list Z) :=
  fun bs => if zlen bs <? count then inl truncated
            else inr (take (Z.to_nat count) bs, drop (Z.to_nat count) bs).

Definition p_word (truncated : E) (n : nat) (wrap : Z → Z) : Parser E Z :=
  p_bind (p_take truncated (Z.of_nat n)) (fun data => p_ret (read_le wrap data)).

(** The loop that reads [count] elements into a vector of that size. *)
Fixpoint p_list {A} (p : Parser E A) (count : nat) : Parser E (list A) :=
  match count with
  | O => p_ret []
  | S count' => p_bind p (fun a => p_bind (p_list p count') (fun l => p_ret (a :: l)))
  end.

(** The loop that reads [count] elements and hands each to a container that may refuse it. *)
Fixpoint p_fold {A C} (p : Parser E A) (add : C → A → option C) (refused : E) (count : nat)
    (s : C) : Parser E C :=
  match count with
  | O => p_ret s
  | S count' =>
      p_bind p (fun a =>
        match add s a with
        | Some s' => p_fold p add refused count' s'
        | None => p_fail refused
        end)
  end.
End parsers.

(** Filling a container with a list. *)
Fixpoint fold_add {A C} (add : C → A → option C) (s : C) (l : list A) : option C :=
  match l with
  | [] => Some s
  | a :: l' => match add s a with Some s' => fold_add add s' l' | None => None end
  end.

Notation "'let*' x := p 'in' k" := (p_bind p (fun x => k))
  (at level 200, x pattern, p at level 100, k at level 200) : ctf_scope.

(** [static_cast<Enum>(raw)].  The inductive types hold enumerators only, so a number that names
    none is read as an arbitrary one; every caller refuses such a number first, by a bound for
    which [EnumRange] shows that the numbers within it are the enumerators.  A reader without
    that bound would not satisfy [Decodes], which compares the byte that was read with the
    number of the enumerator it was read as. *)
Definition enum_cast {A} `{WireEnum A, Inhabited A} (raw : Z) : A :=
  default inhabitant (enum_of_raw raw).

(** The values up to [max] are exactly the enumerators. *)
Class EnumRange (A : Type) `{WireEnum A} (max : Z) := {
  enum_range_raw : ∀ a : A, 0 ≤ enum_raw a ≤ max;
  enum_range_all : ∀ raw, 0 ≤ raw ≤ max → is_Some (enum_of_raw (A := A) raw);
  enum_range_u8 : max < 256;
}.

(** ** The laws

    [Encodes p enc valid norm]: what [enc] writes for a valid value, whatever follows it, is
    read by [p] as the normal form of the value, and nothing else is consumed.
    [Decodes p enc valid norm]: whatever [p] accepts is what [enc] writes for a valid value of
    which [p] yields the normal form.  A format is canonical where [norm] is the identity. *)
Class Encodes {E A} (p : Parser E A) (enc : A → list Z) (valid : A → Prop) (norm : A → A) :=
  encodes_run : ∀ a rest, valid a → p (enc a ++ rest) = inr (norm a, rest).

Class Decodes {E A} (p : Parser E A) (enc : A → list Z) (valid : A → Prop) (norm : A → A) :=
  decodes_inv : ∀ bs b rest, byte_string bs → p bs = inr (b, rest) →
    ∃ a, valid a ∧ b = norm a ∧ bs = enc a ++ rest.

(** [Rejects p P]: every error of [p] satisfies [P]. *)
Class Rejects {E A} (p : Parser E A) (P : E → Prop) :=
  rejects_with : ∀ bs e, p bs = inl e → P e.

(** [Extends p]: what [p] accepts it accepts with anything behind it, so no strict prefix of a
    complete message is complete. *)
Class Extends {E A} (p : Parser E A) :=
  extends : ∀ bs a rest more, p bs = inr (a, rest) → p (bs ++ more) = inr (a, rest ++ more).

#[export] Hint Mode Encodes - - ! - - - : typeclass_instances.
#[export] Hint Mode Decodes - - ! - - - : typeclass_instances.
#[export] Hint Mode Rejects - - ! - : typeclass_instances.
#[export] Hint Mode Extends - - ! : typeclass_instances.

(** ** Lemmas on words *)
Definition le_value (data : list Z) : Z := foldr (fun byte value => value * 256 + byte) 0 data.

Lemma put_le_S n value :
  put_le (S n) value = value mod 256 :: put_le n (value / 256).
Proof.
  unfold put_le. cbn [seq fmap list_fmap]. f_equal.
  - rewrite Z.shiftr_0_r. change 255 with (Z.ones 8). by rewrite Z.land_ones by lia.
  - rewrite <- fmap_S_seq, <- list_fmap_compose. apply list_fmap_ext. intros _ i _. simpl.
    f_equal. change (value / 256) with (value / 2 ^ 8).
    rewrite <- (Z.shiftr_div_pow2 value 8), Z.shiftr_shiftr by lia. f_equal. lia.
Qed.

Lemma put_le_length n value : length (put_le n value) = n.
Proof. unfold put_le. by rewrite length_fmap, length_seq. Qed.

Lemma put_le_bytes n value : byte_string (put_le n value).
Proof.
  revert value. induction n as [|n IH]; intros value; [constructor|].
  rewrite put_le_S. constructor; [|apply IH]. apply Z.mod_pos_bound. lia.
Qed.

Lemma pow256_S n : 2 ^ (8 * Z.of_nat (S n)) = 256 * 2 ^ (8 * Z.of_nat n).
Proof.
  replace (8 * Z.of_nat (S n)) with (8 + 8 * Z.of_nat n) by lia.
  by rewrite Z.pow_add_r by lia.
Qed.

Lemma le_value_put n value :
  0 ≤ value < 2 ^ (8 * Z.of_nat n) → le_value (put_le n value) = value.
Proof.
  revert value. induction n as [|n IH]; intros value Hv; [simpl in *; lia|].
  rewrite pow256_S in Hv. rewrite put_le_S. cbn [le_value foldr]. fold (le_value).
  unfold le_value in IH. rewrite IH.
  - rewrite (Z.div_mod value 256) at 3 by lia. lia.
  - split; [apply Z.div_pos; lia|]. apply Z.div_lt_upper_bound; lia.
Qed.

Lemma le_value_range data : byte_string data → 0 ≤ le_value data < 2 ^ (8 * zlen data).
Proof.
  unfold zlen. induction 1 as [|b data Hb Hd IH]; [simpl; lia|].
  cbn [length]. rewrite pow256_S. cbn [le_value foldr]. fold (le_value data).
  unfold is_u8 in Hb. lia.
Qed.

Lemma put_le_value data : byte_string data → put_le (length data) (le_value data) = data.
Proof.
  induction 1 as [|b data Hb Hd IH]; [done|]. cbn [length]. rewrite put_le_S.
  cbn [le_value foldr]. fold (le_value data). unfold is_u8 in Hb.
  rewrite Z.add_comm, Z.mod_add, Z.div_add by lia.
  rewrite Z.mod_small, Z.div_small by lia. by rewrite Z.add_0_l, IH.
Qed.

Lemma lor_shift_byte v b : 0 ≤ v → is_u8 b → Z.lor (Z.shiftl v 8) b = v * 256 + b.
Proof.
  intros Hv Hb. rewrite Z.shiftl_mul_pow2 by lia. symmetry.
  rewrite <- Z.lxor_lor, <- Z.add_nocarry_lxor; try done.
  all: apply Z.bits_inj'; intros i Hi; rewrite Z.land_spec, Z.bits_0.
  all: destruct (decide (i < 8));
    [rewrite Z.mul_pow2_bits_low by lia; done|].
  all: replace (Z.testbit b i) with false; [apply andb_false_r|].
  all: symmetry; destruct (decide (b = 0)) as [->|]; [apply Z.bits_0|].
  all: apply Z.bits_above_log2; [unfold is_u8 in Hb; lia|].
  all: apply Z.log2_lt_pow2; [unfold is_u8 in Hb; lia|].
  all: unfold is_u8 in Hb; eapply Z.lt_le_trans; [apply (proj2 Hb)|].
  all: change 256 with (2 ^ 8); apply Z.pow_le_mono_r; lia.
Qed.

Lemma read_le_value (wrap : Z → Z) (k : nat) data :
  (∀ x, 0 ≤ x < 2 ^ (8 * Z.of_nat k) → wrap x = x) → byte_string data →
  (length data ≤ k)%nat → read_le wrap data = le_value data.
Proof.
  intros Hw. induction 1 as [|b data Hb Hd IH]; intros Hl; [done|]. cbn [length] in Hl.
  cbn [read_le le_value foldr]. fold (read_le wrap data) (le_value data).
  rewrite IH by lia. pose proof (le_value_range data Hd) as [H0 H1].
  rewrite Hw; [by apply lor_shift_byte|]. rewrite Z.shiftl_mul_pow2 by lia.
  change (2 ^ 8) with 256. split; [lia|].
  apply Z.lt_le_trans with (256 * 2 ^ (8 * zlen data)); [lia|].
  unfold zlen. rewrite <- pow256_S. apply Z.pow_le_mono_r; lia.
Qed.

(** Bytes that are given are bytes by computation. *)
Lemma bytes_check data :
  forallb (fun b => (0 <=? b) && (b <? 256)) data = true → byte_string data.
Proof.
  rewrite forallb_forall, Forall_forall. intros H b Hb.
  specialize (H b (proj1 (list_elem_of_In _ _) Hb)). bool_prop. done.
Qed.

(** ** Lemmas on text *)
Lemma string_bytes_bytes text : byte_string (string_bytes text).
Proof.
  apply Forall_fmap, Forall_true. intros c. unfold is_u8, char_code, compose.
  pose proof (Ascii.N_ascii_bounded c). lia.
Qed.

Lemma bytes_string_bytes text : bytes_string (string_bytes text) = text.
Proof.
  unfold bytes_string, string_bytes. rewrite <- list_fmap_compose.
  rewrite <- (String.string_of_list_ascii_of_string text) at 2. f_equal.
  rewrite <- (list_fmap_id (String.list_ascii_of_string text)) at 2.
  apply list_fmap_ext. intros _ c _. unfold char_code, compose. rewrite N2Z.id.
  apply Ascii.ascii_N_embedding.
Qed.

Lemma string_bytes_string data : byte_string data → string_bytes (bytes_string data) = data.
Proof.
  intros Hd. unfold bytes_string, string_bytes.
  rewrite String.list_ascii_of_string_of_list_ascii.
  induction Hd as [|b data Hb Hd IH]; [done|]. cbn [fmap list_fmap]. f_equal; [|exact IH].
  unfold char_code, is_u8 in *. rewrite Ascii.N_ascii_embedding by lia. lia.
Qed.

Lemma string_bytes_length text : zlen (string_bytes text) = slen text.
Proof.
  unfold zlen, slen, string_bytes. rewrite length_fmap. f_equal.
  induction text as [|c text IH]; simpl; congruence.
Qed.

Lemma bytes_string_length data : slen (bytes_string data) = zlen data.
Proof.
  unfold zlen, slen, bytes_string. f_equal.
  induction data as [|b data IH]; [done|]. cbn. f_equal. exact IH.
Qed.

(** ** Lemmas on decoders *)
Section laws.
Context {E : Type}.

Lemma bind_run {A B} (p : Parser E A) enc valid norm `{!Encodes p enc valid norm}
    (k : A → Parser E B) a bs rest r :
  bs = enc a ++ rest → valid a → k (norm a) rest = r → p_bind p k bs = r.
Proof. intros -> Hv Hk. unfold p_bind. by rewrite encodes_run. Qed.

Lemma bind_inv {A B} (p : Parser E A) enc valid norm `{!Decodes p enc valid norm}
    (k : A → Parser E B) bs b rest :
  byte_string bs → p_bind p k bs = inr (b, rest) →
  ∃ a bs', valid a ∧ bs = enc a ++ bs' ∧ byte_string bs' ∧ k (norm a) bs' = inr (b, rest).
Proof.
  intros Hbs. unfold p_bind. destruct (p bs) as [e|[a bs']] eqn:Hp; [done|]. intros Hk.
  apply decodes_inv in Hp as (a0 & Hv & -> & ->); [|done].
  apply Forall_app in Hbs as [_ Hbs]. naive_solver.
Qed.

(** A strict prefix of an encoding is never a complete message. *)
Lemma decode_prefix {A} (p : Parser E A) enc valid norm
    `{!Encodes p enc valid norm, !Extends p} a bs more b :
  valid a → enc a = bs ++ more → more ≠ [] → p bs ≠ inr (b, []).
Proof.
  intros Hv He Hm Hp. apply (extends _ _ _ more) in Hp. rewrite <- He in Hp.
  pose proof (encodes_run (p := p) a [] Hv) as Hr. rewrite app_nil_r in Hr.
  rewrite Hr in Hp. by simplify_eq.
Qed.

#[export] Instance ret_extends {A} (a : A) : Extends (@p_ret E A a).
Proof. intros bs b rest more. unfold p_ret. by intros [= <- <-]. Qed.
#[export] Instance fail_extends {A} (e : E) : Extends (@p_fail E A e).
Proof. by intros bs b rest more. Qed.
#[export] Instance bind_extends {A B} (p : Parser E A) (k : A → Parser E B) :
  Extends p → (∀ a, Extends (k a)) → Extends (p_bind p k).
Proof.
  intros Hp Hk bs b rest more. unfold p_bind. destruct (p bs) as [|[a bs']] eqn:E1; [done|].
  rewrite (Hp _ _ _ more E1). apply Hk.
Qed.
#[export] Instance if_extends {A} (c : bool) (p q : Parser E A) :
  Extends p → Extends q → Extends (if c then p else q).
Proof. by destruct c. Qed.
#[export] Instance take_extends (e : E) n : Extends (p_take e n).
Proof.
  intros bs b rest more. unfold p_take. destruct (_ <? _) eqn:Hl; [done|]. intros [= <- <-].
  apply Z.ltb_ge in Hl. rewrite zlen_app. pose proof (zlen_nonneg more).
  rewrite (proj2 (Z.ltb_ge _ _)) by lia. unfold zlen in Hl.
  rewrite take_app_le, drop_app_le by lia. done.
Qed.
#[export] Instance list_extends {A} (p : Parser E A) n : Extends p → Extends (p_list p n).
Proof. intros Hp. induction n; cbn [p_list]; apply _. Qed.
#[export] Instance fold_extends {A C} (p : Parser E A) (add : C → A → option C) e n s :
  Extends p → Extends (p_fold p add e n s).
Proof.
  intros Hp. revert s. induction n as [|n IH]; intros s; cbn [p_fold]; [apply _|].
  apply bind_extends; [done|]. intros a. destruct (add s a); apply _.
Qed.

#[export] Instance take_encodes (e : E) n :
  Encodes (p_take e (Z.of_nat n)) (fun l => l) (fun l => length l = n) (fun l => l).
Proof.
  intros l rest <-. unfold p_take. rewrite zlen_app. unfold zlen at 1.
  pose proof (zlen_nonneg rest). rewrite (proj2 (Z.ltb_ge _ _)) by lia.
  by rewrite Nat2Z.id, take_app_length, drop_app_length.
Qed.

#[export] Instance take_decodes (e : E) n :
  Decodes (p_take e (Z.of_nat n)) (fun l => l) (fun l => length l = n ∧ byte_string l)
    (fun l => l).
Proof.
  intros bs b rest Hbs. unfold p_take. destruct (_ <? _) eqn:Hl; [done|].
  intros [= <- <-]. apply Z.ltb_ge in Hl. unfold zlen in Hl. rewrite Nat2Z.id in *.
  exists (take n bs). rewrite length_take, take_drop.
  split_and!; [lia | by apply Forall_take | done..].
Qed.

Lemma word_encodes (e : E) n (wrap : Z → Z) :
  (∀ x, 0 ≤ x < 2 ^ (8 * Z.of_nat n) → wrap x = x) →
  Encodes (p_word e n wrap) (put_le n) (fun v => 0 ≤ v < 2 ^ (8 * Z.of_nat n)) (fun v => v).
Proof.
  intros Hw v rest Hv. unfold p_word. eapply bind_run; [apply _|done|apply put_le_length|].
  unfold p_ret. do 2 f_equal. rewrite (read_le_value wrap n) by
    (done || apply put_le_bytes || by rewrite put_le_length). by apply le_value_put.
Qed.

Lemma word_decodes (e : E) n (wrap : Z → Z) :
  (∀ x, 0 ≤ x < 2 ^ (8 * Z.of_nat n) → wrap x = x) →
  Decodes (p_word e n wrap) (put_le n) (fun v => 0 ≤ v < 2 ^ (8 * Z.of_nat n)) (fun v => v).
Proof.
  intros Hw bs v rest Hbs Hp. unfold p_word in Hp.
  destruct (bind_inv _ _ _ _ _ _ _ _ Hbs Hp) as (data & bs' & [Hl Hd] & -> & _ & Hr).
  unfold p_ret in Hr.
  simplify_eq. exists (le_value data). rewrite (read_le_value wrap (length data)) by done.
  split_and!; [..|done|by rewrite put_le_value];
    pose proof (le_value_range data Hd) as H; unfold zlen in H; lia.
Qed.

(** A loop over elements that are normalised one by one. *)
Lemma list_norm_encodes {A} (p : Parser E A) enc valid norm `{!Encodes p enc valid norm} n :
  Encodes (p_list p n) (mbind enc) (fun l => length l = n ∧ Forall valid l) (fmap norm).
Proof.
  intros l rest [<- Hl]. revert rest. induction Hl as [|a l Ha Hl IH]; intros rest; [done|].
  cbn [length p_list]. eapply bind_run; [|by cbn; rewrite <- app_assoc|done|]; [apply _|].
  unfold p_bind. by rewrite IH.
Qed.

Lemma list_norm_decodes {A} (p : Parser E A) enc valid norm `{!Decodes p enc valid norm} n :
  Decodes (p_list p n) (mbind enc) (fun l => length l = n ∧ Forall valid l) (fmap norm).
Proof.
  induction n as [|n IH]; intros bs b rest Hbs Hp.
  { cbn in Hp. unfold p_ret in Hp. simplify_eq. by exists []. }
  cbn [p_list] in Hp.
  destruct (bind_inv _ _ _ _ _ _ _ _ Hbs Hp) as (a & bs' & Ha & -> & Hbs' & Hp').
  destruct (bind_inv _ _ _ _ _ _ _ _ Hbs' Hp') as (l & bs'' & [Hl HF] & -> & _ & Hr).
  unfold p_ret in Hr. simplify_eq. exists (a :: l).
  split_and!; [done | by constructor | done | by cbn; rewrite <- app_assoc].
Qed.

#[export] Instance list_encodes {A} (p : Parser E A) enc valid
    `{!Encodes p enc valid (fun a => a)} n :
  Encodes (p_list p n) (mbind enc) (fun l => length l = n ∧ Forall valid l) (fun l => l).
Proof.
  intros l rest Hl. rewrite (list_norm_encodes p enc valid _ n l rest Hl).
  do 2 f_equal. apply list_fmap_id.
Qed.

#[export] Instance list_decodes {A} (p : Parser E A) enc valid
    `{!Decodes p enc valid (fun a => a)} n :
  Decodes (p_list p n) (mbind enc) (fun l => length l = n ∧ Forall valid l) (fun l => l).
Proof.
  intros bs b rest Hbs Hp.
  destruct (list_norm_decodes p enc valid _ n bs b rest Hbs Hp) as (l & Hl & -> & ->).
  exists l. split; [done|]. split; [apply list_fmap_id|done].
Qed.

(** A loop that hands each element to a container: what it yields is the container filled
    with the elements, provided the container takes them all. *)
#[export] Instance fold_encodes {A} (p : Parser E A) enc valid add e
    `{!Encodes p enc valid (fun a => a)} n :
  Encodes (p_fold p add e n []) (mbind enc)
    (fun l => length l = n ∧ Forall valid l ∧ is_Some (fold_add add [] l))
    (fun l => default [] (fold_add add [] l)).
Proof.
  intros l rest (<- & Hl & [s Hs]). rewrite Hs. cbn [default from_option].
  generalize (@nil A) as s0, Hs. clear Hs. revert rest.
  induction Hl as [|a l Ha Hl IH]; intros rest s0 Hs; [by simplify_eq/=|].
  cbn [length p_fold]. eapply bind_run; [|by cbn; rewrite <- app_assoc|done|]; [apply _|].
  cbn [fold_add] in Hs. destruct (add s0 a); [by apply IH|done].
Qed.

#[export] Instance fold_decodes {A} (p : Parser E A) enc valid add e
    `{!Decodes p enc valid (fun a => a)} n :
  Decodes (p_fold p add e n []) (mbind enc)
    (fun l => length l = n ∧ Forall valid l ∧ is_Some (fold_add add [] l))
    (fun l => default [] (fold_add add [] l)).
Proof.
  intros bs b rest Hbs Hp.
  cut (∃ l, length l = n ∧ Forall valid l ∧ fold_add add [] l = Some b ∧
    bs = mbind enc l ++ rest).
  { intros (l & Hn & Hl & Hs & ->). exists l. rewrite Hs. eauto 10. }
  revert Hp. generalize (@nil A) as s0. revert bs Hbs.
  induction n as [|n IH]; intros bs Hbs s0 Hp.
  { cbn in Hp. unfold p_ret in Hp. simplify_eq. by exists []. }
  cbn [p_fold] in Hp.
  destruct (bind_inv _ _ _ _ _ _ _ _ Hbs Hp) as (a & bs' & Ha & -> & Hbs' & Hp').
  destruct (add s0 a) as [s1|] eqn:Ea; [|done].
  destruct (IH _ Hbs' _ Hp') as (l & Hn & Hl & Hs & ->). exists (a :: l).
  cbn [length fold_add]. rewrite Ea.
  split_and!; [by rewrite Hn | by constructor | done | by cbn; rewrite <- app_assoc].
Qed.

(** A field that is on the wire only when an earlier flag says so. *)
#[export] Instance optional_encodes {A} (c : bool) (p : Parser E A) enc valid norm d
    `{!Encodes p enc valid norm} :
  Encodes (if c then p else p_ret d) (fun a => if c then enc a else [])
    (fun a => if c then valid a else True) (fun a => if c then norm a else d).
Proof. intros a rest Hv. destruct c; [by apply encodes_run|done]. Qed.

#[export] Instance optional_decodes {A} (c : bool) (p : Parser E A) enc valid norm d
    `{!Decodes p enc valid norm} :
  Decodes (if c then p else p_ret d) (fun a => if c then enc a else [])
    (fun a => if c then valid a else True) (fun a => if c then norm a else d).
Proof.
  intros bs b rest Hbs Hp. destruct c; [by apply (decodes_inv (p := p))|]. unfold p_ret in Hp.
  simplify_eq. by exists b.
Qed.

#[export] Instance bind_rejects {A B} (p : Parser E A) (k : A → Parser E B) P :
  Rejects p P → (∀ a, Rejects (k a) P) → Rejects (p_bind p k) P.
Proof.
  intros Hp Hk bs e. unfold p_bind. destruct (p bs) as [e'|[a rest]] eqn:E1.
  - intros [= <-]. by eapply Hp.
  - apply Hk.
Qed.

#[export] Instance ret_rejects {A} (a : A) (P : E → Prop) : Rejects (p_ret a) P.
Proof. by intros bs e. Qed.

Lemma fail_rejects {A} (e : E) (P : E → Prop) : P e → Rejects (@p_fail E A e) P.
Proof. by intros HP bs e' [= <-]. Qed.

#[export] Instance if_rejects {A} (c : bool) (p q : Parser E A) (P : E → Prop) :
  Rejects p P → Rejects q P → Rejects (if c then p else q) P.
Proof. by destruct c. Qed.

#[export] Instance list_rejects {A} (p : Parser E A) n (P : E → Prop) :
  Rejects p P → Rejects (p_list p n) P.
Proof. intros Hp. induction n; cbn [p_list]; apply _. Qed.

Lemma fold_rejects {A C} (p : Parser E A) (add : C → A → option C) e n s
    (P : E → Prop) :
  Rejects p P → P e → Rejects (p_fold p add e n s) P.
Proof.
  intros Hp He. revert s. induction n as [|n IH]; intros s; cbn [p_fold]; [apply _|].
  apply bind_rejects; [done|]. intros a. destruct (add s a); [apply IH|].
  by apply fail_rejects.
Qed.

Lemma take_rejects (e : E) n (P : E → Prop) : P e → Rejects (p_take e n) P.
Proof. intros HP bs e'. unfold p_take. case_match; [by intros [= <-]|done]. Qed.
End laws.

(** A decoder satisfies these two laws because the decoders it is made of do. *)
Ltac unfold_parser p :=
  lazymatch p with
  | ?f _ => unfold_parser f
  | _ => unfold p
  end.
#[export] Hint Extern 10 (Extends ?p) => unfold_parser p : typeclass_instances.
#[export] Hint Extern 10 (Rejects ?p _) => unfold_parser p : typeclass_instances.
#[export] Hint Extern 3 (Rejects (p_fail _) _) =>
  (apply fail_rejects; vm_compute; done) : typeclass_instances.
#[export] Hint Extern 3 (Rejects (p_take _ _) _) =>
  (apply take_rejects; vm_compute; done) : typeclass_instances.
#[export] Hint Extern 3 (Rejects (p_fold _ _ _ _ _) _) =>
  (apply fold_rejects; [|vm_compute; done]) : typeclass_instances.

(** ** Enumerations *)
Section enum_range.
Context {A : Type} `{WireEnum A, Inhabited A}.

Lemma enum_range_compute (max : Z) :
  forallb (fun a => (0 <=? enum_raw a) && (enum_raw a <=? max)) (enum_all (A := A)) = true →
  forallb (fun n => match enum_of_raw (A := A) (Z.of_nat n) with Some _ => true | None => false end)
    (seq 0 (S (Z.to_nat max))) = true →
  max < 256 → EnumRange A max.
Proof.
  intros H1 H2 H3. split; [..|done].
  - intros a. pose proof (enum_raw_find a) as [Hin _]%find_first_Some.
    rewrite forallb_forall in H1. specialize (H1 a (proj1 (list_elem_of_In _ _) Hin)).
    bool_prop. lia.
  - intros raw Hr. rewrite forallb_forall in H2. specialize (H2 (Z.to_nat raw)).
    rewrite Z2Nat.id in H2 by lia. destruct (enum_of_raw raw); [done|].
    discriminate H2. apply in_seq. lia.
Qed.

Lemma enum_cast_raw (a : A) : enum_cast (enum_raw a) = a.
Proof. unfold enum_cast. by rewrite enum_of_raw_raw. Qed.

Lemma enum_raw_cast max `{!EnumRange A max} raw :
  0 ≤ raw ≤ max → enum_raw (enum_cast raw : A) = raw.
Proof.
  intros [a Ha]%enum_range_all. unfold enum_cast. rewrite Ha. simpl.
  by apply enum_of_raw_Some.
Qed.
End enum_range.

(** ** Automation: a message's laws from its fields' *)

(** A constant that fits a 32-bit count or length. *)
Class Bound32 (max : Z) := bound32 : 0 ≤ max < two32.
#[export] Hint Extern 1 (Bound32 _) => (vm_compute; split; [discriminate | reflexivity])
  : typeclass_instances.

(** Solves the side condition that a field is valid. *)
Ltac solve_valid :=
  cbv beta; first [done | assumption | unfold is_u8, is_u16, is_u32, is_u64 in *; lia
                  | split_and?; first [done | assumption | lia] | eauto with codec].
Create HintDb codec.

(** One step of a decoder over what its encoder wrote. *)
Ltac run_step :=
  lazymatch goal with
  | |- p_bind ?p ?k ?bs = _ =>
      refine (bind_run p _ _ _ k _ _ _ _ _ _ _); [reflexivity | solve_valid |]; cbv beta
  | |- (if ?c then p_fail _ else _) _ = _ =>
      let Hc := fresh "Hc" in
      assert (c = false) as Hc by (first [done | apply Z.ltb_ge; lia | apply Z.eqb_neq; lia]);
      rewrite Hc; clear Hc
  | |- p_ret _ _ = _ => unfold p_ret; cbv beta
  end.

(** [Encodes] for a decoder that reads its fields in the order its encoder writes them. *)
Ltac run_fields := rewrite <- ?app_assoc; repeat run_step.

(** One step back through a decoder that succeeded. *)
Ltac inv_step Hbs Hp :=
  lazymatch type of Hp with
  | p_bind ?p ?k ?bs = inr _ =>
      let a := fresh "x" in let bs' := fresh "bs" in let Hv := fresh "Hv" in
      let Hbs' := fresh "Hbs" in let Hp' := fresh "Hp" in
      destruct (bind_inv p _ _ _ k _ _ _ Hbs Hp) as (a & bs' & Hv & -> & Hbs' & Hp');
      clear Hbs Hp; rename Hbs' into Hbs, Hp' into Hp; cbv beta in Hv, Hp
  | (if ?c then p_fail _ else _) _ = inr _ =>
      let Hc := fresh "Hc" in destruct c eqn:Hc; [discriminate Hp|]
  | p_ret _ _ = inr _ => unfold p_ret in Hp; injection Hp as <- <-
  end.
Ltac inv_fields Hbs Hp := repeat inv_step Hbs Hp.

(** The laws of a record codec: [d] reads, [e] writes, [f] says what fits. *)
Tactic Notation "encodes_record" reference(d) reference(e) reference(f) :=
  let v := fresh "v" in let rest := fresh "rest" in let Hv := fresh "Hv" in
  intros v rest Hv; unfold f in Hv; destruct_and? Hv; unfold d, e; run_fields; by destruct v.
Tactic Notation "decodes_record" reference(d) reference(e) reference(f) :=
  let bs := fresh "bs" in let b := fresh "b" in let rest := fresh "rest" in
  let Hbs := fresh "Hbs" in let Hp := fresh "Hp" in
  intros bs b rest Hbs Hp; unfold d in Hp; inv_fields Hbs Hp; destruct_and?;
  eexists; split; [|split; [reflexivity|unfold e; by rewrite <- ?app_assoc]];
  unfold f; cbn; split_and?; first [done | assumption | by apply Z.ltb_ge].

(** The same where the decoder normalises: [c] is the value that was written. *)
Tactic Notation "decodes_record" reference(d) reference(e) reference(f) "as" uconstr(c) :=
  let bs := fresh "bs" in let b := fresh "b" in let rest := fresh "rest" in
  let Hbs := fresh "Hbs" in let Hp := fresh "Hp" in
  intros bs b rest Hbs Hp; unfold d in Hp; inv_fields Hbs Hp; destruct_and?;
  refine (ex_intro _ c _); split; [|split; [reflexivity|unfold e; by rewrite <- ?app_assoc]];
  unfold f; cbn; split_and?; first [done | assumption | by apply Z.ltb_ge].
