(* ===== verification/Checksum.v ===== *)
(** The integrity layer: CRC-32 and the snapshot digest ([src/persistence.cpp]).

    [crc32] protects the headers and bodies of frames and the payload of a snapshot.  The file
    shows that the table-driven loop computes the bit-serial CRC of the polynomial, and that
    a change confined to four consecutive bytes is always detected. *)
From S2P Require Import Prelude Identity Errors Codec.

Definition kPolynomial : Z := 0xEDB88320.

(** [value = (value & 1u) != 0u ? (value >> 1) ^ 0xEDB88320u : (value >> 1)] *)
Definition crc_bit (value : Z) : Z :=
  if negb (Z.land value 1 =? 0) then Z.lxor (Z.shiftr value 1) kPolynomial
  else Z.shiftr value 1.

Fixpoint crc_bits (n : nat) (value : Z) : Z :=
  match n with O => value | S n' => crc_bit (crc_bits n' value) end.

(** The table the first call fills. *)
Definition crc_table : list Z := (fun index => crc_bits 8 (Z.of_nat index)) <$> seq 0 256.

Definition crc_step (table : list Z) (crc byte : Z) : Z :=
  Z.lxor (default 0 (table !! Z.to_nat (Z.land (Z.lxor crc byte) 0xFF))) (Z.shiftr crc 8).

(** [~x] on 32 bits. *)
Definition not32 (x : Z) : Z := Z.lxor x 0xFFFFFFFF.

Definition crc32_update (crc : Z) (data : list Z) : Z :=
  let table := crc_table in
  not32 (foldl (crc_step table) (not32 crc) data).

Definition crc32 (data : list Z) : Z := crc32_update 0 data.

(** ** The digest *)
Definition kDigestBytes : Z := 32.

Definition digest_lane (lane byte : Z) : Z :=
  let lane := Z.lxor lane
    (w64 (byte + 0x9E3779B97F4A7C15 + w64 (Z.shiftl lane 6) + Z.shiftr lane 2)) in
  let lane := w64 (lane * 0xFF51AFD7ED558CCD) in
  xorshift 33 lane.

Definition digest_seed : list Z :=
  [0x243F6A8885A308D3; 0x13198A2E03707344; 0xA4093822299F31D0; 0x082EFA98EC4E6C89].

(** The byte at [index] goes to lane [index % 4]. *)
Fixpoint digest_absorb (index : nat) (lanes : list Z) (data : list Z) : list Z :=
  match data with
  | [] => lanes
  | byte :: data' =>
      digest_absorb (S index) (alter (fun lane => digest_lane lane byte) (index mod 4)%nat lanes) data'
  end.

Definition lane_at (lanes : list Z) (index : nat) : Z := default 0 (lanes !! (index mod 4)%nat).

Definition digest_mix (lanes : list Z) (index : nat) : list Z :=
  let lane := Z.lxor (lane_at lanes index) (lane_at lanes (S index)) in
  let lane := w64 (lane * 0xC4CEB9FE1A85EC53) in
  <[index := xorshift 29 lane]> lanes.

Definition digest_round (lanes : list Z) : list Z := foldl digest_mix lanes (seq 0 4).

Definition digest_payload (data : list Z) : list Z :=
  let lanes := digest_round (digest_round (digest_absorb 0 digest_seed data)) in
  let out := lanes ≫= put_le 8 in
  zip_with Z.lxor (take 8 out) (put_le 8 (zlen data)) ++ drop 8 out.

(** ** Bits *)
Lemma lxor_bound n x y :
  0 ≤ n → 0 ≤ x < 2 ^ n → 0 ≤ y < 2 ^ n → 0 ≤ Z.lxor x y < 2 ^ n.
Proof.
  intros Hn Hx Hy. assert (0 ≤ Z.lxor x y) by (apply Z.lxor_nonneg; lia). split; [done|].
  destruct (decide (Z.lxor x y = 0)) as [->|Hne]; [lia|].
  assert (n ≠ 0) as Hn0.
  { intros ->. assert (x = 0) as -> by (simpl in *; lia).
    assert (y = 0) as -> by (simpl in *; lia). done. }
  apply Z.log2_lt_pow2; [lia|]. eapply Z.le_lt_trans; [apply Z.log2_lxor; lia|].
  apply Z.max_lub_lt; [destruct (decide (x = 0)) as [->|]|destruct (decide (y = 0)) as [->|]];
    (by simpl; lia) || (apply Z.log2_lt_pow2; lia).
Qed.

Lemma land_1_testbit x : negb (Z.land x 1 =? 0) = Z.testbit x 0.
Proof.
  change 1 with (Z.ones 1). rewrite Z.land_ones by lia. change (2 ^ 1) with 2.
  rewrite Z.bit0_odd, Zmod_odd. by destruct (Z.odd x).
Qed.

Lemma crc_bit_lxor x y : crc_bit (Z.lxor x y) = Z.lxor (crc_bit x) (crc_bit y).
Proof.
  unfold crc_bit. rewrite !land_1_testbit, Z.lxor_spec, Z.shiftr_lxor.
  destruct (Z.testbit x 0), (Z.testbit y 0); cbn [xorb].
  - rewrite (Z.lxor_comm (Z.shiftr y 1)), Z.lxor_assoc.
    by rewrite <- (Z.lxor_assoc kPolynomial kPolynomial), Z.lxor_nilpotent, Z.lxor_0_l.
  - by rewrite !Z.lxor_assoc, (Z.lxor_comm kPolynomial).
  - by rewrite Z.lxor_assoc.
  - done.
Qed.

Lemma crc_bits_lxor n x y : crc_bits n (Z.lxor x y) = Z.lxor (crc_bits n x) (crc_bits n y).
Proof.
  induction n as [|n IH]; [done|]. cbn [crc_bits]. by rewrite IH, crc_bit_lxor.
Qed.

Lemma crc_bit_double x : crc_bit (Z.shiftl x 1) = x.
Proof.
  unfold crc_bit. rewrite land_1_testbit, Z.shiftl_spec_low by lia.
  by rewrite Z.shiftr_shiftl_l, Z.shiftl_0_r by lia.
Qed.

Lemma crc_bits_shift n x : crc_bits n (Z.shiftl x (Z.of_nat n)) = x.
Proof.
  revert x. induction n as [|n IH]; intros x; [apply Z.shiftl_0_r|].
  cbn [crc_bits]. rewrite <- (crc_bit_double x) at 2. f_equal.
  rewrite <- (IH (Z.shiftl x 1)). f_equal. rewrite Z.shiftl_shiftl by lia. f_equal. lia.
Qed.

Lemma crc_bits_shift8 x : crc_bits 8 (Z.shiftl x 8) = x.
Proof. apply (crc_bits_shift 8). Qed.

Lemma is_u32_pow x : is_u32 x ↔ 0 ≤ x < 2 ^ 32.
Proof. done. Qed.
Lemma is_u8_pow x : is_u8 x ↔ 0 ≤ x < 2 ^ 8.
Proof. done. Qed.

Lemma shiftr1_bound x : is_u32 x → 0 ≤ Z.shiftr x 1 < 2 ^ 31.
Proof.
  unfold is_u32. intros Hx. rewrite Z.shiftr_div_pow2 by lia. change (2 ^ 1) with 2.
  split; [apply Z.div_pos; lia|]. apply Z.div_lt_upper_bound; lia.
Qed.

Lemma crc_bit_u32 x : is_u32 x → is_u32 (crc_bit x).
Proof.
  intros Hx. pose proof (shiftr1_bound x Hx). unfold crc_bit. case_match.
  - apply is_u32_pow, lxor_bound; [lia..|]. unfold kPolynomial. lia.
  - unfold is_u32. lia.
Qed.

Lemma crc_bits_u32 n x : is_u32 x → is_u32 (crc_bits n x).
Proof. intros Hx. induction n; [done|]. by apply crc_bit_u32. Qed.

(** The bit that was shifted out is the top bit of the result: nothing is lost. *)
Lemma crc_bit_top x : is_u32 x → Z.testbit (crc_bit x) 31 = Z.testbit x 0.
Proof.
  intros Hx. pose proof (shiftr1_bound x Hx). unfold crc_bit. rewrite land_1_testbit.
  assert (Z.testbit (Z.shiftr x 1) 31 = false) as Hh.
  { destruct (decide (Z.shiftr x 1 = 0)) as [->|]; [done|].
    apply Z.bits_above_log2; [lia|]. apply Z.log2_lt_pow2; lia. }
  destruct (Z.testbit x 0); [|done]. by rewrite Z.lxor_spec, Hh.
Qed.

Lemma crc_bit_inj x y : is_u32 x → is_u32 y → crc_bit x = crc_bit y → x = y.
Proof.
  intros Hx Hy E. pose proof (crc_bit_top x Hx) as Tx. pose proof (crc_bit_top y Hy) as Ty.
  rewrite E, Ty in Tx.
  assert (Z.shiftr x 1 = Z.shiftr y 1) as Es.
  { unfold crc_bit in E. rewrite !land_1_testbit, Tx in E.
    destruct (Z.testbit x 0); [|done].
    apply (f_equal (fun z => Z.lxor z kPolynomial)) in E.
    by rewrite !Z.lxor_assoc, Z.lxor_nilpotent, !Z.lxor_0_r in E. }
  apply Z.bits_inj'. intros n Hn. destruct (decide (n = 0)) as [->|]; [done|].
  apply (f_equal (fun z => Z.testbit z (n - 1))) in Es.
  rewrite !Z.shiftr_spec in Es by lia. by replace (n - 1 + 1) with n in Es by lia.
Qed.

Lemma crc_bits_inj n x y : is_u32 x → is_u32 y → crc_bits n x = crc_bits n y → x = y.
Proof.
  intros Hx Hy. induction n as [|n IH]; [done|]. cbn [crc_bits].
  intros E%crc_bit_inj; [by apply IH | by apply (crc_bits_u32 n)..].
Qed.

(** ** The table-driven step *)
Lemma lxor_byte_shift x : Z.lxor (Z.land x 255) (Z.shiftl (Z.shiftr x 8) 8) = x.
Proof.
  apply Z.bits_inj'. intros n Hn. rewrite Z.lxor_spec, Z.land_spec.
  change 255 with (Z.ones 8). destruct (decide (n < 8)).
  - rewrite Z.ones_spec_low, Z.shiftl_spec_low by lia. by rewrite andb_true_r, xorb_false_r.
  - rewrite Z.ones_spec_high, Z.shiftl_spec_high, Z.shiftr_spec by lia.
    rewrite andb_false_r, xorb_false_l. f_equal. lia.
Qed.

Lemma land_255_range x : 0 ≤ Z.land x 255 < 256.
Proof. change 255 with (Z.ones 8). rewrite Z.land_ones by lia. apply Z.mod_pos_bound. lia. Qed.

Lemma crc_table_lookup i : 0 ≤ i < 256 → crc_table !! Z.to_nat i = Some (crc_bits 8 i).
Proof.
  intros Hi. unfold crc_table. rewrite list_lookup_fmap, lookup_seq_lt by lia.
  simpl. by rewrite Z2Nat.id by lia.
Qed.

(** A lookup and a shift by eight do the work of eight single steps. *)
Lemma crc_step_bits crc byte :
  is_u8 byte → crc_step crc_table crc byte = crc_bits 8 (Z.lxor crc byte).
Proof.
  intros Hb. unfold crc_step. rewrite crc_table_lookup by apply land_255_range. simpl default.
  rewrite <- (lxor_byte_shift (Z.lxor crc byte)) at 2. rewrite crc_bits_lxor.
  rewrite crc_bits_shift8. f_equal.
  rewrite Z.shiftr_lxor. rewrite (Z.shiftr_div_pow2 byte) by lia.
  rewrite (Z.div_small byte) by exact Hb. by rewrite Z.lxor_0_r.
Qed.

Lemma byte_u32 b : is_u8 b → is_u32 b.
Proof. unfold is_u8, is_u32. lia. Qed.

Lemma lxor_u32 x y : is_u32 x → is_u32 y → is_u32 (Z.lxor x y).
Proof. intros Hx Hy. by apply is_u32_pow, lxor_bound. Qed.

Lemma crc_step_u32 crc byte :
  is_u32 crc → is_u8 byte → is_u32 (crc_step crc_table crc byte).
Proof.
  intros Hc Hb. rewrite crc_step_bits by done. apply crc_bits_u32, lxor_u32; [done|].
  by apply byte_u32.
Qed.

Lemma crc_fold_u32 data crc :
  byte_string data → is_u32 crc → is_u32 (foldl (crc_step crc_table) crc data).
Proof.
  intros Hd. revert crc. induction Hd as [|b data Hb Hd IH]; intros crc Hc; [done|].
  by apply IH, crc_step_u32.
Qed.

Lemma not32_u32 x : is_u32 x → is_u32 (not32 x).
Proof. intros Hx. by apply lxor_u32. Qed.
Lemma not32_inj x y : not32 x = not32 y → x = y.
Proof.
  unfold not32. intros E. apply (f_equal (fun z => Z.lxor z 0xFFFFFFFF)) in E.
  by rewrite !Z.lxor_assoc, Z.lxor_nilpotent, !Z.lxor_0_r in E.
Qed.

Lemma crc32_u32 data : byte_string data → is_u32 (crc32 data).
Proof. intros Hd. apply not32_u32, crc_fold_u32; [done|]. by apply not32_u32. Qed.

(** The mask and the register's width bound the checksum whatever the list holds. *)
Lemma crc32_range data : is_u32 (crc32 data).
Proof.
  apply not32_u32. assert (is_u32 (not32 0)) as H0 by (by apply not32_u32).
  revert H0. generalize (not32 0). induction data as [|b data IH]; intros crc Hc; [done|].
  apply IH. unfold crc_step. rewrite crc_table_lookup by apply land_255_range.
  pose proof (land_255_range (Z.lxor crc b)). apply lxor_u32.
  - apply crc_bits_u32. unfold is_u32. lia.
  - unfold is_u32 in *. rewrite Z.shiftr_div_pow2 by lia. change (2 ^ 8) with 256.
    split; [apply Z.div_pos; lia|]. apply Z.div_lt_upper_bound; lia.
Qed.

(** ** The bit-serial reference

    The CRC of a stream of bits, least significant bit of each byte first: a register that
    takes one bit at a time. *)
Definition byte_bits (byte : Z) : list bool :=
  (fun i => Z.testbit byte (Z.of_nat i)) <$> seq 0 8.

Definition serial_step (crc : Z) (bit : bool) : Z := crc_bit (Z.lxor crc (Z.b2z bit)).

Definition crc32_serial (data : list Z) : Z :=
  not32 (foldl serial_step 0xFFFFFFFF (data ≫= byte_bits)).

Lemma crc_bits_comm n x : crc_bit (crc_bits n x) = crc_bits n (crc_bit x).
Proof. induction n as [|n IH]; [done|]. cbn [crc_bits]. by rewrite IH. Qed.

Lemma serial_bits n crc v :
  0 ≤ v < 2 ^ Z.of_nat n →
  foldl serial_step crc ((fun i => Z.testbit v (Z.of_nat i)) <$> seq 0 n) =
  crc_bits n (Z.lxor crc v).
Proof.
  revert crc v. induction n as [|n IH]; intros crc v Hv.
  { assert (v = 0) as -> by (simpl in Hv; lia). by rewrite Z.lxor_0_r. }
  cbn [seq fmap list_fmap foldl]. rewrite <- fmap_S_seq, <- list_fmap_compose.
  assert (Z.of_nat (S n) = 1 + Z.of_nat n) as Hn by lia. rewrite Hn, Z.pow_add_r in Hv by lia.
  rewrite (list_fmap_ext _ (fun i => Z.testbit (Z.shiftr v 1) (Z.of_nat i))).
  2:{ intros _ i _. unfold compose. rewrite Z.shiftr_spec by lia. f_equal. lia. }
  rewrite IH.
  2:{ rewrite Z.shiftr_div_pow2 by lia. split; [apply Z.div_pos; lia|].
      apply Z.div_lt_upper_bound; lia. }
  cbn [crc_bits]. rewrite crc_bits_comm. f_equal. unfold serial_step.
  rewrite <- (crc_bit_double (Z.shiftr v 1)) at 1. rewrite <- crc_bit_lxor, Z.lxor_assoc.
  do 2 f_equal. apply Z.bits_inj'. intros i Hi. rewrite Z.lxor_spec.
  destruct (decide (i = 0)) as [->|].
  - rewrite Z.shiftl_spec_low, Z.b2z_bit0 by lia. apply xorb_false_r.
  - rewrite Z.shiftl_spec_high, Z.shiftr_spec by lia. replace (i - 1 + 1) with i by lia.
    destruct (Z.testbit v (Z.of_nat 0)); [|change (Z.b2z false) with 0; by rewrite Z.bits_0].
    change (Z.b2z true) with (Z.ones 1). by rewrite Z.ones_spec_high by lia.
Qed.

(** C39: the table-driven [crc32] equals the bit-serial CRC of the polynomial 0xEDB88320 on
    every byte string. *)
Theorem crc32_correct (data : list Z) : byte_string data → crc32 data = crc32_serial data.
Proof.
  intros Hd. unfold crc32, crc32_update, crc32_serial. f_equal.
  change (not32 0) with 0xFFFFFFFF. generalize 0xFFFFFFFF as crc.
  induction Hd as [|b data Hb Hd IH]; intros crc; [done|].
  cbn [foldl]. rewrite bind_cons, foldl_app. rewrite IH. f_equal.
  rewrite crc_step_bits by done. symmetry. by apply serial_bits.
Qed.

Lemma crc32_correct_witness : crc32_serial (string_bytes "123456789") = 0xCBF43926.
Proof.
  rewrite <- crc32_correct; [vm_compute; reflexivity | apply string_bytes_bytes].
Defined.

(** ** Detection of changes *)
Lemma crc_step_inj s s' b b' :
  is_u32 s → is_u32 s' → is_u8 b → is_u8 b' →
  crc_step crc_table s b = crc_step crc_table s' b' → Z.lxor s b = Z.lxor s' b'.
Proof.
  intros Hs Hs' Hb Hb'. rewrite !crc_step_bits by done.
  apply crc_bits_inj; apply lxor_u32; auto using byte_u32.
Qed.

Lemma crc_fold_inj data s s' :
  byte_string data → is_u32 s → is_u32 s' →
  foldl (crc_step crc_table) s data = foldl (crc_step crc_table) s' data → s = s'.
Proof.
  intros Hd. revert s s'. induction Hd as [|b data Hb Hd IH]; intros s s' Hs Hs'; [done|].
  cbn [foldl]. intros E%IH; [|by apply crc_step_u32..]. apply crc_step_inj in E; [|done..].
  apply (f_equal (fun z => Z.lxor z b)) in E.
  by rewrite !Z.lxor_assoc, Z.lxor_nilpotent, !Z.lxor_0_r in E.
Qed.

(** Going back eight steps from a small difference only shifts it. *)
Lemma crc_bits_small x n :
  is_u32 x → 0 ≤ n ≤ 24 → crc_bits 8 x < 2 ^ n → x = Z.shiftl (crc_bits 8 x) 8.
Proof.
  intros Hx Hn Hlt. pose proof (crc_bits_u32 8 x Hx) as Hr.
  apply (crc_bits_inj 8); [done| |].
  - unfold is_u32 in *. rewrite Z.shiftl_mul_pow2 by lia. split; [lia|].
    assert (2 ^ n ≤ 2 ^ 24) by (apply Z.pow_le_mono_r; lia). lia.
  - by rewrite crc_bits_shift8.
Qed.

Lemma lxor_swap a b c d :
  Z.lxor (Z.lxor a b) (Z.lxor c d) = Z.lxor (Z.lxor a c) (Z.lxor b d).
Proof.
  apply Z.bits_inj'. intros n Hn. rewrite !Z.lxor_spec.
  by destruct (Z.testbit a n), (Z.testbit b n), (Z.testbit c n), (Z.testbit d n).
Qed.

(** Two runs over at most four bytes each that end in the same state: their initial states
    differ in that many bytes at most, and equal initial states mean equal bytes. *)
Lemma crc_burst xs ys s s' :
  byte_string xs → byte_string ys → length xs = length ys → (length xs ≤ 4)%nat →
  is_u32 s → is_u32 s' →
  foldl (crc_step crc_table) s xs = foldl (crc_step crc_table) s' ys →
  Z.lxor s s' < 2 ^ (8 * zlen xs) ∧ (s = s' → xs = ys).
Proof.
  intros Hxs. revert ys s s'.
  induction Hxs as [|x xs Hx Hxs IH]; intros [|y ys] s s' Hys Hlen H4 Hs Hs' E; try done.
  { simpl in E. subst. by rewrite Z.lxor_nilpotent. }
  apply Forall_cons in Hys as [Hy Hys]. cbn [length] in Hlen, H4. cbn [foldl] in E.
  destruct (IH ys (crc_step crc_table s x) (crc_step crc_table s' y)) as [Hd He];
    [done|lia|lia|by apply crc_step_u32..|done|]. clear IH.
  rewrite !crc_step_bits, <- crc_bits_lxor in Hd by done.
  set (d := Z.lxor (Z.lxor s x) (Z.lxor s' y)) in Hd.
  assert (is_u32 d) as Hd32 by (repeat apply lxor_u32; auto using byte_u32).
  apply crc_bits_small in Hd as Hsh; [|done|unfold zlen; lia].
  pose proof (crc_bits_u32 8 d Hd32) as Hu. set (e := crc_bits 8 d) in *. clearbody e.
  unfold is_u32 in Hu. assert (0 ≤ Z.lxor x y < 2 ^ 8) as Hxy by (by apply lxor_bound).
  assert (Z.lxor s s' = Z.lxor d (Z.lxor x y)) as Hss.
  { unfold d. by rewrite (lxor_swap s x), Z.lxor_assoc, Z.lxor_nilpotent, Z.lxor_0_r. }
  unfold zlen in *. cbn [length]. rewrite pow256_S. change 256 with (2 ^ 8).
  rewrite Z.shiftl_mul_pow2 in Hsh by lia. split.
  - rewrite Hss, <- Z.pow_add_r by lia. apply lxor_bound; [lia|..].
    + rewrite Hsh, Z.add_comm, Z.pow_add_r by lia. split; [lia|]. nia.
    + split; [lia|]. eapply Z.lt_le_trans; [apply Hxy|]. apply Z.pow_le_mono_r; lia.
  - intros <-. rewrite Z.lxor_nilpotent in Hss. symmetry in Hss. apply Z.lxor_eq in Hss.
    assert (d = 0) as Hd0 by (rewrite Hsh in Hss |- *; lia).
    rewrite Hd0 in Hss. symmetry in Hss. apply Z.lxor_eq in Hss as ->. f_equal. by apply He.
Qed.

Lemma crc32_change before xs ys after :
  byte_string (before ++ xs ++ after) → byte_string ys → length xs = length ys →
  (length xs ≤ 4)%nat → crc32 (before ++ xs ++ after) = crc32 (before ++ ys ++ after) → xs = ys.
Proof.
  intros [Hb [Hx Ha]%Forall_app]%Forall_app Hy Hlen H4 E.
  unfold crc32, crc32_update in E. apply not32_inj in E.
  rewrite !foldl_app in E. apply crc_fold_inj in E; [|done|repeat apply crc_fold_u32; try done..].
  apply crc_burst in E; [by apply E|try done..];
    apply crc_fold_u32; (done || by apply not32_u32).
Qed.

(** [crc32] detects every change that is confined to at most four consecutive bytes:
    byte strings of one length that differ only there have different checksums. *)
Theorem crc32_detects_burst (before xs ys after : list Z) :
  byte_string (before ++ xs ++ after) → byte_string ys → length xs = length ys →
  (length xs ≤ 4)%nat → xs ≠ ys → crc32 (before ++ xs ++ after) ≠ crc32 (before ++ ys ++ after).
Proof. intros Hb Hy Hlen H4 Hne E. apply Hne. exact (crc32_change _ _ _ _ Hb Hy Hlen H4 E). Qed.

Lemma crc32_detects_burst_witness :
  crc32 ([1; 2] ++ [3; 4; 5; 6] ++ [7]) ≠ crc32 ([1; 2] ++ [3; 0; 5; 9] ++ [7]).
Proof.
  apply crc32_detects_burst; try done; try (simpl; lia);
    repeat constructor; unfold is_u8; lia.
Defined.

(** ** The shape of the digest *)
Lemma digest_absorb_length index lanes data :
  length (digest_absorb index lanes data) = length lanes.
Proof.
  revert index lanes. induction data as [|b data IH]; intros index lanes; [done|].
  cbn [digest_absorb]. by rewrite IH, length_alter.
Qed.

Lemma digest_round_length lanes : length (digest_round lanes) = length lanes.
Proof. unfold digest_round, digest_mix. cbn [seq foldl]. by rewrite !length_insert. Qed.

Lemma put_all_bytes lanes : byte_string (lanes ≫= put_le 8).
Proof.
  induction lanes as [|l lanes IH]; [constructor|]. rewrite bind_cons. apply Forall_app.
  split; [apply put_le_bytes | done].
Qed.

Lemma put_all_length lanes : length (lanes ≫= put_le 8) = (8 * length lanes)%nat.
Proof.
  induction lanes as [|l lanes IH]; [done|]. rewrite bind_cons, length_app, IH.
  rewrite put_le_length. simpl. lia.
Qed.

Lemma digest_payload_length data : length (digest_payload data) = 32%nat.
Proof.
  unfold digest_payload. set (lanes := digest_round _).
  assert (length lanes = 4%nat) as Hl.
  { unfold lanes. by rewrite !digest_round_length, digest_absorb_length. }
  pose proof (put_all_length lanes) as Hp. rewrite Hl in Hp.
  rewrite length_app, length_zip_with, length_take, length_drop, Hp, put_le_length. done.
Qed.

Lemma digest_payload_bytes data : byte_string (digest_payload data).
Proof.
  unfold digest_payload. set (lanes := digest_round _).
  pose proof (put_all_bytes lanes) as Hp. apply Forall_app. split; [|by apply Forall_drop].
  apply Forall_take with (n := 8%nat) in Hp. pose proof (put_le_bytes 8 (zlen data)) as Hq.
  revert Hp Hq. generalize (take 8%nat (lanes ≫= put_le 8)) (put_le 8 (zlen data)).
  induction l as [|x l IH]; intros [|y k]; try (intros; constructor); cbn.
  - apply Forall_cons in Hp as [Hx _], Hq as [Hy _]. by apply is_u8_pow, lxor_bound.
  - apply Forall_cons in Hp as [_ Hp], Hq as [_ Hq]. by apply IH.
Qed.
