(* ===== verification/Protocol.v ===== *)
(** The framed wire protocol ([include/ctf/protocol.hpp], [src/protocol.cpp]): message kinds,
    the payload writer and reader, envelopes and frames.

    Every field codec is shown canonical (what it writes is read back, what it accepts is what
    it writes), and so are frames: [decode_frame] accepts exactly the outputs of
    [encode_frame], whatever follows them in the buffer. *)
From S2P Require Import Prelude Identity Errors Codec Checksum.

Module MessageKind.
Inductive MessageKind :=
  | kInvalid | kHello | kHelloAck | kHeartbeat | kHeartbeatAck | kRegisterCollective
  | kRegisterAck | kBeginAttempt | kAttemptAck | kPlanFlowGroup | kFlowGroupDecision
  | kCancelCollective | kRetireCollective | kLifecycleAck | kIngestEvidence | kEvidenceAck
  | kInspectRequest | kInspectResponse | kExplainRequest | kExplainResponse | kErrorResponse
  | kInstallPolicy | kInstallPolicyAck | kShutdown | kShutdownAck | kKindCount.
Definition MessageKind_raw (v : MessageKind) : Z :=
  match v with
  | kInvalid => 0
  | kHello => 1
  | kHelloAck => 2
  | kHeartbeat => 3
  | kHeartbeatAck => 22
  | kRegisterCollective => 4
  | kRegisterAck => 5
  | kBeginAttempt => 6
  | kAttemptAck => 7
  | kPlanFlowGroup => 8
  | kFlowGroupDecision => 9
  | kCancelCollective => 10
  | kRetireCollective => 11
  | kLifecycleAck => 12
  | kIngestEvidence => 13
  | kEvidenceAck => 14
  | kInspectRequest => 15
  | kInspectResponse => 16
  | kExplainRequest => 17
  | kExplainResponse => 18
  | kErrorResponse => 19
  | kInstallPolicy => 20
  | kInstallPolicyAck => 21
  | kShutdown => 23
  | kShutdownAck => 24
  | kKindCount => 25
  end.
Definition MessageKind_to_string (v : MessageKind) : string :=
  match v with
  | kInvalid => "invalid"
  | kHello => "hello"
  | kHelloAck => "hello_ack"
  | kHeartbeat => "heartbeat"
  | kHeartbeatAck => "heartbeat_ack"
  | kRegisterCollective => "register_collective"
  | kRegisterAck => "register_ack"
  | kBeginAttempt => "begin_attempt"
  | kAttemptAck => "attempt_ack"
  | kPlanFlowGroup => "plan_flow_group"
  | kFlowGroupDecision => "flow_group_decision"
  | kCancelCollective => "cancel_collective"
  | kRetireCollective => "retire_collective"
  | kLifecycleAck => "lifecycle_ack"
  | kIngestEvidence => "ingest_evidence"
  | kEvidenceAck => "evidence_ack"
  | kInspectRequest => "inspect_request"
  | kInspectResponse => "inspect_response"
  | kExplainRequest => "explain_request"
  | kExplainResponse => "explain_response"
  | kErrorResponse => "error_response"
  | kInstallPolicy => "install_policy"
  | kInstallPolicyAck => "install_policy_ack"
  | kShutdown => "shutdown"
  | kShutdownAck => "shutdown_ack"
  | kKindCount => "kind_count"
  end.
#[global] Instance MessageKind_eq_dec : EqDecision MessageKind.
Proof. solve_decision. Defined.
#[global, refine] Instance MessageKind_enum : WireEnum MessageKind :=
  {| enum_raw := MessageKind_raw;
     enum_all :=
       [kInvalid; kHello; kHelloAck; kHeartbeat; kHeartbeatAck; kRegisterCollective;
       kRegisterAck; kBeginAttempt; kAttemptAck; kPlanFlowGroup; kFlowGroupDecision;
       kCancelCollective; kRetireCollective; kLifecycleAck; kIngestEvidence; kEvidenceAck;
       kInspectRequest; kInspectResponse; kExplainRequest; kExplainResponse; kErrorResponse;
       kInstallPolicy; kInstallPolicyAck; kShutdown; kShutdownAck; kKindCount] |}.
Proof. by intros []. Defined.
End MessageKind.
Abbreviation MessageKind := MessageKind.MessageKind.

Definition message_kind_is_known (raw : Z) : bool :=
  (0 <? raw) && (raw <? enum_raw MessageKind.kKindCount).

(** ** Writer *)
Definition writer_u8 (value : Z) : list Z := [value].
Definition writer_u16 (value : Z) : list Z := put_le 2 value.
Definition writer_u32 (value : Z) : list Z := put_le 4 value.
Definition writer_u64 (value : Z) : list Z := put_le 8 value.
Definition writer_i64 (value : Z) : list Z := put_le 8 (w64 value).
Definition writer_boolean (value : bool) : list Z := writer_u8 (if value then 1 else 0).
Definition writer_identity (value : Identity) : list Z :=
  writer_u64 (id_high value) ++ writer_u64 (id_low value).
Definition writer_string (value : string) : list Z :=
  writer_u32 (w32 (slen value)) ++ string_bytes value.
Definition writer_raw (value : list Z) : list Z := writer_u32 (w32 (zlen value)) ++ value.
Definition writer_enumeration {A} `{WireEnum A} (value : A) : list Z :=
  writer_u8 (enum_raw value).

(** A count and the elements, the shape of every vector on the wire. *)
Definition writer_vector {A} (enc : A → list Z) (values : list A) : list Z :=
  writer_u32 (w32 (zlen values)) ++ (values ≫= enc).

(** ** Reader *)
Abbreviation Reader A := (Parser Status A).

Definition reader_take (count : Z) : Reader (list Z) :=
  p_take (mkStatus ErrorCode.kDecodeTruncated "payload ended before the field was complete")
    count.
Definition reader_u8 : Reader Z :=
  let* data := reader_take 1 in p_ret (default 0 (head data)).
Definition reader_u16 : Reader Z :=
  let* data := reader_take 2 in p_ret (read_le w16 data).
Definition reader_u32 : Reader Z :=
  let* data := reader_take 4 in p_ret (read_le w32 data).
Definition reader_u64 : Reader Z :=
  let* data := reader_take 8 in p_ret (read_le w64 data).
Definition reader_i64 : Reader Z :=
  let* raw := reader_u64 in p_ret (if raw <? 2 ^ 63 then raw else raw - 2 ^ 64).
Definition reader_boolean : Reader bool :=
  let* raw := reader_u8 in
  if 1 <? raw then
    p_fail (mkStatus ErrorCode.kDecodeInvalidBoolean
              "boolean field carried a value other than 0 or 1")
  else p_ret (raw =? 1).
Definition reader_identity : Reader Identity :=
  let* hi := reader_u64 in
  let* lo := reader_u64 in
  p_ret (mkIdentity hi lo).
Definition reader_string (max_bytes : Z) : Reader string :=
  let* length := reader_u32 in
  if max_bytes <? length then
    p_fail (mkStatus ErrorCode.kDecodeLengthOutOfRange "string field exceeds its bound")
  else
    let* data := reader_take length in
    p_ret (bytes_string data).
Definition reader_raw (max_bytes : Z) : Reader (list Z) :=
  let* length := reader_u32 in
  if max_bytes <? length then
    p_fail (mkStatus ErrorCode.kDecodeLengthOutOfRange "byte field exceeds its bound")
  else reader_take length.
Definition reader_count (max : Z) : Reader Z :=
  let* out := reader_u32 in
  if max <? out then
    p_fail (mkStatus ErrorCode.kDecodeCountOutOfRange "collection count exceeds its bound")
  else p_ret out.

(** [u8], the bound check against the last enumerator and the cast, as every decoder writes
    them. *)
Definition reader_enum {A} `{WireEnum A, Inhabited A} (max : A) (message : string) : Reader A :=
  let* raw := reader_u8 in
  if enum_raw max <? raw then p_fail (mkStatus ErrorCode.kDecodeInvalidEnum message)
  else p_ret (enum_cast raw).

(** The count, the resize and the loop over the elements. *)
Definition reader_vector {A} (max : Z) (p : Reader A) : Reader (list A) :=
  let* count := reader_count max in
  p_list p (Z.to_nat count).

(** [require_end], on the bytes that are left. *)
Definition require_end (rest : list Z) : Status :=
  if negb (zlen rest =? 0) then
    mkStatus ErrorCode.kDecodeTrailingBytes "payload carried trailing bytes"
  else status_ok.

(** ** Envelope and frame *)
Definition kFrameMagic : Z := 0x46544331.
Definition kHeaderBytes : Z := 44.
Definition kEnvelopeBytes : Z := 48.
Definition kFlagRequest : Z := 1.
Definition kFlagResponse : Z := 2.
Definition kFlagFinal : Z := 4.
Definition kFlagKnownMask : Z := Z.lor (Z.lor kFlagRequest kFlagResponse) kFlagFinal.

Record Envelope := mkEnvelope {
  en_session : Identity;
  en_incarnation : Identity;
  en_epoch : Identity;
  en_frame_sequence : Sequence;
  en_correlation : Z;
}.

Record Frame := mkFrame {
  fm_kind : Z;
  fm_flags : Z;
  fm_envelope : Envelope;
  fm_payload : list Z;
}.

Definition encode_envelope (envelope : Envelope) : list Z :=
  put_le 8 (id_high (en_incarnation envelope)) ++ put_le 8 (id_low (en_incarnation envelope)) ++
  put_le 8 (id_high (en_epoch envelope)) ++ put_le 8 (id_low (en_epoch envelope)) ++
  put_le 8 (en_frame_sequence envelope) ++ put_le 8 (en_correlation envelope).

(** [read_uN(data + offset)] *)
Definition read_u16_at (data : list Z) (offset : nat) : Z := read_le w16 (take 2 (drop offset data)).
Definition read_u32_at (data : list Z) (offset : nat) : Z := read_le w32 (take 4 (drop offset data)).
Definition read_u64_at (data : list Z) (offset : nat) : Z := read_le w64 (take 8 (drop offset data)).

(** [out.session] is the caller's. *)
Definition decode_envelope (data : list Z) (session : Identity) : Result Envelope :=
  if zlen data <? kEnvelopeBytes then
    fail ErrorCode.kDecodeTruncated "frame envelope is incomplete"
  else
    Ok {| en_session := session;
          en_incarnation := mkIdentity (read_u64_at data 0) (read_u64_at data 8);
          en_epoch := mkIdentity (read_u64_at data 16) (read_u64_at data 24);
          en_frame_sequence := read_u64_at data 32;
          en_correlation := read_u64_at data 40 |}.

Definition frame_header_start (kind flags : Z) (body : list Z) : list Z :=
  put_le 4 kFrameMagic ++ put_le 2 kHeaderBytes ++ put_le 2 kind ++ put_le 2 flags ++
  put_le 2 limits.kProtocolMajor ++ put_le 2 limits.kProtocolMinor ++
  put_le 4 (w32 (zlen body)) ++ put_le 4 (crc32 body).

Definition frame_header (kind flags : Z) (session : Identity) (body : list Z) : list Z :=
  let start := frame_header_start kind flags body in
  start ++ put_le 4 (crc32 start) ++ put_le 2 0 ++
  put_le 8 (id_high session) ++ put_le 8 (id_low session).

Definition encode_frame (frame : Frame) : Result (list Z) :=
  if negb (message_kind_is_known (fm_kind frame)) then
    fail ErrorCode.kFrameKindUnknown "cannot encode an unknown message kind"
  else if negb (Z.land (fm_flags frame) (Z.lnot kFlagKnownMask) =? 0) then
    fail ErrorCode.kFrameFlagsInvalid "frame flags carry bits this version does not define"
  else if limits.kFramePayloadMaxBytes <? zlen (fm_payload frame) then
    fail ErrorCode.kFrameLengthOutOfRange "frame payload exceeds the size bound"
  else if 0xFFFFFFFF - kEnvelopeBytes <? zlen (fm_payload frame) then
    fail ErrorCode.kFrameLengthArithmeticOverflow "frame length would overflow the header field"
  else
    let body := encode_envelope (fm_envelope frame) ++ fm_payload frame in
    let header :=
      frame_header (fm_kind frame) (fm_flags frame) (en_session (fm_envelope frame)) body in
    if negb (zlen header =? kHeaderBytes) then
      fail ErrorCode.kInternalInvariant "frame header has an unexpected size"
    else Ok (header ++ body).

(** The frame and [consumed]. *)
Definition decode_frame (data : list Z) : Result (Frame * Z) :=
  let size := zlen data in
  if size =? 0 then fail ErrorCode.kTransportClosed "no bytes are available"
  else if size <? kHeaderBytes then
    fail ErrorCode.kFrameTruncatedHeader "frame header is incomplete"
  else if negb (read_u32_at data 0 =? kFrameMagic) then
    fail ErrorCode.kFrameMagicMismatch "frame magic does not match this protocol"
  else if negb (read_u16_at data 4 =? kHeaderBytes) then
    fail ErrorCode.kFrameLengthOutOfRange "frame header size field is not the defined size"
  else
    let kind := read_u16_at data 6 in
    let flags := read_u16_at data 8 in
    let major := read_u16_at data 10 in
    let minor := read_u16_at data 12 in
    let body_bytes := read_u32_at data 14 in
    let body_crc := read_u32_at data 18 in
    let header_crc := read_u32_at data 22 in
    let reserved := read_u16_at data 26 in
    if negb (crc32 (take 22 data) =? header_crc) then
      fail ErrorCode.kFrameIntegrityMismatch "frame header CRC32 does not match"
    else if negb (major =? limits.kProtocolMajor) then
      fail ErrorCode.kFrameVersionUnsupported "frame protocol major version is not supported"
    else if limits.kProtocolMinor <? minor then
      fail ErrorCode.kFrameVersionUnsupported
        "frame protocol minor version is newer than this build"
    else if negb (reserved =? 0) then
      fail ErrorCode.kFrameFlagsInvalid "frame reserved field must be zero"
    else if negb (Z.land flags (Z.lnot kFlagKnownMask) =? 0) then
      fail ErrorCode.kFrameFlagsInvalid "frame flags carry bits this version does not define"
    else if negb (message_kind_is_known kind) then
      fail ErrorCode.kFrameKindUnknown "frame kind is not defined by this version"
    else if body_bytes <? kEnvelopeBytes then
      fail ErrorCode.kFrameLengthOutOfRange
        "frame body is shorter than the envelope it must carry"
    else if limits.kFramePayloadMaxBytes + kEnvelopeBytes <? body_bytes then
      fail ErrorCode.kFrameLengthOutOfRange "frame body exceeds the size bound"
    else if size <? kHeaderBytes + body_bytes then
      fail ErrorCode.kFrameTruncatedPayload "frame body is incomplete"
    else
      let body := take (Z.to_nat body_bytes) (drop (Z.to_nat kHeaderBytes) data) in
      if negb (crc32 body =? body_crc) then
        fail ErrorCode.kFrameIntegrityMismatch "frame body CRC32 does not match"
      else
        let session := mkIdentity (read_u64_at data 28) (read_u64_at data 36) in
        let? envelope := decode_envelope body session in
        Ok (mkFrame kind flags envelope (drop (Z.to_nat kEnvelopeBytes) body),
            kHeaderBytes + body_bytes).

(** ** Laws of the field codecs *)
Lemma w16_small x : 0 ≤ x < 2 ^ (8 * Z.of_nat 2) → w16 x = x.
Proof. intros. by apply Z.mod_small. Qed.

#[export] Instance reader_take_encodes n :
  Encodes (reader_take (Z.of_nat n)) (fun l => l) (fun l => length l = n) (fun l => l).
Proof. apply take_encodes. Qed.

#[export] Instance reader_take_decodes n :
  Decodes (reader_take (Z.of_nat n)) (fun l => l) (fun l => length l = n ∧ byte_string l)
    (fun l => l).
Proof. apply take_decodes. Qed.

#[export] Instance reader_u8_encodes : Encodes reader_u8 writer_u8 is_u8 (fun v => v).
Proof.
  intros v rest Hv. unfold reader_u8.
  by eapply bind_run; [apply (reader_take_encodes 1)|reflexivity|..].
Qed.
#[export] Instance reader_u8_decodes : Decodes reader_u8 writer_u8 is_u8 (fun v => v).
Proof.
  intros bs v rest Hbs Hp. unfold reader_u8 in Hp.
  destruct (bind_inv (reader_take (Z.of_nat 1)) _ _ _ _ _ _ _ Hbs Hp)
    as (data & bs' & [Hl Hd] & -> & _ & Hr).
  destruct data as [|b [|]]; try done. unfold p_ret in Hr. simplify_eq/=. exists v.
  by apply Forall_cons in Hd as [Hd _].
Qed.

#[export] Instance reader_u16_encodes : Encodes reader_u16 writer_u16 is_u16 (fun v => v).
Proof. apply (word_encodes _ 2 w16), w16_small. Qed.
#[export] Instance reader_u16_decodes : Decodes reader_u16 writer_u16 is_u16 (fun v => v).
Proof. apply (word_decodes _ 2 w16), w16_small. Qed.
#[export] Instance reader_u32_encodes : Encodes reader_u32 writer_u32 is_u32 (fun v => v).
Proof. apply (word_encodes _ 4 w32), w32_small. Qed.
#[export] Instance reader_u32_decodes : Decodes reader_u32 writer_u32 is_u32 (fun v => v).
Proof. apply (word_decodes _ 4 w32), w32_small. Qed.
#[export] Instance reader_u64_encodes : Encodes reader_u64 writer_u64 is_u64 (fun v => v).
Proof. apply (word_encodes _ 8 w64), w64_small. Qed.
#[export] Instance reader_u64_decodes : Decodes reader_u64 writer_u64 is_u64 (fun v => v).
Proof. apply (word_decodes _ 8 w64), w64_small. Qed.

Definition is_i64 (v : Z) : Prop := - 2 ^ 63 ≤ v < 2 ^ 63.

#[export] Instance reader_i64_encodes : Encodes reader_i64 writer_i64 is_i64 (fun v => v).
Proof.
  intros v rest Hv. unfold reader_i64, is_i64, writer_i64 in *.
  refine (bind_run reader_u64 _ _ _ _ _ _ _ _ _ _ _); [reflexivity|apply w64_range|].
  unfold p_ret. do 2 f_equal. unfold w64. destruct (decide (0 ≤ v)).
  - rewrite Z.mod_small by lia. by rewrite (proj2 (Z.ltb_lt _ _)) by lia.
  - rewrite <- (Z.mod_add v 1), Z.mod_small by lia. rewrite (proj2 (Z.ltb_ge _ _)) by lia. lia.
Qed.
#[export] Instance reader_i64_decodes : Decodes reader_i64 writer_i64 is_i64 (fun v => v).
Proof.
  intros bs b rest Hbs Hp. unfold reader_i64 in Hp. inv_fields Hbs Hp. unfold is_i64, is_u64 in *.
  eexists. split_and!; [| |reflexivity|].
  1,2: destruct (Z.ltb_spec x (2 ^ 63)); lia.
  f_equal. unfold writer_i64, writer_u64, w64. f_equal.
  destruct (Z.ltb_spec x (2 ^ 63)); [by rewrite Z.mod_small by lia|].
  rewrite <- (Z.mod_add _ 1) by lia. rewrite Z.mod_small; lia.
Qed.

#[export] Instance reader_boolean_encodes :
  Encodes reader_boolean writer_boolean (fun _ => True) (fun v => v).
Proof. intros v rest _. unfold reader_boolean, writer_boolean. by destruct v; run_fields. Qed.
#[export] Instance reader_boolean_decodes :
  Decodes reader_boolean writer_boolean (fun _ => True) (fun v => v).
Proof.
  intros bs b rest Hbs Hp. unfold reader_boolean in Hp. inv_fields Hbs Hp.
  eexists. split_and!; [done|reflexivity|]. unfold writer_boolean. f_equal. f_equal.
  bool_prop. unfold is_u8 in *. destruct (Z.eqb_spec x 1); lia.
Qed.

#[export] Instance reader_identity_encodes :
  Encodes reader_identity writer_identity id_wf (fun v => v).
Proof.
  intros [h l] rest [Hh Hl]. unfold reader_identity, writer_identity. simpl in *. by run_fields.
Qed.
#[export] Instance reader_identity_decodes :
  Decodes reader_identity writer_identity id_wf (fun v => v).
Proof.
  intros bs b rest Hbs Hp. unfold reader_identity in Hp. inv_fields Hbs Hp.
  exists (mkIdentity x x0). unfold writer_identity. by rewrite <- app_assoc.
Qed.

#[export] Instance reader_count_encodes max `{!Bound32 max} :
  Encodes (reader_count max) writer_u32 (fun n => 0 ≤ n ≤ max) (fun v => v).
Proof.
  intros n rest Hn. unfold reader_count, Bound32 in *. by run_fields.
Qed.
#[export] Instance reader_count_decodes max :
  Decodes (reader_count max) writer_u32 (fun n => 0 ≤ n ≤ max) (fun v => v).
Proof.
  intros bs b rest Hbs Hp. unfold reader_count in Hp. inv_fields Hbs Hp.
  exists x. bool_prop. unfold is_u32 in *. split_and!; (done || lia).
Qed.

Lemma w32_slen_small max text : Bound32 max → slen text ≤ max → w32 (slen text) = slen text.
Proof. intros Hm Hl. apply w32_small. unfold Bound32, is_u32, slen in *. lia. Qed.
Lemma w32_zlen_small {A} max (l : list A) : Bound32 max → zlen l ≤ max → w32 (zlen l) = zlen l.
Proof. intros Hm Hl. apply w32_small. unfold Bound32, is_u32, zlen in *. lia. Qed.

#[export] Instance reader_string_encodes max `{!Bound32 max} :
  Encodes (reader_string max) writer_string (fun s => slen s ≤ max) (fun v => v).
Proof.
  intros s rest Hs. unfold reader_string, writer_string.
  rewrite (w32_slen_small max) by done. unfold Bound32 in *.
  assert (0 ≤ slen s) by (unfold slen; lia). rewrite <- app_assoc. do 2 run_step.
  rewrite <- string_bytes_length. unfold zlen.
  eapply bind_run; [apply reader_take_encodes|reflexivity|done|]. unfold p_ret.
  by rewrite bytes_string_bytes.
Qed.
#[export] Instance reader_string_decodes max `{!Bound32 max} :
  Decodes (reader_string max) writer_string (fun s => slen s ≤ max) (fun v => v).
Proof.
  intros bs b rest Hbs Hp. unfold reader_string in Hp. do 2 inv_step Hbs Hp. bool_prop.
  unfold is_u32 in *. rewrite <- (Z2Nat.id x) in Hp by lia. unfold reader_take in Hp.
  destruct (bind_inv _ _ _ _ _ _ _ _ Hbs Hp) as (data & bs' & [Hl Hd] & -> & _ & Hr).
  unfold p_ret in Hr. simplify_eq. exists (bytes_string data). unfold writer_string.
  assert (slen (bytes_string data) = x) as Hx
    by (rewrite bytes_string_length; unfold zlen; lia).
  rewrite (w32_slen_small max), Hx, string_bytes_string by (done || lia).
  split_and!; [lia | done | by rewrite <- app_assoc].
Qed.

#[export] Instance reader_vector_encodes {A} max (p : Reader A) enc valid
    `{!Bound32 max, !Encodes p enc valid (fun a => a)} :
  Encodes (reader_vector max p) (writer_vector enc)
    (fun l => zlen l ≤ max ∧ Forall valid l) (fun l => l).
Proof.
  intros l rest [Hl Hv]. unfold reader_vector, writer_vector.
  rewrite (w32_zlen_small max) by done. pose proof (zlen_nonneg l). rewrite <- app_assoc.
  run_step. apply (list_encodes p enc valid). split; [unfold zlen; lia|done].
Qed.
#[export] Instance reader_vector_decodes {A} max (p : Reader A) enc valid
    `{!Bound32 max, !Decodes p enc valid (fun a => a)} :
  Decodes (reader_vector max p) (writer_vector enc)
    (fun l => zlen l ≤ max ∧ Forall valid l) (fun l => l).
Proof.
  intros bs b rest Hbs Hp. unfold reader_vector in Hp. inv_step Hbs Hp.
  apply (list_decodes p enc valid) in Hp as (l & [Hl HF] & -> & ->); [|done]. exists l.
  assert (zlen l = x) as Hx by (unfold zlen; lia). unfold writer_vector.
  rewrite (w32_zlen_small max), Hx by (done || lia).
  split_and!; [lia | done | done | by rewrite <- app_assoc].
Qed.

#[export] Instance reader_enum_encodes {A} `{WireEnum A, Inhabited A} (max : A) message
    `{!EnumRange A (enum_raw max)} :
  Encodes (reader_enum max message) writer_enumeration (fun _ => True) (fun v => v).
Proof.
  intros v rest _. unfold reader_enum, writer_enumeration.
  pose proof (enum_range_raw v). pose proof enum_range_u8. run_fields.
  by rewrite enum_cast_raw.
Qed.
#[export] Instance reader_enum_decodes {A} `{WireEnum A, Inhabited A} (max : A) message
    `{!EnumRange A (enum_raw max)} :
  Decodes (reader_enum max message) writer_enumeration (fun _ => True) (fun v => v).
Proof.
  intros bs b rest Hbs Hp. unfold reader_enum in Hp. inv_fields Hbs Hp. bool_prop.
  unfold is_u8 in *. exists (enum_cast x). unfold writer_enumeration.
  by rewrite (enum_raw_cast (enum_raw max)) by lia.
Qed.

(** ** Frames *)
#[local] Opaque crc32.

Lemma read_put_u16 v : is_u16 v → read_le w16 (put_le 2 v) = v.
Proof.
  intros Hv. rewrite (read_le_value w16 2) by
    (apply w16_small || apply put_le_bytes || by rewrite put_le_length).
  by apply le_value_put.
Qed.
Lemma read_put_u32 v : is_u32 v → read_le w32 (put_le 4 v) = v.
Proof.
  intros Hv. rewrite (read_le_value w32 4) by
    (apply w32_small || apply put_le_bytes || by rewrite put_le_length).
  by apply le_value_put.
Qed.
Lemma read_put_u64 v : is_u64 v → read_le w64 (put_le 8 v) = v.
Proof.
  intros Hv. rewrite (read_le_value w64 8) by
    (apply w64_small || apply put_le_bytes || by rewrite put_le_length).
  by apply le_value_put.
Qed.

(** Reading a word at an offset, and what the words found there rebuild. *)
Section read_at.
Context (data : list Z) (Hbs : byte_string data).

Lemma read_le_at (wrap : Z → Z) n off :
  (∀ x, 0 ≤ x < 2 ^ (8 * Z.of_nat n) → wrap x = x) → (off + n ≤ length data)%nat →
  0 ≤ read_le wrap (take n (drop off data)) < 2 ^ (8 * Z.of_nat n) ∧
  drop off data = put_le n (read_le wrap (take n (drop off data))) ++ drop (off + n) data.
Proof.
  intros Hw Hl.
  assert (length (take n (drop off data)) = n) as Hn by (rewrite length_take, length_drop; lia).
  assert (byte_string (take n (drop off data))) as Hb by (by apply Forall_take, Forall_drop).
  rewrite (read_le_value wrap n) by (done || lia).
  pose proof (le_value_range _ Hb) as Hr. unfold zlen in Hr. rewrite Hn in Hr.
  split; [done|]. pose proof (put_le_value _ Hb) as Hp. rewrite Hn in Hp. rewrite Hp.
  by rewrite <- drop_drop, take_drop.
Qed.

Lemma read_u16_at_split off : (off + 2 ≤ length data)%nat →
  is_u16 (read_u16_at data off) ∧
  drop off data = put_le 2 (read_u16_at data off) ++ drop (off + 2) data.
Proof. apply (read_le_at w16 2), w16_small. Qed.
Lemma read_u32_at_split off : (off + 4 ≤ length data)%nat →
  is_u32 (read_u32_at data off) ∧
  drop off data = put_le 4 (read_u32_at data off) ++ drop (off + 4) data.
Proof. apply (read_le_at w32 4), w32_small. Qed.
Lemma read_u64_at_split off : (off + 8 ≤ length data)%nat →
  is_u64 (read_u64_at data off) ∧
  drop off data = put_le 8 (read_u64_at data off) ++ drop (off + 8) data.
Proof. apply (read_le_at w64 8), w64_small. Qed.
End read_at.

Definition envelope_wf (e : Envelope) : Prop :=
  id_wf (en_session e) ∧ id_wf (en_incarnation e) ∧ id_wf (en_epoch e) ∧
  is_u64 (en_frame_sequence e) ∧ is_u64 (en_correlation e).

Lemma encode_envelope_length e : length (encode_envelope e) = 48%nat.
Proof. unfold encode_envelope. by rewrite !length_app, !put_le_length. Qed.

Lemma decode_encode_envelope e rest :
  envelope_wf e → decode_envelope (encode_envelope e ++ rest) (en_session e) = Ok e.
Proof.
  intros (Hs & [Hih Hil] & [Heh Hel] & Hf & Hc). unfold decode_envelope.
  rewrite zlen_app. unfold zlen at 1. rewrite encode_envelope_length.
  pose proof (zlen_nonneg rest). unfold kEnvelopeBytes.
  rewrite (proj2 (Z.ltb_ge _ _)) by lia.
  set (d := encode_envelope e ++ rest).
  assert (read_u64_at d 0 = id_high (en_incarnation e)) as -> by by apply read_put_u64.
  assert (read_u64_at d 8 = id_low (en_incarnation e)) as -> by by apply read_put_u64.
  assert (read_u64_at d 16 = id_high (en_epoch e)) as -> by by apply read_put_u64.
  assert (read_u64_at d 24 = id_low (en_epoch e)) as -> by by apply read_put_u64.
  assert (read_u64_at d 32 = en_frame_sequence e) as -> by by apply read_put_u64.
  assert (read_u64_at d 40 = en_correlation e) as -> by by apply read_put_u64.
  by destruct e as [? [] [] ? ?].
Qed.

Lemma encode_decode_envelope body session e :
  byte_string body → id_wf session → decode_envelope body session = Ok e →
  envelope_wf e ∧ en_session e = session ∧ body = encode_envelope e ++ drop 48 body.
Proof.
  intros Hb Hs. unfold decode_envelope. destruct (_ <? _) eqn:Hl; [done|]. intros [= <-].
  apply Z.ltb_ge in Hl. unfold kEnvelopeBytes, zlen in Hl.
  destruct (read_u64_at_split body Hb 0 ltac:(lia)) as [H1 E1].
  destruct (read_u64_at_split body Hb 8 ltac:(lia)) as [H2 E2].
  destruct (read_u64_at_split body Hb 16 ltac:(lia)) as [H3 E3].
  destruct (read_u64_at_split body Hb 24 ltac:(lia)) as [H4 E4].
  destruct (read_u64_at_split body Hb 32 ltac:(lia)) as [H5 E5].
  destruct (read_u64_at_split body Hb 40 ltac:(lia)) as [H6 E6].
  split_and!; try done. unfold encode_envelope. cbn [en_incarnation en_epoch en_frame_sequence
    en_correlation id_high id_low]. rewrite <- !app_assoc.
  change (drop 48 body) with (drop (40 + 8) body). rewrite <- E6.
  change (drop 40 body) with (drop (32 + 8) body). rewrite <- E5.
  change (drop 32 body) with (drop (24 + 8) body). rewrite <- E4.
  change (drop 24 body) with (drop (16 + 8) body). rewrite <- E3.
  change (drop 16 body) with (drop (8 + 8) body). rewrite <- E2.
  change (drop 8 body) with (drop (0 + 8) body). by rewrite <- E1.
Qed.

Definition frame_wf (f : Frame) : Prop :=
  is_u16 (fm_kind f) ∧ is_u16 (fm_flags f) ∧ envelope_wf (fm_envelope f) ∧
  byte_string (fm_payload f).

(** The frames this version defines. *)
Definition frame_defined (f : Frame) : Prop :=
  message_kind_is_known (fm_kind f) = true ∧
  Z.land (fm_flags f) (Z.lnot kFlagKnownMask) = 0 ∧
  zlen (fm_payload f) ≤ limits.kFramePayloadMaxBytes.

Definition frame_body (f : Frame) : list Z := encode_envelope (fm_envelope f) ++ fm_payload f.
Definition frame_bytes (f : Frame) : list Z :=
  frame_header (fm_kind f) (fm_flags f) (en_session (fm_envelope f)) (frame_body f) ++
  frame_body f.

Lemma frame_header_length kind flags session body :
  length (frame_header kind flags session body) = 44%nat.
Proof. unfold frame_header, frame_header_start. by rewrite !length_app, !put_le_length. Qed.

Lemma encode_frame_spec f bytes :
  encode_frame f = Ok bytes ↔ frame_defined f ∧ bytes = frame_bytes f.
Proof.
  unfold encode_frame, frame_defined, frame_bytes, frame_body.
  set (body := encode_envelope _ ++ _).
  assert (negb (zlen (frame_header (fm_kind f) (fm_flags f) (en_session (fm_envelope f)) body)
                =? kHeaderBytes) = false) as ->.
  { unfold zlen. by rewrite frame_header_length. }
  unfold limits.kFramePayloadMaxBytes, kEnvelopeBytes, fail.
  destruct (message_kind_is_known _); cbn [negb]; [|split; [done|by intros ((? & _) & _)]].
  destruct (_ =? 0) eqn:Hf; cbn [negb]; bool_prop; [|split; [done|by intros ((_ & ? & _) & _)]].
  destruct (_ <? _) eqn:Hp; bool_prop; [split; [done|intros ((_ & _ & ?) & _); lia]|].
  rewrite (proj2 (Z.ltb_ge _ _)) by lia. split; [intros [= <-]|intros (_ & ->)]; done.
Qed.

Lemma encode_frame_Fail f s : encode_frame f = Fail s → is_ok s = false.
Proof. unfold encode_frame, fail. repeat case_match; by intros [= <-]. Qed.

Lemma frame_body_length f : zlen (frame_body f) = 48 + zlen (fm_payload f).
Proof.
  unfold frame_body. rewrite zlen_app. unfold zlen at 1. by rewrite encode_envelope_length.
Qed.

Lemma encode_envelope_bytes e : byte_string (encode_envelope e).
Proof. unfold encode_envelope. repeat (apply Forall_app_2; [apply put_le_bytes|]). apply put_le_bytes. Qed.

Lemma frame_body_bytes f : frame_wf f → byte_string (frame_body f).
Proof. intros (_ & _ & _ & Hp). apply Forall_app_2; [apply encode_envelope_bytes | done]. Qed.

Lemma frame_header_start_bytes kind flags body : byte_string (frame_header_start kind flags body).
Proof. unfold frame_header_start. repeat (apply Forall_app_2; [apply put_le_bytes|]). apply put_le_bytes. Qed.

(** What the reads of [decode_frame] find in a header that was written. *)
Lemma header_reads a b c d e f g h i j k l rest :
  is_u32 a → is_u16 b → is_u16 c → is_u16 d → is_u16 e → is_u16 f → is_u32 g → is_u32 h →
  is_u32 i → is_u16 j → is_u64 k → is_u64 l →
  let start := put_le 4 a ++ put_le 2 b ++ put_le 2 c ++ put_le 2 d ++ put_le 2 e ++
    put_le 2 f ++ put_le 4 g ++ put_le 4 h in
  let data := (start ++ put_le 4 i ++ put_le 2 j ++ put_le 8 k ++ put_le 8 l) ++ rest in
  take 22 data = start ∧ drop 44 data = rest ∧
  read_u32_at data 0 = a ∧ read_u16_at data 4 = b ∧ read_u16_at data 6 = c ∧
  read_u16_at data 8 = d ∧ read_u16_at data 10 = e ∧ read_u16_at data 12 = f ∧
  read_u32_at data 14 = g ∧ read_u32_at data 18 = h ∧ read_u32_at data 22 = i ∧
  read_u16_at data 26 = j ∧ read_u64_at data 28 = k ∧ read_u64_at data 36 = l.
Proof.
  intros Ha Hb Hc Hd He Hf Hg Hh Hi Hj Hk Hl start data. unfold read_u16_at, read_u32_at, read_u64_at.
  change (take 4 (drop 0 data)) with (put_le 4 a).
  change (take 2 (drop 4 data)) with (put_le 2 b).
  change (take 2 (drop 6 data)) with (put_le 2 c).
  change (take 2 (drop 8 data)) with (put_le 2 d).
  change (take 2 (drop 10 data)) with (put_le 2 e).
  change (take 2 (drop 12 data)) with (put_le 2 f).
  change (take 4 (drop 14 data)) with (put_le 4 g).
  change (take 4 (drop 18 data)) with (put_le 4 h).
  change (take 4 (drop 22 data)) with (put_le 4 i).
  change (take 2 (drop 26 data)) with (put_le 2 j).
  change (take 8 (drop 28 data)) with (put_le 8 k).
  change (take 8 (drop 36 data)) with (put_le 8 l).
  rewrite !read_put_u16, !read_put_u32, !read_put_u64 by assumption.
  split; [reflexivity|]. split; [reflexivity|]. split_and!; reflexivity.
Qed.

(** What a header that was accepted is made of. *)
Lemma header_split data :
  byte_string data → (44 ≤ length data)%nat →
  is_u16 (read_u16_at data 6) ∧ is_u16 (read_u16_at data 8) ∧ is_u16 (read_u16_at data 12) ∧
  is_u32 (read_u32_at data 14) ∧
  id_wf (mkIdentity (read_u64_at data 28) (read_u64_at data 36)) ∧
  take 22 data = put_le 4 (read_u32_at data 0) ++ put_le 2 (read_u16_at data 4) ++
    put_le 2 (read_u16_at data 6) ++ put_le 2 (read_u16_at data 8) ++
    put_le 2 (read_u16_at data 10) ++ put_le 2 (read_u16_at data 12) ++
    put_le 4 (read_u32_at data 14) ++ put_le 4 (read_u32_at data 18) ∧
  drop 22 data = put_le 4 (read_u32_at data 22) ++ put_le 2 (read_u16_at data 26) ++
    put_le 8 (read_u64_at data 28) ++ put_le 8 (read_u64_at data 36) ++ drop 44 data.
Proof.
  intros Hb Hl.
  destruct (read_u32_at_split data Hb 0 ltac:(lia)) as [_ E0].
  destruct (read_u16_at_split data Hb 4 ltac:(lia)) as [_ E4].
  destruct (read_u16_at_split data Hb 6 ltac:(lia)) as [H6 E6].
  destruct (read_u16_at_split data Hb 8 ltac:(lia)) as [H8 E8].
  destruct (read_u16_at_split data Hb 10 ltac:(lia)) as [_ E10].
  destruct (read_u16_at_split data Hb 12 ltac:(lia)) as [H12 E12].
  destruct (read_u32_at_split data Hb 14 ltac:(lia)) as [H14 E14].
  destruct (read_u32_at_split data Hb 18 ltac:(lia)) as [_ E18].
  destruct (read_u32_at_split data Hb 22 ltac:(lia)) as [_ E22].
  destruct (read_u16_at_split data Hb 26 ltac:(lia)) as [_ E26].
  destruct (read_u64_at_split data Hb 28 ltac:(lia)) as [H28 E28].
  destruct (read_u64_at_split data Hb 36 ltac:(lia)) as [H36 E36].
  cbn [Nat.add] in *.
  split_and!; [done..| |by rewrite <- E36, <- E28, <- E26, <- E22].
  apply (app_inv_tail (drop 22 data)). rewrite take_drop.
  rewrite <- !app_assoc, <- E18, <- E14, <- E12, <- E10, <- E8, <- E6, <- E4, <- E0. done.
Qed.

(** A complete header, whatever follows it: the decoder goes on to the body. *)
Lemma decode_frame_header f tail :
  frame_wf f → frame_defined f →
  decode_frame (frame_header (fm_kind f) (fm_flags f) (en_session (fm_envelope f)) (frame_body f)
                ++ tail) =
  if zlen tail <? zlen (frame_body f) then
    fail ErrorCode.kFrameTruncatedPayload "frame body is incomplete"
  else
    let body := take (Z.to_nat (zlen (frame_body f))) tail in
    if negb (crc32 body =? crc32 (frame_body f)) then
      fail ErrorCode.kFrameIntegrityMismatch "frame body CRC32 does not match"
    else
      let? envelope := decode_envelope body (en_session (fm_envelope f)) in
      Ok (mkFrame (fm_kind f) (fm_flags f) envelope (drop (Z.to_nat kEnvelopeBytes) body),
          kHeaderBytes + zlen (frame_body f)).
Proof.
  intros Hwf (Hkind & Hflags & Hpay). pose proof (frame_body_bytes f Hwf) as Hbody.
  pose proof (frame_body_length f) as Hbl. pose proof (zlen_nonneg (fm_payload f)) as Hp0.
  destruct Hwf as (Hk & Hf & He & Hp). pose proof He as ([Hsh Hsl] & _).
  unfold limits.kFramePayloadMaxBytes in Hpay.
  assert (is_u32 (zlen (frame_body f))) as Hb32 by (unfold is_u32; lia).
  set (body := frame_body f) in *. set (header := frame_header _ _ _ body).
  assert (zlen header = 44) as Hhl by (unfold zlen, header; by rewrite frame_header_length).
  pose proof (header_reads kFrameMagic kHeaderBytes (fm_kind f) (fm_flags f)
    limits.kProtocolMajor limits.kProtocolMinor (w32 (zlen body)) (crc32 body)
    (crc32 (frame_header_start (fm_kind f) (fm_flags f) body)) 0
    (id_high (en_session (fm_envelope f))) (id_low (en_session (fm_envelope f))) tail
    ltac:(done) ltac:(done) Hk Hf ltac:(done) ltac:(done) (w32_range _) (crc32_u32 _ Hbody)
    (crc32_u32 _ (frame_header_start_bytes _ _ _)) ltac:(done) Hsh Hsl) as Hreads.
  cbv zeta in Hreads. fold (frame_header_start (fm_kind f) (fm_flags f) body) in Hreads.
  fold (frame_header (fm_kind f) (fm_flags f) (en_session (fm_envelope f)) body) in Hreads.
  fold header in Hreads. set (start := frame_header_start _ _ _) in Hreads.
  set (d := header ++ tail) in *.
  destruct Hreads as (Et & Ed & E0 & E4 & E6 & E8 & E10 & E12 & E14 & E18 & E22 & E26 & E28 & E36).
  assert (zlen d = 44 + zlen tail) as Hd by (unfold d; rewrite zlen_app; lia).
  pose proof (zlen_nonneg tail). rewrite w32_small in E14 by done.
  unfold decode_frame. rewrite E0, E4, E6, E8, E10, E12, E14, E18, E22, E26, E28, E36, Et, Hd.
  rewrite (proj2 (Z.eqb_neq _ 0)) by lia. unfold kHeaderBytes at 1.
  rewrite (proj2 (Z.ltb_ge _ 44)) by lia. rewrite !Z.eqb_refl. cbn [negb].
  rewrite Z.ltb_irrefl, Hflags, Hkind. cbn [negb Z.eqb].
  unfold limits.kFramePayloadMaxBytes, kEnvelopeBytes at 1 2, kHeaderBytes at 1 2.
  rewrite (proj2 (Z.ltb_ge (zlen body) 48)) by lia.
  rewrite (proj2 (Z.ltb_ge _ (zlen body))) by lia.
  change (Z.to_nat 44) with 44%nat. rewrite Ed.
  replace (44 + zlen tail <? 44 + zlen body) with (zlen tail <? zlen body)
    by (destruct (Z.ltb_spec (zlen tail) (zlen body)); symmetry;
        [apply Z.ltb_lt | apply Z.ltb_ge]; lia).
  by destruct (en_session (fm_envelope f)).
Qed.

Lemma decode_frame_bytes f rest :
  frame_wf f → frame_defined f → decode_frame (frame_bytes f ++ rest) = Ok (f, zlen (frame_bytes f)).
Proof.
  intros Hwf Hdef. unfold frame_bytes at 1. rewrite <- app_assoc, decode_frame_header by done.
  rewrite zlen_app. pose proof (zlen_nonneg rest). rewrite (proj2 (Z.ltb_ge _ _)) by lia.
  assert (take (Z.to_nat (zlen (frame_body f))) (frame_body f ++ rest) = frame_body f) as ->
    by (unfold zlen; by rewrite Nat2Z.id, take_app_length).
  cbv zeta. rewrite Z.eqb_refl. cbn [negb]. unfold frame_body at 1 2.
  rewrite decode_encode_envelope by apply Hwf. cbn [r_bind].
  rewrite (drop_app_length' _ _ (Z.to_nat kEnvelopeBytes)) by (by rewrite encode_envelope_length).
  unfold frame_bytes. rewrite zlen_app. unfold zlen at 2. rewrite frame_header_length.
  by destruct f.
Qed.

Lemma frame_bytes_length f : zlen (frame_bytes f) = 44 + zlen (frame_body f).
Proof. unfold frame_bytes. rewrite zlen_app. unfold zlen at 1. by rewrite frame_header_length. Qed.

(** A frame that has not arrived completely is reported as incomplete, not as malformed. *)
Lemma decode_frame_partial f part more :
  frame_wf f → frame_defined f → frame_bytes f = part ++ more → part ≠ [] → more ≠ [] →
  ∃ s, decode_frame part = Fail s ∧
    (st_code s = ErrorCode.kFrameTruncatedHeader ∨ st_code s = ErrorCode.kFrameTruncatedPayload).
Proof.
  intros Hwf Hdef E Hp Hm.
  assert (0 < zlen more) as H0 by (clear -Hm; destruct more; [done|unfold zlen; simpl; lia]).
  destruct (decide (length part < 44)%nat) as [Hl|Hl].
  { unfold decode_frame. apply zlen_nil_iff in Hp. rewrite Hp. unfold zlen, kHeaderBytes.
    rewrite (proj2 (Z.ltb_lt _ _)) by lia. eexists. split; [reflexivity|]. by left. }
  set (header := frame_header (fm_kind f) (fm_flags f) (en_session (fm_envelope f)) (frame_body f)).
  assert (∃ tail, part = header ++ tail ∧ frame_body f = tail ++ more) as (tail & -> & Eb).
  { assert (length header = 44%nat) as Hh by apply frame_header_length.
    change (frame_bytes f) with (header ++ frame_body f) in E.
    exists (drop 44 part). apply (f_equal (take 44)) in E as Et. apply (f_equal (drop 44)) in E.
    rewrite take_app_length' in Et by done. rewrite drop_app_length' in E by done.
    rewrite take_app_le in Et by lia. rewrite drop_app_le in E by lia.
    split; [by rewrite Et, take_drop|done]. }
  unfold header. rewrite (decode_frame_header f tail Hwf Hdef), Eb, zlen_app.
  rewrite (proj2 (Z.ltb_lt _ _)) by lia. eexists. split; [reflexivity|]. right. reflexivity.
Qed.

Lemma decode_frame_inv data f n :
  byte_string data → decode_frame data = Ok (f, n) →
  frame_wf f ∧ frame_defined f ∧ n = zlen (frame_bytes f) ∧
  data = frame_bytes f ++ drop (Z.to_nat n) data.
Proof.
  intros Hbs. unfold decode_frame, fail.
  destruct (_ =? 0) eqn:C0 in |- *; [done|]. destruct (zlen data <? _) eqn:C1; [done|].
  destruct (read_u32_at data 0 =? _) eqn:C2; [|done].
  destruct (read_u16_at data 4 =? _) eqn:C3; [|done]. cbn [negb].
  destruct (crc32 (take 22 data) =? _) eqn:C4; [|done]. cbn [negb].
  destruct (read_u16_at data 10 =? _) eqn:C5; [|done]. cbn [negb].
  destruct (_ <? read_u16_at data 12) eqn:C6; [done|].
  destruct (read_u16_at data 26 =? 0) eqn:C7; [|done]. cbn [negb].
  destruct (Z.land _ _ =? 0) eqn:C8; [|done]. cbn [negb].
  destruct (message_kind_is_known _) eqn:C9; [|done]. cbn [negb].
  destruct (read_u32_at data 14 <? _) eqn:C10; [done|].
  destruct (_ <? read_u32_at data 14) eqn:C11; [done|].
  destruct (zlen data <? kHeaderBytes + _) eqn:C12; [done|].
  set (body := take _ (drop _ data)). destruct (crc32 body =? _) eqn:C13; [|done]. cbn [negb].
  destruct (decode_envelope body _) as [e|] eqn:De; cbn [r_bind]; [|done]. intros [= <- <-].
  bool_prop. unfold kHeaderBytes, kEnvelopeBytes, zlen in *.
  destruct (header_split data Hbs ltac:(lia)) as (H6 & H8 & H12 & H14 & Hs & Et & Ed).
  assert (byte_string body) as Hbody by (by apply Forall_take, Forall_drop).
  apply encode_decode_envelope in De as (He & Hes & Hbe); [|done..].
  assert (length body = Z.to_nat (read_u32_at data 14)) as Hbl.
  { unfold body. rewrite length_take, length_drop. lia. }
  set (f := mkFrame _ _ _ _). change (Z.to_nat 48) with 48%nat in *.
  assert (frame_body f = body) as Hfb by (symmetry; exact Hbe).
  assert (frame_bytes f = take 22 data ++ put_le 4 (read_u32_at data 22) ++
    put_le 2 (read_u16_at data 26) ++ put_le 8 (read_u64_at data 28) ++
    put_le 8 (read_u64_at data 36) ++ body) as Hfr.
  { unfold frame_bytes, frame_header. rewrite Hfb. cbn [fm_kind fm_flags fm_envelope f].
    rewrite Hes. cbn [id_high id_low]. rewrite <- !app_assoc.
    assert (frame_header_start (read_u16_at data 6) (read_u16_at data 8) body = take 22 data)
      as ->.
    { rewrite Et. unfold frame_header_start, zlen. rewrite C2, C3, C5, <- C13, Hbl.
      rewrite Z2Nat.id, w32_small by (unfold is_u32 in *; lia).
      by replace (read_u16_at data 12) with limits.kProtocolMinor
        by (unfold is_u16, limits.kProtocolMinor in *; lia). }
    by rewrite C4, C7. }
  pose proof (frame_body_length f) as Hzl. rewrite Hfb in Hzl. unfold zlen in Hzl.
  assert (zlen (frame_bytes f) = 44 + read_u32_at data 14) as Hn.
  { unfold frame_bytes. rewrite zlen_app, Hfb. unfold zlen. rewrite frame_header_length. lia. }
  split_and!; try done.
  - unfold frame_wf. cbn. split_and!; try done. rewrite Hbe in Hbody.
    by apply Forall_app in Hbody as [_ ?].
  - split_and!; [done..|]. unfold zlen, limits.kFramePayloadMaxBytes in *. lia.
  - rewrite Hfr, <- !app_assoc. rewrite <- (take_drop 22 data) at 1. f_equal. rewrite Ed at 1.
    do 4 f_equal. unfold body. change (Z.to_nat 44) with 44%nat.
    rewrite Z2Nat.inj_add by lia. rewrite <- drop_drop. by rewrite take_drop.
Qed.

(** C16: frames are canonical and self-delimiting.  On any byte string, [decode_frame] yields a
    frame and the number of bytes it consumed exactly when the buffer starts with what
    [encode_frame] writes for that frame, whatever follows it. *)
Theorem decode_frame_iff (data : list Z) (f : Frame) (consumed : Z) :
  byte_string data →
  decode_frame data = Ok (f, consumed) ↔
  frame_wf f ∧ ∃ bytes rest, encode_frame f = Ok bytes ∧ data = bytes ++ rest ∧
    consumed = zlen bytes.
Proof.
  intros Hbs. split.
  - intros (Hwf & Hdef & -> & Hd)%decode_frame_inv; [|done]. split; [done|].
    exists (frame_bytes f), (drop (Z.to_nat (zlen (frame_bytes f))) data).
    by rewrite encode_frame_spec.
  - intros (Hwf & bytes & rest & (Hdef & ->)%encode_frame_spec & -> & ->).
    by apply decode_frame_bytes.
Qed.

Definition demo_frame : Frame :=
  mkFrame 3 kFlagRequest
    (mkEnvelope (mkIdentity 1 2) (mkIdentity 3 4) (mkIdentity 5 6) 7 0xFFFFFFFFFFFFFFFF)
    [104; 105].

Lemma decode_frame_iff_witness :
  decode_frame (frame_bytes demo_frame ++ [1; 2; 3]) = Ok (demo_frame, 94).
Proof.
  apply decode_frame_iff; [by apply bytes_check; vm_compute|].
  split; [unfold frame_wf, envelope_wf, id_wf; split_and!; by (done || apply bytes_check)|].
  exists (frame_bytes demo_frame), [1; 2; 3]. vm_compute. auto.
Defined.

(** ** What the checksums protect *)
Lemma put_le_4_inj x y : is_u32 x → is_u32 y → put_le 4 x = put_le 4 y → x = y.
Proof. intros Hx Hy E. rewrite <- (read_put_u32 x), <- (read_put_u32 y) by done. by rewrite E. Qed.

Lemma header_slices a b c d e f g h i j k l rest :
  let start := put_le 4 a ++ put_le 2 b ++ put_le 2 c ++ put_le 2 d ++ put_le 2 e ++
    put_le 2 f ++ put_le 4 g ++ put_le 4 h in
  let data := (start ++ put_le 4 i ++ put_le 2 j ++ put_le 8 k ++ put_le 8 l) ++ rest in
  take 22 data = start ∧ take 4 (drop 14 data) = put_le 4 g ∧
  take 4 (drop 18 data) = put_le 4 h ∧ take 4 (drop 22 data) = put_le 4 i ∧
  drop 44 data = rest.
Proof. intros. split_and!; reflexivity. Qed.

(** The checksum fields of a frame hold the checksums of the bytes they cover. *)
Lemma frame_slices f rest :
  let data := frame_bytes f ++ rest in
  take 4 (drop 22 data) = put_le 4 (crc32 (take 22 data)) ∧
  take 4 (drop 14 data) = put_le 4 (w32 (zlen (frame_body f))) ∧
  take 4 (drop 18 data) = put_le 4 (crc32 (frame_body f)) ∧
  drop 44 data = frame_body f ++ rest.
Proof.
  intros data. pose proof (header_slices kFrameMagic kHeaderBytes (fm_kind f) (fm_flags f)
    limits.kProtocolMajor limits.kProtocolMinor (w32 (zlen (frame_body f))) (crc32 (frame_body f))
    (crc32 (frame_header_start (fm_kind f) (fm_flags f) (frame_body f))) 0
    (id_high (en_session (fm_envelope f))) (id_low (en_session (fm_envelope f)))
    (frame_body f ++ rest)) as Hs. cbv zeta in Hs.
  fold (frame_header_start (fm_kind f) (fm_flags f) (frame_body f)) in Hs.
  fold (frame_header (fm_kind f) (fm_flags f) (en_session (fm_envelope f)) (frame_body f)) in Hs.
  rewrite app_assoc in Hs. fold (frame_bytes f) in Hs. fold data in Hs.
  destruct Hs as (E1 & E2 & E3 & E4 & E5). rewrite E1. exact (conj E4 (conj E2 (conj E3 E5))).
Qed.

(** A byte string with a part replaced by one of the same length. *)
Section replaced.
Context {A : Type} (before xs ys after : list A) (Hlen : length ys = length xs).

Lemma replaced_take n : (n ≤ length before)%nat →
  take n (before ++ ys ++ after) = take n (before ++ xs ++ after).
Proof. intros Hn. by rewrite !take_app_le by lia. Qed.
Lemma replaced_drop n : (length before + length xs ≤ n)%nat →
  drop n (before ++ ys ++ after) = drop n (before ++ xs ++ after).
Proof. intros Hn. rewrite !drop_app_ge by lia. f_equal. lia. Qed.
End replaced.

(** The covered parts of two frames that agree on their checksum fields. *)
Lemma checksum_change before xs ys after :
  byte_string (before ++ xs ++ after) → byte_string ys → length ys = length xs →
  (length xs ≤ 4)%nat →
  put_le 4 (crc32 (before ++ xs ++ after)) = put_le 4 (crc32 (before ++ ys ++ after)) → xs = ys.
Proof.
  intros Hb Hy Hl H4 E.
  apply put_le_4_inj in E;
    [exact (crc32_change _ _ _ _ Hb Hy (eq_sym Hl) H4 E)|apply crc32_u32..]; [done|].
  apply Forall_app in Hb as [? [? ?]%Forall_app]. by rewrite !Forall_app.
Qed.

Lemma frame_bytes_bytes f : frame_wf f → byte_string (frame_bytes f).
Proof.
  intros Hf. apply Forall_app_2; [|by apply frame_body_bytes]. unfold frame_header.
  apply Forall_app_2; [apply frame_header_start_bytes|].
  repeat (apply Forall_app_2; [apply put_le_bytes|]). apply put_le_bytes.
Qed.

Lemma frame_header_change f f' before xs ys after rest :
  frame_wf f → frame_bytes f = before ++ xs ++ after → byte_string ys →
  length ys = length xs → (length xs ≤ 4)%nat → (length before + length xs ≤ 22)%nat →
  before ++ ys ++ after = frame_bytes f' ++ rest → xs = ys.
Proof.
  intros Hf Hb Hys Hlen H4 H22 Hd.
  destruct (frame_slices f []) as (E1 & _). rewrite app_nil_r, Hb in E1.
  destruct (frame_slices f' rest) as (E2 & _). rewrite <- Hd in E2.
  rewrite (replaced_drop before xs ys after Hlen) in E2 by done. rewrite E1 in E2.
  rewrite !(take_app_ge before), !(take_app_ge (_ : list Z)) in E2 by lia.
  rewrite Hlen in E2. eapply checksum_change; [|done..|exact E2].
  pose proof (frame_bytes_bytes f Hf) as Hbs. rewrite Hb in Hbs.
  rewrite !Forall_app in Hbs |- *. destruct Hbs as (? & ? & ?). eauto using Forall_take.
Qed.

Lemma frame_body_u32 f : frame_defined f → is_u32 (zlen (frame_body f)).
Proof.
  intros (_ & _ & Hp). rewrite frame_body_length. unfold limits.kFramePayloadMaxBytes in Hp.
  pose proof (zlen_nonneg (fm_payload f)). unfold is_u32. lia.
Qed.

Lemma frame_body_change f f' before xs ys after rest :
  frame_wf f → frame_defined f → frame_defined f' → frame_bytes f = before ++ xs ++ after →
  byte_string ys → length ys = length xs → (length xs ≤ 4)%nat → (44 ≤ length before)%nat →
  before ++ ys ++ after = frame_bytes f' ++ rest → xs = ys.
Proof.
  intros Hf Hdef Hdef' Hb Hys Hlen H4 H44 Hd.
  destruct (frame_slices f []) as (_ & E1 & E2 & E3). rewrite !app_nil_r, Hb in *.
  destruct (frame_slices f' rest) as (_ & E1' & E2' & E3'). rewrite <- Hd in *.
  rewrite !take_drop_commute in E1, E2, E1', E2'. cbn [Nat.add] in *.
  rewrite (replaced_take before xs ys after Hlen) in E1', E2' by lia.
  rewrite E1 in E1'. rewrite E2 in E2'. rewrite !(drop_app_le before) in E3, E3' by lia.
  apply put_le_4_inj in E1'; [|apply w32_range..].
  rewrite !w32_small in E1' by (by apply frame_body_u32).
  assert (rest = []) as ->.
  { apply (f_equal length) in E3, E3'. rewrite !length_app in E3. rewrite !length_app in E3'. unfold zlen in E1'.
    apply length_zero_iff_nil. lia. }
  rewrite app_nil_r in E3'. rewrite <- E3, <- E3' in E2'.
  eapply checksum_change; [|done..|exact E2'].
  rewrite E3. by apply frame_body_bytes.
Qed.

(** A frame that was changed on the way in at most four consecutive bytes, either among
    those the header checksum covers or anywhere in the body, is never accepted, neither as
    the frame it was nor as another. *)
Theorem frame_corruption_detected (f : Frame) (bytes before xs ys after : list Z) :
  frame_wf f → encode_frame f = Ok bytes → bytes = before ++ xs ++ after →
  byte_string ys → length ys = length xs → (length xs ≤ 4)%nat → xs ≠ ys →
  (length before + length xs ≤ 22)%nat ∨ (44 ≤ length before)%nat →
  ∀ r, decode_frame (before ++ ys ++ after) ≠ Ok r.
Proof.
  intros Hf (Hdef & ->)%encode_frame_spec Hb Hys Hlen H4 Hne Hwhere [f' n] Hd.
  pose proof (frame_bytes_bytes f Hf) as Hbs. rewrite Hb in Hbs.
  apply decode_frame_inv in Hd as (Hf' & Hdef' & -> & Hd).
  - apply Hne. destruct Hwhere.
    + by apply (frame_header_change f f' before xs ys after _ Hf Hb Hys Hlen H4 H Hd).
    + by apply (frame_body_change f f' before xs ys after _ Hf Hdef Hdef' Hb Hys Hlen H4 H Hd).
  - rewrite !Forall_app in Hbs |- *. tauto.
Qed.

Lemma frame_corruption_detected_witness :
  ∃ s, decode_frame (take 60 (frame_bytes demo_frame) ++ [9; 9] ++
                     drop 62 (frame_bytes demo_frame)) = Fail s.
Proof.
  destruct (decode_frame _) as [r|s] eqn:E; [exfalso; revert E|by exists s].
  apply (frame_corruption_detected demo_frame (frame_bytes demo_frame) _
    (take 2 (drop 60 (frame_bytes demo_frame)))); try by vm_compute.
  - unfold frame_wf, envelope_wf, id_wf; split_and!; by (done || apply bytes_check).
  - by apply bytes_check.
  - vm_compute. lia.
  - right. vm_compute. lia.
Defined.

(** The session identity of the header is outside both checksums: replacing it turns a frame
    into another frame that is accepted. *)
Lemma session_not_covered f session rest :
  frame_wf f → frame_defined f → id_wf session →
  let f' := mkFrame (fm_kind f) (fm_flags f)
    (mkEnvelope session (en_incarnation (fm_envelope f)) (en_epoch (fm_envelope f))
       (en_frame_sequence (fm_envelope f)) (en_correlation (fm_envelope f))) (fm_payload f) in
  decode_frame (take 28 (frame_bytes f) ++ put_le 8 (id_high session) ++ put_le 8 (id_low session) ++
                frame_body f ++ rest) = Ok (f', zlen (frame_bytes f)).
Proof.
  intros Hf Hdef Hs f'. assert (frame_wf f') as Hf'.
  { destruct Hf as (? & ? & (? & ? & ? & ? & ?) & ?). by split_and!. }
  assert (zlen (frame_bytes f') = zlen (frame_bytes f)) as <-.
  { unfold frame_bytes. rewrite !zlen_app, !frame_body_length. unfold zlen.
    by rewrite !frame_header_length. }
  rewrite <- (decode_frame_bytes f' rest Hf' Hdef). f_equal.
Qed.
