(* ===== verification/WireData.v ===== *)
(** The nested payload codecs of the wire protocol: reason chains, collective definitions,
    plans, flow groups, decision requests and records ([src/protocol.cpp],
    [src/protocol_messages.cpp]), evidence and policies ([src/protocol_evidence.cpp]).

    For each structure: what the encoder writes, what the decoder reads, which values are
    valid on the wire, and the two laws of [Codec].  An encoder whose every path returns
    [Status::ok()] is modelled by the bytes it appends. *)
From S2P Require Import Prelude Identity Errors Participant Collective FlowGroup Traffic.
From S2P Require Import Evidence Sync Decision Codec Checksum Protocol.

(** ** Enumerations on the wire *)
#[export] Instance CollectiveClass_inhabited : Inhabited CollectiveClass := populate CollectiveClass.kUnknown.
#[export] Instance AlgorithmHint_inhabited : Inhabited AlgorithmHint := populate AlgorithmHint.kUnspecified.
#[export] Instance CollectiveScope_inhabited : Inhabited CollectiveScope := populate CollectiveScope.kUnspecified.
#[export] Instance CollectiveState_inhabited : Inhabited CollectiveState := populate CollectiveState.kUnregistered.
#[export] Instance FlowPattern_inhabited : Inhabited FlowPattern := populate FlowPattern.kUnspecified.
#[export] Instance FlowDirection_inhabited : Inhabited FlowDirection := populate FlowDirection.kUnknown.
#[export] Instance TrafficClass_inhabited : Inhabited TrafficClass := populate TrafficClass.kUnclassified.
#[export] Instance IsolationMode_inhabited : Inhabited IsolationMode := populate IsolationMode.kShared.
#[export] Instance PacingMode_inhabited : Inhabited PacingMode := populate PacingMode.kNone.
#[export] Instance SyncKind_inhabited : Inhabited SyncKind := populate SyncKind.kNone.
#[export] Instance SyncBasis_inhabited : Inhabited SyncBasis := populate SyncBasis.kUnspecified.
#[export] Instance Outcome_inhabited : Inhabited Outcome := populate Outcome.kAdmitted.
#[export] Instance AuthorityAxis_inhabited : Inhabited AuthorityAxis := populate AuthorityAxis.kNone.
#[export] Instance LinkClass_inhabited : Inhabited LinkClass := populate LinkClass.kUnspecified.
#[export] Instance CongestionLevel_inhabited : Inhabited CongestionLevel := populate CongestionLevel.kUnknown.
#[export] Instance ParticipantState_inhabited : Inhabited ParticipantState := populate ParticipantState.kUnspecified.

(** The bound a decoder checks names the last enumerator. *)
#[export] Hint Extern 1 (EnumRange _ _) =>
  (apply enum_range_compute; vm_compute; reflexivity) : typeclass_instances.

(** ** Reason chains *)
Definition writer_reason (reason : Reason) : list Z :=
  writer_string (r_code reason) ++ writer_string (r_detail reason) ++
  writer_identity (r_subject reason).

Definition reader_reason : Reader Reason :=
  let* code := reader_string 128 in
  let* detail := reader_string limits.kReasonDetailBytesMax in
  let* subject := reader_identity in
  p_ret (mkReason code detail subject).

Definition encode_reason_chain (value : ReasonChain) : Result (list Z) :=
  if limits.kReasonChainMax <? zlen value then
    fail ErrorCode.kValidationReasonChainTooLong "reason chain exceeds its bound"
  else Ok (writer_vector writer_reason value).

(** [chain.add(code, detail, subject)], whose refusal ends the loop. *)
Definition chain_add (chain : ReasonChain) (reason : Reason) : option ReasonChain :=
  match rc_add chain (r_code reason) (r_detail reason) (r_subject reason) with
  | (chain', true) => Some chain'
  | (_, false) => None
  end.

Definition decode_reason_chain : Reader ReasonChain :=
  let* count := reader_count limits.kReasonChainMax in
  p_fold reader_reason chain_add
    (mkStatus ErrorCode.kValidationReasonChainTooLong
       "reason chain exceeded its bound while decoding")
    (Z.to_nat count) [].

(** ** Collective definitions *)
Definition writer_phase (phase : CollectivePhase) : list Z :=
  writer_u64 (cp_phase_index phase) ++ writer_string (cp_label phase) ++
  writer_boolean (cp_synchronization_point phase) ++ writer_u32 (cp_step_count phase).

Definition reader_phase : Reader CollectivePhase :=
  let* sequence := reader_u64 in
  let* label := reader_string limits.kLabelBytesMax in
  let* synchronization_point := reader_boolean in
  let* step_count := reader_u32 in
  p_ret (mkCollectivePhase sequence label synchronization_point step_count).

Definition writer_step (step : CollectiveStep) : list Z :=
  writer_u64 (cs_phase_index step) ++ writer_u64 (cs_step_index step) ++
  writer_enumeration (cs_hint step) ++ writer_boolean (cs_synchronization_point step).

Definition reader_step : Reader CollectiveStep :=
  let* phase := reader_u64 in
  let* sequence := reader_u64 in
  let* hint := reader_enum AlgorithmHint.kVendorSpecific
                 "step algorithm hint is not defined by this version" in
  let* synchronization_point := reader_boolean in
  p_ret (mkCollectiveStep phase sequence hint synchronization_point).

Definition writer_metadata_entry (entry : string * string) : list Z :=
  writer_string entry.1 ++ writer_string entry.2.

Definition reader_metadata_entry : Reader (string * string) :=
  let* key := reader_string limits.kMetadataKeyBytesMax in
  let* value := reader_string limits.kMetadataValueBytesMax in
  p_ret (key, value).

Definition metadata_add (metadata : Metadata) (entry : string * string) : option Metadata :=
  match md_set metadata entry.1 entry.2 with
  | (metadata', true) => Some metadata'
  | (_, false) => None
  end.

Definition decode_metadata : Reader Metadata :=
  let* metadata_count := reader_count limits.kMetadataEntriesMax in
  p_fold reader_metadata_entry metadata_add
    (mkStatus ErrorCode.kDecodeDuplicateEntry "metadata carries a duplicate key")
    (Z.to_nat metadata_count) [].

Definition decode_participants : Reader (list Identity) :=
  let* participants := reader_count limits.kParticipantsMaxPerCollective in
  if participants =? 0 then
    p_fail (mkStatus ErrorCode.kDecodeEmptyRequiredField
              "a collective definition must name its participants")
  else p_list reader_identity (Z.to_nat participants).

Definition encode_definition (value : CollectiveDefinition) : list Z :=
  writer_identity (cd_id value) ++ writer_identity (cd_generation value) ++
  writer_enumeration (cd_collective_class value) ++
  writer_enumeration (cd_algorithm_hint value) ++ writer_enumeration (cd_scope value) ++
  writer_string (cd_label value) ++ writer_identity (cd_origin_node value) ++
  writer_identity (cd_fabric value) ++
  writer_vector writer_identity (cd_participants value) ++
  writer_vector writer_phase (cd_phases value) ++
  writer_vector writer_step (cd_steps value) ++
  writer_vector writer_metadata_entry (cd_metadata value) ++
  writer_boolean (cd_declares_barrier_semantics value) ++
  writer_u64 (cd_logical_bytes value) ++ writer_u64 (cd_registration_sequence value).

Definition decode_definition : Reader CollectiveDefinition :=
  let* id := reader_identity in
  let* generation := reader_identity in
  let* collective_class := reader_enum CollectiveClass.kUnknownVendor
                             "collective class is not defined by this version" in
  let* algorithm_hint := reader_enum AlgorithmHint.kVendorSpecific
                           "algorithm hint is not defined by this version" in
  let* scope := reader_enum CollectiveScope.kHybrid
                  "collective scope is not defined by this version" in
  let* label := reader_string limits.kLabelBytesMax in
  let* origin_node := reader_identity in
  let* fabric := reader_identity in
  let* participants := decode_participants in
  let* phases := reader_vector limits.kPhasesMaxPerCollective reader_phase in
  let* steps := reader_vector (limits.kPhasesMaxPerCollective * limits.kStepsMaxPerPhase)
                  reader_step in
  let* metadata := decode_metadata in
  let* declares_barrier_semantics := reader_boolean in
  let* logical_bytes := reader_u64 in
  let* registration_sequence := reader_u64 in
  p_ret (mkCollectiveDefinition id generation collective_class algorithm_hint scope label
           origin_node fabric participants phases steps metadata declares_barrier_semantics
           logical_bytes registration_sequence).

(** ** Plans and flow groups *)
Definition writer_edge (edge : FlowEdge) : list Z :=
  writer_identity (fe_source edge) ++ writer_identity (fe_destination edge) ++
  writer_u64 (fe_logical_bytes edge) ++ writer_u64 (fe_step_index edge) ++
  writer_enumeration (fe_hint edge) ++ writer_boolean (fe_crosses_rack edge).

Definition reader_edge : Reader FlowEdge :=
  let* source := reader_identity in
  let* destination := reader_identity in
  let* logical_bytes := reader_u64 in
  let* step := reader_u64 in
  let* hint := reader_enum AlgorithmHint.kVendorSpecific
                 "edge algorithm hint is not defined by this version" in
  let* crosses_rack := reader_boolean in
  p_ret (mkFlowEdge source destination logical_bytes step hint crosses_rack).

Definition encode_flow_group_plan (value : FlowGroupPlan) : list Z :=
  writer_identity (ci_id (fp_instance value)) ++
  writer_identity (ci_generation (fp_instance value)) ++
  writer_identity (ci_attempt (fp_instance value)) ++
  writer_u64 (ci_attempt_sequence (fp_instance value)) ++
  writer_enumeration (fp_collective_class value) ++ writer_enumeration (fp_pattern value) ++
  writer_enumeration (fp_direction value) ++ writer_u64 (fp_plan_sequence value) ++
  writer_boolean (fp_requires_simultaneous_start value) ++
  writer_vector writer_edge (fp_edges value).

Definition decode_flow_group_plan : Reader FlowGroupPlan :=
  let* id := reader_identity in
  let* generation := reader_identity in
  let* attempt := reader_identity in
  let* attempt_sequence := reader_u64 in
  let* collective_class := reader_enum CollectiveClass.kUnknownVendor
                             "collective class is not defined by this version" in
  let* pattern := reader_enum FlowPattern.kCustom
                    "flow pattern is not defined by this version" in
  let* direction := reader_enum FlowDirection.kBidirectional
                      "flow direction is not defined by this version" in
  let* plan_sequence := reader_u64 in
  let* requires_simultaneous_start := reader_boolean in
  let* edges := reader_vector limits.kEdgesMaxPerFlowGroup reader_edge in
  p_ret (mkFlowGroupPlan (mkCollectiveInstance id generation attempt attempt_sequence)
           collective_class pattern direction edges plan_sequence requires_simultaneous_start).

Definition encode_flow_group (value : FlowGroup) : list Z :=
  writer_identity (fg_id value) ++ writer_identity (ci_id (fg_instance value)) ++
  writer_identity (ci_generation (fg_instance value)) ++
  writer_identity (ci_attempt (fg_instance value)) ++
  writer_enumeration (fg_collective_class value) ++ writer_enumeration (fg_pattern value) ++
  writer_enumeration (fg_direction value) ++
  writer_vector writer_edge (fg_edges value) ++
  writer_vector writer_identity (fg_participants value) ++
  writer_u64 (fg_total_logical_bytes value) ++ writer_u32 (fg_max_fan_out value) ++
  writer_u32 (fg_max_fan_in value) ++ writer_u32 (fg_cross_rack_edge_count value) ++
  writer_boolean (fg_requires_simultaneous_start value) ++
  writer_u64 (fg_plan_sequence value).

(** The attempt sequence of the group's instance is not on the wire: it keeps its default. *)
Definition decode_flow_group : Reader FlowGroup :=
  let* group_id := reader_identity in
  let* id := reader_identity in
  let* generation := reader_identity in
  let* attempt := reader_identity in
  let* collective_class := reader_enum CollectiveClass.kUnknownVendor
                             "collective class is not defined by this version" in
  let* pattern := reader_enum FlowPattern.kCustom
                    "flow pattern is not defined by this version" in
  let* direction := reader_enum FlowDirection.kBidirectional
                      "flow direction is not defined by this version" in
  let* edges := reader_vector limits.kEdgesMaxPerFlowGroup reader_edge in
  let* participants := reader_vector limits.kParticipantsMaxPerCollective reader_identity in
  let* total_logical_bytes := reader_u64 in
  let* max_fan_out := reader_u32 in
  let* max_fan_in := reader_u32 in
  let* cross_rack_edge_count := reader_u32 in
  let* requires_simultaneous_start := reader_boolean in
  let* plan_sequence := reader_u64 in
  p_ret (mkFlowGroup group_id (mkCollectiveInstance id generation attempt 0) collective_class
           pattern direction edges participants total_logical_bytes max_fan_out max_fan_in
           cross_rack_edge_count requires_simultaneous_start plan_sequence).

(** ** Decision requests and records *)
Definition plan_default : FlowGroupPlan :=
  mkFlowGroupPlan instance_default CollectiveClass.kUnknown FlowPattern.kUnspecified
    FlowDirection.kUnidirectional [] 0 false.

Definition encode_decision_request (value : DecisionRequest) : list Z :=
  writer_identity (dr_session value) ++ writer_identity (ci_id (dr_instance value)) ++
  writer_identity (ci_generation (dr_instance value)) ++
  writer_identity (ci_attempt (dr_instance value)) ++
  writer_u64 (ci_attempt_sequence (dr_instance value)) ++
  writer_identity (dr_observed_topology_generation value) ++
  writer_identity (dr_observed_policy_generation value) ++
  writer_identity (dr_observed_epoch value) ++
  writer_identity (dr_observed_capacity_generation value) ++
  writer_identity (dr_observed_congestion_generation value) ++
  writer_boolean (dr_has_flow_group_plan value) ++
  (if dr_has_flow_group_plan value then encode_flow_group_plan (dr_plan value) else []) ++
  writer_boolean (dr_has_requested_class value) ++
  writer_enumeration (dr_requested_class value) ++
  writer_u64 (dr_requested_transfer_bytes value).

Definition decode_decision_request : Reader DecisionRequest :=
  let* session := reader_identity in
  let* id := reader_identity in
  let* generation := reader_identity in
  let* attempt := reader_identity in
  let* attempt_sequence := reader_u64 in
  let* observed_topology_generation := reader_identity in
  let* observed_policy_generation := reader_identity in
  let* observed_epoch := reader_identity in
  let* observed_capacity_generation := reader_identity in
  let* observed_congestion_generation := reader_identity in
  let* has_flow_group_plan := reader_boolean in
  let* plan := if has_flow_group_plan then decode_flow_group_plan else p_ret plan_default in
  let* has_requested_class := reader_boolean in
  let* requested_class := reader_enum TrafficClass.kProbe
                            "requested traffic class is not defined by this version" in
  let* requested_transfer_bytes := reader_u64 in
  p_ret (mkDecisionRequest session
           (mkCollectiveInstance id generation attempt attempt_sequence)
           observed_topology_generation observed_policy_generation observed_epoch
           observed_capacity_generation observed_congestion_generation has_flow_group_plan
           plan has_requested_class requested_class requested_transfer_bytes).

(** [static_cast<ErrorCode>(code)]: a value of the underlying type that names no code is kept. *)
Definition error_cast (raw : Z) : ErrorCode :=
  match find_first (fun c => ErrorCode.error_raw c =? raw) ErrorCode.error_all with
  | Some code => code
  | None => ErrorCode.kUndefined raw
  end.

Definition writer_error_code (code : ErrorCode) : list Z :=
  writer_u32 (ErrorCode.error_raw code).

Definition reader_error_code : Reader ErrorCode :=
  let* code := reader_u32 in
  if ErrorCode.error_raw ErrorCode.kInternalUnsupported <? code then
    p_fail (mkStatus ErrorCode.kDecodeInvalidEnum "error code is not defined by this version")
  else p_ret (error_cast code).

(** The pacing intent on the wire: its flow group and instance are written from the record. *)
Definition writer_pacing (flow_group : Identity) (instance : CollectiveInstance)
    (pacing : PacingIntent) : list Z :=
  writer_enumeration (pi_mode pacing) ++ writer_identity flow_group ++
  writer_identity (ci_id instance) ++ writer_identity (ci_generation instance) ++
  writer_identity (ci_attempt instance) ++
  writer_u64 (pi_admitted_bandwidth_bps pacing) ++
  writer_u64 (pi_ceiling_bandwidth_bps pacing) ++ writer_u64 (pi_burst_bytes pacing) ++
  writer_u64 (pi_utilization_bps pacing) ++ writer_u64 (pi_release_after_monotonic_ms pacing).

Definition reader_pacing : Reader PacingIntent :=
  let* mode := reader_enum PacingMode.kShaped
                 "pacing mode is not defined by this version" in
  let* flow_group := reader_identity in
  let* id := reader_identity in
  let* generation := reader_identity in
  let* attempt := reader_identity in
  let* admitted_bandwidth_bps := reader_u64 in
  let* ceiling_bandwidth_bps := reader_u64 in
  let* burst_bytes := reader_u64 in
  let* utilization_bps := reader_u64 in
  let* release_after_monotonic_ms := reader_u64 in
  p_ret (mkPacingIntent mode flow_group (mkCollectiveInstance id generation attempt 0)
           admitted_bandwidth_bps ceiling_bandwidth_bps burst_bytes utilization_bps
           release_after_monotonic_ms id_none).

Definition writer_sync (sync : SyncSensitivity) : list Z :=
  writer_enumeration (ss_kind sync) ++ writer_enumeration (ss_basis sync) ++
  writer_boolean (ss_latency_critical sync) ++
  writer_boolean (ss_all_members_must_arrive sync) ++
  writer_boolean (ss_completion_ordering_matters sync) ++
  writer_u32 (ss_barrier_member_count sync) ++ writer_u64 (ss_maximum_skew_micros sync).

Definition reader_sync : Reader SyncSensitivity :=
  let* kind := reader_enum SyncKind.kStreamOrder "sync kind is not defined by this version" in
  let* basis := reader_enum SyncBasis.kDerivedFromPolicy
                  "sync basis is not defined by this version" in
  let* latency_critical := reader_boolean in
  let* all_members_must_arrive := reader_boolean in
  let* completion_ordering_matters := reader_boolean in
  let* barrier_member_count := reader_u32 in
  let* maximum_skew_micros := reader_u64 in
  p_ret (mkSyncSensitivity kind basis latency_critical all_members_must_arrive
           completion_ordering_matters barrier_member_count maximum_skew_micros).

(** What is written before and after the reason chain, the only part that can fail. *)
Definition writer_decision_head (value : DecisionRecord) : list Z :=
  writer_identity (ci_id (de_instance value)) ++
  writer_identity (ci_generation (de_instance value)) ++
  writer_identity (ci_attempt (de_instance value)) ++
  writer_u64 (ci_attempt_sequence (de_instance value)) ++
  writer_enumeration (de_collective_class value) ++
  writer_enumeration (de_algorithm_hint value) ++ writer_enumeration (de_outcome value) ++
  writer_enumeration (de_axis value) ++ writer_error_code (de_code value) ++
  writer_identity (de_flow_group value) ++ writer_boolean (de_flow_group_constructed value) ++
  encode_flow_group (de_group value) ++
  writer_vector writer_identity (de_participants value) ++
  writer_enumeration (de_traffic_class value) ++ writer_u64 (de_priority value) ++
  writer_enumeration (de_isolation value) ++
  writer_pacing (de_flow_group value) (de_instance value) (de_pacing value) ++
  writer_sync (de_sync value) ++
  writer_identity (de_collective_generation value) ++
  writer_identity (de_topology_generation value) ++
  writer_identity (de_policy_generation value) ++
  writer_identity (de_capacity_generation value) ++
  writer_identity (de_congestion_generation value) ++ writer_identity (de_epoch value) ++
  writer_boolean (de_congestion_evidence_used value) ++
  writer_boolean (de_capacity_evidence_used value) ++
  writer_boolean (de_all_members_live value) ++ writer_u64 (de_phase_index value) ++
  writer_u64 (de_step_index value).

Definition encode_decision_record (value : DecisionRecord) : Result (list Z) :=
  let? reasons := encode_reason_chain (de_reasons value) in
  Ok (writer_decision_head value ++ reasons ++
      writer_u64 (de_decided_monotonic_ms value) ++ writer_u64 (de_decision_sequence value)).

Definition decode_decision_record : Reader DecisionRecord :=
  let* id := reader_identity in
  let* generation := reader_identity in
  let* attempt := reader_identity in
  let* attempt_sequence := reader_u64 in
  let* collective_class := reader_enum CollectiveClass.kUnknownVendor
                             "collective class is not defined by this version" in
  let* algorithm_hint := reader_enum AlgorithmHint.kVendorSpecific
                           "algorithm hint is not defined by this version" in
  let* outcome := reader_enum Outcome.kUnknownSemantics
                    "outcome is not defined by this version" in
  let* axis := reader_enum AuthorityAxis.kPlan
                 "authority axis is not defined by this version" in
  let* code := reader_error_code in
  let* flow_group := reader_identity in
  let* flow_group_constructed := reader_boolean in
  let* group := decode_flow_group in
  let* participants := reader_vector limits.kParticipantsMaxPerCollective reader_identity in
  let* traffic_class := reader_enum TrafficClass.kProbe
                          "traffic class is not defined by this version" in
  let* priority := reader_u64 in
  let* isolation := reader_enum IsolationMode.kDedicatedPath
                      "isolation mode is not defined by this version" in
  let* pacing := reader_pacing in
  let* sync := reader_sync in
  let* collective_generation := reader_identity in
  let* topology_generation := reader_identity in
  let* policy_generation := reader_identity in
  let* capacity_generation := reader_identity in
  let* congestion_generation := reader_identity in
  let* epoch := reader_identity in
  let* congestion_evidence_used := reader_boolean in
  let* capacity_evidence_used := reader_boolean in
  let* all_members_live := reader_boolean in
  let* phase := reader_u64 in
  let* step := reader_u64 in
  let* reasons := decode_reason_chain in
  let* decided_monotonic_ms := reader_u64 in
  let* sequence := reader_u64 in
  p_ret (mkDecisionRecord (mkCollectiveInstance id generation attempt attempt_sequence)
           collective_class algorithm_hint outcome axis code flow_group flow_group_constructed
           group participants traffic_class priority isolation pacing sync
           collective_generation topology_generation policy_generation capacity_generation
           congestion_generation epoch congestion_evidence_used capacity_evidence_used
           all_members_live phase step reasons decided_monotonic_ms sequence).

(** ** Evidence *)
Definition writer_link_capacity (entry : LinkCapacity) : list Z :=
  writer_identity (lc_link entry) ++ writer_u64 (lc_provisioned_bps entry) ++
  writer_u64 (lc_available_bps entry) ++ writer_u32 (lc_utilization_bps entry) ++
  writer_boolean (lc_oversubscribed entry) ++
  writer_u32 (lc_oversubscription_ratio_per_mille entry).

Definition reader_link_capacity : Reader LinkCapacity :=
  let* link := reader_identity in
  let* provisioned_bps := reader_u64 in
  let* available_bps := reader_u64 in
  let* utilization_bps := reader_u32 in
  let* oversubscribed := reader_boolean in
  let* oversubscription_ratio_per_mille := reader_u32 in
  p_ret (mkLinkCapacity link provisioned_bps available_bps utilization_bps oversubscribed
           oversubscription_ratio_per_mille).

Definition encode_capacity (value : CapacityEvidence) : list Z :=
  writer_identity (ce_generation value) ++ writer_identity (ce_topology_generation value) ++
  writer_u64 (ce_captured_monotonic_ms value) ++ writer_boolean (ce_synthetic value) ++
  writer_vector writer_link_capacity (ce_links value).

Definition decode_capacity : Reader CapacityEvidence :=
  let* generation := reader_identity in
  let* topology_generation := reader_identity in
  let* captured_monotonic_ms := reader_u64 in
  let* synthetic := reader_boolean in
  let* links := reader_vector limits.kTopologyLinksMax reader_link_capacity in
  p_ret (capacity_canonicalize
           (mkCapacityEvidence generation topology_generation links captured_monotonic_ms
              synthetic)).

Definition writer_link_congestion (entry : LinkCongestion) : list Z :=
  writer_identity (lg_link entry) ++ writer_u32 (lg_utilization_bps entry) ++
  writer_u32 (lg_queue_depth_bytes entry) ++ writer_u32 (lg_ecn_marks_per_mille entry) ++
  writer_u32 (lg_pfc_pause_per_mille entry) ++ writer_enumeration (lg_level entry).

Definition reader_link_congestion : Reader LinkCongestion :=
  let* link := reader_identity in
  let* utilization_bps := reader_u32 in
  let* queue_depth_bytes := reader_u32 in
  let* ecn_marks_per_mille := reader_u32 in
  let* pfc_pause_per_mille := reader_u32 in
  let* level := reader_enum CongestionLevel.kSevere
                  "congestion level is not defined by this version" in
  p_ret (mkLinkCongestion link utilization_bps queue_depth_bytes ecn_marks_per_mille
           pfc_pause_per_mille level).

Definition encode_congestion (value : CongestionEvidence) : list Z :=
  writer_identity (ge_generation value) ++ writer_identity (ge_topology_generation value) ++
  writer_u64 (ge_captured_monotonic_ms value) ++ writer_u64 (ge_valid_for_ms value) ++
  writer_boolean (ge_synthetic value) ++
  writer_vector writer_link_congestion (ge_links value).

Definition decode_congestion : Reader CongestionEvidence :=
  let* generation := reader_identity in
  let* topology_generation := reader_identity in
  let* captured_monotonic_ms := reader_u64 in
  let* valid_for_ms := reader_u64 in
  let* synthetic := reader_boolean in
  let* links := reader_vector limits.kTopologyLinksMax reader_link_congestion in
  p_ret (congestion_canonicalize
           (mkCongestionEvidence generation topology_generation links captured_monotonic_ms
              valid_for_ms synthetic)).

Definition writer_topology_node (node : TopologyNode) : list Z :=
  writer_identity (tn_id node) ++ writer_identity (tn_rack node) ++
  writer_boolean (tn_accelerator_attached node) ++ writer_u32 (tn_accelerator_count node).

Definition reader_topology_node : Reader TopologyNode :=
  let* id := reader_identity in
  let* rack := reader_identity in
  let* accelerator_attached := reader_boolean in
  let* accelerator_count := reader_u32 in
  p_ret (mkTopologyNode id rack accelerator_attached accelerator_count).

Definition writer_topology_link (link : TopologyLink) : list Z :=
  writer_identity (tl_id link) ++ writer_identity (tl_a link) ++ writer_identity (tl_b link) ++
  writer_enumeration (tl_link_class link) ++ writer_u64 (tl_capacity_bps link) ++
  writer_u32 (tl_lanes link) ++ writer_boolean (tl_shared_oversubscribed link).

Definition reader_topology_link : Reader TopologyLink :=
  let* id := reader_identity in
  let* a := reader_identity in
  let* b := reader_identity in
  let* link_class := reader_enum LinkClass.kOversubscribed
                       "link class is not defined by this version" in
  let* capacity_bps := reader_u64 in
  let* lanes := reader_u32 in
  let* shared_oversubscribed := reader_boolean in
  p_ret (mkTopologyLink id a b link_class capacity_bps lanes shared_oversubscribed).

Definition encode_topology (value : TopologyEvidence) : list Z :=
  writer_identity (te_generation value) ++ writer_u64 (te_captured_monotonic_ms value) ++
  writer_boolean (te_synthetic value) ++
  writer_vector writer_topology_node (te_nodes value) ++
  writer_vector writer_topology_link (te_links value).

Definition decode_topology : Reader TopologyEvidence :=
  let* generation := reader_identity in
  let* captured_monotonic_ms := reader_u64 in
  let* synthetic := reader_boolean in
  let* nodes := reader_vector limits.kTopologyNodesMax reader_topology_node in
  let* links := reader_vector limits.kTopologyLinksMax reader_topology_link in
  p_ret (topology_canonicalize
           (mkTopologyEvidence generation nodes links captured_monotonic_ms synthetic)).

(** ** Traffic policies *)

(** One bucket of the congestion response table: the two arrays are written interleaved. *)
Definition writer_bucket (table : CongestionResponseTable) (index : nat) : list Z :=
  writer_u32 (array_at (crt_utilization_bps table) index) ++
  writer_u32 (array_at (crt_rate_numerator_per_mille table) index).

Definition writer_response_table (table : CongestionResponseTable) : list Z :=
  seq 0 kBucketCount ≫= writer_bucket table.

Definition reader_bucket : Reader (Z * Z) :=
  let* utilization_bps := reader_u32 in
  let* rate_numerator_per_mille := reader_u32 in
  p_ret (utilization_bps, rate_numerator_per_mille).

Definition reader_response_table : Reader CongestionResponseTable :=
  let* buckets := p_list reader_bucket kBucketCount in
  p_ret (mkCongestionResponseTable (fst <$> buckets) (snd <$> buckets)).

Definition writer_class_policy (entry : TrafficClassPolicy) : list Z :=
  writer_enumeration (tcp_traffic_class entry) ++ writer_u64 (tcp_priority entry) ++
  writer_u64 (tcp_minimum_bandwidth_bps entry) ++
  writer_u64 (tcp_maximum_bandwidth_bps entry) ++ writer_u64 (tcp_burst_bytes entry) ++
  writer_boolean (tcp_requires_simultaneous_start entry) ++
  writer_boolean (tcp_requires_evidence_freshness entry) ++
  writer_enumeration (tcp_isolation entry).

Definition reader_class_policy : Reader TrafficClassPolicy :=
  let* traffic_class := reader_enum TrafficClass.kProbe
                          "traffic class is not defined by this version" in
  let* priority := reader_u64 in
  let* minimum_bandwidth_bps := reader_u64 in
  let* maximum_bandwidth_bps := reader_u64 in
  let* burst_bytes := reader_u64 in
  let* requires_simultaneous_start := reader_boolean in
  let* requires_evidence_freshness := reader_boolean in
  let* isolation := reader_enum IsolationMode.kDedicatedPath
                      "isolation mode is not defined by this version" in
  p_ret (mkTrafficClassPolicy traffic_class priority minimum_bandwidth_bps
           maximum_bandwidth_bps burst_bytes requires_simultaneous_start
           requires_evidence_freshness isolation).

Definition writer_collective_policy (entry : CollectiveClassPolicy) : list Z :=
  writer_enumeration (ccp_collective_class entry) ++
  writer_enumeration (ccp_traffic_class entry) ++
  writer_boolean (ccp_admit_when_unknown_semantics entry) ++
  writer_boolean (ccp_allow_member_override entry) ++
  writer_u64 (ccp_freshness_requirement_ms entry).

Definition reader_collective_policy : Reader CollectiveClassPolicy :=
  let* collective_class := reader_enum CollectiveClass.kUnknownVendor
                             "collective class is not defined by this version" in
  let* traffic_class := reader_enum TrafficClass.kProbe
                          "traffic class is not defined by this version" in
  let* admit_when_unknown_semantics := reader_boolean in
  let* allow_member_override := reader_boolean in
  let* freshness_requirement_ms := reader_u64 in
  p_ret (mkCollectiveClassPolicy collective_class traffic_class admit_when_unknown_semantics
           allow_member_override freshness_requirement_ms).

Definition encode_traffic_policy (value : TrafficPolicy) : list Z :=
  writer_identity (tp_generation value) ++
  writer_u64 (tp_default_maximum_bandwidth_bps value) ++
  writer_u64 (tp_burst_multiplier_per_mille value) ++
  writer_response_table (tp_congestion_response value) ++
  writer_vector writer_class_policy (tp_class_policies value) ++
  writer_vector writer_collective_policy (tp_collective_policies value).

Definition decode_traffic_policy : Reader TrafficPolicy :=
  let* generation := reader_identity in
  let* default_maximum_bandwidth_bps := reader_u64 in
  let* burst_multiplier_per_mille := reader_u64 in
  let* congestion_response := reader_response_table in
  let* class_policies := reader_vector 16 reader_class_policy in
  let* collective_policies := reader_vector 16 reader_collective_policy in
  p_ret (mkTrafficPolicy generation class_policies collective_policies congestion_response
           default_maximum_bandwidth_bps burst_multiplier_per_mille).

(** ** The values that fit the wire *)
Definition reason_fits (r : Reason) : Prop :=
  slen (r_code r) ≤ 128 ∧ slen (r_detail r) ≤ limits.kReasonDetailBytesMax ∧
  id_wf (r_subject r).
(** Reasons as they stand on the wire, where a code may be empty; no [ReasonChain] holds such a
    reason, see [chain_holds]. *)
Definition reason_entries_fit (l : ReasonChain) : Prop :=
  zlen l ≤ limits.kReasonChainMax ∧ Forall reason_fits l.
Definition phase_fits (p : CollectivePhase) : Prop :=
  is_u64 (cp_phase_index p) ∧ slen (cp_label p) ≤ limits.kLabelBytesMax ∧
  is_u32 (cp_step_count p).
Definition step_fits (s : CollectiveStep) : Prop :=
  is_u64 (cs_phase_index s) ∧ is_u64 (cs_step_index s).
(** Metadata entries as they stand on the wire, where a key may be repeated; no [Metadata]
    holds such entries, see [md_wf]. *)
Definition entries_fit (m : Metadata) : Prop :=
  zlen m ≤ limits.kMetadataEntriesMax ∧
  Forall (fun e => 0 < slen e.1 ≤ limits.kMetadataKeyBytesMax ∧
                   slen e.2 ≤ limits.kMetadataValueBytesMax) m.
(** What [ReasonChain::add] guarantees of a code. *)
Definition chain_holds (l : ReasonChain) : Prop := Forall (fun r => slen (r_code r) ≠ 0) l.
Definition participants_fit (l : list Identity) : Prop :=
  zlen l ≤ limits.kParticipantsMaxPerCollective ∧ Forall id_wf l.
Definition definition_fits (d : CollectiveDefinition) : Prop :=
  id_wf (cd_id d) ∧ id_wf (cd_generation d) ∧ slen (cd_label d) ≤ limits.kLabelBytesMax ∧
  id_wf (cd_origin_node d) ∧ id_wf (cd_fabric d) ∧
  (cd_participants d ≠ [] ∧ participants_fit (cd_participants d)) ∧
  (zlen (cd_phases d) ≤ limits.kPhasesMaxPerCollective ∧ Forall phase_fits (cd_phases d)) ∧
  (zlen (cd_steps d) ≤ limits.kPhasesMaxPerCollective * limits.kStepsMaxPerPhase ∧
   Forall step_fits (cd_steps d)) ∧
  entries_fit (cd_metadata d) ∧ is_u64 (cd_logical_bytes d) ∧
  is_u64 (cd_registration_sequence d).
Definition instance_fits (i : CollectiveInstance) : Prop :=
  id_wf (ci_id i) ∧ id_wf (ci_generation i) ∧ id_wf (ci_attempt i) ∧
  is_u64 (ci_attempt_sequence i).
Definition edge_fits (e : FlowEdge) : Prop :=
  id_wf (fe_source e) ∧ id_wf (fe_destination e) ∧ is_u64 (fe_logical_bytes e) ∧
  is_u64 (fe_step_index e).
Definition edges_fit (l : list FlowEdge) : Prop :=
  zlen l ≤ limits.kEdgesMaxPerFlowGroup ∧ Forall edge_fits l.
Definition plan_fits (p : FlowGroupPlan) : Prop :=
  instance_fits (fp_instance p) ∧ is_u64 (fp_plan_sequence p) ∧ edges_fit (fp_edges p).
Definition group_fits (g : FlowGroup) : Prop :=
  id_wf (fg_id g) ∧ instance_fits (fg_instance g) ∧ edges_fit (fg_edges g) ∧
  participants_fit (fg_participants g) ∧ is_u64 (fg_total_logical_bytes g) ∧
  is_u32 (fg_max_fan_out g) ∧ is_u32 (fg_max_fan_in g) ∧
  is_u32 (fg_cross_rack_edge_count g) ∧ is_u64 (fg_plan_sequence g).

(** ** Normal forms: what a decoder makes of what was written *)
Definition reason_norm (r : Reason) : Reason :=
  mkReason (if slen (r_code r) =? 0 then "unspecified" else r_code r) (r_detail r) (r_subject r).
Definition reasons_norm (l : ReasonChain) : ReasonChain := reason_norm <$> l.
(** Later values overwrite earlier ones with the same key. *)
Definition metadata_norm (m : Metadata) : Metadata := default [] (fold_add metadata_add [] m).
Definition definition_norm (d : CollectiveDefinition) : CollectiveDefinition :=
  d <| cd_metadata ::= metadata_norm |>.
Definition instance_norm (i : CollectiveInstance) : CollectiveInstance :=
  i <| ci_attempt_sequence := 0 |>.
Definition group_norm (g : FlowGroup) : FlowGroup :=
  mkFlowGroup (fg_id g) (instance_norm (fg_instance g)) (fg_collective_class g) (fg_pattern g)
    (fg_direction g) (fg_edges g) (fg_participants g) (fg_total_logical_bytes g)
    (fg_max_fan_out g) (fg_max_fan_in g) (fg_cross_rack_edge_count g)
    (fg_requires_simultaneous_start g) (fg_plan_sequence g).

(** ** Laws *)
#[export] Instance reader_reason_encodes :
  Encodes reader_reason writer_reason reason_fits (fun v => v).
Proof. encodes_record reader_reason writer_reason reason_fits. Qed.
#[export] Instance reader_reason_decodes :
  Decodes reader_reason writer_reason reason_fits (fun v => v).
Proof. decodes_record reader_reason writer_reason reason_fits. Qed.

Lemma chain_add_fits chain r :
  zlen chain < limits.kReasonChainMax → reason_fits r →
  chain_add chain r = Some (chain ++ [reason_norm r]).
Proof.
  intros Hl (_ & Hd & _). unfold chain_add, rc_add.
  rewrite (proj2 (Z.leb_gt _ _)), (proj2 (Z.ltb_ge _ _)) by done. done.
Qed.

Lemma fold_chain_add l chain :
  zlen chain + zlen l ≤ limits.kReasonChainMax → Forall reason_fits l →
  fold_add chain_add chain l = Some (chain ++ reasons_norm l).
Proof.
  revert chain. induction l as [|r l IH]; intros chain Hl Hf; [by rewrite app_nil_r|].
  apply Forall_cons in Hf as [Hr Hf]. cbn [fold_add].
  assert (zlen (r :: l) = 1 + zlen l) as El by (unfold zlen; simpl; lia).
  pose proof (zlen_nonneg l). rewrite chain_add_fits by (done || lia).
  rewrite IH; [|rewrite zlen_app; unfold zlen in *; simpl; lia|done].
  by rewrite <- app_assoc.
Qed.

#[export] Instance decode_reason_chain_encodes :
  Encodes decode_reason_chain (writer_vector writer_reason) reason_entries_fit reasons_norm.
Proof.
  intros l rest [Hl Hf]. unfold decode_reason_chain, writer_vector.
  rewrite (w32_zlen_small limits.kReasonChainMax) by (done || apply _).
  pose proof (zlen_nonneg l). rewrite <- app_assoc. run_step.
  pose proof (fold_chain_add l [] Hl Hf) as Hfold.
  etrans; [apply (fold_encodes reader_reason writer_reason reason_fits chain_add _)|by rewrite Hfold].
  split; [unfold zlen; lia|]. split; [done|]. rewrite Hfold. eauto.
Qed.
#[export] Instance decode_reason_chain_decodes :
  Decodes decode_reason_chain (writer_vector writer_reason) reason_entries_fit reasons_norm.
Proof.
  intros bs b rest Hbs Hp. unfold decode_reason_chain in Hp. inv_step Hbs Hp.
  destruct (fold_decodes reader_reason writer_reason reason_fits chain_add _ _ _ _ _ Hbs Hp)
    as (l & (Hn & Hf & _) & -> & ->).
  assert (zlen l = x) as Hx by (unfold zlen; lia). exists l.
  assert (reason_entries_fit l) as Hl by (split; [lia|done]). split; [done|].
  split; [by rewrite (fold_chain_add l [] (proj1 Hl) Hf)|]. unfold writer_vector.
  rewrite (w32_zlen_small limits.kReasonChainMax), Hx by (apply _ || lia).
  by rewrite <- app_assoc.
Qed.

#[export] Instance reader_phase_encodes :
  Encodes reader_phase writer_phase phase_fits (fun v => v).
Proof. encodes_record reader_phase writer_phase phase_fits. Qed.
#[export] Instance reader_phase_decodes :
  Decodes reader_phase writer_phase phase_fits (fun v => v).
Proof. decodes_record reader_phase writer_phase phase_fits. Qed.

#[export] Instance reader_step_encodes :
  Encodes reader_step writer_step step_fits (fun v => v).
Proof. encodes_record reader_step writer_step step_fits. Qed.
#[export] Instance reader_step_decodes :
  Decodes reader_step writer_step step_fits (fun v => v).
Proof. decodes_record reader_step writer_step step_fits. Qed.

(** ** Metadata *)
Definition entry_fits (e : string * string) : Prop :=
  slen e.1 ≤ limits.kMetadataKeyBytesMax ∧ slen e.2 ≤ limits.kMetadataValueBytesMax.

#[export] Instance reader_metadata_entry_encodes :
  Encodes reader_metadata_entry writer_metadata_entry entry_fits (fun v => v).
Proof. encodes_record reader_metadata_entry writer_metadata_entry entry_fits. Qed.
#[export] Instance reader_metadata_entry_decodes :
  Decodes reader_metadata_entry writer_metadata_entry entry_fits (fun v => v).
Proof. decodes_record reader_metadata_entry writer_metadata_entry entry_fits. Qed.

(** [set] takes a fitting entry with a key while there is room, and no entry without a key. *)
Lemma metadata_add_fits m e :
  entry_fits e → 0 < slen e.1 → zlen m < limits.kMetadataEntriesMax →
  ∃ m', metadata_add m e = Some m' ∧ zlen m' ≤ zlen m + 1.
Proof.
  intros [Hk Hv] H0 Hm. unfold metadata_add, md_set.
  rewrite (proj2 (Z.eqb_neq _ _)), !(proj2 (Z.ltb_ge _ _)) by lia. cbn [orb].
  destruct (md_overwrite m e.1 e.2) as [m'|] eqn:E.
  - exists m'. split; [done|]. apply md_overwrite_keys in E as (E & _).
    apply (f_equal length) in E. rewrite !length_fmap in E. unfold zlen. lia.
  - rewrite (proj2 (Z.leb_gt _ _)) by done. eexists. split; [done|]. by rewrite zlen_app.
Qed.

Lemma metadata_add_key m e m' : metadata_add m e = Some m' → 0 < slen e.1.
Proof.
  unfold metadata_add, md_set. destruct (slen e.1 =? 0) eqn:E; [done|]. intros _.
  bool_prop. unfold slen in *. lia.
Qed.

Lemma fold_metadata_fits m acc :
  zlen acc + zlen m ≤ limits.kMetadataEntriesMax →
  Forall (fun e => 0 < slen e.1 ≤ limits.kMetadataKeyBytesMax ∧
                   slen e.2 ≤ limits.kMetadataValueBytesMax) m →
  is_Some (fold_add metadata_add acc m).
Proof.
  revert acc. induction m as [|e m IH]; intros acc Hl Hf; [by eexists|].
  apply Forall_cons in Hf as [[[H0 Hk] Hv] Hf].
  assert (zlen (e :: m) = 1 + zlen m) as El by (unfold zlen; simpl; lia).
  pose proof (zlen_nonneg m).
  destruct (metadata_add_fits acc e) as (acc' & Ha & Hl'); [done|done|lia|].
  cbn [fold_add]. rewrite Ha. apply IH; [lia|done].
Qed.

Lemma fold_metadata_keys m acc :
  is_Some (fold_add metadata_add acc m) → Forall (fun e => 0 < slen e.1) m.
Proof.
  revert acc. induction m as [|e m IH]; intros acc Hf; [constructor|]. cbn [fold_add] in Hf.
  destruct (metadata_add acc e) eqn:Ha; [|by destruct Hf].
  constructor; [by eapply metadata_add_key | by eapply IH].
Qed.

#[export] Instance decode_metadata_encodes :
  Encodes decode_metadata (writer_vector writer_metadata_entry) entries_fit metadata_norm.
Proof.
  intros m rest [Hl Hf]. unfold decode_metadata, writer_vector.
  rewrite (w32_zlen_small limits.kMetadataEntriesMax) by (done || apply _).
  pose proof (zlen_nonneg m). rewrite <- app_assoc. run_step.
  apply (fold_encodes reader_metadata_entry writer_metadata_entry entry_fits metadata_add _).
  split; [unfold zlen; lia|]. split; [|by apply fold_metadata_fits].
  eapply Forall_impl; [exact Hf|]. intros e [[_ ?] ?]. by split.
Qed.
#[export] Instance decode_metadata_decodes :
  Decodes decode_metadata (writer_vector writer_metadata_entry) entries_fit metadata_norm.
Proof.
  intros bs b rest Hbs Hp. unfold decode_metadata in Hp. inv_step Hbs Hp.
  destruct (fold_decodes reader_metadata_entry writer_metadata_entry entry_fits metadata_add
    _ _ _ _ _ Hbs Hp) as (m & (Hn & Hf & Hs) & -> & ->).
  assert (zlen m = x) as Hx by (unfold zlen; lia). exists m.
  apply fold_metadata_keys in Hs. split; [|split; [done|]].
  - split; [lia|]. rewrite Forall_forall in Hf, Hs |- *. intros e He.
    destruct (Hf e He). specialize (Hs e He). done.
  - unfold writer_vector.
    rewrite (w32_zlen_small limits.kMetadataEntriesMax), Hx by (apply _ || lia).
    by rewrite <- app_assoc.
Qed.

(** Metadata that [set] built, with every key once, is its own normal form. *)
Lemma fold_metadata_nodup m acc :
  NoDup (fst <$> acc ++ m) → zlen acc + zlen m ≤ limits.kMetadataEntriesMax →
  Forall (fun e => 0 < slen e.1 ≤ limits.kMetadataKeyBytesMax ∧
                   slen e.2 ≤ limits.kMetadataValueBytesMax) m →
  fold_add metadata_add acc m = Some (acc ++ m).
Proof.
  revert acc. induction m as [|e m IH]; intros acc Hn Hl Hf; [by rewrite app_nil_r|].
  apply Forall_cons in Hf as [[[H0 Hk] Hv] Hf].
  assert (zlen (e :: m) = 1 + zlen m) as El by (unfold zlen; simpl; lia).
  pose proof (zlen_nonneg m). cbn [fold_add].
  assert (metadata_add acc e = Some (acc ++ [e])) as ->.
  { unfold metadata_add, md_set.
    rewrite (proj2 (Z.eqb_neq _ _)), !(proj2 (Z.ltb_ge _ _)) by lia. cbn [orb].
    destruct (md_overwrite acc e.1 e.2) as [m'|] eqn:E.
    - apply md_overwrite_keys in E as (_ & Hin & _). exfalso.
      rewrite fmap_app, NoDup_app in Hn. destruct Hn as (_ & Hn & _).
      apply (Hn _ Hin). cbn. left.
    - rewrite (proj2 (Z.leb_gt _ _)) by lia. by destruct e. }
  rewrite IH; [by rewrite <- app_assoc|by rewrite <- app_assoc|rewrite zlen_app|done].
  unfold zlen in *. simpl. lia.
Qed.

Lemma metadata_norm_wf m : md_wf m → metadata_norm m = m.
Proof.
  intros (Hn & Hl & Hf). unfold metadata_norm.
  by rewrite fold_metadata_nodup by done.
Qed.

(** ** Definitions, plans and groups *)
#[export] Instance decode_participants_encodes :
  Encodes decode_participants (writer_vector writer_identity)
    (fun l => l ≠ [] ∧ participants_fit l) (fun l => l).
Proof.
  intros l rest (Hne & Hl & Hf). unfold decode_participants, writer_vector.
  rewrite (w32_zlen_small limits.kParticipantsMaxPerCollective) by (done || apply _).
  pose proof (zlen_nonneg l). apply zlen_nil_iff in Hne. rewrite <- app_assoc. run_step.
  rewrite Hne. apply (list_encodes reader_identity writer_identity id_wf).
  split; [unfold zlen; lia|done].
Qed.
#[export] Instance decode_participants_decodes :
  Decodes decode_participants (writer_vector writer_identity)
    (fun l => l ≠ [] ∧ participants_fit l) (fun l => l).
Proof.
  intros bs b rest Hbs Hp. unfold decode_participants in Hp. do 2 inv_step Hbs Hp.
  destruct (list_decodes reader_identity writer_identity id_wf _ _ _ _ Hbs Hp)
    as (l & (Hn & Hf) & -> & ->).
  assert (zlen l = x) as Hx by (unfold zlen; lia). exists l. split; [|split; [done|]].
  - split; [by apply zlen_nil_iff; rewrite Hx|]. split; [lia|done].
  - unfold writer_vector.
    rewrite (w32_zlen_small limits.kParticipantsMaxPerCollective), Hx by (apply _ || lia).
    by rewrite <- app_assoc.
Qed.

#[export] Instance decode_definition_encodes :
  Encodes decode_definition encode_definition definition_fits definition_norm.
Proof. encodes_record decode_definition encode_definition definition_fits. Qed.
#[export] Instance decode_definition_decodes :
  Decodes decode_definition encode_definition definition_fits definition_norm.
Proof.
  decodes_record decode_definition encode_definition definition_fits
    as (mkCollectiveDefinition _ _ _ _ _ _ _ _ _ _ _ _ _ _ _).
Qed.

#[export] Instance reader_edge_encodes : Encodes reader_edge writer_edge edge_fits (fun v => v).
Proof. encodes_record reader_edge writer_edge edge_fits. Qed.
#[export] Instance reader_edge_decodes : Decodes reader_edge writer_edge edge_fits (fun v => v).
Proof. decodes_record reader_edge writer_edge edge_fits. Qed.

#[export] Instance decode_flow_group_plan_encodes :
  Encodes decode_flow_group_plan encode_flow_group_plan plan_fits (fun v => v).
Proof.
  intros v rest Hv. unfold plan_fits, instance_fits, edges_fit in Hv. destruct_and? Hv.
  unfold decode_flow_group_plan, encode_flow_group_plan. run_fields. by destruct v as [[] ].
Qed.
#[export] Instance decode_flow_group_plan_decodes :
  Decodes decode_flow_group_plan encode_flow_group_plan plan_fits (fun v => v).
Proof. decodes_record decode_flow_group_plan encode_flow_group_plan plan_fits. Qed.

#[export] Instance decode_flow_group_encodes :
  Encodes decode_flow_group encode_flow_group group_fits group_norm.
Proof.
  intros v rest Hv. unfold group_fits, instance_fits, edges_fit, participants_fit in Hv.
  destruct_and? Hv. unfold decode_flow_group, encode_flow_group. run_fields.
  by destruct v as [? [] ].
Qed.
#[export] Instance decode_flow_group_decodes :
  Decodes decode_flow_group encode_flow_group group_fits group_norm.
Proof.
  decodes_record decode_flow_group encode_flow_group group_fits
    as (mkFlowGroup _ (mkCollectiveInstance _ _ _ 0) _ _ _ _ _ _ _ _ _ _ _).
Qed.

(** ** Requests and decisions *)
Definition request_fits (r : DecisionRequest) : Prop :=
  id_wf (dr_session r) ∧ instance_fits (dr_instance r) ∧
  id_wf (dr_observed_topology_generation r) ∧ id_wf (dr_observed_policy_generation r) ∧
  id_wf (dr_observed_epoch r) ∧ id_wf (dr_observed_capacity_generation r) ∧
  id_wf (dr_observed_congestion_generation r) ∧
  (if dr_has_flow_group_plan r then plan_fits (dr_plan r) else True) ∧
  is_u64 (dr_requested_transfer_bytes r).
Definition request_norm (r : DecisionRequest) : DecisionRequest :=
  r <| dr_plan := if dr_has_flow_group_plan r then dr_plan r else plan_default |>.

#[export] Instance decode_decision_request_encodes :
  Encodes decode_decision_request encode_decision_request request_fits request_norm.
Proof.
  intros v rest Hv. unfold request_fits, instance_fits in Hv. destruct_and? Hv.
  unfold decode_decision_request, encode_decision_request. run_fields.
  by destruct v as [? [] ].
Qed.
#[export] Instance decode_decision_request_decodes :
  Decodes decode_decision_request encode_decision_request request_fits request_norm.
Proof.
  decodes_record decode_decision_request encode_decision_request request_fits
    as (mkDecisionRequest _ (mkCollectiveInstance _ _ _ _) _ _ _ _ _ _ _ _ _ _).
Qed.

(** A code as [static_cast] represents it, within the bound the decoder checks. *)
Definition code_fits (c : ErrorCode) : Prop :=
  0 ≤ ErrorCode.error_raw c ≤ ErrorCode.error_raw ErrorCode.kInternalUnsupported ∧
  error_cast (ErrorCode.error_raw c) = c.

Lemma error_raw_cast raw : ErrorCode.error_raw (error_cast raw) = raw.
Proof.
  unfold error_cast. destruct (find_first _ _) as [c|] eqn:E; [|done].
  apply find_first_Some in E as [_ E]. by apply Z.eqb_eq.
Qed.

#[export] Instance reader_error_code_encodes :
  Encodes reader_error_code writer_error_code code_fits (fun v => v).
Proof.
  intros c rest [Hr Hc]. unfold reader_error_code, writer_error_code.
  assert (ErrorCode.error_raw ErrorCode.kInternalUnsupported < 2 ^ 32) by done.
  run_fields. by rewrite Hc.
Qed.
#[export] Instance reader_error_code_decodes :
  Decodes reader_error_code writer_error_code code_fits (fun v => v).
Proof.
  intros bs b rest Hbs Hp. unfold reader_error_code in Hp. inv_fields Hbs Hp. bool_prop.
  unfold is_u32 in *. exists (error_cast x). unfold code_fits, writer_error_code.
  rewrite error_raw_cast. split_and!; (reflexivity || lia).
Qed.

Definition pacing_fits (p : PacingIntent) : Prop :=
  is_u64 (pi_admitted_bandwidth_bps p) ∧ is_u64 (pi_ceiling_bandwidth_bps p) ∧
  is_u64 (pi_burst_bytes p) ∧ is_u64 (pi_utilization_bps p) ∧
  is_u64 (pi_release_after_monotonic_ms p).
Definition pacing_norm (flow_group : Identity) (instance : CollectiveInstance)
    (p : PacingIntent) : PacingIntent :=
  mkPacingIntent (pi_mode p) flow_group (instance_norm instance) (pi_admitted_bandwidth_bps p)
    (pi_ceiling_bandwidth_bps p) (pi_burst_bytes p) (pi_utilization_bps p)
    (pi_release_after_monotonic_ms p) id_none.

#[export] Instance reader_pacing_encodes flow_group instance :
  Encodes reader_pacing (writer_pacing flow_group instance)
    (fun p => id_wf flow_group ∧ instance_fits instance ∧ pacing_fits p)
    (pacing_norm flow_group instance).
Proof.
  intros v rest Hv. unfold instance_fits, pacing_fits in Hv. destruct_and? Hv.
  unfold reader_pacing, writer_pacing. run_fields. by destruct instance.
Qed.

Definition sync_fits (s : SyncSensitivity) : Prop :=
  is_u32 (ss_barrier_member_count s) ∧ is_u64 (ss_maximum_skew_micros s).
#[export] Instance reader_sync_encodes : Encodes reader_sync writer_sync sync_fits (fun v => v).
Proof. encodes_record reader_sync writer_sync sync_fits. Qed.

Definition record_fits (r : DecisionRecord) : Prop :=
  instance_fits (de_instance r) ∧ code_fits (de_code r) ∧ id_wf (de_flow_group r) ∧
  group_fits (de_group r) ∧ participants_fit (de_participants r) ∧ is_u64 (de_priority r) ∧
  pacing_fits (de_pacing r) ∧ sync_fits (de_sync r) ∧ id_wf (de_collective_generation r) ∧
  id_wf (de_topology_generation r) ∧ id_wf (de_policy_generation r) ∧
  id_wf (de_capacity_generation r) ∧ id_wf (de_congestion_generation r) ∧
  id_wf (de_epoch r) ∧ is_u64 (de_phase_index r) ∧ is_u64 (de_step_index r) ∧
  reason_entries_fit (de_reasons r) ∧ is_u64 (de_decided_monotonic_ms r) ∧
  is_u64 (de_decision_sequence r).

(** What a record looks like on the other side: the attempt sequences of its group and of its
    pacing intent are gone, and the intent names the record's flow group and instance. *)
Definition record_norm (r : DecisionRecord) : DecisionRecord :=
  r <| de_group ::= group_norm |>
    <| de_pacing ::= pacing_norm (de_flow_group r) (de_instance r) |>
    <| de_reasons ::= reasons_norm |>.

Definition writer_decision_record (value : DecisionRecord) : list Z :=
  writer_decision_head value ++ writer_vector writer_reason (de_reasons value) ++
  writer_u64 (de_decided_monotonic_ms value) ++ writer_u64 (de_decision_sequence value).

Lemma encode_decision_record_fits v :
  record_fits v → encode_decision_record v = Ok (writer_decision_record v).
Proof.
  intros Hv. unfold record_fits, reason_entries_fit in Hv. destruct_and? Hv.
  unfold encode_decision_record, encode_reason_chain.
  by rewrite (proj2 (Z.ltb_ge _ _)) by done.
Qed.

#[export] Instance decode_decision_record_encodes :
  Encodes decode_decision_record writer_decision_record record_fits record_norm.
Proof.
  intros v rest Hv. unfold record_fits, participants_fit in Hv. destruct_and? Hv.
  assert (Hi := H). unfold instance_fits in Hi. destruct_and? Hi.
  unfold decode_decision_record, writer_decision_record, writer_decision_head. run_fields.
  by destruct v as [[] ].
Qed.

(** ** Evidence *)
Definition link_capacity_fits (l : LinkCapacity) : Prop :=
  id_wf (lc_link l) ∧ is_u64 (lc_provisioned_bps l) ∧ is_u64 (lc_available_bps l) ∧
  is_u32 (lc_utilization_bps l) ∧ is_u32 (lc_oversubscription_ratio_per_mille l).
Definition capacity_fits (c : CapacityEvidence) : Prop :=
  id_wf (ce_generation c) ∧ id_wf (ce_topology_generation c) ∧
  is_u64 (ce_captured_monotonic_ms c) ∧
  zlen (ce_links c) ≤ limits.kTopologyLinksMax ∧ Forall link_capacity_fits (ce_links c).
Definition link_congestion_fits (l : LinkCongestion) : Prop :=
  id_wf (lg_link l) ∧ is_u32 (lg_utilization_bps l) ∧ is_u32 (lg_queue_depth_bytes l) ∧
  is_u32 (lg_ecn_marks_per_mille l) ∧ is_u32 (lg_pfc_pause_per_mille l).
Definition congestion_fits (c : CongestionEvidence) : Prop :=
  id_wf (ge_generation c) ∧ id_wf (ge_topology_generation c) ∧
  is_u64 (ge_captured_monotonic_ms c) ∧ is_u64 (ge_valid_for_ms c) ∧
  zlen (ge_links c) ≤ limits.kTopologyLinksMax ∧ Forall link_congestion_fits (ge_links c).
Definition node_fits (n : TopologyNode) : Prop :=
  id_wf (tn_id n) ∧ id_wf (tn_rack n) ∧ is_u32 (tn_accelerator_count n).
Definition link_fits (l : TopologyLink) : Prop :=
  id_wf (tl_id l) ∧ id_wf (tl_a l) ∧ id_wf (tl_b l) ∧ is_u64 (tl_capacity_bps l) ∧
  is_u32 (tl_lanes l).
Definition topology_fits (t : TopologyEvidence) : Prop :=
  id_wf (te_generation t) ∧ is_u64 (te_captured_monotonic_ms t) ∧
  (zlen (te_nodes t) ≤ limits.kTopologyNodesMax ∧ Forall node_fits (te_nodes t)) ∧
  (zlen (te_links t) ≤ limits.kTopologyLinksMax ∧ Forall link_fits (te_links t)).

#[export] Instance reader_link_capacity_encodes :
  Encodes reader_link_capacity writer_link_capacity link_capacity_fits (fun v => v).
Proof. encodes_record reader_link_capacity writer_link_capacity link_capacity_fits. Qed.
#[export] Instance reader_link_capacity_decodes :
  Decodes reader_link_capacity writer_link_capacity link_capacity_fits (fun v => v).
Proof. decodes_record reader_link_capacity writer_link_capacity link_capacity_fits. Qed.
#[export] Instance decode_capacity_encodes :
  Encodes decode_capacity encode_capacity capacity_fits capacity_canonicalize.
Proof. encodes_record decode_capacity encode_capacity capacity_fits. Qed.
#[export] Instance decode_capacity_decodes :
  Decodes decode_capacity encode_capacity capacity_fits capacity_canonicalize.
Proof.
  decodes_record decode_capacity encode_capacity capacity_fits as (mkCapacityEvidence _ _ _ _ _).
Qed.

#[export] Instance reader_link_congestion_encodes :
  Encodes reader_link_congestion writer_link_congestion link_congestion_fits (fun v => v).
Proof. encodes_record reader_link_congestion writer_link_congestion link_congestion_fits. Qed.
#[export] Instance reader_link_congestion_decodes :
  Decodes reader_link_congestion writer_link_congestion link_congestion_fits (fun v => v).
Proof. decodes_record reader_link_congestion writer_link_congestion link_congestion_fits. Qed.
#[export] Instance decode_congestion_encodes :
  Encodes decode_congestion encode_congestion congestion_fits congestion_canonicalize.
Proof. encodes_record decode_congestion encode_congestion congestion_fits. Qed.
#[export] Instance decode_congestion_decodes :
  Decodes decode_congestion encode_congestion congestion_fits congestion_canonicalize.
Proof.
  decodes_record decode_congestion encode_congestion congestion_fits
    as (mkCongestionEvidence _ _ _ _ _ _).
Qed.

#[export] Instance reader_topology_node_encodes :
  Encodes reader_topology_node writer_topology_node node_fits (fun v => v).
Proof. encodes_record reader_topology_node writer_topology_node node_fits. Qed.
#[export] Instance reader_topology_node_decodes :
  Decodes reader_topology_node writer_topology_node node_fits (fun v => v).
Proof. decodes_record reader_topology_node writer_topology_node node_fits. Qed.
#[export] Instance reader_topology_link_encodes :
  Encodes reader_topology_link writer_topology_link link_fits (fun v => v).
Proof. encodes_record reader_topology_link writer_topology_link link_fits. Qed.
#[export] Instance reader_topology_link_decodes :
  Decodes reader_topology_link writer_topology_link link_fits (fun v => v).
Proof. decodes_record reader_topology_link writer_topology_link link_fits. Qed.
#[export] Instance decode_topology_encodes :
  Encodes decode_topology encode_topology topology_fits topology_canonicalize.
Proof. encodes_record decode_topology encode_topology topology_fits. Qed.
#[export] Instance decode_topology_decodes :
  Decodes decode_topology encode_topology topology_fits topology_canonicalize.
Proof.
  decodes_record decode_topology encode_topology topology_fits as (mkTopologyEvidence _ _ _ _ _).
Qed.

(** ** Policies *)
Definition table_fits (t : CongestionResponseTable) : Prop :=
  length (crt_utilization_bps t) = kBucketCount ∧
  length (crt_rate_numerator_per_mille t) = kBucketCount ∧
  Forall is_u32 (crt_utilization_bps t) ∧ Forall is_u32 (crt_rate_numerator_per_mille t).
Definition class_policy_fits (p : TrafficClassPolicy) : Prop :=
  is_u64 (tcp_priority p) ∧ is_u64 (tcp_minimum_bandwidth_bps p) ∧
  is_u64 (tcp_maximum_bandwidth_bps p) ∧ is_u64 (tcp_burst_bytes p).
Definition collective_policy_fits (p : CollectiveClassPolicy) : Prop :=
  is_u64 (ccp_freshness_requirement_ms p).
Definition policy_fits (p : TrafficPolicy) : Prop :=
  id_wf (tp_generation p) ∧ is_u64 (tp_default_maximum_bandwidth_bps p) ∧
  is_u64 (tp_burst_multiplier_per_mille p) ∧ table_fits (tp_congestion_response p) ∧
  (zlen (tp_class_policies p) ≤ 16 ∧ Forall class_policy_fits (tp_class_policies p)) ∧
  (zlen (tp_collective_policies p) ≤ 16 ∧
   Forall collective_policy_fits (tp_collective_policies p)).

Definition writer_bucket_pair (b : Z * Z) : list Z := writer_u32 b.1 ++ writer_u32 b.2.
Definition bucket_pair_fits (b : Z * Z) : Prop := is_u32 b.1 ∧ is_u32 b.2.

#[export] Instance reader_bucket_encodes :
  Encodes reader_bucket writer_bucket_pair bucket_pair_fits (fun v => v).
Proof. encodes_record reader_bucket writer_bucket_pair bucket_pair_fits. Qed.
#[export] Instance reader_bucket_decodes :
  Decodes reader_bucket writer_bucket_pair bucket_pair_fits (fun v => v).
Proof. decodes_record reader_bucket writer_bucket_pair bucket_pair_fits. Qed.

(** The interleaved loop writes the pairs of the two arrays. *)
Lemma writer_response_table_pairs l :
  length l = kBucketCount →
  writer_response_table (mkCongestionResponseTable l.*1 l.*2) = l ≫= writer_bucket_pair.
Proof. intros Hl. by destruct l as [|? [|? [|? [|? [|? []]]]]]. Qed.

Lemma table_pairs t : table_fits t → ∃ l,
  t = mkCongestionResponseTable l.*1 l.*2 ∧ length l = kBucketCount ∧ Forall bucket_pair_fits l.
Proof.
  destruct t as [us rs]. intros (Hu & Hr & Fu & Fr). cbn in *. exists (zip us rs).
  rewrite fst_zip, snd_zip by lia. split; [done|]. rewrite length_zip_with, Hu, Hr.
  split; [done|]. apply Forall_forall. intros [u r] Hin.
  split; [eapply (proj1 (Forall_forall _ _) Fu) | eapply (proj1 (Forall_forall _ _) Fr)].
  - by eapply elem_of_zip_l.
  - by eapply elem_of_zip_r.
Qed.

#[export] Instance reader_response_table_encodes :
  Encodes reader_response_table writer_response_table table_fits (fun v => v).
Proof.
  intros t rest (l & -> & Hl & Hf)%table_pairs. rewrite writer_response_table_pairs by done.
  unfold reader_response_table. by run_fields.
Qed.
#[export] Instance reader_response_table_decodes :
  Decodes reader_response_table writer_response_table table_fits (fun v => v).
Proof.
  intros bs b rest Hbs Hp. unfold reader_response_table in Hp. inv_fields Hbs Hp.
  destruct_and?. eexists. split; [|split; [reflexivity|]].
  - unfold table_fits. cbn. rewrite !length_fmap, !Forall_fmap.
    split_and!; try done; (eapply Forall_impl; [eassumption|]); by intros [] [].
  - by rewrite writer_response_table_pairs.
Qed.

#[export] Instance reader_class_policy_encodes :
  Encodes reader_class_policy writer_class_policy class_policy_fits (fun v => v).
Proof. encodes_record reader_class_policy writer_class_policy class_policy_fits. Qed.
#[export] Instance reader_class_policy_decodes :
  Decodes reader_class_policy writer_class_policy class_policy_fits (fun v => v).
Proof. decodes_record reader_class_policy writer_class_policy class_policy_fits. Qed.
#[export] Instance reader_collective_policy_encodes :
  Encodes reader_collective_policy writer_collective_policy collective_policy_fits (fun v => v).
Proof.
  encodes_record reader_collective_policy writer_collective_policy collective_policy_fits.
Qed.
#[export] Instance reader_collective_policy_decodes :
  Decodes reader_collective_policy writer_collective_policy collective_policy_fits (fun v => v).
Proof.
  decodes_record reader_collective_policy writer_collective_policy collective_policy_fits.
Qed.
#[export] Instance decode_traffic_policy_encodes :
  Encodes decode_traffic_policy encode_traffic_policy policy_fits (fun v => v).
Proof. encodes_record decode_traffic_policy encode_traffic_policy policy_fits. Qed.
#[export] Instance decode_traffic_policy_decodes :
  Decodes decode_traffic_policy encode_traffic_policy policy_fits (fun v => v).
Proof. decodes_record decode_traffic_policy encode_traffic_policy policy_fits. Qed.
