(* ===== verification/Messages.v ===== *)
(** The messages of the wire protocol: the payload structures of [include/ctf/protocol.hpp] and
    their codecs in [src/protocol_messages.cpp].

    A message decoder is [decode_one] of the function that reads the fields: it accepts a
    payload only when it consumed it to the last byte.  [Message] collects the payloads by
    frame kind, so that the round trip, canonicality and the refusal of cut or extended
    payloads are each stated once for the whole protocol. *)
From S2P Require Import Prelude Identity Errors Participant Collective FlowGroup Traffic.
From S2P Require Import Evidence Sync Decision Codec Checksum Protocol WireData Authority.

(** ** Payload structures *)
Module EvidenceKindTag.
Inductive EvidenceKindTag := kNone | kCapacity | kCongestion | kTopology | kPolicy.
Definition EvidenceKindTag_raw (v : EvidenceKindTag) : Z :=
  match v with kNone => 0 | kCapacity => 1 | kCongestion => 2 | kTopology => 3 | kPolicy => 4 end.
#[global] Instance EvidenceKindTag_eq_dec : EqDecision EvidenceKindTag.
Proof. solve_decision. Defined.
#[global, refine] Instance EvidenceKindTag_enum : WireEnum EvidenceKindTag :=
  {| enum_raw := EvidenceKindTag_raw;
     enum_all := [kNone; kCapacity; kCongestion; kTopology; kPolicy] |}.
Proof. by intros []. Defined.
End EvidenceKindTag.
Abbreviation EvidenceKindTag := EvidenceKindTag.EvidenceKindTag.
#[export] Instance EvidenceKindTag_inhabited : Inhabited EvidenceKindTag :=
  populate EvidenceKindTag.kNone.

Record HelloPayload := mkHelloPayload {
  hp_client_label : string;
  hp_client_version : string;
  hp_client_boot_monotonic_ms : Z;
}.

Record HelloAckPayload := mkHelloAckPayload {
  ha_session : Identity;
  ha_incarnation : Identity;
  ha_epoch : Identity;
  ha_policy_generation : Identity;
  ha_topology_generation : Identity;
  ha_capacity_generation : Identity;
  ha_congestion_generation : Identity;
  ha_max_frame_payload_bytes : Z;
  ha_coordinator_label : string;
}.

Record HeartbeatPayload := mkHeartbeatPayload {
  hb_participant : Identity;
  hb_incarnation : Identity;
  hb_state : ParticipantState;
  hb_node : Identity;
  hb_client_clock_ms : Z;
}.

Record HeartbeatAckPayload := mkHeartbeatAckPayload {
  hk_participant : Identity;
  hk_incarnation : Identity;
  hk_state : ParticipantState;
  hk_expires_at_monotonic_ms : Z;
  hk_accepted : bool;
  hk_reasons : ReasonChain;
}.
#[export] Instance HeartbeatAckPayload_eta : Eta HeartbeatAckPayload :=
  fun r => mkHeartbeatAckPayload (hk_participant r) (hk_incarnation r) (hk_state r)
  (hk_expires_at_monotonic_ms r) (hk_accepted r) (hk_reasons r).

Record RegisterCollectivePayload := mkRegisterCollectivePayload { rp_definition : CollectiveDefinition }.

Record RegisterAckPayload := mkRegisterAckPayload {
  ra_id : Identity;
  ra_generation : Identity;
  ra_result : Z;
  ra_registration_sequence : Z;
  ra_reasons : ReasonChain;
}.
#[export] Instance RegisterAckPayload_eta : Eta RegisterAckPayload :=
  fun r => mkRegisterAckPayload (ra_id r) (ra_generation r) (ra_result r)
  (ra_registration_sequence r) (ra_reasons r).

Record BeginAttemptPayload := mkBeginAttemptPayload {
  ba_id : Identity;
  ba_generation : Identity;
  ba_attempt : Identity;
  ba_transfer_bytes : Z;
}.

Record AttemptAckPayload := mkAttemptAckPayload {
  aa_id : Identity;
  aa_attempt : Identity;
  aa_previous_attempt : Identity;
  aa_state : CollectiveState;
  aa_reasons : ReasonChain;
}.
#[export] Instance AttemptAckPayload_eta : Eta AttemptAckPayload :=
  fun r => mkAttemptAckPayload (aa_id r) (aa_attempt r) (aa_previous_attempt r) (aa_state r)
  (aa_reasons r).

Record PlanFlowGroupPayload := mkPlanFlowGroupPayload { pp_request : DecisionRequest }.

Record DecisionPayload := mkDecisionPayload { dp_decision : DecisionRecord }.

Record LifecyclePayload := mkLifecyclePayload {
  lp_id : Identity;
  lp_generation : Identity;
  lp_attempt : Identity;
  lp_reason : string;
}.

Record LifecycleAckPayload := mkLifecycleAckPayload {
  la_id : Identity;
  la_state : CollectiveState;
  la_reasons : ReasonChain;
}.
#[export] Instance LifecycleAckPayload_eta : Eta LifecycleAckPayload :=
  fun r => mkLifecycleAckPayload (la_id r) (la_state r) (la_reasons r).

Record InstallPolicyPayload := mkInstallPolicyPayload { ip_policy : TrafficPolicy }.

Record InstallPolicyAckPayload := mkInstallPolicyAckPayload {
  ik_generation : Identity;
  ik_result : Z;
  ik_reasons : ReasonChain;
}.
#[export] Instance InstallPolicyAckPayload_eta : Eta InstallPolicyAckPayload :=
  fun r => mkInstallPolicyAckPayload (ik_generation r) (ik_result r) (ik_reasons r).

Record EvidencePayload := mkEvidencePayload {
  ey_kind : EvidenceKindTag;
  ey_capacity : CapacityEvidence;
  ey_congestion : CongestionEvidence;
  ey_topology : TopologyEvidence;
  ey_policy : TrafficPolicy;
}.
#[export] Instance EvidencePayload_eta : Eta EvidencePayload :=
  fun r => mkEvidencePayload (ey_kind r) (ey_capacity r) (ey_congestion r) (ey_topology r)
    (ey_policy r).

Record EvidenceAckPayload := mkEvidenceAckPayload {
  ea_kind : EvidenceKindTag;
  ea_result : Z;
  ea_generation : Identity;
  ea_reasons : ReasonChain;
}.
#[export] Instance EvidenceAckPayload_eta : Eta EvidenceAckPayload :=
  fun r => mkEvidenceAckPayload (ea_kind r) (ea_result r) (ea_generation r) (ea_reasons r).

Record InspectRequestPayload := mkInspectRequestPayload {
  iq_subject : Z;
  iq_id : Identity;
  iq_offset : Z;
  iq_limit : Z;
}.

Record InspectResponsePayload := mkInspectResponsePayload {
  ir_subject : Z;
  ir_body : string;
  ir_truncated : bool;
}.

Record ExplainRequestPayload := mkExplainRequestPayload {
  xq_id : Identity;
  xq_attempt : Identity;
  xq_correlation : Z;
  xq_has_correlation : bool;
}.

Record ExplainResponsePayload := mkExplainResponsePayload {
  xr_found : bool;
  xr_decision : DecisionRecord;
  xr_explanation : string;
}.
#[export] Instance ExplainResponsePayload_eta : Eta ExplainResponsePayload :=
  fun r => mkExplainResponsePayload (xr_found r) (xr_decision r) (xr_explanation r).

Record ErrorPayload := mkErrorPayload {
  ep_code : ErrorCode;
  ep_message : string;
  ep_reasons : ReasonChain;
}.
#[export] Instance ErrorPayload_eta : Eta ErrorPayload :=
  fun r => mkErrorPayload (ep_code r) (ep_message r) (ep_reasons r).

(** ** The shape of a message codec *)
Definition decode_one {A} (decode : Reader A) (data : list Z) : Result A :=
  match decode data with
  | inl status => Fail status
  | inr (value, rest) =>
      let status := require_end rest in
      if is_ok status then Ok value else Fail status
  end.

(** [encode_reason_chain] into the writer, the one step of an acknowledgement that can fail. *)
Definition with_reasons (fields : list Z) (reasons : ReasonChain) : Result (list Z) :=
  let? chain := encode_reason_chain reasons in
  Ok (fields ++ chain).

Definition reader_evidence_tag : Reader EvidenceKindTag :=
  let* raw := reader_u8 in
  if enum_raw EvidenceKindTag.kPolicy <? raw then
    p_fail (mkStatus ErrorCode.kDecodeInvalidTag "evidence kind is not defined by this version")
  else p_ret (enum_cast raw).

(** ** Message codecs *)
Definition encode_hello (value : HelloPayload) : Result (list Z) :=
  Ok (writer_string (hp_client_label value) ++ writer_string (hp_client_version value) ++
      writer_u64 (hp_client_boot_monotonic_ms value)).

Definition reader_hello : Reader HelloPayload :=
  let* client_label := reader_string limits.kLabelBytesMax in
  let* client_version := reader_string limits.kLabelBytesMax in
  let* client_boot_monotonic_ms := reader_u64 in
  p_ret (mkHelloPayload client_label client_version client_boot_monotonic_ms).

Definition decode_hello : list Z → Result HelloPayload := decode_one reader_hello.

Definition encode_hello_ack (value : HelloAckPayload) : Result (list Z) :=
  Ok (writer_identity (ha_session value) ++ writer_identity (ha_incarnation value) ++
      writer_identity (ha_epoch value) ++ writer_identity (ha_policy_generation value) ++
      writer_identity (ha_topology_generation value) ++
      writer_identity (ha_capacity_generation value) ++
      writer_identity (ha_congestion_generation value) ++
      writer_u32 (ha_max_frame_payload_bytes value) ++ writer_string (ha_coordinator_label value)).

Definition reader_hello_ack : Reader HelloAckPayload :=
  let* session := reader_identity in
  let* incarnation := reader_identity in
  let* epoch := reader_identity in
  let* policy_generation := reader_identity in
  let* topology_generation := reader_identity in
  let* capacity_generation := reader_identity in
  let* congestion_generation := reader_identity in
  let* max_frame_payload_bytes := reader_u32 in
  if limits.kFramePayloadMaxBytes <? max_frame_payload_bytes then
    p_fail (mkStatus ErrorCode.kDecodeLengthOutOfRange "peer advertised an unsupported frame size")
  else
  let* coordinator_label := reader_string limits.kLabelBytesMax in
  p_ret (mkHelloAckPayload session incarnation epoch policy_generation topology_generation
  capacity_generation congestion_generation max_frame_payload_bytes coordinator_label).

Definition decode_hello_ack : list Z → Result HelloAckPayload := decode_one reader_hello_ack.

Definition encode_heartbeat (value : HeartbeatPayload) : Result (list Z) :=
  Ok (writer_identity (hb_participant value) ++ writer_identity (hb_incarnation value) ++
      writer_enumeration (hb_state value) ++ writer_identity (hb_node value) ++
      writer_u64 (hb_client_clock_ms value)).

Definition reader_heartbeat : Reader HeartbeatPayload :=
  let* participant := reader_identity in
  let* incarnation := reader_identity in
  let* state := reader_enum ParticipantState.kRetired
      "participant state is not defined by this version" in
  let* node := reader_identity in
  let* client_clock_ms := reader_u64 in
  p_ret (mkHeartbeatPayload participant incarnation state node client_clock_ms).

Definition decode_heartbeat : list Z → Result HeartbeatPayload := decode_one reader_heartbeat.

Definition encode_heartbeat_ack (value : HeartbeatAckPayload) : Result (list Z) :=
  with_reasons
    (writer_identity (hk_participant value) ++ writer_identity (hk_incarnation value) ++
     writer_enumeration (hk_state value) ++ writer_u64 (hk_expires_at_monotonic_ms value) ++
     writer_boolean (hk_accepted value))
    (hk_reasons value).

Definition reader_heartbeat_ack : Reader HeartbeatAckPayload :=
  let* participant := reader_identity in
  let* incarnation := reader_identity in
  let* state := reader_enum ParticipantState.kRetired
      "participant state is not defined by this version" in
  let* expires_at_monotonic_ms := reader_u64 in
  let* accepted := reader_boolean in
  let* reasons := decode_reason_chain in
  p_ret (mkHeartbeatAckPayload participant incarnation state expires_at_monotonic_ms accepted
  reasons).

Definition decode_heartbeat_ack : list Z → Result HeartbeatAckPayload := decode_one reader_heartbeat_ack.

Definition encode_register_collective (value : RegisterCollectivePayload) : Result (list Z) :=
  Ok (encode_definition (rp_definition value)).

Definition reader_register_collective : Reader RegisterCollectivePayload :=
  let* definition := decode_definition in
  p_ret (mkRegisterCollectivePayload definition).

(** [std::adjacent_find(first, last, same) != last] *)
Fixpoint adjacent_find {A} (same : A → A → bool) (l : list A) : bool :=
  match l with
  | a :: (b :: _) as l' => same a b || adjacent_find same l'
  | _ => false
  end.

Definition pair_less (a b : Z * Z) : bool :=
  if negb (a.1 =? b.1) then a.1 <? b.1 else a.2 <? b.2.
Definition step_key (s : CollectiveStep) : Z * Z := (cs_phase_index s, cs_step_index s).

Definition same_phase (a b : CollectivePhase) : bool := cp_phase_index a =? cp_phase_index b.
Definition same_step (a b : CollectiveStep) : bool :=
  (cs_phase_index a =? cs_phase_index b) && (cs_step_index a =? cs_step_index b).

Definition canonical_definition (d : CollectiveDefinition) : CollectiveDefinition :=
  d <| cd_participants ::= canonicalize_participants |>
    <| cd_phases ::= std_sort (on_key Z.ltb cp_phase_index) |>
    <| cd_steps ::= std_sort (on_key pair_less step_key) |>.

Definition decode_register_collective (data : list Z) : Result RegisterCollectivePayload :=
  let? value := decode_one reader_register_collective data in
  let definition := canonical_definition (rp_definition value) in
  if adjacent_find same_phase (cd_phases definition) then
    fail ErrorCode.kDecodeDuplicateEntry "collective definition states the same phase twice"
  else if adjacent_find same_step (cd_steps definition) then
    fail ErrorCode.kDecodeDuplicateEntry "collective definition states the same step twice"
  else Ok (mkRegisterCollectivePayload definition).

Definition encode_register_ack (value : RegisterAckPayload) : Result (list Z) :=
  with_reasons
    (writer_identity (ra_id value) ++ writer_identity (ra_generation value) ++
     writer_u8 (ra_result value) ++ writer_u64 (ra_registration_sequence value))
    (ra_reasons value).

Definition reader_register_ack : Reader RegisterAckPayload :=
  let* id := reader_identity in
  let* generation := reader_identity in
  let* result := reader_u8 in
  let* registration_sequence := reader_u64 in
  let* reasons := decode_reason_chain in
  p_ret (mkRegisterAckPayload id generation result registration_sequence reasons).

Definition decode_register_ack : list Z → Result RegisterAckPayload := decode_one reader_register_ack.

Definition encode_begin_attempt (value : BeginAttemptPayload) : Result (list Z) :=
  Ok (writer_identity (ba_id value) ++ writer_identity (ba_generation value) ++
      writer_identity (ba_attempt value) ++ writer_u64 (ba_transfer_bytes value)).

Definition reader_begin_attempt : Reader BeginAttemptPayload :=
  let* id := reader_identity in
  let* generation := reader_identity in
  let* attempt := reader_identity in
  let* transfer_bytes := reader_u64 in
  p_ret (mkBeginAttemptPayload id generation attempt transfer_bytes).

Definition decode_begin_attempt : list Z → Result BeginAttemptPayload := decode_one reader_begin_attempt.

Definition encode_attempt_ack (value : AttemptAckPayload) : Result (list Z) :=
  with_reasons
    (writer_identity (aa_id value) ++ writer_identity (aa_attempt value) ++
     writer_identity (aa_previous_attempt value) ++ writer_enumeration (aa_state value))
    (aa_reasons value).

Definition reader_attempt_ack : Reader AttemptAckPayload :=
  let* id := reader_identity in
  let* attempt := reader_identity in
  let* previous_attempt := reader_identity in
  let* state := reader_enum CollectiveState.kTimedOut
      "collective state is not defined by this version" in
  let* reasons := decode_reason_chain in
  p_ret (mkAttemptAckPayload id attempt previous_attempt state reasons).

Definition decode_attempt_ack : list Z → Result AttemptAckPayload := decode_one reader_attempt_ack.

Definition encode_plan_flow_group (value : PlanFlowGroupPayload) : Result (list Z) :=
  Ok (encode_decision_request (pp_request value)).

Definition reader_plan_flow_group : Reader PlanFlowGroupPayload :=
  let* request := decode_decision_request in
  p_ret (mkPlanFlowGroupPayload request).

Definition decode_plan_flow_group : list Z → Result PlanFlowGroupPayload :=
  decode_one reader_plan_flow_group.

Definition encode_decision (value : DecisionPayload) : Result (list Z) :=
  encode_decision_record (dp_decision value).

Definition reader_decision : Reader DecisionPayload :=
  let* decision := decode_decision_record in
  p_ret (mkDecisionPayload decision).

Definition decode_decision : list Z → Result DecisionPayload := decode_one reader_decision.

Definition encode_lifecycle (value : LifecyclePayload) : Result (list Z) :=
  Ok (writer_identity (lp_id value) ++ writer_identity (lp_generation value) ++
      writer_identity (lp_attempt value) ++ writer_string (lp_reason value)).

Definition reader_lifecycle : Reader LifecyclePayload :=
  let* id := reader_identity in
  let* generation := reader_identity in
  let* attempt := reader_identity in
  let* reason := reader_string limits.kReasonDetailBytesMax in
  p_ret (mkLifecyclePayload id generation attempt reason).

Definition decode_lifecycle : list Z → Result LifecyclePayload := decode_one reader_lifecycle.

Definition encode_lifecycle_ack (value : LifecycleAckPayload) : Result (list Z) :=
  with_reasons
    (writer_identity (la_id value) ++ writer_enumeration (la_state value))
    (la_reasons value).

Definition reader_lifecycle_ack : Reader LifecycleAckPayload :=
  let* id := reader_identity in
  let* state := reader_enum CollectiveState.kTimedOut
      "collective state is not defined by this version" in
  let* reasons := decode_reason_chain in
  p_ret (mkLifecycleAckPayload id state reasons).

Definition decode_lifecycle_ack : list Z → Result LifecycleAckPayload := decode_one reader_lifecycle_ack.

Definition encode_install_policy (value : InstallPolicyPayload) : Result (list Z) :=
  Ok (encode_traffic_policy (ip_policy value)).

Definition reader_install_policy : Reader InstallPolicyPayload :=
  let* policy := decode_traffic_policy in
  p_ret (mkInstallPolicyPayload policy).

Definition decode_install_policy : list Z → Result InstallPolicyPayload :=
  decode_one reader_install_policy.

Definition encode_install_policy_ack (value : InstallPolicyAckPayload) : Result (list Z) :=
  with_reasons
    (writer_identity (ik_generation value) ++ writer_u8 (ik_result value))
    (ik_reasons value).

Definition reader_install_policy_ack : Reader InstallPolicyAckPayload :=
  let* generation := reader_identity in
  let* result := reader_u8 in
  let* reasons := decode_reason_chain in
  p_ret (mkInstallPolicyAckPayload generation result reasons).

Definition decode_install_policy_ack : list Z → Result InstallPolicyAckPayload := decode_one reader_install_policy_ack.

Definition encode_evidence (value : EvidencePayload) : Result (list Z) :=
  let tag := writer_enumeration (ey_kind value) in
  match ey_kind value with
  | EvidenceKindTag.kCapacity => Ok (tag ++ encode_capacity (ey_capacity value))
  | EvidenceKindTag.kCongestion => Ok (tag ++ encode_congestion (ey_congestion value))
  | EvidenceKindTag.kTopology => Ok (tag ++ encode_topology (ey_topology value))
  | EvidenceKindTag.kPolicy => Ok (tag ++ encode_traffic_policy (ey_policy value))
  | EvidenceKindTag.kNone =>
      fail ErrorCode.kDecodeInvalidTag "evidence payload states no evidence kind"
  end.

(** A payload of one kind; the other members keep their defaults. *)
Definition evidence_default (kind : EvidenceKindTag) : EvidencePayload :=
  mkEvidencePayload kind capacity_default congestion_default topology_default policy_default.

Definition reader_evidence : Reader EvidencePayload :=
  let* kind := reader_evidence_tag in
  let target := evidence_default kind in
  match kind with
  | EvidenceKindTag.kCapacity =>
      let* capacity := decode_capacity in p_ret (target <| ey_capacity := capacity |>)
  | EvidenceKindTag.kCongestion =>
      let* congestion := decode_congestion in p_ret (target <| ey_congestion := congestion |>)
  | EvidenceKindTag.kTopology =>
      let* topology := decode_topology in p_ret (target <| ey_topology := topology |>)
  | EvidenceKindTag.kPolicy =>
      let* policy := decode_traffic_policy in p_ret (target <| ey_policy := policy |>)
  | EvidenceKindTag.kNone =>
      p_fail (mkStatus ErrorCode.kDecodeInvalidTag "evidence payload states no evidence kind")
  end.

Definition decode_evidence : list Z → Result EvidencePayload := decode_one reader_evidence.

Definition encode_evidence_ack (value : EvidenceAckPayload) : Result (list Z) :=
  with_reasons
    (writer_enumeration (ea_kind value) ++ writer_u8 (ea_result value) ++
     writer_identity (ea_generation value))
    (ea_reasons value).

Definition reader_evidence_ack : Reader EvidenceAckPayload :=
  let* kind := reader_evidence_tag in
  let* result := reader_u8 in
  let* generation := reader_identity in
  let* reasons := decode_reason_chain in
  p_ret (mkEvidenceAckPayload kind result generation reasons).

Definition decode_evidence_ack : list Z → Result EvidenceAckPayload := decode_one reader_evidence_ack.

Definition encode_inspect_request (value : InspectRequestPayload) : Result (list Z) :=
  Ok (writer_u8 (iq_subject value) ++ writer_identity (iq_id value) ++
      writer_u32 (iq_offset value) ++ writer_u32 (iq_limit value)).

Definition reader_inspect_request : Reader InspectRequestPayload :=
  let* subject := reader_u8 in
  let* id := reader_identity in
  let* offset := reader_u32 in
  let* limit := reader_u32 in
  if limits.kInspectionPageMax <? limit then
    p_fail (mkStatus ErrorCode.kDecodeCountOutOfRange "inspection page size exceeds the bound")
  else
  p_ret (mkInspectRequestPayload subject id offset limit).

Definition decode_inspect_request : list Z → Result InspectRequestPayload := decode_one reader_inspect_request.

Definition encode_inspect_response (value : InspectResponsePayload) : Result (list Z) :=
  Ok (writer_u8 (ir_subject value) ++ writer_string (ir_body value) ++
      writer_boolean (ir_truncated value)).

Definition reader_inspect_response : Reader InspectResponsePayload :=
  let* subject := reader_u8 in
  let* body := reader_string limits.kFramePayloadMaxBytes in
  let* truncated := reader_boolean in
  p_ret (mkInspectResponsePayload subject body truncated).

Definition decode_inspect_response : list Z → Result InspectResponsePayload := decode_one reader_inspect_response.

Definition encode_explain_request (value : ExplainRequestPayload) : Result (list Z) :=
  Ok (writer_identity (xq_id value) ++ writer_identity (xq_attempt value) ++
      writer_u64 (xq_correlation value) ++ writer_boolean (xq_has_correlation value)).

Definition reader_explain_request : Reader ExplainRequestPayload :=
  let* id := reader_identity in
  let* attempt := reader_identity in
  let* correlation := reader_u64 in
  let* has_correlation := reader_boolean in
  p_ret (mkExplainRequestPayload id attempt correlation has_correlation).

Definition decode_explain_request : list Z → Result ExplainRequestPayload := decode_one reader_explain_request.

Definition encode_explain_response (value : ExplainResponsePayload) : Result (list Z) :=
  let? decision := encode_decision_record (xr_decision value) in
  Ok (writer_boolean (xr_found value) ++ decision ++ writer_string (xr_explanation value)).

Definition reader_explain_response : Reader ExplainResponsePayload :=
  let* found := reader_boolean in
  let* decision := decode_decision_record in
  let* explanation := reader_string limits.kFramePayloadMaxBytes in
  p_ret (mkExplainResponsePayload found decision explanation).

Definition decode_explain_response : list Z → Result ExplainResponsePayload :=
  decode_one reader_explain_response.

Definition encode_error (value : ErrorPayload) : Result (list Z) :=
  with_reasons
    (writer_error_code (ep_code value) ++ writer_string (ep_message value))
    (ep_reasons value).

Definition reader_error : Reader ErrorPayload :=
  let* code := reader_error_code in
  let* message := reader_string limits.kReasonDetailBytesMax in
  let* reasons := decode_reason_chain in
  p_ret (mkErrorPayload code message reasons).

Definition decode_error : list Z → Result ErrorPayload := decode_one reader_error.

(** ** Laws of the fields *)
#[export] Instance reader_evidence_tag_encodes :
  Encodes reader_evidence_tag writer_enumeration (fun _ => True) (fun v => v).
Proof.
  intros v rest _. unfold reader_evidence_tag, writer_enumeration. by destruct v; run_fields.
Qed.
#[export] Instance reader_evidence_tag_decodes :
  Decodes reader_evidence_tag writer_enumeration (fun _ => True) (fun v => v).
Proof.
  intros bs b rest Hbs Hp. unfold reader_evidence_tag in Hp. inv_fields Hbs Hp. bool_prop.
  unfold is_u8 in *. exists (enum_cast x). unfold writer_enumeration.
  by rewrite (enum_raw_cast (enum_raw EvidenceKindTag.kPolicy)) by lia.
Qed.

(** ** Laws of the messages *)
Definition hello_fits (v : HelloPayload) : Prop :=
  slen (hp_client_label v) ≤ limits.kLabelBytesMax ∧
  slen (hp_client_version v) ≤ limits.kLabelBytesMax ∧ is_u64 (hp_client_boot_monotonic_ms v).
Definition writer_hello (v : HelloPayload) : list Z :=
  writer_string (hp_client_label v) ++ writer_string (hp_client_version v) ++
  writer_u64 (hp_client_boot_monotonic_ms v).
#[export] Instance reader_hello_encodes :
  Encodes reader_hello writer_hello hello_fits (fun v => v).
Proof. encodes_record reader_hello writer_hello hello_fits. Qed.
#[export] Instance reader_hello_decodes :
  Decodes reader_hello writer_hello hello_fits (fun v => v).
Proof. decodes_record reader_hello writer_hello hello_fits. Qed.

Definition hello_ack_fits (v : HelloAckPayload) : Prop :=
  id_wf (ha_session v) ∧ id_wf (ha_incarnation v) ∧ id_wf (ha_epoch v) ∧
  id_wf (ha_policy_generation v) ∧ id_wf (ha_topology_generation v) ∧
  id_wf (ha_capacity_generation v) ∧ id_wf (ha_congestion_generation v) ∧
  is_u32 (ha_max_frame_payload_bytes v) ∧
  ha_max_frame_payload_bytes v ≤ limits.kFramePayloadMaxBytes ∧
  slen (ha_coordinator_label v) ≤ limits.kLabelBytesMax.
Definition writer_hello_ack (v : HelloAckPayload) : list Z :=
  writer_identity (ha_session v) ++ writer_identity (ha_incarnation v) ++
  writer_identity (ha_epoch v) ++ writer_identity (ha_policy_generation v) ++
  writer_identity (ha_topology_generation v) ++ writer_identity (ha_capacity_generation v) ++
  writer_identity (ha_congestion_generation v) ++ writer_u32 (ha_max_frame_payload_bytes v) ++
  writer_string (ha_coordinator_label v).
#[export] Instance reader_hello_ack_encodes :
  Encodes reader_hello_ack writer_hello_ack hello_ack_fits (fun v => v).
Proof. encodes_record reader_hello_ack writer_hello_ack hello_ack_fits. Qed.
#[export] Instance reader_hello_ack_decodes :
  Decodes reader_hello_ack writer_hello_ack hello_ack_fits (fun v => v).
Proof. decodes_record reader_hello_ack writer_hello_ack hello_ack_fits. Qed.

Definition heartbeat_fits (v : HeartbeatPayload) : Prop :=
  id_wf (hb_participant v) ∧ id_wf (hb_incarnation v) ∧ id_wf (hb_node v) ∧
  is_u64 (hb_client_clock_ms v).
Definition writer_heartbeat (v : HeartbeatPayload) : list Z :=
  writer_identity (hb_participant v) ++ writer_identity (hb_incarnation v) ++
  writer_enumeration (hb_state v) ++ writer_identity (hb_node v) ++
  writer_u64 (hb_client_clock_ms v).
#[export] Instance reader_heartbeat_encodes :
  Encodes reader_heartbeat writer_heartbeat heartbeat_fits (fun v => v).
Proof. encodes_record reader_heartbeat writer_heartbeat heartbeat_fits. Qed.
#[export] Instance reader_heartbeat_decodes :
  Decodes reader_heartbeat writer_heartbeat heartbeat_fits (fun v => v).
Proof. decodes_record reader_heartbeat writer_heartbeat heartbeat_fits. Qed.

Definition heartbeat_ack_fits (v : HeartbeatAckPayload) : Prop :=
  id_wf (hk_participant v) ∧ id_wf (hk_incarnation v) ∧ is_u64 (hk_expires_at_monotonic_ms v) ∧
  reason_entries_fit (hk_reasons v).
Definition heartbeat_ack_norm (v : HeartbeatAckPayload) : HeartbeatAckPayload := v <| hk_reasons ::= reasons_norm |>.
Definition writer_heartbeat_ack (v : HeartbeatAckPayload) : list Z :=
  writer_identity (hk_participant v) ++ writer_identity (hk_incarnation v) ++
  writer_enumeration (hk_state v) ++ writer_u64 (hk_expires_at_monotonic_ms v) ++
  writer_boolean (hk_accepted v) ++ writer_vector writer_reason (hk_reasons v).
#[export] Instance reader_heartbeat_ack_encodes :
  Encodes reader_heartbeat_ack writer_heartbeat_ack heartbeat_ack_fits heartbeat_ack_norm.
Proof. encodes_record reader_heartbeat_ack writer_heartbeat_ack heartbeat_ack_fits. Qed.
#[export] Instance reader_heartbeat_ack_decodes :
  Decodes reader_heartbeat_ack writer_heartbeat_ack heartbeat_ack_fits heartbeat_ack_norm.
Proof.
  decodes_record reader_heartbeat_ack writer_heartbeat_ack heartbeat_ack_fits as (mkHeartbeatAckPayload _ _ _ _ _ _).
Qed.

Definition register_ack_fits (v : RegisterAckPayload) : Prop :=
  id_wf (ra_id v) ∧ id_wf (ra_generation v) ∧ is_u8 (ra_result v) ∧
  is_u64 (ra_registration_sequence v) ∧ reason_entries_fit (ra_reasons v).
Definition register_ack_norm (v : RegisterAckPayload) : RegisterAckPayload := v <| ra_reasons ::= reasons_norm |>.
Definition writer_register_ack (v : RegisterAckPayload) : list Z :=
  writer_identity (ra_id v) ++ writer_identity (ra_generation v) ++ writer_u8 (ra_result v) ++
  writer_u64 (ra_registration_sequence v) ++ writer_vector writer_reason (ra_reasons v).
#[export] Instance reader_register_ack_encodes :
  Encodes reader_register_ack writer_register_ack register_ack_fits register_ack_norm.
Proof. encodes_record reader_register_ack writer_register_ack register_ack_fits. Qed.
#[export] Instance reader_register_ack_decodes :
  Decodes reader_register_ack writer_register_ack register_ack_fits register_ack_norm.
Proof.
  decodes_record reader_register_ack writer_register_ack register_ack_fits as (mkRegisterAckPayload _ _ _ _ _).
Qed.

Definition begin_attempt_fits (v : BeginAttemptPayload) : Prop :=
  id_wf (ba_id v) ∧ id_wf (ba_generation v) ∧ id_wf (ba_attempt v) ∧ is_u64 (ba_transfer_bytes v).
Definition writer_begin_attempt (v : BeginAttemptPayload) : list Z :=
  writer_identity (ba_id v) ++ writer_identity (ba_generation v) ++
  writer_identity (ba_attempt v) ++ writer_u64 (ba_transfer_bytes v).
#[export] Instance reader_begin_attempt_encodes :
  Encodes reader_begin_attempt writer_begin_attempt begin_attempt_fits (fun v => v).
Proof. encodes_record reader_begin_attempt writer_begin_attempt begin_attempt_fits. Qed.
#[export] Instance reader_begin_attempt_decodes :
  Decodes reader_begin_attempt writer_begin_attempt begin_attempt_fits (fun v => v).
Proof. decodes_record reader_begin_attempt writer_begin_attempt begin_attempt_fits. Qed.

Definition attempt_ack_fits (v : AttemptAckPayload) : Prop :=
  id_wf (aa_id v) ∧ id_wf (aa_attempt v) ∧ id_wf (aa_previous_attempt v) ∧
  reason_entries_fit (aa_reasons v).
Definition attempt_ack_norm (v : AttemptAckPayload) : AttemptAckPayload := v <| aa_reasons ::= reasons_norm |>.
Definition writer_attempt_ack (v : AttemptAckPayload) : list Z :=
  writer_identity (aa_id v) ++ writer_identity (aa_attempt v) ++
  writer_identity (aa_previous_attempt v) ++ writer_enumeration (aa_state v) ++
  writer_vector writer_reason (aa_reasons v).
#[export] Instance reader_attempt_ack_encodes :
  Encodes reader_attempt_ack writer_attempt_ack attempt_ack_fits attempt_ack_norm.
Proof. encodes_record reader_attempt_ack writer_attempt_ack attempt_ack_fits. Qed.
#[export] Instance reader_attempt_ack_decodes :
  Decodes reader_attempt_ack writer_attempt_ack attempt_ack_fits attempt_ack_norm.
Proof.
  decodes_record reader_attempt_ack writer_attempt_ack attempt_ack_fits as (mkAttemptAckPayload _ _ _ _ _).
Qed.

Definition lifecycle_fits (v : LifecyclePayload) : Prop :=
  id_wf (lp_id v) ∧ id_wf (lp_generation v) ∧ id_wf (lp_attempt v) ∧
  slen (lp_reason v) ≤ limits.kReasonDetailBytesMax.
Definition writer_lifecycle (v : LifecyclePayload) : list Z :=
  writer_identity (lp_id v) ++ writer_identity (lp_generation v) ++
  writer_identity (lp_attempt v) ++ writer_string (lp_reason v).
#[export] Instance reader_lifecycle_encodes :
  Encodes reader_lifecycle writer_lifecycle lifecycle_fits (fun v => v).
Proof. encodes_record reader_lifecycle writer_lifecycle lifecycle_fits. Qed.
#[export] Instance reader_lifecycle_decodes :
  Decodes reader_lifecycle writer_lifecycle lifecycle_fits (fun v => v).
Proof. decodes_record reader_lifecycle writer_lifecycle lifecycle_fits. Qed.

Definition lifecycle_ack_fits (v : LifecycleAckPayload) : Prop :=
  id_wf (la_id v) ∧ reason_entries_fit (la_reasons v).
Definition lifecycle_ack_norm (v : LifecycleAckPayload) : LifecycleAckPayload := v <| la_reasons ::= reasons_norm |>.
Definition writer_lifecycle_ack (v : LifecycleAckPayload) : list Z :=
  writer_identity (la_id v) ++ writer_enumeration (la_state v) ++
  writer_vector writer_reason (la_reasons v).
#[export] Instance reader_lifecycle_ack_encodes :
  Encodes reader_lifecycle_ack writer_lifecycle_ack lifecycle_ack_fits lifecycle_ack_norm.
Proof. encodes_record reader_lifecycle_ack writer_lifecycle_ack lifecycle_ack_fits. Qed.
#[export] Instance reader_lifecycle_ack_decodes :
  Decodes reader_lifecycle_ack writer_lifecycle_ack lifecycle_ack_fits lifecycle_ack_norm.
Proof.
  decodes_record reader_lifecycle_ack writer_lifecycle_ack lifecycle_ack_fits as (mkLifecycleAckPayload _ _ _).
Qed.

Definition install_policy_ack_fits (v : InstallPolicyAckPayload) : Prop :=
  id_wf (ik_generation v) ∧ is_u8 (ik_result v) ∧ reason_entries_fit (ik_reasons v).
Definition install_policy_ack_norm (v : InstallPolicyAckPayload) : InstallPolicyAckPayload := v <| ik_reasons ::= reasons_norm |>.
Definition writer_install_policy_ack (v : InstallPolicyAckPayload) : list Z :=
  writer_identity (ik_generation v) ++ writer_u8 (ik_result v) ++
  writer_vector writer_reason (ik_reasons v).
#[export] Instance reader_install_policy_ack_encodes :
  Encodes reader_install_policy_ack writer_install_policy_ack install_policy_ack_fits install_policy_ack_norm.
Proof. encodes_record reader_install_policy_ack writer_install_policy_ack install_policy_ack_fits. Qed.
#[export] Instance reader_install_policy_ack_decodes :
  Decodes reader_install_policy_ack writer_install_policy_ack install_policy_ack_fits install_policy_ack_norm.
Proof.
  decodes_record reader_install_policy_ack writer_install_policy_ack install_policy_ack_fits as (mkInstallPolicyAckPayload _ _ _).
Qed.

Definition evidence_ack_fits (v : EvidenceAckPayload) : Prop :=
  is_u8 (ea_result v) ∧ id_wf (ea_generation v) ∧ reason_entries_fit (ea_reasons v).
Definition evidence_ack_norm (v : EvidenceAckPayload) : EvidenceAckPayload := v <| ea_reasons ::= reasons_norm |>.
Definition writer_evidence_ack (v : EvidenceAckPayload) : list Z :=
  writer_enumeration (ea_kind v) ++ writer_u8 (ea_result v) ++
  writer_identity (ea_generation v) ++ writer_vector writer_reason (ea_reasons v).
#[export] Instance reader_evidence_ack_encodes :
  Encodes reader_evidence_ack writer_evidence_ack evidence_ack_fits evidence_ack_norm.
Proof. encodes_record reader_evidence_ack writer_evidence_ack evidence_ack_fits. Qed.
#[export] Instance reader_evidence_ack_decodes :
  Decodes reader_evidence_ack writer_evidence_ack evidence_ack_fits evidence_ack_norm.
Proof.
  decodes_record reader_evidence_ack writer_evidence_ack evidence_ack_fits as (mkEvidenceAckPayload _ _ _ _).
Qed.

Definition inspect_request_fits (v : InspectRequestPayload) : Prop :=
  is_u8 (iq_subject v) ∧ id_wf (iq_id v) ∧ is_u32 (iq_offset v) ∧ is_u32 (iq_limit v) ∧
  iq_limit v ≤ limits.kInspectionPageMax.
Definition writer_inspect_request (v : InspectRequestPayload) : list Z :=
  writer_u8 (iq_subject v) ++ writer_identity (iq_id v) ++ writer_u32 (iq_offset v) ++
  writer_u32 (iq_limit v).
#[export] Instance reader_inspect_request_encodes :
  Encodes reader_inspect_request writer_inspect_request inspect_request_fits (fun v => v).
Proof. encodes_record reader_inspect_request writer_inspect_request inspect_request_fits. Qed.
#[export] Instance reader_inspect_request_decodes :
  Decodes reader_inspect_request writer_inspect_request inspect_request_fits (fun v => v).
Proof. decodes_record reader_inspect_request writer_inspect_request inspect_request_fits. Qed.

Definition inspect_response_fits (v : InspectResponsePayload) : Prop :=
  is_u8 (ir_subject v) ∧ slen (ir_body v) ≤ limits.kFramePayloadMaxBytes.
Definition writer_inspect_response (v : InspectResponsePayload) : list Z :=
  writer_u8 (ir_subject v) ++ writer_string (ir_body v) ++ writer_boolean (ir_truncated v).
#[export] Instance reader_inspect_response_encodes :
  Encodes reader_inspect_response writer_inspect_response inspect_response_fits (fun v => v).
Proof. encodes_record reader_inspect_response writer_inspect_response inspect_response_fits. Qed.
#[export] Instance reader_inspect_response_decodes :
  Decodes reader_inspect_response writer_inspect_response inspect_response_fits (fun v => v).
Proof. decodes_record reader_inspect_response writer_inspect_response inspect_response_fits. Qed.

Definition explain_request_fits (v : ExplainRequestPayload) : Prop :=
  id_wf (xq_id v) ∧ id_wf (xq_attempt v) ∧ is_u64 (xq_correlation v).
Definition writer_explain_request (v : ExplainRequestPayload) : list Z :=
  writer_identity (xq_id v) ++ writer_identity (xq_attempt v) ++ writer_u64 (xq_correlation v) ++
  writer_boolean (xq_has_correlation v).
#[export] Instance reader_explain_request_encodes :
  Encodes reader_explain_request writer_explain_request explain_request_fits (fun v => v).
Proof. encodes_record reader_explain_request writer_explain_request explain_request_fits. Qed.
#[export] Instance reader_explain_request_decodes :
  Decodes reader_explain_request writer_explain_request explain_request_fits (fun v => v).
Proof. decodes_record reader_explain_request writer_explain_request explain_request_fits. Qed.

Definition error_fits (v : ErrorPayload) : Prop :=
  code_fits (ep_code v) ∧ slen (ep_message v) ≤ limits.kReasonDetailBytesMax ∧
  reason_entries_fit (ep_reasons v).
Definition error_norm (v : ErrorPayload) : ErrorPayload := v <| ep_reasons ::= reasons_norm |>.
Definition writer_error (v : ErrorPayload) : list Z :=
  writer_error_code (ep_code v) ++ writer_string (ep_message v) ++
  writer_vector writer_reason (ep_reasons v).
#[export] Instance reader_error_encodes :
  Encodes reader_error writer_error error_fits error_norm.
Proof. encodes_record reader_error writer_error error_fits. Qed.
#[export] Instance reader_error_decodes :
  Decodes reader_error writer_error error_fits error_norm.
Proof.
  decodes_record reader_error writer_error error_fits as (mkErrorPayload _ _ _).
Qed.

(** The payloads that wrap one structure. *)
Definition plan_flow_group_fits (v : PlanFlowGroupPayload) : Prop := request_fits (pp_request v).
Definition plan_flow_group_norm (v : PlanFlowGroupPayload) : PlanFlowGroupPayload :=
  mkPlanFlowGroupPayload (request_norm (pp_request v)).
Definition writer_plan_flow_group (v : PlanFlowGroupPayload) : list Z :=
  encode_decision_request (pp_request v).
#[export] Instance reader_plan_flow_group_encodes :
  Encodes reader_plan_flow_group writer_plan_flow_group plan_flow_group_fits
    plan_flow_group_norm.
Proof. encodes_record reader_plan_flow_group writer_plan_flow_group plan_flow_group_fits. Qed.
#[export] Instance reader_plan_flow_group_decodes :
  Decodes reader_plan_flow_group writer_plan_flow_group plan_flow_group_fits
    plan_flow_group_norm.
Proof.
  decodes_record reader_plan_flow_group writer_plan_flow_group plan_flow_group_fits
    as (mkPlanFlowGroupPayload _).
Qed.

Definition decision_fits (v : DecisionPayload) : Prop := record_fits (dp_decision v).
Definition decision_norm (v : DecisionPayload) : DecisionPayload :=
  mkDecisionPayload (record_norm (dp_decision v)).
Definition writer_decision (v : DecisionPayload) : list Z :=
  writer_decision_record (dp_decision v).
#[export] Instance reader_decision_encodes :
  Encodes reader_decision writer_decision decision_fits decision_norm.
Proof. encodes_record reader_decision writer_decision decision_fits. Qed.

Definition install_policy_fits (v : InstallPolicyPayload) : Prop := policy_fits (ip_policy v).
Definition writer_install_policy (v : InstallPolicyPayload) : list Z :=
  encode_traffic_policy (ip_policy v).
#[export] Instance reader_install_policy_encodes :
  Encodes reader_install_policy writer_install_policy install_policy_fits (fun v => v).
Proof. encodes_record reader_install_policy writer_install_policy install_policy_fits. Qed.
#[export] Instance reader_install_policy_decodes :
  Decodes reader_install_policy writer_install_policy install_policy_fits (fun v => v).
Proof. decodes_record reader_install_policy writer_install_policy install_policy_fits. Qed.

Definition explain_response_fits (v : ExplainResponsePayload) : Prop :=
  record_fits (xr_decision v) ∧ slen (xr_explanation v) ≤ limits.kFramePayloadMaxBytes.
Definition explain_response_norm (v : ExplainResponsePayload) : ExplainResponsePayload :=
  v <| xr_decision ::= record_norm |>.
Definition writer_explain_response (v : ExplainResponsePayload) : list Z :=
  writer_boolean (xr_found v) ++ writer_decision_record (xr_decision v) ++
  writer_string (xr_explanation v).
#[export] Instance reader_explain_response_encodes :
  Encodes reader_explain_response writer_explain_response explain_response_fits
    explain_response_norm.
Proof.
  encodes_record reader_explain_response writer_explain_response explain_response_fits.
Qed.

(** Evidence: the member the tag names. *)
Definition evidence_fits (v : EvidencePayload) : Prop :=
  match ey_kind v with
  | EvidenceKindTag.kCapacity => capacity_fits (ey_capacity v)
  | EvidenceKindTag.kCongestion => congestion_fits (ey_congestion v)
  | EvidenceKindTag.kTopology => topology_fits (ey_topology v)
  | EvidenceKindTag.kPolicy => policy_fits (ey_policy v)
  | EvidenceKindTag.kNone => False
  end.
Definition evidence_norm (v : EvidencePayload) : EvidencePayload :=
  let target := evidence_default (ey_kind v) in
  match ey_kind v with
  | EvidenceKindTag.kCapacity =>
      target <| ey_capacity := capacity_canonicalize (ey_capacity v) |>
  | EvidenceKindTag.kCongestion =>
      target <| ey_congestion := congestion_canonicalize (ey_congestion v) |>
  | EvidenceKindTag.kTopology =>
      target <| ey_topology := topology_canonicalize (ey_topology v) |>
  | EvidenceKindTag.kPolicy => target <| ey_policy := ey_policy v |>
  | EvidenceKindTag.kNone => target
  end.
Definition writer_evidence (v : EvidencePayload) : list Z :=
  writer_enumeration (ey_kind v) ++
  match ey_kind v with
  | EvidenceKindTag.kCapacity => encode_capacity (ey_capacity v)
  | EvidenceKindTag.kCongestion => encode_congestion (ey_congestion v)
  | EvidenceKindTag.kTopology => encode_topology (ey_topology v)
  | EvidenceKindTag.kPolicy => encode_traffic_policy (ey_policy v)
  | EvidenceKindTag.kNone => []
  end.

#[export] Instance reader_evidence_encodes :
  Encodes reader_evidence writer_evidence evidence_fits evidence_norm.
Proof.
  intros [kind ? ? ? ?] rest Hv. unfold reader_evidence, writer_evidence, evidence_fits in *.
  cbn [ey_kind ey_capacity ey_congestion ey_topology ey_policy] in *.
  destruct kind; [done|..]; rewrite <- app_assoc; run_step; cbv beta iota zeta; run_fields;
    reflexivity.
Qed.
#[export] Instance reader_evidence_decodes :
  Decodes reader_evidence writer_evidence evidence_fits evidence_norm.
Proof.
  intros bs b rest Hbs Hp. unfold reader_evidence in Hp. inv_step Hbs Hp.
  destruct x; [done|..]; cbv beta iota zeta in Hp; inv_fields Hbs Hp.
  - exists ((evidence_default EvidenceKindTag.kCapacity) <| ey_capacity := x |>).
    split_and!; [done..|]. unfold writer_evidence. cbn. by rewrite <- ?app_assoc.
  - exists ((evidence_default EvidenceKindTag.kCongestion) <| ey_congestion := x |>).
    split_and!; [done..|]. unfold writer_evidence. cbn. by rewrite <- ?app_assoc.
  - exists ((evidence_default EvidenceKindTag.kTopology) <| ey_topology := x |>).
    split_and!; [done..|]. unfold writer_evidence. cbn. by rewrite <- ?app_assoc.
  - exists ((evidence_default EvidenceKindTag.kPolicy) <| ey_policy := x |>).
    split_and!; [done..|]. unfold writer_evidence. cbn. by rewrite <- ?app_assoc.
Qed.

#[export] Instance reader_evidence_extends : Extends reader_evidence.
Proof. apply bind_extends; [apply _|]. intros []; apply _. Qed.

(** ** Registrations: the canonical definition *)
#[export] Instance Zltb_strict : StrictTotal Z.ltb.
Proof. split; intros *; rewrite ?Z.ltb_lt, ?Z.ltb_ge; lia. Qed.

#[export] Instance pair_less_strict : StrictTotal pair_less.
Proof.
  unfold pair_less. split; [intros [a b]|intros [a b] [c d] [e f]|intros [a b] [c d]]; cbn;
    repeat case_match; bool_prop; intros; bool_prop; try f_equal; lia.
Qed.

Section adjacent.
Context {A K : Type} (less : K → K → bool) `{!StrictTotal less} (key : A → K).
Context (same : A → A → bool) (Hsame : ∀ a b, same a b = true ↔ key a = key b).

(** On what [std::sort] leaves, neighbours tell whether a key occurs twice. *)
Lemma adjacent_find_sorted (l : list A) :
  adjacent_find same (std_sort (on_key less key) l) = false ↔ NoDup (key <$> l).
Proof.
  pose proof (std_sort_sorted less key l) as Hs. rewrite <- (std_sort_perm less key l) at 2.
  revert Hs. generalize (std_sort (on_key less key) l). clear l. intros l.
  induction 1 as [|a l Hl IH Ha]; [split; [constructor|done]|]. cbn [fmap list_fmap].
  rewrite NoDup_cons, <- IH. clear IH. destruct l as [|b l]; [cbn; set_solver|].
  change (adjacent_find same (a :: b :: l))
    with (same a b || adjacent_find same (b :: l)).
  rewrite orb_false_iff. split; intros [Hab Hrest]; split; try done.
  - cbn. intros [E|Hin]%list_elem_of_In.
    + apply not_true_iff_false in Hab. apply Hab, Hsame. done.
    + apply list_elem_of_In, list_elem_of_fmap in Hin as (c & E & Hc).
      apply StronglySorted_inv in Hl as [_ Hb]. rewrite Forall_forall in Ha, Hb.
      assert (key a = key b) as E'; [|apply not_true_iff_false in Hab; by apply Hab, Hsame].
      apply st_total; [|apply Ha; left].
      specialize (Hb c Hc). cbn in Hb. by rewrite <- E in Hb.
  - apply not_true_iff_false. intros E. apply Hsame in E. apply Hab. rewrite E. left.
Qed.

Lemma adjacent_find_ascending (l : list A) :
  adjacent_find same (std_sort (on_key less key) l) = false →
  StronglySorted (fun a b => less (key a) (key b) = true) (std_sort (on_key less key) l).
Proof.
  intros H%adjacent_find_sorted. apply kle_sorted_nodup_klt; [done|apply std_sort_sorted, _|].
  by rewrite std_sort_perm.
Qed.
End adjacent.

Lemma same_phase_key a b : same_phase a b = true ↔ cp_phase_index a = cp_phase_index b.
Proof. apply Z.eqb_eq. Qed.
Lemma same_step_key a b : same_step a b = true ↔ step_key a = step_key b.
Proof.
  unfold same_step, step_key. rewrite andb_true_iff, !Z.eqb_eq. split; [|by intros [= -> ->]].
  by intros [-> ->].
Qed.

Definition register_collective_fits (v : RegisterCollectivePayload) : Prop :=
  definition_fits (rp_definition v) ∧
  NoDup (cp_phase_index <$> cd_phases (rp_definition v)) ∧
  NoDup (step_key <$> cd_steps (rp_definition v)).
Definition register_collective_norm (v : RegisterCollectivePayload) : RegisterCollectivePayload :=
  mkRegisterCollectivePayload (canonical_definition (definition_norm (rp_definition v))).
Definition writer_register_collective (v : RegisterCollectivePayload) : list Z :=
  encode_definition (rp_definition v).

Definition register_raw_fits (v : RegisterCollectivePayload) : Prop :=
  definition_fits (rp_definition v).
Definition register_raw_norm (v : RegisterCollectivePayload) : RegisterCollectivePayload :=
  mkRegisterCollectivePayload (definition_norm (rp_definition v)).
#[export] Instance reader_register_collective_encodes :
  Encodes reader_register_collective writer_register_collective register_raw_fits
    register_raw_norm.
Proof.
  encodes_record reader_register_collective writer_register_collective register_raw_fits.
Qed.
#[export] Instance reader_register_collective_decodes :
  Decodes reader_register_collective writer_register_collective register_raw_fits
    register_raw_norm.
Proof.
  decodes_record reader_register_collective writer_register_collective register_raw_fits
    as (mkRegisterCollectivePayload _).
Qed.

(** ** [decode_one] *)
Definition trailing : Status :=
  mkStatus ErrorCode.kDecodeTrailingBytes "payload carried trailing bytes".

Section decode_one.
Context {A : Type} (p : Reader A) (enc : A → list Z) (valid : A → Prop) (norm : A → A).

Lemma decode_one_run `{!Encodes p enc valid norm} a :
  valid a → decode_one p (enc a) = Ok (norm a).
Proof.
  intros Hv. unfold decode_one. rewrite <- (app_nil_r (enc a)). by rewrite encodes_run.
Qed.
Lemma decode_one_trailing `{!Encodes p enc valid norm} a more :
  valid a → more ≠ [] → decode_one p (enc a ++ more) = Fail trailing.
Proof.
  intros Hv Hm. unfold decode_one. rewrite encodes_run by done. unfold require_end.
  by rewrite (proj2 (Z.eqb_neq _ _)) by (by apply zlen_nil_iff, Z.eqb_neq in Hm).
Qed.
Lemma decode_one_Ok data b :
  decode_one p data = Ok b → p data = inr (b, []).
Proof.
  unfold decode_one. destruct (p data) as [|[a [|z rest]]]; [done|by intros [= ->]|].
  unfold require_end. rewrite (proj2 (Z.eqb_neq _ _)) by (unfold zlen; simpl; lia). done.
Qed.
Lemma decode_one_inv `{!Decodes p enc valid norm} data b :
  byte_string data → decode_one p data = Ok b → ∃ a, valid a ∧ b = norm a ∧ data = enc a.
Proof.
  intros Hd (a & Hv & -> & ->)%decode_one_Ok%decodes_inv; [|done].
  exists a. by rewrite app_nil_r.
Qed.
Lemma decode_one_cut `{!Encodes p enc valid norm, !Extends p} a data more b :
  valid a → enc a = data ++ more → more ≠ [] → decode_one p data ≠ Ok b.
Proof. intros Hv He Hm Hp%decode_one_Ok. by eapply decode_prefix. Qed.
End decode_one.

Lemma with_reasons_fits fields reasons :
  reason_entries_fit reasons →
  with_reasons fields reasons = Ok (fields ++ writer_vector writer_reason reasons).
Proof.
  intros [Hl _]. unfold with_reasons, encode_reason_chain.
  by rewrite (proj2 (Z.ltb_ge _ _)) by done.
Qed.

(** ** The protocol's messages by kind

    A frame of kind [kShutdown] has no payload codec; the other kinds have exactly one. *)
Inductive Message :=
  | MHello (v : HelloPayload)
  | MHelloAck (v : HelloAckPayload)
  | MHeartbeat (v : HeartbeatPayload)
  | MHeartbeatAck (v : HeartbeatAckPayload)
  | MRegisterCollective (v : RegisterCollectivePayload)
  | MRegisterAck (v : RegisterAckPayload)
  | MBeginAttempt (v : BeginAttemptPayload)
  | MAttemptAck (v : AttemptAckPayload)
  | MPlanFlowGroup (v : PlanFlowGroupPayload)
  | MFlowGroupDecision (v : DecisionPayload)
  | MCancelCollective (v : LifecyclePayload)
  | MRetireCollective (v : LifecyclePayload)
  | MLifecycleAck (v : LifecycleAckPayload)
  | MIngestEvidence (v : EvidencePayload)
  | MEvidenceAck (v : EvidenceAckPayload)
  | MInspectRequest (v : InspectRequestPayload)
  | MInspectResponse (v : InspectResponsePayload)
  | MExplainRequest (v : ExplainRequestPayload)
  | MExplainResponse (v : ExplainResponsePayload)
  | MErrorResponse (v : ErrorPayload)
  | MInstallPolicy (v : InstallPolicyPayload)
  | MInstallPolicyAck (v : InstallPolicyAckPayload)
  | MShutdownAck (v : InspectResponsePayload).

Definition message_kind (m : Message) : MessageKind :=
  match m with
  | MHello _ => MessageKind.kHello
  | MHelloAck _ => MessageKind.kHelloAck
  | MHeartbeat _ => MessageKind.kHeartbeat
  | MHeartbeatAck _ => MessageKind.kHeartbeatAck
  | MRegisterCollective _ => MessageKind.kRegisterCollective
  | MRegisterAck _ => MessageKind.kRegisterAck
  | MBeginAttempt _ => MessageKind.kBeginAttempt
  | MAttemptAck _ => MessageKind.kAttemptAck
  | MPlanFlowGroup _ => MessageKind.kPlanFlowGroup
  | MFlowGroupDecision _ => MessageKind.kFlowGroupDecision
  | MCancelCollective _ => MessageKind.kCancelCollective
  | MRetireCollective _ => MessageKind.kRetireCollective
  | MLifecycleAck _ => MessageKind.kLifecycleAck
  | MIngestEvidence _ => MessageKind.kIngestEvidence
  | MEvidenceAck _ => MessageKind.kEvidenceAck
  | MInspectRequest _ => MessageKind.kInspectRequest
  | MInspectResponse _ => MessageKind.kInspectResponse
  | MExplainRequest _ => MessageKind.kExplainRequest
  | MExplainResponse _ => MessageKind.kExplainResponse
  | MErrorResponse _ => MessageKind.kErrorResponse
  | MInstallPolicy _ => MessageKind.kInstallPolicy
  | MInstallPolicyAck _ => MessageKind.kInstallPolicyAck
  | MShutdownAck _ => MessageKind.kShutdownAck
  end.

Definition encode_message (m : Message) : Result (list Z) :=
  match m with
  | MHello v => encode_hello v
  | MHelloAck v => encode_hello_ack v
  | MHeartbeat v => encode_heartbeat v
  | MHeartbeatAck v => encode_heartbeat_ack v
  | MRegisterCollective v => encode_register_collective v
  | MRegisterAck v => encode_register_ack v
  | MBeginAttempt v => encode_begin_attempt v
  | MAttemptAck v => encode_attempt_ack v
  | MPlanFlowGroup v => encode_plan_flow_group v
  | MFlowGroupDecision v => encode_decision v
  | MCancelCollective v => encode_lifecycle v
  | MRetireCollective v => encode_lifecycle v
  | MLifecycleAck v => encode_lifecycle_ack v
  | MIngestEvidence v => encode_evidence v
  | MEvidenceAck v => encode_evidence_ack v
  | MInspectRequest v => encode_inspect_request v
  | MInspectResponse v => encode_inspect_response v
  | MExplainRequest v => encode_explain_request v
  | MExplainResponse v => encode_explain_response v
  | MErrorResponse v => encode_error v
  | MInstallPolicy v => encode_install_policy v
  | MInstallPolicyAck v => encode_install_policy_ack v
  | MShutdownAck v => encode_inspect_response v
  end.

Definition as_message {A} (ctor : A → Message) (r : Result A) : option (Result Message) :=
  Some (let? v := r in Ok (ctor v)).

Definition decode_message (kind : MessageKind) (data : list Z) : option (Result Message) :=
  match kind with
  | MessageKind.kHello => as_message MHello (decode_hello data)
  | MessageKind.kHelloAck => as_message MHelloAck (decode_hello_ack data)
  | MessageKind.kHeartbeat => as_message MHeartbeat (decode_heartbeat data)
  | MessageKind.kHeartbeatAck => as_message MHeartbeatAck (decode_heartbeat_ack data)
  | MessageKind.kRegisterCollective => as_message MRegisterCollective (decode_register_collective data)
  | MessageKind.kRegisterAck => as_message MRegisterAck (decode_register_ack data)
  | MessageKind.kBeginAttempt => as_message MBeginAttempt (decode_begin_attempt data)
  | MessageKind.kAttemptAck => as_message MAttemptAck (decode_attempt_ack data)
  | MessageKind.kPlanFlowGroup => as_message MPlanFlowGroup (decode_plan_flow_group data)
  | MessageKind.kFlowGroupDecision => as_message MFlowGroupDecision (decode_decision data)
  | MessageKind.kCancelCollective => as_message MCancelCollective (decode_lifecycle data)
  | MessageKind.kRetireCollective => as_message MRetireCollective (decode_lifecycle data)
  | MessageKind.kLifecycleAck => as_message MLifecycleAck (decode_lifecycle_ack data)
  | MessageKind.kIngestEvidence => as_message MIngestEvidence (decode_evidence data)
  | MessageKind.kEvidenceAck => as_message MEvidenceAck (decode_evidence_ack data)
  | MessageKind.kInspectRequest => as_message MInspectRequest (decode_inspect_request data)
  | MessageKind.kInspectResponse => as_message MInspectResponse (decode_inspect_response data)
  | MessageKind.kExplainRequest => as_message MExplainRequest (decode_explain_request data)
  | MessageKind.kExplainResponse => as_message MExplainResponse (decode_explain_response data)
  | MessageKind.kErrorResponse => as_message MErrorResponse (decode_error data)
  | MessageKind.kInstallPolicy => as_message MInstallPolicy (decode_install_policy data)
  | MessageKind.kInstallPolicyAck => as_message MInstallPolicyAck (decode_install_policy_ack data)
  | MessageKind.kShutdownAck => as_message MShutdownAck (decode_inspect_response data)
  | _ => None
  end.

(** The fields of the message, with the entries of its reason chain or metadata as they stand
    on the wire, are within the bounds of the wire. *)
Definition wire_fits (m : Message) : Prop :=
  match m with
  | MHello v => hello_fits v
  | MHelloAck v => hello_ack_fits v
  | MHeartbeat v => heartbeat_fits v
  | MHeartbeatAck v => heartbeat_ack_fits v
  | MRegisterCollective v => register_collective_fits v
  | MRegisterAck v => register_ack_fits v
  | MBeginAttempt v => begin_attempt_fits v
  | MAttemptAck v => attempt_ack_fits v
  | MPlanFlowGroup v => plan_flow_group_fits v
  | MFlowGroupDecision v => decision_fits v
  | MCancelCollective v => lifecycle_fits v
  | MRetireCollective v => lifecycle_fits v
  | MLifecycleAck v => lifecycle_ack_fits v
  | MIngestEvidence v => evidence_fits v
  | MEvidenceAck v => evidence_ack_fits v
  | MInspectRequest v => inspect_request_fits v
  | MInspectResponse v => inspect_response_fits v
  | MExplainRequest v => explain_request_fits v
  | MExplainResponse v => explain_response_fits v
  | MErrorResponse v => error_fits v
  | MInstallPolicy v => install_policy_fits v
  | MInstallPolicyAck v => install_policy_ack_fits v
  | MShutdownAck v => inspect_response_fits v
  end.

(** The containers of the message are as their classes hold them: every key of a metadata map
    once and every code of a reason chain non-empty. *)
Definition message_holds (m : Message) : Prop :=
  match m with
  | MHeartbeatAck v => chain_holds (hk_reasons v)
  | MRegisterCollective v => md_wf (cd_metadata (rp_definition v))
  | MRegisterAck v => chain_holds (ra_reasons v)
  | MAttemptAck v => chain_holds (aa_reasons v)
  | MFlowGroupDecision v => chain_holds (de_reasons (dp_decision v))
  | MLifecycleAck v => chain_holds (la_reasons v)
  | MEvidenceAck v => chain_holds (ea_reasons v)
  | MExplainResponse v => chain_holds (de_reasons (xr_decision v))
  | MErrorResponse v => chain_holds (ep_reasons v)
  | MInstallPolicyAck v => chain_holds (ik_reasons v)
  | _ => True
  end.

(** A message that the program can hold and that fits the wire. *)
Definition message_fits (m : Message) : Prop := message_holds m ∧ wire_fits m.

Definition message_norm (m : Message) : Message :=
  match m with
  | MHello v => MHello v
  | MHelloAck v => MHelloAck v
  | MHeartbeat v => MHeartbeat v
  | MHeartbeatAck v => MHeartbeatAck (heartbeat_ack_norm v)
  | MRegisterCollective v => MRegisterCollective (register_collective_norm v)
  | MRegisterAck v => MRegisterAck (register_ack_norm v)
  | MBeginAttempt v => MBeginAttempt v
  | MAttemptAck v => MAttemptAck (attempt_ack_norm v)
  | MPlanFlowGroup v => MPlanFlowGroup (plan_flow_group_norm v)
  | MFlowGroupDecision v => MFlowGroupDecision (decision_norm v)
  | MCancelCollective v => MCancelCollective v
  | MRetireCollective v => MRetireCollective v
  | MLifecycleAck v => MLifecycleAck (lifecycle_ack_norm v)
  | MIngestEvidence v => MIngestEvidence (evidence_norm v)
  | MEvidenceAck v => MEvidenceAck (evidence_ack_norm v)
  | MInspectRequest v => MInspectRequest v
  | MInspectResponse v => MInspectResponse v
  | MExplainRequest v => MExplainRequest v
  | MExplainResponse v => MExplainResponse (explain_response_norm v)
  | MErrorResponse v => MErrorResponse (error_norm v)
  | MInstallPolicy v => MInstallPolicy v
  | MInstallPolicyAck v => MInstallPolicyAck (install_policy_ack_norm v)
  | MShutdownAck v => MShutdownAck v
  end.

Definition message_bytes (m : Message) : list Z :=
  match m with
  | MHello v => writer_hello v
  | MHelloAck v => writer_hello_ack v
  | MHeartbeat v => writer_heartbeat v
  | MHeartbeatAck v => writer_heartbeat_ack v
  | MRegisterCollective v => writer_register_collective v
  | MRegisterAck v => writer_register_ack v
  | MBeginAttempt v => writer_begin_attempt v
  | MAttemptAck v => writer_attempt_ack v
  | MPlanFlowGroup v => writer_plan_flow_group v
  | MFlowGroupDecision v => writer_decision v
  | MCancelCollective v => writer_lifecycle v
  | MRetireCollective v => writer_lifecycle v
  | MLifecycleAck v => writer_lifecycle_ack v
  | MIngestEvidence v => writer_evidence v
  | MEvidenceAck v => writer_evidence_ack v
  | MInspectRequest v => writer_inspect_request v
  | MInspectResponse v => writer_inspect_response v
  | MExplainRequest v => writer_explain_request v
  | MExplainResponse v => writer_explain_response v
  | MErrorResponse v => writer_error v
  | MInstallPolicy v => writer_install_policy v
  | MInstallPolicyAck v => writer_install_policy_ack v
  | MShutdownAck v => writer_inspect_response v
  end.

(** The kinds whose decoder accepts only entries that the encoder can write.  A decision's
    pacing intent carries its own flow group and instance on the wire, which the encoder takes
    from the record. *)
Definition entry_kind (kind : MessageKind) : bool :=
  match kind with
  | MessageKind.kFlowGroupDecision | MessageKind.kExplainResponse => false
  | _ => true
  end.

(** Of these, the kinds without a reason chain and without metadata, whose decoder accepts
    only what the encoder writes. *)
Definition canonical_kind (kind : MessageKind) : bool :=
  match kind with
  | MessageKind.kHeartbeatAck | MessageKind.kRegisterCollective | MessageKind.kRegisterAck
  | MessageKind.kAttemptAck | MessageKind.kLifecycleAck | MessageKind.kEvidenceAck
  | MessageKind.kErrorResponse | MessageKind.kInstallPolicyAck => false
  | _ => entry_kind kind
  end.

Lemma encode_message_bytes m : wire_fits m → encode_message m = Ok (message_bytes m).
Proof.
  destruct m; cbn [wire_fits encode_message message_bytes]; intros Hv; try done.
  all: try (apply encode_decision_record_fits; exact Hv).
  all: try (etrans; [apply with_reasons_fits; apply Hv | rewrite <- ?app_assoc; reflexivity]).
  - unfold evidence_fits, encode_evidence, writer_evidence in *. by destruct (ey_kind v).
  - unfold encode_explain_response. by rewrite encode_decision_record_fits by apply Hv.
Qed.

Lemma decode_register_run v :
  register_collective_fits v →
  decode_register_collective (writer_register_collective v) = Ok (register_collective_norm v).
Proof.
  intros (Hf & Hp & Hs). unfold decode_register_collective.
  rewrite (decode_one_run reader_register_collective _ register_raw_fits register_raw_norm)
    by done. cbn [r_bind].
  set (d := canonical_definition (rp_definition (register_raw_norm v))).
  assert (adjacent_find same_phase (cd_phases d) = false) as ->
    by (by apply (adjacent_find_sorted Z.ltb cp_phase_index same_phase same_phase_key)).
  assert (adjacent_find same_step (cd_steps d) = false) as ->
    by (by apply (adjacent_find_sorted pair_less step_key same_step same_step_key)).
  done.
Qed.

Lemma decode_register_Ok data v :
  decode_register_collective data = Ok v →
  ∃ raw, decode_one reader_register_collective data = Ok raw ∧
    rp_definition v = canonical_definition (rp_definition raw) ∧
    NoDup (cp_phase_index <$> cd_phases (rp_definition raw)) ∧
    NoDup (step_key <$> cd_steps (rp_definition raw)).
Proof.
  unfold decode_register_collective. destruct (decode_one _ data) as [raw|]; [|done].
  cbn [r_bind].
  destruct (adjacent_find same_phase _) eqn:Ep; [done|].
  destruct (adjacent_find same_step _) eqn:Es; [done|]. intros [= <-].
  exists raw. split_and!; [done|done|..].
  - by eapply (adjacent_find_sorted Z.ltb cp_phase_index same_phase same_phase_key).
  - by eapply (adjacent_find_sorted pair_less step_key same_step same_step_key).
Qed.

Lemma decode_register_inv data v :
  byte_string data → decode_register_collective data = Ok v →
  ∃ w, register_collective_fits w ∧ v = register_collective_norm w ∧
    data = writer_register_collective w.
Proof.
  intros Hd (raw & Hr & Hv & Hp & Hs)%decode_register_Ok.
  apply (decode_one_inv reader_register_collective _ _ _) in Hr as (w & Hw & -> & ->); [|done].
  exists w. split_and!; [done..| |done]. destruct v. cbn in Hv. by rewrite Hv.
Qed.

(** One kind: round trip, trailing bytes, and a payload cut short. *)
Section one_kind.
Context {A : Type} (ctor : A → Message) (p : Reader A) (enc : A → list Z) (valid : A → Prop)
  (norm : A → A).

Definition kind_laws (decode : list Z → option (Result Message)) (data : list Z) (m : Message) :
    Prop :=
  decode data = Some (Ok m) ∧
  (∀ more, more ≠ [] → decode (data ++ more) = Some (Fail trailing)) ∧
  (∀ cut rest m', data = cut ++ rest → rest ≠ [] → decode cut ≠ Some (Ok m')).

Lemma one_kind_laws `{!Encodes p enc valid norm, !Extends p} v :
  valid v → kind_laws (fun data => as_message ctor (decode_one p data)) (enc v) (ctor (norm v)).
Proof.
  intros Hv. split_and!.
  - by rewrite (decode_one_run p enc valid norm).
  - intros more Hm. by rewrite (decode_one_trailing p enc valid norm).
  - intros cut rest m' Hc Hr. destruct (decode_one p cut) as [b|] eqn:Hd; [|done].
    by eapply (decode_one_cut p enc valid norm) in Hd.
Qed.

Lemma one_kind_canonical `{!Decodes p enc valid norm} data m :
  byte_string data → as_message ctor (decode_one p data) = Some (Ok m) →
  ∃ v, valid v ∧ m = ctor (norm v) ∧ data = enc v.
Proof.
  intros Hd. unfold as_message. destruct (decode_one p data) as [b|] eqn:Hb; [|done].
  intros [= <-]. apply (decode_one_inv p enc valid norm) in Hb as (v & Hv & -> & ->); eauto.
Qed.
End one_kind.

Lemma register_kind_laws v :
  register_collective_fits v →
  kind_laws (fun data => as_message MRegisterCollective (decode_register_collective data))
    (writer_register_collective v) (MRegisterCollective (register_collective_norm v)).
Proof.
  intros Hv. assert (register_raw_fits v) as Hw by apply Hv. split_and!.
  - by rewrite decode_register_run.
  - intros more Hm. unfold decode_register_collective.
    by rewrite (decode_one_trailing reader_register_collective _ register_raw_fits
      register_raw_norm).
  - intros cut rest m' Hc Hr. destruct (decode_register_collective cut) as [b|] eqn:Hd; [|done].
    apply decode_register_Ok in Hd as (raw & Hd & _).
    by eapply (decode_one_cut reader_register_collective _ register_raw_fits
      register_raw_norm) in Hd.
Qed.

Lemma message_laws m :
  wire_fits m → kind_laws (decode_message (message_kind m)) (message_bytes m) (message_norm m).
Proof.
  destruct m; cbn [wire_fits message_kind message_norm message_bytes]; intros Hv.
  5: by apply register_kind_laws.
  all: refine (one_kind_laws _ _ _ _ _ _ Hv).
Qed.

(** C15: for every kind of message, what the encoder writes for a message that fits the wire is
    decoded under that kind to the message's normal form; followed by anything else it is
    refused for its trailing bytes, and no strict prefix of it is accepted. *)
Theorem message_roundtrip (m : Message) :
  wire_fits m →
  ∃ data, encode_message m = Ok data ∧
    decode_message (message_kind m) data = Some (Ok (message_norm m)) ∧
    (∀ more, more ≠ [] → decode_message (message_kind m) (data ++ more) = Some (Fail trailing)) ∧
    (∀ cut rest m', data = cut ++ rest → rest ≠ [] →
       decode_message (message_kind m) cut ≠ Some (Ok m')).
Proof.
  intros Hf. exists (message_bytes m). split; [by apply encode_message_bytes|].
  exact (message_laws m Hf).
Qed.

(** What a decoder accepts, outside decision records, is what the encoder writes for some
    entries; for a reason chain or metadata they need not be ones that the class holds. *)
Lemma accepted_entries kind data m :
  entry_kind kind = true → byte_string data → decode_message kind data = Some (Ok m) →
  ∃ sent, message_kind sent = kind ∧ wire_fits sent ∧ m = message_norm sent ∧
    data = message_bytes sent.
Proof.
  intros Hk Hd Hm. destruct kind; cbn [entry_kind decode_message] in *; try done.
  5: { unfold as_message in Hm. destruct (decode_register_collective data) eqn:E; [|done].
       injection Hm as <-. apply decode_register_inv in E as (w & ? & -> & ->); [|done].
       by exists (MRegisterCollective w). }
  all: lazymatch type of Hm with as_message ?c _ = _ =>
    refine (match one_kind_canonical c _ _ _ _ _ _ Hd Hm with
            ex_intro _ w (conj Hw (conj E1 E2)) => ex_intro _ (c w) _ end);
    by subst end.
Qed.

(** C27: for the messages without metadata, without a reason chain and without a decision
    record, the decoder accepts exactly what the encoder writes: a payload is decoded to a
    message iff it is the encoding of a message of that kind that the program can hold, that
    fits the wire and whose normal form is the decoded message. In particular a byte that
    names no enumerator, a count out of range and trailing bytes are always refused. *)
Theorem message_canonical (kind : MessageKind) (data : list Z) (m : Message) :
  canonical_kind kind = true → byte_string data →
  decode_message kind data = Some (Ok m) ↔
  ∃ sent, message_kind sent = kind ∧ message_fits sent ∧ m = message_norm sent ∧
    encode_message sent = Ok data.
Proof.
  intros Hk Hd. split.
  - intros Hm. destruct (accepted_entries kind data m) as (sent & <- & Hf & -> & ->); [|done..|].
    { by destruct kind. }
    exists sent. split_and!; [done| |done|by apply encode_message_bytes].
    split; [|done]. by destruct sent.
  - intros (sent & <- & [_ Hf] & -> & He). rewrite encode_message_bytes in He by done.
    injection He as <-. by apply message_laws.
Qed.

(** ** Refusals *)
Definition decode_family (s : Status) : Prop := is_decode_error (st_code s) = true.

Lemma reader_string_bound max bs s rest :
  0 ≤ max → reader_string max bs = inr (s, rest) → slen s ≤ max.
Proof.
  intros H0. unfold reader_string, p_bind at 1. destruct (reader_u32 bs) as [|[n bs']]; [done|].
  destruct (max <? n) eqn:Hn; [done|]. unfold p_bind, reader_take, p_take.
  destruct (zlen bs' <? n) eqn:Hl; [done|]. intros [= <- _]. bool_prop.
  rewrite bytes_string_length. unfold zlen in *. rewrite length_take. lia.
Qed.

Lemma reader_reason_detail bs r rest :
  reader_reason bs = inr (r, rest) → slen (r_detail r) ≤ limits.kReasonDetailBytesMax.
Proof.
  unfold reader_reason, p_bind. destruct (reader_string 128 bs) as [|[code bs1]]; [done|].
  destruct (reader_string _ bs1) as [|[detail bs2]] eqn:E; [done|].
  destruct (reader_identity bs2) as [|[subject bs3]]; [done|].
  intros [= <- _]. by eapply reader_string_bound in E.
Qed.

(** The container never refuses a reason: the count and the strings were bounded before. *)
#[export] Instance decode_reason_chain_rejects : Rejects decode_reason_chain decode_family.
Proof.
  unfold decode_reason_chain. intros bs e.
  unfold p_bind at 1. destruct (reader_count _ bs) as [s|[n bs']] eqn:En.
  { intros [= <-]. revert En. apply (rejects_with (p := reader_count _)). }
  assert (0 ≤ Z.of_nat (Z.to_nat n) ≤ limits.kReasonChainMax) as Hn.
  { revert En. unfold reader_count, p_bind. destruct (reader_u32 bs) as [|[k bs1]]; [done|].
    destruct (_ <? k) eqn:Hk; [done|]. intros [= <- _]. bool_prop.
    unfold limits.kReasonChainMax in *. lia. }
  assert (zlen (@nil Reason) + Z.of_nat (Z.to_nat n) ≤ limits.kReasonChainMax) as Hl
    by (change (zlen (@nil Reason)) with 0; lia).
  revert Hl. clear Hn En. generalize (Z.to_nat n) as k, (@nil Reason) as chain. intros k. revert bs'.
  induction k as [|k IH]; intros bs' chain Hl; cbn [p_fold]; [done|]. unfold p_bind.
  destruct (reader_reason bs') as [s|[r bs1]] eqn:Er.
  { intros [= <-]. revert Er. apply (rejects_with (p := reader_reason)). }
  apply reader_reason_detail in Er. unfold chain_add, rc_add.
  rewrite (proj2 (Z.leb_gt _ _)), (proj2 (Z.ltb_ge _ _)) by (done || lia). apply IH.
  rewrite zlen_app. unfold zlen at 2. simpl length. lia.
Qed.

#[export] Instance reader_evidence_rejects : Rejects reader_evidence decode_family.
Proof. apply bind_rejects; [apply _|]. intros []; cbv zeta; apply _. Qed.

Lemma decode_one_rejects {A} (p : Reader A) `{!Rejects p decode_family} data s :
  decode_one p data = Fail s → decode_family s.
Proof.
  unfold decode_one. destruct (p data) as [e|[a rest]] eqn:E.
  - intros [= <-]. by eapply (rejects_with (p := p)).
  - unfold require_end. destruct (negb _); [|done]. by intros [= <-].
Qed.

Lemma decode_register_rejects data s :
  decode_register_collective data = Fail s → decode_family s.
Proof.
  unfold decode_register_collective. destruct (decode_one _ data) as [v|e] eqn:E; cbn [r_bind].
  - repeat case_match; try done; by intros [= <-].
  - intros [= <-]. exact (decode_one_rejects _ _ _ E).
Qed.

(** Whatever the bytes, a payload decoder refuses with an error of the decode family: a
    malformed payload is never reported as anything else, and the bound on a reason chain,
    whose error is of another family, is never the one that stops a decoder. *)
Theorem message_refusal_is_decode_error (kind : MessageKind) (data : list Z) (s : Status) :
  decode_message kind data = Some (Fail s) → is_decode_error (st_code s) = true.
Proof.
  change (is_decode_error (st_code s) = true) with (decode_family s). unfold decode_message.
  destruct kind; try done; unfold as_message; intros [= Hm].
  5: destruct (decode_register_collective data) eqn:E; [done|]; injection Hm as <-;
     by eapply decode_register_rejects.
  all: lazymatch type of Hm with r_bind ?r _ = _ => destruct r eqn:E; [done|] end;
    injection Hm as <-; exact (decode_one_rejects _ _ _ E).
Qed.

(** ** What a registration hands to the service *)
Definition definition_typed (d : CollectiveDefinition) : Prop :=
  definition_fits d ∧ participants_are_canonical (cd_participants d) = true ∧
  StronglySorted (fun a b => cp_phase_index a < cp_phase_index b) (cd_phases d) ∧
  StronglySorted (fun a b => pair_less (step_key a) (step_key b) = true) (cd_steps d) ∧
  md_wf (cd_metadata d).

Lemma fold_metadata_wf l acc m : md_wf acc → fold_add metadata_add acc l = Some m → md_wf m.
Proof.
  revert acc. induction l as [|e l IH]; intros acc Hw; cbn [fold_add]; [by intros [= <-]|].
  unfold metadata_add. pose proof (md_set_wf acc e.1 e.2 Hw) as Hw'.
  destruct (md_set acc e.1 e.2) as [acc' []]; [by apply IH|done].
Qed.

Lemma metadata_norm_is_wf l : md_wf (metadata_norm l).
Proof.
  assert (md_wf []) as H0 by (split_and!; [constructor|done|constructor]).
  unfold metadata_norm. destruct (fold_add metadata_add [] l) eqn:E; [|done].
  by eapply fold_metadata_wf.
Qed.

Lemma std_unique_length {A} `{EqDecision A} (l : list A) :
  (length (std_unique l) ≤ length l)%nat.
Proof.
  induction l as [|x l IH]; [done|]. cbn [std_unique].
  destruct (std_unique l); [|case_decide]; simpl in *; lia.
Qed.

Lemma canonicalize_fits l :
  l ≠ [] ∧ participants_fit l →
  canonicalize_participants l ≠ [] ∧ participants_fit (canonicalize_participants l).
Proof.
  intros (Hne & Hl & Hf). split; [|split].
  - destruct l as [|x l]; [done|]. intros E.
    pose proof (proj2 (canonicalize_elem (x :: l) x) ltac:(left)) as Hx. rewrite E in Hx.
    by apply elem_of_nil in Hx.
  - unfold canonicalize_participants. pose proof (std_unique_length (std_sort id_ltb l)) as Hu.
    assert (length (std_sort id_ltb l) = length l) as E
      by apply Permutation_length, (std_sort_perm id_ltb id).
    unfold zlen in *. lia.
  - rewrite Forall_forall in Hf |- *. intros x Hx. apply Hf, canonicalize_elem, Hx.
Qed.

Lemma std_sort_fits {A K} (less : K → K → bool) `{!StrictTotal less} (key : A → K)
    (valid : A → Prop) max l :
  zlen l ≤ max ∧ Forall valid l →
  zlen (std_sort (on_key less key) l) ≤ max ∧ Forall valid (std_sort (on_key less key) l).
Proof.
  intros [Hl Hf]. split; [|by rewrite std_sort_perm]. unfold zlen in *.
  by rewrite (Permutation_length (std_sort_perm less key l)).
Qed.

Lemma canonical_definition_typed d :
  definition_fits d → NoDup (cp_phase_index <$> cd_phases d) → NoDup (step_key <$> cd_steps d) →
  definition_typed (canonical_definition (definition_norm d)).
Proof.
  intros Hf Hp Hs. unfold definition_fits in Hf. destruct_and? Hf.
  apply (adjacent_find_sorted Z.ltb cp_phase_index same_phase same_phase_key) in Hp.
  apply (adjacent_find_sorted pair_less step_key same_step same_step_key) in Hs.
  apply (adjacent_find_ascending Z.ltb cp_phase_index same_phase same_phase_key) in Hp.
  apply (adjacent_find_ascending pair_less step_key same_step same_step_key) in Hs.
  pose proof (metadata_norm_is_wf (cd_metadata d)) as Hm.
  unfold definition_typed. destruct d. cbn -[std_sort md_wf] in *. split; [|split_and!]; try done.
  - assert (entries_fit (metadata_norm cd_metadata)) by apply Hm.
    destruct (canonicalize_fits cd_participants) as [? ?]; [done|].
    edestruct (std_sort_fits Z.ltb cp_phase_index phase_fits) as [? ?]; [by split|].
    edestruct (std_sort_fits pair_less step_key step_fits) as [? ?]; [by split|].
    unfold definition_fits. cbn -[std_sort]. by split_and!.
  - apply participants_are_canonical_spec, canonicalize_ascending.
  - clear -Hp. revert Hp. generalize (std_sort (on_key Z.ltb cp_phase_index) cd_phases).
    intros l Hl. induction Hl as [|a l Hl IH Ha]; constructor; [done|].
    eapply Forall_impl; [exact Ha|]. intros b. apply Z.ltb_lt.
Qed.

(** C40: a registration that the decoder accepts is well typed, whatever bytes it came from:
    the bytes are exactly the fields of some definition entries, so that every byte of an
    enumeration is the number of the enumerator it is read as and an undefined one is refused;
    in the accepted definition every number fits its machine type, every string and
    collection its bound, there is a participant, the participants are those that were sent,
    in canonical order without repetition, phases and steps are those that were sent,
    ascending strictly by their indices, and the metadata is a finite map with non-empty
    keys. *)
Theorem register_decoded_typed (data : list Z) (v : RegisterCollectivePayload) :
  byte_string data → decode_register_collective data = Ok v →
  let d := rp_definition v in
  definition_typed d ∧
  ∃ sent, data = encode_definition sent ∧ definition_fits sent ∧
    cd_collective_class d = cd_collective_class sent ∧
    cd_algorithm_hint d = cd_algorithm_hint sent ∧ cd_scope d = cd_scope sent ∧
    (∀ p, p ∈ cd_participants d ↔ p ∈ cd_participants sent) ∧
    cd_phases d ≡ₚ cd_phases sent ∧ cd_steps d ≡ₚ cd_steps sent.
Proof.
  intros Hd Hr. apply decode_register_inv in Hr as (w & (Hf & Hp & Hs) & -> & Hb); [|done].
  split; [by apply canonical_definition_typed|]. exists (rp_definition w).
  split; [exact Hb|]. split; [exact Hf|]. destruct w as [w]. cbn -[std_sort].
  split_and!; [done..| | |].
  - intros p. apply canonicalize_elem.
  - apply (std_sort_perm Z.ltb cp_phase_index).
  - apply (std_sort_perm pair_less step_key).
Qed.

(** ** Witnesses *)
Definition demo_definition : CollectiveDefinition :=
  mkCollectiveDefinition (mkIdentity 1 2) (mkIdentity 3 4) CollectiveClass.kAllReduce
    AlgorithmHint.kUnspecified CollectiveScope.kUnspecified "ring" (mkIdentity 5 6) id_none
    [mkIdentity 9 1; mkIdentity 7 1; mkIdentity 9 1]
    [mkCollectivePhase 2 "b" true 1; mkCollectivePhase 1 "a" false 1]
    [mkCollectiveStep 2 1 AlgorithmHint.kUnspecified false;
     mkCollectiveStep 1 1 AlgorithmHint.kUnspecified true]
    [("job", "7")] false 4096 0.
Definition demo_register : RegisterCollectivePayload :=
  mkRegisterCollectivePayload demo_definition.

Lemma demo_register_fits : wire_fits (MRegisterCollective demo_register).
Proof.
  assert (∀ h l, (0 <=? h) && (h <? two64) && (0 <=? l) && (l <? two64) = true →
    id_wf (mkIdentity h l)) as Hid.
  { intros h l H. bool_prop. split; unfold is_u64; simpl; lia. }
  split; [|by split; apply (bool_decide_unpack _); vm_compute].
  unfold definition_fits. cbn [rp_definition demo_register].
  split_and!; try (apply Hid; reflexivity); try done.
  - split; [done|]. repeat constructor; done.
  - repeat constructor; done.
  - repeat constructor; done.
  - split; [done|]. repeat constructor; done.
Qed.

Lemma message_roundtrip_witness :
  ∃ data, encode_message (MRegisterCollective demo_register) = Ok data ∧
    decode_message MessageKind.kRegisterCollective data =
      Some (Ok (message_norm (MRegisterCollective demo_register))).
Proof.
  destruct (message_roundtrip (MRegisterCollective demo_register) demo_register_fits)
    as (data & He & Hd & _).
  exists data. split; [exact He | exact Hd].
Defined.

Lemma message_canonical_witness : ∃ sent, message_kind sent = MessageKind.kHeartbeat ∧
  encode_message sent = Ok (repeat 0 32 ++ [2] ++ repeat 0 24).
Proof.
  destruct (message_canonical MessageKind.kHeartbeat (repeat 0 32 ++ [2] ++ repeat 0 24)
    (MHeartbeat (mkHeartbeatPayload id_none id_none (enum_cast 2) id_none 0))) as [H _].
  - reflexivity.
  - apply bytes_check. vm_compute. reflexivity.
  - destruct H as (sent & Hk & _ & _ & He); [vm_compute; reflexivity|].
    exists sent. split; [exact Hk | exact He].
Defined.

Lemma message_refusal_is_decode_error_witness : ∃ s,
  decode_message MessageKind.kHeartbeat (repeat 0 32 ++ [9]) = Some (Fail s) ∧
  is_decode_error (st_code s) = true.
Proof.
  eexists. split; [vm_compute; reflexivity|].
  apply (message_refusal_is_decode_error MessageKind.kHeartbeat (repeat 0 32 ++ [9])).
  vm_compute. reflexivity.
Defined.

Lemma register_decoded_typed_witness : ∃ v,
  decode_register_collective (encode_definition demo_definition) = Ok v ∧
  definition_typed (rp_definition v) ∧
  cd_participants (rp_definition v) = [mkIdentity 7 1; mkIdentity 9 1] ∧
  (cp_phase_index <$> cd_phases (rp_definition v)) = [1; 2].
Proof.
  eexists. split; [vm_compute; reflexivity|]. split; [|split; reflexivity].
  apply (register_decoded_typed (encode_definition demo_definition)).
  - apply bytes_check. vm_compute. reflexivity.
  - vm_compute. reflexivity.
Defined.
