(* ===== verification/Persistence.v ===== *)
(** The durable state file ([include/ctf/persistence.hpp], [src/persistence.cpp]): the private
    snapshot codec, the integrity envelope, and the store that writes and loads the file.

    The readers of the format answer true or false, so they are parsers whose failure carries
    nothing; [decode_snapshot] turns each failure into a status.  The operating system's part of
    [SnapshotStore] is a map from paths to contents together with the answers of the calls
    ([fopen], [fwrite], [fflush], [fclose], [remove], [rename], [ferror]), which are arguments.
    [write_all] takes the platform: on Windows the path is removed before the rename. *)
From S2P Require Import Prelude Identity Errors Participant Collective FlowGroup Traffic.
From S2P Require Import Evidence Sync Decision Codec Checksum Protocol WireData.
From S2P Require Import Catalog Authority History Service.

#[local] Opaque crc32 digest_payload.

(** ** SnapWriter *)
Definition sw_u8 (value : Z) : list Z := [value].
Definition sw_u32 (value : Z) : list Z := put_le 4 value.
Definition sw_u64 (value : Z) : list Z := put_le 8 value.
Definition sw_identity (value : Identity) : list Z :=
  sw_u64 (id_high value) ++ sw_u64 (id_low value).
(** Text beyond the bound is cut. *)
Definition sw_text (max_bytes : Z) (value : string) : list Z :=
  let length := w32 (if max_bytes <? slen value then max_bytes else slen value) in
  sw_u32 length ++ take (Z.to_nat length) (string_bytes value).
Definition sw_boolean (value : bool) : list Z := sw_u8 (if value then 1 else 0).
Definition sw_enumeration {A} `{WireEnum A} (value : A) : list Z := sw_u8 (enum_raw value).
Definition sw_vector {A} (write : A → list Z) (values : list A) : list Z :=
  sw_u32 (w32 (zlen values)) ++ (values ≫= write).

(** ** SnapReader *)
Abbreviation SnapReader A := (Parser unit A).

Definition sr_u8 : SnapReader Z :=
  let* data := p_take () 1 in p_ret (default 0 (head data)).
Definition sr_u32 : SnapReader Z := p_word () 4 w32.
Definition sr_u64 : SnapReader Z := p_word () 8 w64.
Definition sr_identity : SnapReader Identity :=
  let* hi := sr_u64 in
  let* lo := sr_u64 in
  p_ret (mkIdentity hi lo).
Definition sr_text (max_bytes : Z) : SnapReader string :=
  let* length := sr_u32 in
  if max_bytes <? length then p_fail () else
  let* data := p_take () length in
  p_ret (bytes_string data).
Definition sr_boolean : SnapReader bool :=
  let* raw := sr_u8 in
  if 1 <? raw then p_fail () else p_ret (raw =? 1).
Definition sr_enumeration {A} `{WireEnum A, Inhabited A} (max_value : Z) : SnapReader A :=
  let* raw := sr_u8 in
  if max_value <? raw then p_fail () else p_ret (enum_cast raw).
Definition sr_count (max : Z) : SnapReader Z :=
  let* out := sr_u32 in
  if max <? out then p_fail () else p_ret out.
Definition sr_vector {A} (max : Z) (read : SnapReader A) : SnapReader (list A) :=
  let* count := sr_count max in
  p_list read (Z.to_nat count).

(** ** Field codecs *)
Definition sw_metadata_entry (entry : string * string) : list Z :=
  sw_text limits.kMetadataKeyBytesMax entry.1 ++ sw_text limits.kMetadataValueBytesMax entry.2.
Definition sr_metadata_entry : SnapReader (string * string) :=
  let* key := sr_text limits.kMetadataKeyBytesMax in
  let* value := sr_text limits.kMetadataValueBytesMax in
  p_ret (key, value).

Definition write_metadata (metadata : Metadata) : list Z := sw_vector sw_metadata_entry metadata.
Definition read_metadata : SnapReader Metadata :=
  let* count := sr_count limits.kMetadataEntriesMax in
  p_fold sr_metadata_entry metadata_add () (Z.to_nat count) [].

Definition sw_phase (phase : CollectivePhase) : list Z :=
  sw_u64 (cp_phase_index phase) ++ sw_text limits.kLabelBytesMax (cp_label phase) ++
  sw_boolean (cp_synchronization_point phase) ++ sw_u32 (cp_step_count phase).
Definition sr_phase : SnapReader CollectivePhase :=
  let* index_value := sr_u64 in
  let* label := sr_text limits.kLabelBytesMax in
  let* synchronization_point := sr_boolean in
  let* step_count := sr_u32 in
  p_ret (mkCollectivePhase index_value label synchronization_point step_count).

Definition sw_step (step : CollectiveStep) : list Z :=
  sw_u64 (cs_phase_index step) ++ sw_u64 (cs_step_index step) ++
  sw_enumeration (cs_hint step) ++ sw_boolean (cs_synchronization_point step).
Definition sr_step : SnapReader CollectiveStep :=
  let* phase_index := sr_u64 in
  let* step_index := sr_u64 in
  let* hint := sr_enumeration 11 in
  let* synchronization_point := sr_boolean in
  p_ret (mkCollectiveStep phase_index step_index hint synchronization_point).

Definition write_definition (definition : CollectiveDefinition) : list Z :=
  sw_identity (cd_id definition) ++ sw_identity (cd_generation definition) ++
  sw_enumeration (cd_collective_class definition) ++
  sw_enumeration (cd_algorithm_hint definition) ++ sw_enumeration (cd_scope definition) ++
  sw_text limits.kLabelBytesMax (cd_label definition) ++
  sw_identity (cd_origin_node definition) ++ sw_identity (cd_fabric definition) ++
  sw_vector sw_identity (cd_participants definition) ++
  sw_vector sw_phase (cd_phases definition) ++ sw_vector sw_step (cd_steps definition) ++
  write_metadata (cd_metadata definition) ++
  sw_boolean (cd_declares_barrier_semantics definition) ++
  sw_u64 (cd_logical_bytes definition) ++ sw_u64 (cd_registration_sequence definition).

Definition read_definition : SnapReader CollectiveDefinition :=
  let* id := sr_identity in
  let* generation := sr_identity in
  let* collective_class := sr_enumeration 14 in
  let* algorithm_hint := sr_enumeration 11 in
  let* scope := sr_enumeration 5 in
  let* label := sr_text limits.kLabelBytesMax in
  let* origin_node := sr_identity in
  let* fabric := sr_identity in
  let* participants := sr_vector limits.kParticipantsMaxPerCollective sr_identity in
  let* phases := sr_vector limits.kPhasesMaxPerCollective sr_phase in
  let* steps := sr_vector (limits.kPhasesMaxPerCollective * limits.kStepsMaxPerPhase) sr_step in
  let* metadata := read_metadata in
  let* declares_barrier_semantics := sr_boolean in
  let* logical_bytes := sr_u64 in
  let* registration_sequence := sr_u64 in
  p_ret (mkCollectiveDefinition id generation collective_class algorithm_hint scope label
           origin_node fabric participants phases steps metadata declares_barrier_semantics
           logical_bytes registration_sequence).

Definition write_record (record : CollectiveRecord) : list Z :=
  write_definition (cr_definition record) ++ sw_enumeration (cr_state record) ++
  sw_identity (cr_current_attempt record) ++ sw_u64 (cr_attempt_transfer_bytes record) ++
  sw_u64 (cr_attempt_sequence record) ++ sw_u64 (cr_registration_sequence record) ++
  sw_u64 (cr_last_mutation_sequence record) ++ sw_u64 (cr_registered_monotonic_ms record) ++
  sw_u64 (cr_last_mutated_monotonic_ms record) ++
  sw_u32 (cr_generation_ancestry_depth record).

Definition read_record : SnapReader CollectiveRecord :=
  let* definition := read_definition in
  let* state := sr_enumeration 8 in
  let* current_attempt := sr_identity in
  let* attempt_transfer_bytes := sr_u64 in
  let* attempt_sequence := sr_u64 in
  let* registration_sequence := sr_u64 in
  let* last_mutation_sequence := sr_u64 in
  let* registered_monotonic_ms := sr_u64 in
  let* last_mutated_monotonic_ms := sr_u64 in
  let* generation_ancestry_depth := sr_u32 in
  p_ret (mkCollectiveRecord definition state current_attempt attempt_transfer_bytes
           attempt_sequence registration_sequence last_mutation_sequence
           registered_monotonic_ms last_mutated_monotonic_ms generation_ancestry_depth).

Definition sw_node (node : TopologyNode) : list Z :=
  sw_identity (tn_id node) ++ sw_identity (tn_rack node) ++
  sw_boolean (tn_accelerator_attached node) ++ sw_u32 (tn_accelerator_count node).
Definition sr_node : SnapReader TopologyNode :=
  let* id := sr_identity in
  let* rack := sr_identity in
  let* accelerator_attached := sr_boolean in
  let* accelerator_count := sr_u32 in
  p_ret (mkTopologyNode id rack accelerator_attached accelerator_count).

Definition sw_link (link : TopologyLink) : list Z :=
  sw_identity (tl_id link) ++ sw_identity (tl_a link) ++ sw_identity (tl_b link) ++
  sw_enumeration (tl_link_class link) ++ sw_u64 (tl_capacity_bps link) ++
  sw_u32 (tl_lanes link) ++ sw_boolean (tl_shared_oversubscribed link).
Definition sr_link : SnapReader TopologyLink :=
  let* id := sr_identity in
  let* a := sr_identity in
  let* b := sr_identity in
  let* link_class := sr_enumeration 5 in
  let* capacity_bps := sr_u64 in
  let* lanes := sr_u32 in
  let* shared_oversubscribed := sr_boolean in
  p_ret (mkTopologyLink id a b link_class capacity_bps lanes shared_oversubscribed).

Definition write_topology (topology : TopologyEvidence) : list Z :=
  sw_identity (te_generation topology) ++ sw_u64 (te_captured_monotonic_ms topology) ++
  sw_boolean (te_synthetic topology) ++ sw_vector sw_node (te_nodes topology) ++
  sw_vector sw_link (te_links topology).

Definition read_topology : SnapReader TopologyEvidence :=
  let* generation := sr_identity in
  let* captured_monotonic_ms := sr_u64 in
  let* synthetic := sr_boolean in
  let* nodes := sr_vector limits.kTopologyNodesMax sr_node in
  let* links := sr_vector limits.kTopologyLinksMax sr_link in
  p_ret (mkTopologyEvidence generation nodes links captured_monotonic_ms synthetic).

Definition sw_bucket (table : CongestionResponseTable) (index : nat) : list Z :=
  sw_u32 (array_at (crt_utilization_bps table) index) ++
  sw_u32 (array_at (crt_rate_numerator_per_mille table) index).
Definition sr_bucket : SnapReader (Z * Z) :=
  let* utilization_bps := sr_u32 in
  let* rate_numerator_per_mille := sr_u32 in
  p_ret (utilization_bps, rate_numerator_per_mille).

Definition sw_response_table (table : CongestionResponseTable) : list Z :=
  seq 0 kBucketCount ≫= sw_bucket table.
Definition sr_response_table : SnapReader CongestionResponseTable :=
  let* buckets := p_list sr_bucket kBucketCount in
  p_ret (mkCongestionResponseTable (fst <$> buckets) (snd <$> buckets)).

Definition sw_class_policy (entry : TrafficClassPolicy) : list Z :=
  sw_enumeration (tcp_traffic_class entry) ++ sw_u64 (tcp_priority entry) ++
  sw_u64 (tcp_minimum_bandwidth_bps entry) ++ sw_u64 (tcp_maximum_bandwidth_bps entry) ++
  sw_u64 (tcp_burst_bytes entry) ++ sw_boolean (tcp_requires_simultaneous_start entry) ++
  sw_boolean (tcp_requires_evidence_freshness entry) ++ sw_enumeration (tcp_isolation entry).
Definition sr_class_policy : SnapReader TrafficClassPolicy :=
  let* traffic_class := sr_enumeration 7 in
  let* priority := sr_u64 in
  let* minimum_bandwidth_bps := sr_u64 in
  let* maximum_bandwidth_bps := sr_u64 in
  let* burst_bytes := sr_u64 in
  let* requires_simultaneous_start := sr_boolean in
  let* requires_evidence_freshness := sr_boolean in
  let* isolation := sr_enumeration 2 in
  p_ret (mkTrafficClassPolicy traffic_class priority minimum_bandwidth_bps
           maximum_bandwidth_bps burst_bytes requires_simultaneous_start
           requires_evidence_freshness isolation).

Definition sw_collective_policy (entry : CollectiveClassPolicy) : list Z :=
  sw_enumeration (ccp_collective_class entry) ++ sw_enumeration (ccp_traffic_class entry) ++
  sw_boolean (ccp_admit_when_unknown_semantics entry) ++
  sw_boolean (ccp_allow_member_override entry) ++ sw_u64 (ccp_freshness_requirement_ms entry).
Definition sr_collective_policy : SnapReader CollectiveClassPolicy :=
  let* collective_class := sr_enumeration 14 in
  let* traffic_class := sr_enumeration 7 in
  let* admit_when_unknown_semantics := sr_boolean in
  let* allow_member_override := sr_boolean in
  let* freshness_requirement_ms := sr_u64 in
  p_ret (mkCollectiveClassPolicy collective_class traffic_class admit_when_unknown_semantics
           allow_member_override freshness_requirement_ms).

Definition write_policy (policy : TrafficPolicy) : list Z :=
  sw_identity (tp_generation policy) ++ sw_u64 (tp_default_maximum_bandwidth_bps policy) ++
  sw_u64 (tp_burst_multiplier_per_mille policy) ++
  sw_response_table (tp_congestion_response policy) ++
  sw_vector sw_class_policy (tp_class_policies policy) ++
  sw_vector sw_collective_policy (tp_collective_policies policy).

Definition read_policy : SnapReader TrafficPolicy :=
  let* generation := sr_identity in
  let* default_maximum_bandwidth_bps := sr_u64 in
  let* burst_multiplier_per_mille := sr_u64 in
  let* congestion_response := sr_response_table in
  let* class_policies := sr_vector 16 sr_class_policy in
  let* collective_policies := sr_vector 16 sr_collective_policy in
  p_ret (mkTrafficPolicy generation class_policies collective_policies congestion_response
           default_maximum_bandwidth_bps burst_multiplier_per_mille).

(** ** Snapshots *)
Definition kEnvelopeMagic : Z := 0x43544653.
Definition kSnapshotEnvelopeBytes : Z := 60.

Definition impossible (message : string) : Status :=
  mkStatus ErrorCode.kPersistenceImpossibleState message.
Definition corrupt (message : string) : Status :=
  mkStatus ErrorCode.kPersistenceCorrupt message.
Definition truncated (message : string) : Status :=
  mkStatus ErrorCode.kPersistenceTruncated message.

(** The checks before anything is written. *)
Definition refuse_policy (authority : DurableAuthority) : option Status :=
  if is_some (da_policy_generation authority) then
    let status := policy_validate (da_policy authority) in
    if negb (is_ok status) then
      Some (impossible (String.append "refusing to persist an invalid policy: "
                          (st_message status)))
    else None
  else None.

Definition refuse_topology (authority : DurableAuthority) : option Status :=
  if is_some (da_topology_generation authority) then
    let status := topology_validate (da_topology authority) in
    if negb (is_ok status) then
      Some (impossible (String.append "refusing to persist an invalid topology: "
                          (st_message status)))
    else None
  else None.

Definition refuse_record (record : CollectiveRecord) : option Status :=
  let definition := cr_definition record in
  if is_none (cd_id definition) || is_none (cd_generation definition) then
    Some (impossible "refusing to persist a collective without an identity or generation")
  else if zlen (cd_participants definition) =? 0 then
    Some (impossible "refusing to persist a collective with no participants")
  else if limits.kParticipantsMaxPerCollective <? zlen (cd_participants definition) then
    Some (impossible "refusing to persist a collective beyond the participant bound")
  else if bool_decide (cr_state record = CollectiveState.kUnregistered) then
    Some (impossible "refusing to persist an unregistered collective")
  else None.

Definition write_authority (authority : DurableAuthority) : list Z :=
  sw_identity (da_last_epoch authority) ++ sw_identity (da_policy_generation authority) ++
  sw_identity (da_topology_generation authority) ++ sw_u64 (da_restart_count authority) ++
  sw_boolean (is_some (da_topology_generation authority)) ++
  (if is_some (da_topology_generation authority)
   then write_topology (da_topology authority) else []) ++
  sw_boolean (is_some (da_policy_generation authority)) ++
  (if is_some (da_policy_generation authority)
   then write_policy (da_policy authority) else []).

Definition write_payload (contents : SnapshotContents) : list Z :=
  sw_u32 kSnapshotFormatVersion ++ sw_u64 (sc_written_monotonic_ms contents) ++
  write_authority (sc_authority contents) ++ sw_vector write_record (sc_records contents).

Definition write_envelope (written_monotonic_ms : Z) (payload : list Z) : list Z :=
  sw_u32 kEnvelopeMagic ++ sw_u32 kSnapshotFormatVersion ++ sw_u64 (zlen payload) ++
  sw_u32 (crc32 payload) ++ sw_u64 written_monotonic_ms ++ digest_payload payload.

Definition encode_snapshot (contents : SnapshotContents) : Result (list Z) :=
  match refuse_policy (sc_authority contents) with
  | Some failure => Fail failure
  | None =>
  match refuse_topology (sc_authority contents) with
  | Some failure => Fail failure
  | None =>
  if limits.kSnapshotCollectivesMax <? zlen (sc_records contents) then
    fail ErrorCode.kPersistenceTooLarge "snapshot holds more collectives than the format bound"
  else match check_each (fun _ => refuse_record) None (sc_records contents) with
  | Some failure => Fail failure
  | None =>
      let payload := write_payload contents in
      if limits.kSnapshotBytesMax <? zlen payload then
        fail ErrorCode.kPersistenceTooLarge "encoded snapshot exceeds the size bound"
      else
        let envelope := write_envelope (sc_written_monotonic_ms contents) payload in
        if negb (zlen envelope =? kSnapshotEnvelopeBytes) then
          fail ErrorCode.kInternalInvariant "snapshot envelope has an unexpected size"
        else Ok (envelope ++ payload)
  end end end.

(** A field whose failure is reported as [status]. *)
Definition sr_or {A} (status : Status) (p : SnapReader A) : Reader A :=
  fun bs => match p bs with inl _ => inl status | inr r => inr r end.

Definition incomplete : Status := truncated "snapshot payload is incomplete".

Definition read_topology_section (has_topology : bool) (generation : Identity)
    : Reader TopologyEvidence :=
  if has_topology then
    let* topology := sr_or (corrupt "snapshot topology section is malformed") read_topology in
    if negb (te_generation topology =i generation) then
      p_fail (impossible "snapshot topology generation disagrees with the durable record")
    else p_ret topology
  else if is_some generation then
    p_fail (impossible "snapshot claims a topology generation but carries no topology")
  else p_ret topology_default.

Definition read_policy_section (has_policy : bool) (generation : Identity)
    : Reader TrafficPolicy :=
  if has_policy then
    let* policy := sr_or (corrupt "snapshot policy section is malformed") read_policy in
    let status := policy_validate policy in
    if negb (is_ok status) then
      p_fail (impossible (String.append "snapshot policy is not usable: " (st_message status)))
    else if negb (tp_generation policy =i generation) then
      p_fail (impossible "snapshot policy generation disagrees with the durable record")
    else p_ret policy
  else if is_some generation then
    p_fail (impossible "snapshot claims a policy generation but carries no policy")
  else p_ret policy_default.

Definition read_authority : Reader DurableAuthority :=
  let* last_epoch := sr_or incomplete sr_identity in
  let* policy_generation := sr_or incomplete sr_identity in
  let* topology_generation := sr_or incomplete sr_identity in
  let* restart_count := sr_or incomplete sr_u64 in
  let* has_topology := sr_or incomplete sr_boolean in
  let* topology := read_topology_section has_topology topology_generation in
  let* has_policy := sr_or incomplete sr_boolean in
  let* policy := read_policy_section has_policy policy_generation in
  let status := topology_validate topology in
  if has_topology && negb (is_ok status) then
    p_fail (impossible (String.append "snapshot topology is not usable: " (st_message status)))
  else p_ret (mkDurableAuthority last_epoch policy_generation topology_generation topology
                policy restart_count).

Definition read_payload (written : Z) : Reader SnapshotContents :=
  let* format := sr_or incomplete sr_u32 in
  if negb (format =? kSnapshotFormatVersion) then
    p_fail (mkStatus ErrorCode.kPersistenceVersionUnsupported
              "snapshot payload version is not supported")
  else
  let* written_monotonic_ms := sr_or incomplete sr_u64 in
  if negb (written_monotonic_ms =? written) then
    p_fail (corrupt "snapshot envelope and payload disagree about the write time")
  else
  let* authority := read_authority in
  let* records := sr_or (corrupt "snapshot collective count is out of range")
                    (sr_count limits.kSnapshotCollectivesMax) in
  let* records := sr_or (corrupt "snapshot collective section is malformed")
                    (p_list read_record (Z.to_nat records)) in
  p_ret (mkSnapshotContents format written_monotonic_ms authority records).

Definition read_envelope : SnapReader (Z * Z * Z * Z * Z) :=
  let* magic := sr_u32 in
  let* version := sr_u32 in
  let* payload_bytes := sr_u64 in
  let* payload_crc := sr_u32 in
  let* written := sr_u64 in
  p_ret (magic, version, payload_bytes, payload_crc, written).

Definition decode_snapshot (bytes : list Z) : Result SnapshotContents :=
  if zlen bytes <? kSnapshotEnvelopeBytes then
    Fail (truncated "snapshot is shorter than its envelope")
  else if limits.kSnapshotBytesMax + kSnapshotEnvelopeBytes <? zlen bytes then
    fail ErrorCode.kPersistenceTooLarge "snapshot exceeds the size bound"
  else match read_envelope (take (Z.to_nat kSnapshotEnvelopeBytes) bytes) with
  | inl _ => Fail (truncated "snapshot envelope is incomplete")
  | inr ((magic, version, payload_bytes, payload_crc, written), envelope) =>
  if negb (magic =? kEnvelopeMagic) then
    Fail (corrupt "snapshot magic does not match this format")
  else if negb (version =? kSnapshotFormatVersion) then
    fail ErrorCode.kPersistenceVersionUnsupported "snapshot format version is not supported"
  else if limits.kSnapshotBytesMax <? payload_bytes then
    fail ErrorCode.kPersistenceTooLarge "snapshot payload exceeds the size bound"
  else if negb (payload_bytes =? zlen bytes - kSnapshotEnvelopeBytes) then
    Fail (truncated "snapshot payload length disagrees with the file size")
  else
  let payload := drop (Z.to_nat kSnapshotEnvelopeBytes) bytes in
  if negb (crc32 payload =? payload_crc) then
    fail ErrorCode.kPersistenceIntegrityMismatch "snapshot payload CRC32 does not match"
  else match p_list sr_u8 (Z.to_nat kDigestBytes) envelope with
  | inl _ => Fail (truncated "snapshot digest is incomplete")
  | inr (digest, _) =>
  if negb (bool_decide (digest = digest_payload payload)) then
    fail ErrorCode.kPersistenceIntegrityMismatch "snapshot digest does not match its payload"
  else match read_payload written payload with
  | inl status => Fail status
  | inr (contents, rest) =>
      if negb (zlen rest =? 0) then
        Fail (corrupt "snapshot payload carries trailing bytes")
      else Ok contents
  end end end.

(** ** SnapshotStore *)

(** The files by path. *)
Abbreviation FileSystem := (gmap string (list Z)).

(** What the calls of one [write_all] answer: whether [fopen] gave a file, how many bytes
    [fwrite] wrote, whether [fflush], [fclose] and [rename] succeeded, and whether the calls of
    [remove] on the path (Windows only) and on the temporary removed the file; their results
    are ignored. *)
Record WriteAnswers := mkWriteAnswers {
  wa_opened : bool;
  wa_written : Z;
  wa_flushed : bool;
  wa_closed : bool;
  wa_renamed : bool;
  wa_removed : bool;
  wa_cleaned : bool;
}.

Definition temporary_path (path : string) : string := String.append path ".tmp".

(** The file systems that the calls leave one after the other, and the status.  A crash leaves
    one of them.  [windows] is whether [_WIN32] is defined: there the file at the path is
    removed before the temporary is renamed. *)
Definition write_all (windows : bool) (fs : FileSystem) (path : string) (bytes : list Z)
    (os : WriteAnswers) : list FileSystem * Status :=
  let temporary := temporary_path path in
  let remove_temporary (fs : FileSystem) := if wa_cleaned os then delete temporary fs else fs in
  if negb (wa_opened os) then
    ([fs], mkStatus ErrorCode.kPersistenceOpenFailed
             "cannot open temporary snapshot file for writing")
  else
  let opened := <[temporary := []]> fs in
  let wrote := <[temporary := take (Z.to_nat (wa_written os)) bytes]> opened in
  if negb (zlen bytes =? 0) && negb (wa_written os =? zlen bytes) then
    ([fs; opened; wrote; remove_temporary wrote],
     mkStatus ErrorCode.kPersistenceWriteFailed "short write while persisting the snapshot")
  else if negb (wa_flushed os) then
    ([fs; opened; wrote; remove_temporary wrote],
     mkStatus ErrorCode.kPersistenceWriteFailed "flush failed while persisting the snapshot")
  else if negb (wa_closed os) then
    ([fs; opened; wrote; remove_temporary wrote],
     mkStatus ErrorCode.kPersistenceWriteFailed "close failed while persisting the snapshot")
  else
  let target := if windows && wa_removed os then delete path wrote else wrote in
  if negb (wa_renamed os) then
    ([fs; opened; wrote; target; remove_temporary target],
     mkStatus ErrorCode.kPersistenceRenameFailed
       "atomic replacement of the snapshot file failed")
  else
    ([fs; opened; wrote; target;
      <[path := default [] (target !! temporary)]> (delete temporary target)], status_ok).

Definition store_save (windows : bool) (fs : FileSystem) (path : string)
    (contents : SnapshotContents) (now_monotonic_ms : Z) (os : WriteAnswers)
    : list FileSystem * Status :=
  if slen path =? 0 then
    ([fs], mkStatus ErrorCode.kPersistenceDirectoryUnavailable "no snapshot path is configured")
  else
    let stamped := mkSnapshotContents (sc_format_version contents) now_monotonic_ms
                     (sc_authority contents) (sc_records contents) in
    match encode_snapshot stamped with
    | Fail status => ([fs], status)
    | Ok bytes => write_all windows fs path bytes os
    end.

Definition store_exists (fs : FileSystem) (path : string) : bool :=
  match fs !! path with Some _ => true | None => false end.

Definition kReadBufferBytes : Z := 64 * 1024.

(** The reading loop over what [fread] can deliver; [failed] is [ferror] at the end of it.
    Each round but the last takes a full buffer. *)
Fixpoint read_loop (fuel : nat) (readable : list Z) (failed : bool) (bytes : list Z)
    : option ((LoadDisposition * string) + list Z) :=
  match fuel with
  | O => None
  | S fuel' =>
      let chunk := take (Z.to_nat kReadBufferBytes) readable in
      if negb (zlen chunk =? 0) &&
         (limits.kSnapshotBytesMax + kSnapshotEnvelopeBytes <? zlen bytes + zlen chunk)
      then Some (inl (LoadDisposition.kRejectedOversized,
                      "snapshot file exceeds the size bound"))
      else
        let bytes := bytes ++ chunk in
        if zlen chunk <? kReadBufferBytes then
          if failed then Some (inl (LoadDisposition.kRejectedIo,
                                    "snapshot file could not be read completely"))
          else Some (inr bytes)
        else read_loop fuel' (drop (Z.to_nat kReadBufferBytes) readable) failed bytes
  end.

Definition disposition_of (code : ErrorCode) : LoadDisposition :=
  match code with
  | ErrorCode.kPersistenceTruncated => LoadDisposition.kRejectedTruncated
  | ErrorCode.kPersistenceIntegrityMismatch => LoadDisposition.kRejectedIntegrity
  | ErrorCode.kPersistenceVersionUnsupported => LoadDisposition.kRejectedVersion
  | ErrorCode.kPersistenceTooLarge => LoadDisposition.kRejectedOversized
  | ErrorCode.kPersistenceImpossibleState => LoadDisposition.kRejectedImpossible
  | _ => LoadDisposition.kRejectedCorrupt
  end.

(** [io_error]: the bytes that were read before a read error, when there was one.  The answer
    is the disposition, the contents when they were loaded, and the diagnostic. *)
Definition store_load (fs : FileSystem) (path : string) (io_error : option nat)
    : option (LoadDisposition * option SnapshotContents * string) :=
  if slen path =? 0 then
    Some (LoadDisposition.kRejectedIo, None, "no snapshot path is configured")
  else match fs !! path with
  | None => Some (LoadDisposition.kMissing, None, "snapshot file is absent")
  | Some file =>
      let readable := match io_error with Some n => take n file | None => file end in
      let failed := match io_error with Some _ => true | None => false end in
      match read_loop (S (length file)) readable failed [] with
      | None => None
      | Some (inl (disposition, diagnostic)) => Some (disposition, None, diagnostic)
      | Some (inr bytes) =>
          Some match decode_snapshot bytes with
          | Fail status => (disposition_of (st_code status), None, st_message status)
          | Ok contents => (LoadDisposition.kLoaded, Some contents, "")
          end
      end
  end.

(** ** Laws of the fields *)
#[export] Instance sr_u8_encodes : Encodes sr_u8 sw_u8 is_u8 (fun v => v).
Proof.
  intros v rest Hv. unfold sr_u8.
  by eapply bind_run; [apply (take_encodes () 1)|reflexivity|..].
Qed.
#[export] Instance sr_u8_decodes : Decodes sr_u8 sw_u8 is_u8 (fun v => v).
Proof.
  intros bs v rest Hbs Hp. unfold sr_u8 in Hp.
  destruct (bind_inv (p_take () (Z.of_nat 1)) _ _ _ _ _ _ _ Hbs Hp)
    as (data & bs' & [Hl Hd] & -> & _ & Hr).
  destruct data as [|b [|]]; try done. unfold p_ret in Hr. simplify_eq/=. exists v.
  by apply Forall_cons in Hd as [Hd _].
Qed.
#[export] Instance sr_u32_encodes : Encodes sr_u32 sw_u32 is_u32 (fun v => v).
Proof. apply (word_encodes _ 4 w32), w32_small. Qed.
#[export] Instance sr_u32_decodes : Decodes sr_u32 sw_u32 is_u32 (fun v => v).
Proof. apply (word_decodes _ 4 w32), w32_small. Qed.
#[export] Instance sr_u64_encodes : Encodes sr_u64 sw_u64 is_u64 (fun v => v).
Proof. apply (word_encodes _ 8 w64), w64_small. Qed.
#[export] Instance sr_u64_decodes : Decodes sr_u64 sw_u64 is_u64 (fun v => v).
Proof. apply (word_decodes _ 8 w64), w64_small. Qed.

#[export] Instance sr_boolean_encodes :
  Encodes sr_boolean sw_boolean (fun _ => True) (fun v => v).
Proof. intros v rest _. unfold sr_boolean, sw_boolean. by destruct v; run_fields. Qed.
#[export] Instance sr_boolean_decodes :
  Decodes sr_boolean sw_boolean (fun _ => True) (fun v => v).
Proof.
  intros bs b rest Hbs Hp. unfold sr_boolean in Hp. inv_fields Hbs Hp.
  eexists. split_and!; [done|reflexivity|]. unfold sw_boolean. f_equal. f_equal.
  bool_prop. unfold is_u8 in *. destruct (Z.eqb_spec x 1); lia.
Qed.
#[export] Instance sr_identity_encodes : Encodes sr_identity sw_identity id_wf (fun v => v).
Proof. intros [h l] rest [Hh Hl]. unfold sr_identity, sw_identity. simpl in *. by run_fields. Qed.
#[export] Instance sr_identity_decodes : Decodes sr_identity sw_identity id_wf (fun v => v).
Proof.
  intros bs b rest Hbs Hp. unfold sr_identity in Hp. inv_fields Hbs Hp.
  exists (mkIdentity x x0). unfold sw_identity. by rewrite <- app_assoc.
Qed.
#[export] Instance sr_count_encodes max `{!Bound32 max} :
  Encodes (sr_count max) sw_u32 (fun n => 0 ≤ n ≤ max) (fun v => v).
Proof. intros n rest Hn. unfold sr_count, Bound32 in *. by run_fields. Qed.
#[export] Instance sr_count_decodes max :
  Decodes (sr_count max) sw_u32 (fun n => 0 ≤ n ≤ max) (fun v => v).
Proof.
  intros bs b rest Hbs Hp. unfold sr_count in Hp. inv_fields Hbs Hp.
  exists x. bool_prop. unfold is_u32 in *. split_and!; (done || lia).
Qed.

(** Text that fits is written whole. *)
Lemma sw_text_fits max s :
  Bound32 max → slen s ≤ max → sw_text max s = sw_u32 (slen s) ++ string_bytes s.
Proof.
  intros Hm Hs. unfold sw_text. rewrite (proj2 (Z.ltb_ge _ _)) by done.
  rewrite (w32_slen_small max) by done. rewrite <- string_bytes_length. unfold zlen.
  by rewrite Nat2Z.id, firstn_all.
Qed.
#[export] Instance sr_text_encodes max `{!Bound32 max} :
  Encodes (sr_text max) (sw_text max) (fun s => slen s ≤ max) (fun v => v).
Proof.
  intros s rest Hs. unfold sr_text. rewrite sw_text_fits by done. unfold Bound32 in *.
  assert (0 ≤ slen s) by (unfold slen; lia). rewrite <- app_assoc. do 2 run_step.
  rewrite <- string_bytes_length. unfold zlen.
  eapply bind_run; [apply take_encodes|reflexivity|done|]. unfold p_ret.
  by rewrite bytes_string_bytes.
Qed.
#[export] Instance sr_text_decodes max `{!Bound32 max} :
  Decodes (sr_text max) (sw_text max) (fun s => slen s ≤ max) (fun v => v).
Proof.
  intros bs b rest Hbs Hp. unfold sr_text in Hp. do 2 inv_step Hbs Hp. bool_prop.
  unfold is_u32 in *. rewrite <- (Z2Nat.id x) in Hp by lia.
  destruct (bind_inv _ _ _ _ _ _ _ _ Hbs Hp) as (data & bs' & [Hl Hd] & -> & _ & Hr).
  unfold p_ret in Hr. simplify_eq. exists (bytes_string data).
  assert (slen (bytes_string data) = x) as Hx
    by (rewrite bytes_string_length; unfold zlen; lia).
  rewrite sw_text_fits, Hx, string_bytes_string by (done || lia).
  split_and!; [lia | done | by rewrite <- app_assoc].
Qed.

Lemma sr_vector_norm_encodes {A} max (p : SnapReader A) enc valid norm
    `{!Bound32 max, !Encodes p enc valid norm} :
  Encodes (sr_vector max p) (sw_vector enc)
    (fun l => zlen l ≤ max ∧ Forall valid l) (fmap norm).
Proof.
  intros l rest [Hl Hv]. unfold sr_vector, sw_vector.
  rewrite (w32_zlen_small max) by done. pose proof (zlen_nonneg l). rewrite <- app_assoc.
  run_step. apply (list_norm_encodes p enc valid norm). split; [unfold zlen; lia|done].
Qed.
Lemma sr_vector_norm_decodes {A} max (p : SnapReader A) enc valid norm
    `{!Bound32 max, !Decodes p enc valid norm} :
  Decodes (sr_vector max p) (sw_vector enc)
    (fun l => zlen l ≤ max ∧ Forall valid l) (fmap norm).
Proof.
  intros bs b rest Hbs Hp. unfold sr_vector in Hp. inv_step Hbs Hp.
  apply (list_norm_decodes p enc valid norm) in Hp as (l & [Hl HF] & -> & ->); [|done].
  exists l. assert (zlen l = x) as Hx by (unfold zlen; lia). unfold sw_vector.
  rewrite (w32_zlen_small max), Hx by (done || lia).
  split_and!; [lia | done | done | by rewrite <- app_assoc].
Qed.
#[export] Instance sr_vector_encodes {A} max (p : SnapReader A) enc valid
    `{!Bound32 max, !Encodes p enc valid (fun a => a)} :
  Encodes (sr_vector max p) (sw_vector enc)
    (fun l => zlen l ≤ max ∧ Forall valid l) (fun l => l).
Proof.
  intros l rest Hl. rewrite (sr_vector_norm_encodes max p enc valid _ l rest Hl).
  do 2 f_equal. apply list_fmap_id.
Qed.
#[export] Instance sr_vector_decodes {A} max (p : SnapReader A) enc valid
    `{!Bound32 max, !Decodes p enc valid (fun a => a)} :
  Decodes (sr_vector max p) (sw_vector enc)
    (fun l => zlen l ≤ max ∧ Forall valid l) (fun l => l).
Proof.
  intros bs b rest Hbs Hp.
  destruct (sr_vector_norm_decodes max p enc valid _ bs b rest Hbs Hp) as (l & Hl & -> & ->).
  exists l. split; [done|]. split; [apply list_fmap_id|done].
Qed.

#[export] Instance sr_enumeration_encodes {A} `{WireEnum A, Inhabited A} max
    `{!EnumRange A max} :
  Encodes (sr_enumeration max) sw_enumeration (fun _ => True) (fun v : A => v).
Proof.
  intros v rest _. unfold sr_enumeration, sw_enumeration.
  pose proof (enum_range_raw v). pose proof enum_range_u8. run_fields.
  by rewrite enum_cast_raw.
Qed.
#[export] Instance sr_enumeration_decodes {A} `{WireEnum A, Inhabited A} max
    `{!EnumRange A max} :
  Decodes (sr_enumeration max) sw_enumeration (fun _ => True) (fun v : A => v).
Proof.
  intros bs b rest Hbs Hp. unfold sr_enumeration in Hp. inv_fields Hbs Hp. bool_prop.
  unfold is_u8 in *. exists (enum_cast x). unfold sw_enumeration.
  by rewrite (enum_raw_cast max) by lia.
Qed.

(** ** Laws of the structures *)
#[export] Instance sr_metadata_entry_encodes :
  Encodes sr_metadata_entry sw_metadata_entry entry_fits (fun v => v).
Proof. encodes_record sr_metadata_entry sw_metadata_entry entry_fits. Qed.
#[export] Instance sr_metadata_entry_decodes :
  Decodes sr_metadata_entry sw_metadata_entry entry_fits (fun v => v).
Proof. decodes_record sr_metadata_entry sw_metadata_entry entry_fits. Qed.

#[export] Instance read_metadata_encodes :
  Encodes read_metadata write_metadata entries_fit metadata_norm.
Proof.
  intros m rest [Hl Hf]. unfold read_metadata, write_metadata, sw_vector.
  rewrite (w32_zlen_small limits.kMetadataEntriesMax) by (done || apply _).
  pose proof (zlen_nonneg m). rewrite <- app_assoc. run_step.
  apply (fold_encodes sr_metadata_entry sw_metadata_entry entry_fits metadata_add _).
  split; [unfold zlen; lia|]. split; [|by apply fold_metadata_fits].
  eapply Forall_impl; [exact Hf|]. intros e [[_ ?] ?]. by split.
Qed.
#[export] Instance read_metadata_decodes :
  Decodes read_metadata write_metadata entries_fit metadata_norm.
Proof.
  intros bs b rest Hbs Hp. unfold read_metadata in Hp. inv_step Hbs Hp.
  destruct (fold_decodes sr_metadata_entry sw_metadata_entry entry_fits metadata_add
    _ _ _ _ _ Hbs Hp) as (m & (Hn & Hf & Hs) & -> & ->).
  assert (zlen m = x) as Hx by (unfold zlen; lia). exists m.
  apply fold_metadata_keys in Hs. split; [|split; [done|]].
  - split; [lia|]. rewrite Forall_forall in Hf, Hs |- *. intros e He.
    destruct (Hf e He). specialize (Hs e He). done.
  - unfold write_metadata, sw_vector.
    rewrite (w32_zlen_small limits.kMetadataEntriesMax), Hx by (apply _ || lia).
    by rewrite <- app_assoc.
Qed.

#[export] Instance sr_phase_encodes : Encodes sr_phase sw_phase phase_fits (fun v => v).
Proof. encodes_record sr_phase sw_phase phase_fits. Qed.
#[export] Instance sr_phase_decodes : Decodes sr_phase sw_phase phase_fits (fun v => v).
Proof. decodes_record sr_phase sw_phase phase_fits. Qed.
#[export] Instance sr_step_encodes : Encodes sr_step sw_step step_fits (fun v => v).
Proof. encodes_record sr_step sw_step step_fits. Qed.
#[export] Instance sr_step_decodes : Decodes sr_step sw_step step_fits (fun v => v).
Proof. decodes_record sr_step sw_step step_fits. Qed.

(** As on the wire, but a stored definition may be read back without participants: the
    catalog, not the reader, refuses it. *)
Definition stored_definition_fits (d : CollectiveDefinition) : Prop :=
  id_wf (cd_id d) ∧ id_wf (cd_generation d) ∧ slen (cd_label d) ≤ limits.kLabelBytesMax ∧
  id_wf (cd_origin_node d) ∧ id_wf (cd_fabric d) ∧
  (zlen (cd_participants d) ≤ limits.kParticipantsMaxPerCollective ∧
   Forall id_wf (cd_participants d)) ∧
  (zlen (cd_phases d) ≤ limits.kPhasesMaxPerCollective ∧ Forall phase_fits (cd_phases d)) ∧
  (zlen (cd_steps d) ≤ limits.kPhasesMaxPerCollective * limits.kStepsMaxPerPhase ∧
   Forall step_fits (cd_steps d)) ∧
  entries_fit (cd_metadata d) ∧ is_u64 (cd_logical_bytes d) ∧
  is_u64 (cd_registration_sequence d).

#[export] Instance read_definition_encodes :
  Encodes read_definition write_definition stored_definition_fits definition_norm.
Proof. encodes_record read_definition write_definition stored_definition_fits. Qed.
#[export] Instance read_definition_decodes :
  Decodes read_definition write_definition stored_definition_fits definition_norm.
Proof.
  decodes_record read_definition write_definition stored_definition_fits
    as (mkCollectiveDefinition _ _ _ _ _ _ _ _ _ _ _ _ _ _ _).
Qed.

Definition stored_record_fits (r : CollectiveRecord) : Prop :=
  stored_definition_fits (cr_definition r) ∧ id_wf (cr_current_attempt r) ∧
  is_u64 (cr_attempt_transfer_bytes r) ∧ is_u64 (cr_attempt_sequence r) ∧
  is_u64 (cr_registration_sequence r) ∧ is_u64 (cr_last_mutation_sequence r) ∧
  is_u64 (cr_registered_monotonic_ms r) ∧ is_u64 (cr_last_mutated_monotonic_ms r) ∧
  is_u32 (cr_generation_ancestry_depth r).
Definition stored_record_norm (r : CollectiveRecord) : CollectiveRecord :=
  r <| cr_definition ::= definition_norm |>.

#[export] Instance read_record_encodes :
  Encodes read_record write_record stored_record_fits stored_record_norm.
Proof. encodes_record read_record write_record stored_record_fits. Qed.
#[export] Instance read_record_decodes :
  Decodes read_record write_record stored_record_fits stored_record_norm.
Proof.
  decodes_record read_record write_record stored_record_fits
    as (mkCollectiveRecord _ _ _ _ _ _ _ _ _ _).
Qed.

#[export] Instance sr_node_encodes : Encodes sr_node sw_node node_fits (fun v => v).
Proof. encodes_record sr_node sw_node node_fits. Qed.
#[export] Instance sr_node_decodes : Decodes sr_node sw_node node_fits (fun v => v).
Proof. decodes_record sr_node sw_node node_fits. Qed.
#[export] Instance sr_link_encodes : Encodes sr_link sw_link link_fits (fun v => v).
Proof. encodes_record sr_link sw_link link_fits. Qed.
#[export] Instance sr_link_decodes : Decodes sr_link sw_link link_fits (fun v => v).
Proof. decodes_record sr_link sw_link link_fits. Qed.
#[export] Instance read_topology_encodes :
  Encodes read_topology write_topology topology_fits (fun v => v).
Proof. encodes_record read_topology write_topology topology_fits. Qed.
#[export] Instance read_topology_decodes :
  Decodes read_topology write_topology topology_fits (fun v => v).
Proof. decodes_record read_topology write_topology topology_fits. Qed.

Definition sw_bucket_pair (b : Z * Z) : list Z := sw_u32 b.1 ++ sw_u32 b.2.
#[export] Instance sr_bucket_encodes :
  Encodes sr_bucket sw_bucket_pair bucket_pair_fits (fun v => v).
Proof. encodes_record sr_bucket sw_bucket_pair bucket_pair_fits. Qed.
#[export] Instance sr_bucket_decodes :
  Decodes sr_bucket sw_bucket_pair bucket_pair_fits (fun v => v).
Proof. decodes_record sr_bucket sw_bucket_pair bucket_pair_fits. Qed.
#[export] Instance sr_response_table_encodes :
  Encodes sr_response_table sw_response_table table_fits (fun v => v).
Proof.
  intros t rest (l & -> & Hl & Hf)%table_pairs.
  change (sw_response_table (mkCongestionResponseTable l.*1 l.*2))
    with (writer_response_table (mkCongestionResponseTable l.*1 l.*2)).
  rewrite writer_response_table_pairs by done.
  change (l ≫= writer_bucket_pair) with (l ≫= sw_bucket_pair).
  unfold sr_response_table. by run_fields.
Qed.
#[export] Instance sr_response_table_decodes :
  Decodes sr_response_table sw_response_table table_fits (fun v => v).
Proof.
  intros bs b rest Hbs Hp. unfold sr_response_table in Hp. inv_fields Hbs Hp.
  destruct_and?. eexists. split; [|split; [reflexivity|]].
  - unfold table_fits. cbn. rewrite !length_fmap, !Forall_fmap.
    split_and!; try done; (eapply Forall_impl; [eassumption|]); by intros [] [].
  - change sw_response_table with writer_response_table.
    by rewrite writer_response_table_pairs.
Qed.

#[export] Instance sr_class_policy_encodes :
  Encodes sr_class_policy sw_class_policy class_policy_fits (fun v => v).
Proof. encodes_record sr_class_policy sw_class_policy class_policy_fits. Qed.
#[export] Instance sr_class_policy_decodes :
  Decodes sr_class_policy sw_class_policy class_policy_fits (fun v => v).
Proof. decodes_record sr_class_policy sw_class_policy class_policy_fits. Qed.
#[export] Instance sr_collective_policy_encodes :
  Encodes sr_collective_policy sw_collective_policy collective_policy_fits (fun v => v).
Proof. encodes_record sr_collective_policy sw_collective_policy collective_policy_fits. Qed.
#[export] Instance sr_collective_policy_decodes :
  Decodes sr_collective_policy sw_collective_policy collective_policy_fits (fun v => v).
Proof. decodes_record sr_collective_policy sw_collective_policy collective_policy_fits. Qed.
#[export] Instance read_policy_encodes :
  Encodes read_policy write_policy policy_fits (fun v => v).
Proof. encodes_record read_policy write_policy policy_fits. Qed.
#[export] Instance read_policy_decodes :
  Decodes read_policy write_policy policy_fits (fun v => v).
Proof. decodes_record read_policy write_policy policy_fits. Qed.

(** ** Laws of the payload *)
#[export] Instance sr_or_encodes {A} status (p : SnapReader A) enc valid norm
    `{!Encodes p enc valid norm} : Encodes (sr_or status p) enc valid norm.
Proof. intros a rest Hv. unfold sr_or. by rewrite encodes_run. Qed.
#[export] Instance sr_or_decodes {A} status (p : SnapReader A) enc valid norm
    `{!Decodes p enc valid norm} : Decodes (sr_or status p) enc valid norm.
Proof.
  intros bs b rest Hbs. unfold sr_or. destruct (p bs) as [|r] eqn:E; [done|]. intros [= ->].
  by apply (decodes_inv (p := p)).
Qed.

(** A section is present exactly when the record states its generation; then it has that
    generation and is valid. *)
Definition topology_section (generation : Identity) (t : TopologyEvidence) : Prop :=
  generation ≠ id_none →
  topology_fits t ∧ te_generation t = generation ∧ is_ok (topology_validate t) = true.
Definition policy_section (generation : Identity) (p : TrafficPolicy) : Prop :=
  generation ≠ id_none →
  policy_fits p ∧ tp_generation p = generation ∧ is_ok (policy_validate p) = true.

Definition authority_fits (a : DurableAuthority) : Prop :=
  id_wf (da_last_epoch a) ∧ id_wf (da_policy_generation a) ∧
  id_wf (da_topology_generation a) ∧ is_u64 (da_restart_count a) ∧
  topology_section (da_topology_generation a) (da_topology a) ∧
  policy_section (da_policy_generation a) (da_policy a).
Definition authority_norm (a : DurableAuthority) : DurableAuthority :=
  mkDurableAuthority (da_last_epoch a) (da_policy_generation a) (da_topology_generation a)
    (if is_some (da_topology_generation a) then da_topology a else topology_default)
    (if is_some (da_policy_generation a) then da_policy a else policy_default)
    (da_restart_count a).

Lemma is_some_false i : is_some i = false ↔ i = id_none.
Proof.
  destruct (decide (i = id_none)) as [->|H]; [by split|].
  split; [|done]. apply is_some_neq in H. congruence.
Qed.

Lemma read_topology_section_run generation t rest :
  topology_section generation t →
  read_topology_section (is_some generation) generation
    ((if is_some generation then write_topology t else []) ++ rest) =
  inr (if is_some generation then t else topology_default, rest).
Proof.
  intros Hs. unfold read_topology_section. destruct (is_some generation) eqn:E; [|done].
  apply is_some_neq in E. destruct (Hs E) as (Hf & Hg & _). run_step.
  by rewrite (proj2 (id_eqb_eq _ _) Hg).
Qed.
Lemma read_policy_section_run generation p rest :
  policy_section generation p →
  read_policy_section (is_some generation) generation
    ((if is_some generation then write_policy p else []) ++ rest) =
  inr (if is_some generation then p else policy_default, rest).
Proof.
  intros Hs. unfold read_policy_section. destruct (is_some generation) eqn:E; [|done].
  apply is_some_neq in E. destruct (Hs E) as (Hf & Hg & Hv). run_step.
  by rewrite Hv, (proj2 (id_eqb_eq _ _) Hg).
Qed.

#[export] Instance read_authority_encodes :
  Encodes read_authority write_authority authority_fits authority_norm.
Proof.
  intros a rest (He & Hp & Ht & Hr & Hts & Hps). unfold read_authority, write_authority.
  rewrite <- ?app_assoc. do 5 run_step.
  unfold p_bind at 1. rewrite read_topology_section_run by done. run_step.
  unfold p_bind at 1. rewrite read_policy_section_run by done.
  assert (is_some (da_topology_generation a) &&
    negb (is_ok (topology_validate (if is_some (da_topology_generation a) then da_topology a
      else topology_default))) = false) as ->; [|done].
  destruct (is_some _) eqn:E; [|done]. apply is_some_neq in E.
  by destruct (Hts E) as (_ & _ & ->).
Qed.

Lemma read_topology_section_inv has generation bs t rest :
  byte_string bs → read_topology_section has generation bs = inr (t, rest) →
  (has = true ∧ topology_fits t ∧ te_generation t = generation ∧ bs = write_topology t ++ rest) ∨
  (has = false ∧ generation = id_none ∧ t = topology_default ∧ bs = rest).
Proof.
  intros Hbs Hp. unfold read_topology_section in Hp. destruct has.
  - left. inv_fields Hbs Hp. bool_prop. by apply id_eqb_eq in Hc.
  - right. destruct (is_some generation) eqn:E; [done|]. apply is_some_false in E.
    unfold p_ret in Hp. by simplify_eq.
Qed.
Lemma read_policy_section_inv has generation bs p rest :
  byte_string bs → read_policy_section has generation bs = inr (p, rest) →
  (has = true ∧ policy_fits p ∧ tp_generation p = generation ∧
   is_ok (policy_validate p) = true ∧ bs = write_policy p ++ rest) ∨
  (has = false ∧ generation = id_none ∧ p = policy_default ∧ bs = rest).
Proof.
  intros Hbs Hp. unfold read_policy_section in Hp. destruct has.
  - left. inv_fields Hbs Hp. bool_prop. by apply id_eqb_eq in Hc0.
  - right. destruct (is_some generation) eqn:E; [done|]. apply is_some_false in E.
    unfold p_ret in Hp. by simplify_eq.
Qed.

Lemma policy_validate_generation p :
  is_ok (policy_validate p) = true → tp_generation p ≠ id_none.
Proof.
  unfold policy_validate. destruct (is_none _) eqn:E; [done|]. intros _. by apply is_none_neq.
Qed.

#[export] Instance read_authority_decodes :
  Decodes read_authority write_authority authority_fits authority_norm.
Proof.
  intros bs b rest Hbs Hp. unfold read_authority in Hp. do 5 inv_step Hbs Hp.
  unfold p_bind at 1 in Hp. destruct (read_topology_section _ _ _) as [|[t bs1]] eqn:Et; [done|].
  apply read_topology_section_inv in Et; [|done].
  assert (byte_string bs1) as Hbs1.
  { destruct Et as [(_ & _ & _ & ->)|(_ & _ & _ & ->)]; [|done].
    by apply Forall_app in Hbs as [_ ?]. }
  inv_step Hbs1 Hp.
  unfold p_bind at 1 in Hp. destruct (read_policy_section _ _ _) as [|[p bs2]] eqn:Ep; [done|].
  apply read_policy_section_inv in Ep; [|done].
  destruct (x3 && negb (is_ok (topology_validate t))) eqn:Ev; [done|].
  unfold p_ret in Hp. injection Hp as <- <-.
  exists (mkDurableAuthority x x0 x1 t p x2). unfold authority_fits, authority_norm, write_authority.
  cbn [da_last_epoch da_policy_generation da_topology_generation da_topology da_policy
       da_restart_count].
  assert (is_some x1 = x3 ∧ topology_section x1 t ∧
    (if is_some x1 then t else topology_default) = t) as (Ex3 & Hts & Etd).
  { destruct Et as [(-> & Hf & Hg & _)|(-> & -> & -> & _)]; [|by unfold topology_section].
    rewrite andb_true_l, negb_false_iff in Ev.
    assert (is_some x1 = true) as ->; [|by split; [|split; [by intros _|]]].
    apply is_some_neq. rewrite <- Hg. by apply topology_validate_ok in Ev as [? _]. }
  assert (is_some x0 = x4 ∧ policy_section x0 p ∧
    (if is_some x0 then p else policy_default) = p) as (Ex4 & Hps & Epd).
  { destruct Ep as [(-> & Hf & Hg & Hv' & _)|(-> & -> & -> & _)]; [|by unfold policy_section].
    assert (is_some x0 = true) as ->; [|by split; [|split; [by intros _|]]].
    apply is_some_neq. rewrite <- Hg. by apply policy_validate_generation. }
  split; [by split_and!|]. rewrite Etd, Epd. split; [done|]. rewrite Ex3, Ex4.
  destruct Et as [(-> & _ & _ & ->)|(-> & _ & _ & ->)];
    destruct Ep as [(-> & _ & _ & _ & ->)|(-> & _ & _ & ->)]; by rewrite <- ?app_assoc.
Qed.

Definition contents_fits (c : SnapshotContents) : Prop :=
  is_u64 (sc_written_monotonic_ms c) ∧ authority_fits (sc_authority c) ∧
  zlen (sc_records c) ≤ limits.kSnapshotCollectivesMax ∧
  Forall stored_record_fits (sc_records c).
Definition contents_norm (c : SnapshotContents) : SnapshotContents :=
  mkSnapshotContents kSnapshotFormatVersion (sc_written_monotonic_ms c)
    (authority_norm (sc_authority c)) (stored_record_norm <$> sc_records c).

#[local] Instance records_encodes n :
  Encodes (p_list read_record n) (mbind write_record)
    (fun l => length l = n ∧ Forall stored_record_fits l) (fmap stored_record_norm).
Proof. apply list_norm_encodes, _. Qed.
#[local] Instance records_decodes n :
  Decodes (p_list read_record n) (mbind write_record)
    (fun l => length l = n ∧ Forall stored_record_fits l) (fmap stored_record_norm).
Proof. apply list_norm_decodes, _. Qed.

Lemma read_payload_run c rest :
  contents_fits c →
  read_payload (sc_written_monotonic_ms c) (write_payload c ++ rest) =
  inr (contents_norm c, rest).
Proof.
  intros (Hw & Ha & Hl & Hf). unfold read_payload, write_payload, sw_vector.
  rewrite (w32_zlen_small limits.kSnapshotCollectivesMax) by (done || apply _).
  rewrite <- ?app_assoc. pose proof (zlen_nonneg (sc_records c)).
  refine (bind_run _ _ _ _ _ _ _ _ _ _ _ _); [reflexivity|done|].
  rewrite Z.eqb_refl. cbn [negb]. run_step. rewrite Z.eqb_refl. cbn [negb]. do 2 run_step.
  refine (bind_run _ _ _ _ _ _ _ _ _ _ _ _); [reflexivity| |done].
  split; [unfold zlen; lia|done].
Qed.

Lemma read_payload_inv written bs c rest :
  byte_string bs → read_payload written bs = inr (c, rest) →
  ∃ c0, contents_fits c0 ∧ sc_written_monotonic_ms c0 = written ∧ c = contents_norm c0 ∧
    bs = write_payload c0 ++ rest.
Proof.
  intros Hbs Hp. unfold read_payload in Hp. inv_fields Hbs Hp. bool_prop. subst.
  destruct Hv3 as [Hl Hf]. assert (zlen x3 = x2) as Hx by (unfold zlen; lia).
  exists (mkSnapshotContents kSnapshotFormatVersion written x1 x3).
  unfold contents_fits, contents_norm, write_payload, sw_vector.
  cbn [sc_written_monotonic_ms sc_authority sc_records sc_format_version].
  rewrite (w32_zlen_small limits.kSnapshotCollectivesMax), Hx by (apply _ || lia).
  split_and!; try done; [lia|]. by rewrite <- ?app_assoc.
Qed.

(** ** The file *)
Definition snapshot_bytes (c : SnapshotContents) : list Z :=
  write_envelope (sc_written_monotonic_ms c) (write_payload c) ++ write_payload c.

Lemma write_envelope_length written payload :
  length (write_envelope written payload) = 60%nat.
Proof.
  unfold write_envelope, sw_u32, sw_u64.
  by rewrite !length_app, !put_le_length, digest_payload_length.
Qed.

Lemma read_envelope_run written payload :
  is_u64 written → is_u64 (zlen payload) →
  read_envelope (write_envelope written payload) =
  inr ((kEnvelopeMagic, kSnapshotFormatVersion, zlen payload, crc32 payload, written),
       digest_payload payload).
Proof.
  intros Hw Hl. pose proof (crc32_range payload) as Hc.
  unfold read_envelope, write_envelope. generalize dependent (crc32 payload).
  intros crc Hc. by run_fields.
Qed.

Lemma bind_sw_u8 l : l ≫= sw_u8 = l.
Proof. induction l as [|b l IH]; [done|]. cbn. by rewrite IH. Qed.

Lemma read_digest_run payload :
  p_list sr_u8 (Z.to_nat kDigestBytes) (digest_payload payload) =
  inr (digest_payload payload, []).
Proof.
  rewrite <- (app_nil_r (digest_payload payload)) at 1.
  rewrite <- (bind_sw_u8 (digest_payload payload)) at 1.
  apply (list_encodes sr_u8 sw_u8 is_u8). rewrite digest_payload_length.
  split; [done|apply digest_payload_bytes].
Qed.

Lemma envelope_split written payload :
  take (Z.to_nat kSnapshotEnvelopeBytes) (write_envelope written payload ++ payload) =
    write_envelope written payload ∧
  drop (Z.to_nat kSnapshotEnvelopeBytes) (write_envelope written payload ++ payload) = payload.
Proof.
  change (Z.to_nat kSnapshotEnvelopeBytes) with 60%nat.
  rewrite <- (write_envelope_length written payload).
  by rewrite take_app_length, drop_app_length.
Qed.

Lemma decode_snapshot_run c :
  contents_fits c → zlen (write_payload c) ≤ limits.kSnapshotBytesMax →
  decode_snapshot (snapshot_bytes c) = Ok (contents_norm c).
Proof.
  intros Hc Hl. unfold decode_snapshot, snapshot_bytes. pose proof (proj1 Hc) as Hw.
  pose proof (read_payload_run c [] Hc) as Hr. rewrite app_nil_r in Hr. revert Hr Hl.
  generalize (write_payload c) as payload, (contents_norm c) as c',
    (sc_written_monotonic_ms c) as written, Hw. clear. intros payload c' written Hw Hr Hl.
  assert (zlen (write_envelope written payload ++ payload) = 60 + zlen payload) as Hlen
    by (rewrite zlen_app; unfold zlen at 1; by rewrite write_envelope_length).
  pose proof (zlen_nonneg payload). rewrite Hlen. unfold kSnapshotEnvelopeBytes at 1 2 4.
  rewrite !(proj2 (Z.ltb_ge _ _)) by lia.
  destruct (envelope_split written payload) as [-> ->].
  rewrite read_envelope_run by (done || (unfold is_u64, limits.kSnapshotBytesMax in *; lia)).
  rewrite !Z.eqb_refl. cbn [negb]. rewrite (proj2 (Z.ltb_ge _ _)) by lia.
  rewrite (proj2 (Z.eqb_eq _ _)) by lia. cbn [negb].
  rewrite read_digest_run, bool_decide_eq_true_2 by done. cbn [negb]. by rewrite Hr.
Qed.

Lemma read_envelope_inv bs magic version size crc written rest :
  byte_string bs → read_envelope bs = inr ((magic, version, size, crc, written), rest) →
  bs = sw_u32 magic ++ sw_u32 version ++ sw_u64 size ++ sw_u32 crc ++ sw_u64 written ++ rest ∧
  byte_string rest ∧ is_u32 crc.
Proof.
  intros Hbs Hp. unfold read_envelope in Hp. do 5 inv_step Hbs Hp. unfold p_ret in Hp.
  by simplify_eq.
Qed.

Lemma read_digest_inv bs digest rest :
  byte_string bs → p_list sr_u8 (Z.to_nat kDigestBytes) bs = inr (digest, rest) →
  bs = digest ++ rest ∧ length digest = 32%nat.
Proof.
  intros Hbs Hp.
  destruct (list_decodes sr_u8 sw_u8 is_u8 _ _ _ _ Hbs Hp) as (l & [Hl _] & -> & ->).
  by rewrite bind_sw_u8.
Qed.

Lemma decode_snapshot_inv bytes c :
  byte_string bytes → decode_snapshot bytes = Ok c →
  ∃ c0, contents_fits c0 ∧ zlen (write_payload c0) ≤ limits.kSnapshotBytesMax ∧
    c = contents_norm c0 ∧ bytes = snapshot_bytes c0.
Proof.
  intros Hbs. unfold decode_snapshot. destruct (_ <? kSnapshotEnvelopeBytes) eqn:E1; [done|].
  destruct (_ <? zlen bytes); [done|]. apply Z.ltb_ge in E1. unfold kSnapshotEnvelopeBytes at 1 in E1.
  set (n := Z.to_nat kSnapshotEnvelopeBytes).
  assert (byte_string (take n bytes)) as Ht by (by apply Forall_take).
  assert (byte_string (drop n bytes)) as Hd by (by apply Forall_drop).
  assert (length (take n bytes) = 60%nat) as Hn
    by (rewrite length_take; change n with 60%nat; unfold zlen in E1; lia).
  assert (zlen (drop n bytes) = zlen bytes - kSnapshotEnvelopeBytes) as Hp
    by (unfold zlen in *; rewrite length_drop; change n with 60%nat;
        unfold kSnapshotEnvelopeBytes; lia).
  destruct (read_envelope _) as [|[[[[[magic version] size] crc] written] envelope]] eqn:Ee; [done|].
  apply read_envelope_inv in Ee as (Et & Henv & Hcrc); [|done].
  destruct (magic =? _) eqn:Em; [|done]. destruct (version =? _) eqn:Ever; [|done].
  cbn [negb]. destruct (_ <? size) eqn:Es; [done|]. destruct (size =? _) eqn:Esz; [|done].
  destruct (crc32 (drop n bytes) =? crc) eqn:Ec; [|done]. cbn [negb]. bool_prop.
  destruct (p_list _ _ _) as [|[digest rest]] eqn:El; [done|].
  apply read_digest_inv in El as [-> Hdl]; [|done].
  destruct (bool_decide _) eqn:Edg; [|done]. apply bool_decide_eq_true in Edg. cbn [negb].
  destruct (read_payload _ _) as [|[contents rest']] eqn:Er; [done|].
  destruct (zlen rest' =? 0) eqn:Ez; [|done]. cbn [negb]. intros [= <-]. bool_prop.
  assert (rest' = []) as -> by (destruct rest'; [done|]; unfold zlen in Ez; simpl in Ez; lia).
  apply read_payload_inv in Er as (c0 & Hf & Hw & -> & Hpay); [|done]. rewrite app_nil_r in Hpay.
  assert (rest = []) as ->.
  { rewrite Et, !length_app in Hn. unfold sw_u32, sw_u64 in Hn. rewrite !put_le_length, Hdl in Hn.
    destruct rest; [done|simpl in Hn; lia]. }
  exists c0. split; [done|]. rewrite <- Hpay. split; [lia|]. split; [done|].
  unfold snapshot_bytes, write_envelope. rewrite Hw, <- Hpay, <- Edg.
  rewrite <- (take_drop n bytes) at 1. rewrite Et, app_nil_r. rewrite Hp, <- Esz, Ec, Em, Ever.
  by rewrite <- ?app_assoc.
Qed.

Lemma encode_snapshot_Ok c bytes :
  encode_snapshot c = Ok bytes →
  bytes = snapshot_bytes c ∧ zlen (write_payload c) ≤ limits.kSnapshotBytesMax.
Proof.
  unfold encode_snapshot. destruct (refuse_policy _); [done|].
  destruct (refuse_topology _); [done|]. destruct (_ <? zlen (sc_records c)); [done|].
  destruct (check_each _ _ _); [done|]. destruct (_ <? zlen (write_payload c)) eqn:E; [done|].
  unfold zlen at 1. rewrite write_envelope_length. apply Z.ltb_ge in E. by intros [= <-].
Qed.

Lemma authority_norm_checked a : authority_fits a → durable_check (authority_norm a) = None.
Proof.
  intros (_ & _ & _ & _ & Ht & Hp). unfold durable_check, authority_norm.
  cbn [da_topology_generation da_topology da_policy_generation da_policy].
  destruct (is_some (da_topology_generation a)) eqn:Et.
  - apply is_some_neq in Et. destruct (Ht Et) as (_ & Eg & ->). cbn [negb].
    rewrite (proj2 (id_eqb_eq _ _) Eg). cbn [negb].
    destruct (is_some (da_policy_generation a)) eqn:Ep; [|done].
    apply is_some_neq in Ep. destruct (Hp Ep) as (_ & Eg' & ->).
    by rewrite (proj2 (id_eqb_eq _ _) Eg').
  - destruct (is_some (da_policy_generation a)) eqn:Ep; [|done].
    apply is_some_neq in Ep. destruct (Hp Ep) as (_ & Eg' & ->).
    by rewrite (proj2 (id_eqb_eq _ _) Eg').
Qed.

(** C17: a snapshot that was encoded is decoded to the same contents, in normal form: repeated
    metadata keys are merged and a section without a generation is empty. *)
Theorem snapshot_roundtrip (c : SnapshotContents) (bytes : list Z) :
  contents_fits c → encode_snapshot c = Ok bytes →
  decode_snapshot bytes = Ok (contents_norm c).
Proof. intros Hf (-> & Hl)%encode_snapshot_Ok. by apply decode_snapshot_run. Qed.

(** A snapshot file that is loaded is, byte for byte, the file the writer produces for
    contents whose every field is in range, with the checksum and the digest of those
    contents; and the durable state read from it passes the checks of the authority that
    installs it.  No other file is ever loaded, and none is loaded in part. *)
Theorem snapshot_canonical (bytes : list Z) (c : SnapshotContents) :
  byte_string bytes → decode_snapshot bytes = Ok c →
  ∃ c0, contents_fits c0 ∧ c = contents_norm c0 ∧ bytes = snapshot_bytes c0 ∧
    durable_check (sc_authority c) = None.
Proof.
  intros Hbs (c0 & Hf & _ & -> & ->)%decode_snapshot_inv; [|done]. exists c0.
  split_and!; try done. apply authority_norm_checked, Hf.
Qed.

(** ** Corruption *)
Lemma snapshot_bytes_split c :
  take 60 (snapshot_bytes c) = write_envelope (sc_written_monotonic_ms c) (write_payload c) ∧
  drop 60 (snapshot_bytes c) = write_payload c.
Proof. unfold snapshot_bytes. generalize (write_payload c). intros p. exact (envelope_split _ p). Qed.

(** The payload determines the file. *)
Lemma payload_determines c c' :
  contents_fits c → contents_fits c' → write_payload c = write_payload c' →
  snapshot_bytes c = snapshot_bytes c'.
Proof.
  intros Hc Hc' E. unfold snapshot_bytes. rewrite <- E. do 2 f_equal.
  unfold write_payload in E. apply app_inv_head in E.
  apply (f_equal (fun l => read_le w64 (take 8 l))) in E. unfold sw_u64 in E.
  pose proof (put_le_length 8) as L8.
  rewrite !take_app_le, !firstn_all2 in E by (by rewrite L8).
  rewrite !read_put_u64 in E; [done|apply Hc'|apply Hc].
Qed.

(** The checksum field, bytes 16 to 19 of the file. *)
Lemma snapshot_crc_field c :
  take 4 (drop 16 (snapshot_bytes c)) = put_le 4 (crc32 (write_payload c)).
Proof.
  unfold snapshot_bytes, write_envelope. generalize (crc32 (write_payload c)). intros crc.
  unfold sw_u32, sw_u64. rewrite <- ?app_assoc.
  rewrite (app_assoc (put_le 4 kEnvelopeMagic)), (app_assoc (put_le 4 kEnvelopeMagic ++ _)).
  rewrite drop_app_length' by (by rewrite !length_app, !put_le_length).
  by rewrite take_app_length' by (by rewrite put_le_length).
Qed.

(** A payload that differs in the burst's part of it has another checksum. *)
Lemma payload_burst c c0 before xs ys after :
  byte_string (before ++ xs ++ after) → byte_string ys → length ys = length xs →
  (length xs ≤ 4)%nat → snapshot_bytes c = before ++ xs ++ after →
  snapshot_bytes c0 = before ++ ys ++ after → write_payload c = write_payload c0.
Proof.
  intros Hbs Hys Hlen H4 Hb Hb0.
  pose proof (proj2 (snapshot_bytes_split c)) as Hp. pose proof (proj2 (snapshot_bytes_split c0)) as Hp0.
  pose proof (snapshot_crc_field c) as Hc. pose proof (snapshot_crc_field c0) as Hc0.
  rewrite Hb in Hp, Hc. rewrite Hb0 in Hp0, Hc0. rewrite !drop_app in Hp, Hp0. rewrite Hlen in Hp0.
  destruct (decide (length before + length xs ≤ 60)%nat) as [Hle|Hgt].
  { rewrite (drop_ge xs) in Hp by lia. rewrite (drop_ge ys) in Hp0 by lia. congruence. }
  replace (60 - length before - length xs)%nat with 0%nat in Hp, Hp0 by lia.
  rewrite drop_0 in Hp, Hp0.
  rewrite drop_app_le, take_app_le in Hc, Hc0 by (rewrite ?length_drop; lia).
  rewrite Hc in Hc0. apply put_le_4_inj in Hc0; [|apply crc32_range..].
  rewrite <- Hp, <- Hp0 in Hc0 |- *. do 2 f_equal. eapply crc32_change; [..|exact Hc0].
  - rewrite !Forall_app in Hbs |- *. destruct Hbs as (H1 & H2 & H3).
    split_and!; [by apply Forall_drop..|done].
  - by apply Forall_drop.
  - rewrite !length_drop. lia.
  - rewrite length_drop. lia.
Qed.

(** C18: a change of at most four consecutive bytes anywhere in a snapshot file, in the
    envelope, in the payload or across the two, is always detected: the file is not loaded. *)
Theorem snapshot_corruption_detected (c : SnapshotContents) (bytes before xs ys after : list Z) :
  contents_fits c → encode_snapshot c = Ok bytes → byte_string bytes →
  bytes = before ++ xs ++ after → byte_string ys → length ys = length xs →
  (length xs ≤ 4)%nat → xs ≠ ys → ∀ c', decode_snapshot (before ++ ys ++ after) ≠ Ok c'.
Proof.
  intros Hf (-> & _)%encode_snapshot_Ok Hbs Hb Hys Hlen H4 Hne c' Hd. rewrite Hb in Hbs.
  assert (byte_string (before ++ ys ++ after)) as Hbs'
    by (rewrite !Forall_app in Hbs |- *; tauto).
  apply decode_snapshot_inv in Hd as (c0 & Hf0 & _ & _ & Hd); [|done].
  pose proof (payload_burst c c0 before xs ys after Hbs Hys Hlen H4 Hb (eq_sym Hd)) as E.
  apply (payload_determines _ _ Hf Hf0) in E. rewrite Hb, <- Hd in E.
  by apply app_inv_head, app_inv_tail in E.
Qed.

(** ** The store *)
Lemma temporary_path_neq path : temporary_path path ≠ path.
Proof.
  unfold temporary_path. intros E. apply (f_equal String.length) in E.
  assert (∀ a b, String.length (String.append a b) = (String.length a + String.length b)%nat) as H
    by (clear; intros a b; induction a; simpl; congruence).
  rewrite H in E. simpl in E. lia.
Qed.

Section atomic.
Context (windows : bool) (fs : FileSystem) (path tmp : string) (bytes : list Z) (Hne : tmp ≠ path).

(** What a file system on the way may hold at the path. *)
Definition intact (fs' : FileSystem) : Prop :=
  fs' !! path = fs !! path ∨ fs' !! path = Some bytes ∨
  windows = true ∧ fs' !! path = None ∧ fs' !! tmp = Some bytes.

Definition untouched (fs' : FileSystem) : Prop :=
  ∀ other, other ≠ path → other ≠ tmp → fs' !! other = fs !! other.

Definition atomic_outcome (outcome : list FileSystem * Status) : Prop :=
  let '(trace, status) := outcome in
  ∃ before final, trace = before ++ [final] ∧ Forall intact before ∧ Forall untouched trace ∧
    if is_ok status then final !! path = Some bytes
    else final !! path = fs !! path ∨
         windows = true ∧ st_code status = ErrorCode.kPersistenceRenameFailed ∧
         final !! path = None.

Lemma untouched_insert x f : untouched f → untouched (<[tmp := x]> f).
Proof. intros H o H1 H2. rewrite lookup_insert_ne by done. by apply H. Qed.
Lemma untouched_delete f : untouched f → untouched (delete tmp f).
Proof. intros H o H1 H2. rewrite lookup_delete_ne by done. by apply H. Qed.
Lemma untouched_refl : untouched fs.
Proof. by intros o. Qed.
Lemma intact_same f : f !! path = fs !! path → intact f.
Proof. by left. Qed.

Lemma atomic_failed written (cleaned : bool) status :
  is_ok status = false →
  let wrote := <[tmp := written]> (<[tmp := []]> fs) in
  atomic_outcome ([fs; <[tmp := []]> fs; wrote; if cleaned then delete tmp wrote else wrote], status).
Proof.
  intros Hs wrote. unfold atomic_outcome, wrote. rewrite Hs.
  eexists [_; _; _], _. split; [reflexivity|]. split_and!.
  - repeat constructor; by rewrite ?lookup_insert_ne by done.
  - repeat constructor; destruct cleaned;
      eauto using untouched_refl, untouched_insert, untouched_delete.
  - left. destruct cleaned; by rewrite ?lookup_delete_ne, ?lookup_insert_ne by done.
Qed.

(** The file system after the removal of the target on Windows. *)
Let wrote : FileSystem := <[tmp := bytes]> (<[tmp := []]> fs).
Let target (removed : bool) : FileSystem := if windows && removed then delete path wrote else wrote.

Lemma target_path removed :
  target removed !! path = fs !! path ∨ windows = true ∧ target removed !! path = None.
Proof.
  unfold target, wrote. destruct windows, removed; cbn [andb]; [right|left..].
  - split; [done|]. apply lookup_delete_eq.
  - by rewrite !lookup_insert_ne.
  - by rewrite !lookup_insert_ne.
  - by rewrite !lookup_insert_ne.
Qed.

Lemma target_tmp removed : target removed !! tmp = Some bytes.
Proof.
  unfold target, wrote. destruct (windows && removed);
    by rewrite ?lookup_delete_ne, ?lookup_insert_eq by done.
Qed.

Lemma target_untouched removed : untouched (target removed).
Proof.
  unfold target, wrote. assert (untouched (<[tmp := bytes]> (<[tmp := []]> fs))) as H
    by eauto using untouched_refl, untouched_insert.
  destruct (windows && removed); [|done].
  intros o H1 H2. rewrite lookup_delete_ne by done. by apply H.
Qed.

Lemma before_rename removed :
  Forall intact [fs; <[tmp := []]> fs; wrote; target removed] ∧
  Forall untouched [fs; <[tmp := []]> fs; wrote; target removed].
Proof.
  split; rewrite !Forall_cons; split_and!; [left|left|left| |done| | | | |done];
    eauto using untouched_refl, untouched_insert, target_untouched.
  - by rewrite lookup_insert_ne.
  - unfold wrote. by rewrite !lookup_insert_ne.
  - destruct (target_path removed) as [H|[H1 H2]]; [by left|]. right; right.
    split_and!; [done..|apply target_tmp].
Qed.

Lemma atomic_not_renamed (removed cleaned : bool) message :
  atomic_outcome
    ([fs; <[tmp := []]> fs; wrote; target removed;
      if cleaned then delete tmp (target removed) else target removed],
     mkStatus ErrorCode.kPersistenceRenameFailed message).
Proof.
  destruct (before_rename removed) as [Hi Hu]. eexists [_; _; _; _], _. split; [reflexivity|].
  split; [exact Hi|]. split.
  - change ([?a; ?b; ?c; ?d; ?e]) with ([a; b; c; d] ++ [e]). apply Forall_app.
    split; [exact Hu|]. apply Forall_singleton.
    destruct cleaned; eauto using target_untouched, untouched_delete.
  - cbn [is_ok st_code]. destruct cleaned; rewrite ?lookup_delete_ne by done;
      destruct (target_path removed) as [H|[H1 H2]]; [by left|by right|by left|by right].
Qed.

Lemma atomic_done (removed : bool) :
  atomic_outcome
    ([fs; <[tmp := []]> fs; wrote; target removed;
      <[path := default [] (target removed !! tmp)]> (delete tmp (target removed))], status_ok).
Proof.
  rewrite target_tmp. cbn [default from_option]. destruct (before_rename removed) as [Hi Hu].
  eexists [_; _; _; _], _. split; [reflexivity|]. split; [exact Hi|]. split.
  - change ([?a; ?b; ?c; ?d; ?e]) with ([a; b; c; d] ++ [e]). apply Forall_app.
    split; [exact Hu|]. apply Forall_singleton. intros o H1 H2.
    rewrite lookup_insert_ne, lookup_delete_ne by done. by apply target_untouched.
  - apply lookup_insert_eq.
Qed.
End atomic.

Lemma write_all_outcome windows fs path bytes os :
  atomic_outcome windows fs path (temporary_path path) bytes (write_all windows fs path bytes os).
Proof.
  pose proof (temporary_path_neq path) as Hne.
  unfold write_all. destruct (wa_opened os); cbn [negb].
  2: { exists [], fs. split; [done|]. split; [done|]. split; [by apply Forall_singleton|]. by left. }
  destruct (_ && _) eqn:Ew; [by apply atomic_failed|].
  destruct (wa_flushed os); cbn [negb]; [|by apply atomic_failed].
  destruct (wa_closed os); cbn [negb]; [|by apply atomic_failed].
  assert (take (Z.to_nat (wa_written os)) bytes = bytes) as ->.
  { destruct bytes as [|b bytes]; [by destruct (Z.to_nat _)|].
    apply andb_false_iff in Ew as [Ew|Ew]; bool_prop; [by unfold zlen in Ew; simpl in Ew|].
    rewrite Ew. unfold zlen. rewrite Nat2Z.id. apply firstn_all. }
  destruct (wa_renamed os); cbn [negb]; [by apply atomic_done | by apply atomic_not_renamed].
Qed.

(** C19: how far replacing the file is atomic.  Whatever the operating system answers, after
    each of the calls, so whenever the process dies, the file at the path holds what it held
    before or all of the new bytes, and it holds the new bytes at the end if success is
    reported and what it held before if not: without exception on POSIX.  On Windows, where
    the file is removed before the rename, the path may also hold no file: between the two
    calls, when the temporary holds all of the new bytes, and at the end if the rename
    failed. No call touches another file than the path and its temporary. *)
Theorem write_all_atomic (windows : bool) (fs : FileSystem) (path : string) (bytes : list Z)
    (os : WriteAnswers) :
  let '(trace, status) := write_all windows fs path bytes os in
  ∃ before final, trace = before ++ [final] ∧
    Forall (fun fs' => fs' !! path = fs !! path ∨ fs' !! path = Some bytes ∨
                       windows = true ∧ fs' !! path = None ∧
                       fs' !! temporary_path path = Some bytes) before ∧
    Forall (fun fs' => ∀ other, other ≠ path → other ≠ temporary_path path →
                       fs' !! other = fs !! other) trace ∧
    if is_ok status then final !! path = Some bytes
    else final !! path = fs !! path ∨
         windows = true ∧ st_code status = ErrorCode.kPersistenceRenameFailed ∧
         final !! path = None.
Proof. exact (write_all_outcome windows fs path bytes os). Qed.

(** On Windows a failed rename loses both snapshots: the old file was removed before the
    rename and the temporary is removed after it. *)
Theorem windows_rename_loses (fs : FileSystem) (path : string) (bytes : list Z) :
  let os := mkWriteAnswers true (zlen bytes) true true false true true in
  let '(trace, status) := write_all true fs path bytes os in
  is_ok status = false ∧
  ∃ final, last trace = Some final ∧ final !! path = None ∧ final !! temporary_path path = None.
Proof.
  pose proof (temporary_path_neq path) as Hne. unfold write_all. cbn -[zlen].
  rewrite Z.eqb_refl, andb_false_r. split; [done|]. eexists. split; [done|].
  rewrite lookup_delete_ne, lookup_delete_eq by done. by rewrite lookup_delete_eq.
Qed.

(** ** Loading *)
Lemma read_loop_file fuel file bytes :
  (length file < fuel)%nat →
  zlen bytes + zlen file ≤ limits.kSnapshotBytesMax + kSnapshotEnvelopeBytes →
  read_loop fuel file false bytes = Some (inr (bytes ++ file)).
Proof.
  revert file bytes. induction fuel as [|fuel IH]; intros file bytes Hfuel Hl; [lia|].
  cbn [read_loop]. set (n := Z.to_nat kReadBufferBytes).
  assert (Z.of_nat n = kReadBufferBytes) as Hn by (by apply Z2Nat.id).
  assert (0 < kReadBufferBytes) as H0 by done. clearbody n.
  pose proof (length_take file n) as Ht. unfold zlen in *.
  assert (negb (Z.of_nat (length (take n file)) =? 0) &&
    (limits.kSnapshotBytesMax + kSnapshotEnvelopeBytes <?
     Z.of_nat (length bytes) + Z.of_nat (length (take n file))) = false) as ->.
  { apply andb_false_iff. right. apply Z.ltb_ge. lia. }
  destruct (_ <? kReadBufferBytes) eqn:E; bool_prop.
  - by rewrite firstn_all2 by lia.
  - rewrite IH; [by rewrite <- app_assoc, take_drop|rewrite length_drop; lia|].
    rewrite length_app, length_drop. lia.
Qed.

Lemma refuse_record_fails r s : refuse_record r = Some s → is_ok s = false.
Proof. unfold refuse_record. repeat case_match; by intros [= <-]. Qed.

Lemma refuse_records_fails l prev s :
  check_each (fun _ => refuse_record) prev l = Some s → is_ok s = false.
Proof.
  revert prev. induction l as [|r l IH]; intros prev; cbn [check_each]; [done|].
  destruct (refuse_record r) eqn:Er; [intros [= <-]; by eapply refuse_record_fails|apply IH].
Qed.

Lemma encode_snapshot_Fail c s : encode_snapshot c = Fail s → is_ok s = false.
Proof.
  unfold encode_snapshot, refuse_policy, refuse_topology, fail. cbv zeta.
  destruct (check_each _ _ _) as [failure|] eqn:E; repeat case_match; intros [= <-];
    simplify_eq; try done.
  all: by eapply refuse_records_fails.
Qed.

(** What [save] wrote, [load] reads. *)
Lemma store_load_bytes fs path bytes :
  slen path ≠ 0 → fs !! path = Some bytes →
  zlen bytes ≤ limits.kSnapshotBytesMax + kSnapshotEnvelopeBytes →
  store_load fs path None =
  Some match decode_snapshot bytes with
       | Fail status => (disposition_of (st_code status), None, st_message status)
       | Ok contents => (LoadDisposition.kLoaded, Some contents, "")
       end.
Proof.
  intros Hp Hfs Hl. unfold store_load. rewrite (proj2 (Z.eqb_neq _ _)) by done. rewrite Hfs.
  by rewrite read_loop_file by (done || lia).
Qed.

Lemma write_all_done windows fs path bytes os :
  is_ok (write_all windows fs path bytes os).2 = true →
  ∃ final, last (write_all windows fs path bytes os).1 = Some final ∧ final !! path = Some bytes.
Proof.
  intros H. pose proof (write_all_outcome windows fs path bytes os) as Ho.
  unfold atomic_outcome in Ho. destruct (write_all windows fs path bytes os) as [trace status].
  cbn [fst snd] in *. destruct Ho as (before & final & -> & _ & _ & Hf). rewrite H in Hf.
  exists final. split; [apply last_snoc | done].
Qed.

Lemma store_save_load (windows : bool) (fs : FileSystem) (path : string) (c : SnapshotContents) (now : Z)
    (os : WriteAnswers) :
  let stamped := mkSnapshotContents (sc_format_version c) now (sc_authority c) (sc_records c) in
  let '(trace, status) := store_save windows fs path c now os in
  contents_fits stamped → is_ok status = true →
  ∃ final, last trace = Some final ∧
    store_load final path None =
      Some (LoadDisposition.kLoaded, Some (contents_norm stamped), "").
Proof.
  intros stamped. unfold store_save. fold stamped.
  destruct (slen path =? 0) eqn:Ep; [done|]. bool_prop.
  destruct (encode_snapshot stamped) as [bytes|s] eqn:Ee; [|].
  - pose proof (write_all_done windows fs path bytes os) as Hw.
    destruct (write_all windows fs path bytes os) as [trace status]. cbn [fst snd] in Hw.
    intros Hf Hs. destruct (Hw Hs) as (final & Hl & Hfile). exists final. split; [done|].
    apply encode_snapshot_Ok in Ee as [-> Hlen]. rewrite (store_load_bytes _ _ _ Ep Hfile).
    + by rewrite decode_snapshot_run.
    + unfold snapshot_bytes. rewrite zlen_app. unfold zlen at 1.
      rewrite write_envelope_length. unfold kSnapshotEnvelopeBytes. lia.
  - intros _ Hs. apply encode_snapshot_Fail in Ee. congruence.
Qed.

(** When [save] reports success, a later [load] of the file reports [kLoaded] and yields
    the contents in normal form, stamped with the time of the save. *)
Theorem save_then_load (windows : bool) (fs : FileSystem) (path : string) (c : SnapshotContents) (now : Z)
    (os : WriteAnswers) :
  let stamped := mkSnapshotContents (sc_format_version c) now (sc_authority c) (sc_records c) in
  let '(trace, status) := store_save windows fs path c now os in
  contents_fits stamped → is_ok status = true →
  ∃ final, last trace = Some final ∧
    store_load final path None =
      Some (LoadDisposition.kLoaded, Some (contents_norm stamped), "").
Proof. exact (store_save_load windows fs path c now os). Qed.

(** ** Restarting from what was saved *)
Definition records_metadata_wf (c : CollectiveCatalog) : Prop :=
  Forall (fun r => md_wf (cd_metadata (cr_definition r))) (export_all c).

Lemma stored_record_norm_wf r :
  md_wf (cd_metadata (cr_definition r)) → stored_record_norm r = r.
Proof.
  intros Hm%metadata_norm_wf. unfold stored_record_norm, definition_norm.
  generalize dependent metadata_norm. intros norm Hm. destruct r as [d]. destruct d.
  lazy in Hm |- *. by rewrite Hm.
Qed.

Lemma durable_snapshot_norm a :
  authority_wf a → authority_norm (durable_snapshot a) = durable_snapshot a.
Proof.
  intros Hw. pose proof (wf_policy _ Hw) as Hp. pose proof (wf_topology _ Hw) as Ht.
  unfold authority_norm, durable_snapshot. cbn.
  assert (∀ {A} (o : option A) g (gen : A → Identity) P d,
    installed o gen g P → (if is_some g then default d o else d) = default d o) as H.
  { clear. intros A [x|] g gen P d; cbn; [intros (_ & Hg & _)|intros ->; done].
    apply is_some_neq in Hg. by rewrite Hg. }
  by rewrite (H _ _ _ _ _ _ Ht), (H _ _ _ _ _ _ Hp).
Qed.

Lemma snapshot_contents_norm s now :
  authority_wf (sv_authority s) → records_metadata_wf (sv_catalog s) →
  contents_norm (snapshot_contents s now) = snapshot_contents s now.
Proof.
  intros Ha Hm. unfold contents_norm, snapshot_contents.
  cbn [sc_written_monotonic_ms sc_authority sc_records].
  rewrite durable_snapshot_norm by done. f_equal. unfold records_metadata_wf in Hm.
  induction Hm as [|r l Hr Hl IH]; [done|]. cbn. by rewrite stored_record_norm_wf, IH.
Qed.

(** Restoring into an authority that has installed nothing. *)
Lemma restore_durable_installs a fresh now :
  authority_wf a → authority_wf fresh → au_policy fresh = None → au_topology fresh = None →
  durable_check (durable_snapshot a) = None →
  let '(a', status) := restore_durable fresh (durable_snapshot a) now in
  status = status_ok ∧ au_policy a' = au_policy a ∧ au_topology a' = au_topology a ∧
  au_policy_generation a' = au_policy_generation a ∧
  au_topology_generation a' = au_topology_generation a ∧
  au_last_durable_epoch a' = au_epoch a ∧ au_peers a' = ∅ ∧
  au_capacity a' = None ∧ au_congestion a' = None.
Proof.
  intros Hw Hf Hp Ht Hc. pose proof (wf_policy _ Hw) as Hwp. pose proof (wf_topology _ Hw) as Hwt.
  pose proof (wf_policy _ Hf) as Hfp. pose proof (wf_topology _ Hf) as Hft.
  rewrite Hp in Hfp. rewrite Ht in Hft. cbn in Hfp, Hft.
  unfold restore_durable. rewrite Hc.
  unfold durable_snapshot in *. cbn [da_topology_generation da_policy_generation da_last_epoch
    da_topology da_policy] in *. split; [done|].
  assert (is_some id_none = false) as E0 by done.
  destruct (au_policy a) as [p|], (au_topology a) as [t|]; cbn in Hwp, Hwt.
  - rewrite !(proj2 (is_some_neq _)) by (apply Hwt || apply Hwp). done.
  - rewrite Hwt, E0, (proj2 (is_some_neq _)) by apply Hwp. cbn. by rewrite Ht, Hft.
  - rewrite Hwp, E0, (proj2 (is_some_neq _)) by apply Hwt. cbn. by rewrite Hp, Hfp.
  - rewrite Hwp, Hwt, E0. cbn. by rewrite Hp, Ht, Hfp, Hft.
Qed.

(** C26: durability end to end.  When a coordinator saves its state and the save reports
    success, a coordinator that boots with nothing installed and room for the collectives
    loads the file, and its restore succeeds and gives it every collective record, the policy
    and the topology of the first, and its epoch as the last durable one; peers, capacity and
    congestion do not come back. *)
Theorem saved_state_restored (windows : bool) (s booted : CoordinatorService) (fs : FileSystem)
    (path : string) (now later : Z) (os : WriteAnswers) :
  authority_wf (sv_authority s) → catalog_wf (sv_catalog s) →
  records_metadata_wf (sv_catalog s) → contents_fits (snapshot_contents s now) →
  authority_wf (sv_authority booted) → au_policy (sv_authority booted) = None →
  au_topology (sv_authority booted) = None →
  mapsize (cc_records (sv_catalog s)) ≤ cc_capacity (sv_catalog booted) →
  let '(trace, status) := store_save windows fs path (snapshot_contents s now) now os in
  is_ok status = true →
  ∃ final contents, last trace = Some final ∧
    store_load final path None = Some (LoadDisposition.kLoaded, Some contents, "") ∧
    let '(restored, disposition, status) :=
      restore booted path later LoadDisposition.kLoaded contents "" in
    disposition = LoadDisposition.kLoaded ∧ status = status_ok ∧
    cc_records (sv_catalog restored) = cc_records (sv_catalog s) ∧
    au_policy (sv_authority restored) = au_policy (sv_authority s) ∧
    au_topology (sv_authority restored) = au_topology (sv_authority s) ∧
    au_last_durable_epoch (sv_authority restored) = au_epoch (sv_authority s) ∧
    au_peers (sv_authority restored) = ∅ ∧ au_capacity (sv_authority restored) = None ∧
    au_congestion (sv_authority restored) = None.
Proof.
  intros Ha Hc Hm Hf Hb Hbp Hbt Hroom.
  pose proof (store_save_load windows fs path (snapshot_contents s now) now os) as Hsl. cbv zeta in Hsl.
  destruct (store_save _ _ _ _ _ _) as [trace status]. intros Hs.
  destruct (Hsl Hf Hs) as (final & Hl & Hload). exists final, (snapshot_contents s now).
  change (mkSnapshotContents _ now _ _) with (snapshot_contents s now) in Hload.
  rewrite snapshot_contents_norm in Hload by done. split; [done|]. split; [done|].
  unfold restore, snapshot_contents. cbn [sc_authority sc_records].
  assert (durable_check (durable_snapshot (sv_authority s)) = None) as Hd
    by (rewrite <- durable_snapshot_norm by done; apply authority_norm_checked, Hf).
  pose proof (restore_durable_installs (sv_authority s) (sv_authority booted) later Ha Hb Hbp Hbt Hd) as Hr.
  destruct (restore_durable _ _ _) as [a' st]. destruct Hr as (-> & Hr). destruct_and? Hr.
  destruct (export_load (sv_catalog s) (sv_catalog booted) Hc Hroom) as [h Hcat].
  change (sv_catalog (booted <| sv_authority := a' |>)) with (sv_catalog booted).
  rewrite Hcat. by split_and!.
Qed.

(** ** Witnesses *)
Definition demo_stored : CollectiveRecord :=
  mkCollectiveRecord
    (mkCollectiveDefinition (mkIdentity 1 2) (mkIdentity 3 4) CollectiveClass.kAllReduce
       AlgorithmHint.kUnspecified CollectiveScope.kUnspecified "ring" (mkIdentity 5 6) id_none
       [mkIdentity 7 1; mkIdentity 9 1] [mkCollectivePhase 1 "a" false 1] []
       [("job", "7")] false 4096 1)
    CollectiveState.kActive id_none 0 0 1 1 10 10 0.
Definition demo_contents : SnapshotContents :=
  mkSnapshotContents kSnapshotFormatVersion 77
    (mkDurableAuthority (mkIdentity 8 8) id_none id_none topology_default policy_default 0)
    [demo_stored].

Lemma demo_record_fits : stored_record_fits demo_stored.
Proof.
  assert (∀ h l, (0 <=? h) && (h <? two64) && (0 <=? l) && (l <? two64) = true →
    id_wf (mkIdentity h l)) as Hid.
  { intros h l H. bool_prop. split; unfold is_u64; simpl; lia. }
  unfold stored_record_fits, stored_definition_fits, demo_stored.
  cbn [cr_definition cd_id cd_generation cd_label cd_origin_node cd_fabric cd_participants].
  split_and!; try (apply Hid; reflexivity); try done;
    try (split; [done|]); repeat constructor; done.
Qed.

Lemma demo_contents_fits : contents_fits demo_contents.
Proof.
  unfold contents_fits, authority_fits, topology_section, policy_section. cbn.
  split_and!; try done. by repeat constructor; apply demo_record_fits.
Qed.

Lemma snapshot_roundtrip_witness :
  decode_snapshot (snapshot_bytes demo_contents) = Ok (contents_norm demo_contents).
Proof.
  apply (snapshot_roundtrip demo_contents); [exact demo_contents_fits|].
  vm_compute. reflexivity.
Defined.

Lemma snapshot_canonical_witness : ∃ c0,
  snapshot_bytes demo_contents = snapshot_bytes c0 ∧
  durable_check (sc_authority (contents_norm demo_contents)) = None.
Proof.
  destruct (snapshot_canonical (snapshot_bytes demo_contents) (contents_norm demo_contents))
    as (c0 & _ & _ & E & H).
  - apply bytes_check. vm_compute. reflexivity.
  - vm_compute. reflexivity.
  - exists c0. split; [exact E | exact H].
Defined.

Lemma snapshot_corruption_detected_witness : ∃ s,
  decode_snapshot (take 70 (snapshot_bytes demo_contents) ++ [255] ++
                   drop 71 (snapshot_bytes demo_contents)) = Fail s.
Proof.
  destruct (decode_snapshot _) as [c'|s] eqn:E; [exfalso; revert E|by exists s].
  apply (snapshot_corruption_detected demo_contents (snapshot_bytes demo_contents) _
    (take 1 (drop 70 (snapshot_bytes demo_contents)))).
  - exact demo_contents_fits.
  - vm_compute. reflexivity.
  - apply bytes_check. vm_compute. reflexivity.
  - vm_compute. reflexivity.
  - by apply bytes_check.
  - vm_compute. reflexivity.
  - vm_compute. lia.
  - vm_compute. congruence.
Defined.

Definition all_well (bytes : list Z) : WriteAnswers :=
  mkWriteAnswers true (zlen bytes) true true true true true.

Lemma save_then_load_witness : ∃ final,
  last (store_save true ∅ "state" demo_contents 77 (all_well (snapshot_bytes demo_contents))).1 =
    Some final ∧
  store_load final "state" None =
    Some (LoadDisposition.kLoaded, Some (contents_norm demo_contents), "").
Proof.
  pose proof (save_then_load true ∅ "state" demo_contents 77
    (all_well (snapshot_bytes demo_contents))) as H. cbv zeta in H.
  destruct (store_save _ _ _ _ _ _) as [trace status] eqn:E.
  apply H; [exact demo_contents_fits|].
  apply (f_equal (fun r => is_ok r.2)) in E. cbn [snd] in E. rewrite <- E.
  vm_compute. reflexivity.
Defined.

Definition demo_saved : CoordinatorService :=
  demo_service <| sv_catalog := mkCollectiveCatalog {[mkIdentity 1 2 := demo_stored]} 4 1 |>.

Lemma demo_saved_records : export_all (sv_catalog demo_saved) = [demo_stored].
Proof. vm_compute. reflexivity. Qed.

Lemma demo_saved_fits : contents_fits (snapshot_contents demo_saved 77).
Proof.
  unfold contents_fits, snapshot_contents. cbn [sc_written_monotonic_ms sc_authority sc_records].
  rewrite demo_saved_records. split; [done|]. split; [|split; [done|]].
  - change (sv_authority demo_saved) with authority_new. by split_and!.
  - apply Forall_singleton, demo_record_fits.
Qed.

Lemma saved_state_restored_witness : ∃ final contents,
  store_load final "state" None = Some (LoadDisposition.kLoaded, Some contents, "") ∧
  cc_records (sv_catalog
    (restore demo_service "state" 90 LoadDisposition.kLoaded contents "").1.1) =
  {[mkIdentity 1 2 := demo_stored]}.
Proof.
  pose proof (saved_state_restored true demo_saved demo_service ∅ "state" 77 90
    (all_well (snapshot_bytes (snapshot_contents demo_saved 77)))) as H.
  destruct (store_save _ _ _ _ _ _) as [trace status] eqn:E.
  apply (f_equal (fun r => is_ok r.2)) in E. cbn [snd] in E.
  destruct H as (final & contents & _ & Hl & Hr).
  - apply authority_new_wf.
  - split; [vm_compute; congruence|]. apply map_Forall_singleton.
    split_and!; [reflexivity|vm_compute; reflexivity|discriminate|discriminate].
  - unfold records_metadata_wf. rewrite demo_saved_records. apply Forall_singleton.
    split_and!; [apply NoDup_singleton|done|by repeat constructor].
  - exact demo_saved_fits.
  - apply authority_new_wf.
  - reflexivity.
  - reflexivity.
  - vm_compute. congruence.
  - rewrite <- E. vm_compute. reflexivity.
  - exists final, contents. split; [exact Hl|].
    destruct (restore _ _ _ _ _ _) as [[r d] st]. apply Hr.
Defined.
