(* ===== verification/Transport.v ===== *)
(** The loopback transport ([include/ctf/transport.hpp], [src/transport.cpp]): the life of a
    descriptor, sending with partial writes, the reassembly of frames from whatever pieces the
    kernel delivers, and the server's bound on live sessions and its teardown.

    What the operating system answers is an argument: a [send] answers with a number, a receive
    with a [SocketAnswer].  A receiver that still waits when the given answers are used up has
    no result yet ([None]).  Socket creation, binding, addresses and polling are in [Sockets];
    the branch for Windows is not modelled. *)
From S2P Require Import Prelude Identity Errors Codec Checksum Protocol.

(** ** Descriptors *)
Record Socket := mkSocket {
  so_handle_valid : bool;
  so_closed : bool;
  so_released : bool;
  (** How often [close_native] was called on the descriptor. *)
  so_native_closes : Z;
}.

Definition socket_new : Socket := mkSocket true false false 0.

Definition is_open (s : Socket) : bool := negb (so_closed s) && so_handle_valid s.

(** Whether the native [shutdown] is called; no field changes. *)
Definition shutdown_socket (s : Socket) : bool := negb (so_released s) && so_handle_valid s.

Definition release_for_teardown (s : Socket) : Socket :=
  if so_released s then s
  else mkSocket false true true (so_native_closes s + if so_handle_valid s then 1 else 0).

(** [~Socket] *)
Definition socket_destroy (s : Socket) : Socket :=
  if so_released s then s
  else mkSocket false (so_closed s) (so_released s)
         (so_native_closes s + if so_handle_valid s then 1 else 0).

(** ** Sending *)
Definition kSendChunkMax : Z := 2 ^ 20.

(** [last_socket_error]; the text names the error number. *)
Definition last_socket_error (what : string) (errno : Z) : Status :=
  mkStatus ErrorCode.kTransportReceiveFailed
    (String.append what (String.append " failed with errno " (decimal errno))).

(** The loop over partial writes.  [answers] are the results of [send], each for the chunk it
    was given; the result is the bytes the kernel took and the status. *)
Fixpoint send_loop (data : list Z) (answers : list Z) (errno : Z) : list Z * option Status :=
  if zlen data =? 0 then ([], Some status_ok)
  else match answers with
  | [] => ([], None)
  | written :: answers' =>
      let chunk := take (Z.to_nat (Z.min (zlen data) kSendChunkMax)) data in
      if written <=? 0 then ([], Some (last_socket_error "send" errno))
      else
        let '(taken, status) := send_loop (drop (Z.to_nat written) data) answers' errno in
        (take (Z.to_nat written) chunk ++ taken, status)
  end.

Definition send_raw (s : Socket) (data : list Z) (answers : list Z) (errno : Z)
    : list Z * option Status :=
  if so_closed s then
    ([], Some (mkStatus ErrorCode.kTransportClosed "connection is closed"))
  else send_loop data answers errno.

Definition send_frame (s : Socket) (frame : Frame) (answers : list Z) (errno : Z)
    : list Z * option Status :=
  match encode_frame frame with
  | Fail status => ([], Some status)
  | Ok bytes => send_raw s bytes answers errno
  end.

(** ** Receiving *)

(** What one [receive_raw] meets: the descriptor was released before; nothing arrived within
    the poll interval, with the connection still open or released meanwhile; bytes; the end of
    the stream; an error. *)
Inductive SocketAnswer :=
  | sa_released
  | sa_quiet
  | sa_quiet_released
  | sa_bytes (data : list Z)
  | sa_eof
  | sa_error (errno : Z).

Definition receive_raw (answer : SocketAnswer) : Result (list Z) :=
  match answer with
  | sa_released => fail ErrorCode.kTransportClosed "connection is closed"
  | sa_quiet => fail ErrorCode.kTransportTimeout "no bytes arrived within the poll interval"
  | sa_quiet_released =>
      fail ErrorCode.kTransportClosed "connection was shut down while waiting to read"
  | sa_bytes data => Ok data
  | sa_eof => fail ErrorCode.kTransportClosed "peer closed the connection"
  | sa_error errno => Fail (last_socket_error "recv" errno)
  end.

Definition retryable (code : ErrorCode) : bool :=
  bool_decide (code = ErrorCode.kFrameTruncatedHeader) ||
  bool_decide (code = ErrorCode.kFrameTruncatedPayload).

(** What the buffer holds: a frame and what is behind it, an error that ends the session, or
    not enough yet. *)
Definition next_frame (buffer : list Z) : option (Result Frame * list Z) :=
  if zlen buffer =? 0 then None
  else match decode_frame buffer with
  | Ok (frame, consumed) => Some (Ok frame, drop (Z.to_nat consumed) buffer)
  | Fail status => if retryable (st_code status) then None else Some (Fail status, buffer)
  end.

(** The status or the frame, the buffer, and the answers that were not used. *)
Fixpoint receive_frame (read_capacity : Z) (buffer : list Z) (answers : list SocketAnswer)
    : option (Result Frame) * list Z * list SocketAnswer :=
  match next_frame buffer with
  | Some (result, buffer') => (Some result, buffer', answers)
  | None =>
      if read_capacity + limits.kFramePayloadMaxBytes + kHeaderBytes <=? zlen buffer then
        (Some (fail ErrorCode.kFrameLengthOutOfRange
                 "receive buffer exceeded its bound without a frame"), buffer, answers)
      else match answers with
      | [] => (None, buffer, [])
      | answer :: answers' =>
          match receive_raw answer with
          | Ok data => receive_frame read_capacity (buffer ++ data) answers'
          | Fail status =>
              if bool_decide (st_code status = ErrorCode.kTransportTimeout) then
                receive_frame read_capacity buffer answers'
              else if bool_decide (st_code status = ErrorCode.kTransportClosed) &&
                      negb (zlen buffer =? 0) then
                (Some (fail ErrorCode.kFrameTruncatedPayload
                         "peer closed the connection mid frame"), buffer, answers')
              else (Some (Fail status), buffer, answers')
          end
      end
  end.

(** The loop of [session_loop] while the server runs: the frames handed to the handler, in
    order, and the reason the session ended with.  Every round but the last delivers a frame. *)
Fixpoint session_loop (fuel : nat) (read_capacity : Z) (buffer : list Z)
    (answers : list SocketAnswer) : list Frame * option Status :=
  match fuel with
  | O => ([], None)
  | S fuel' =>
      match receive_frame read_capacity buffer answers with
      | (None, _, _) => ([], None)
      | (Some (Ok frame), buffer', answers') =>
          let '(frames, reason) := session_loop fuel' read_capacity buffer' answers' in
          (frame :: frames, reason)
      | (Some (Fail status), buffer', answers') =>
          if bool_decide (st_code status = ErrorCode.kTransportTimeout) then
            session_loop fuel' read_capacity buffer' answers'
          else ([], Some status)
      end
  end.

(** ** The server *)

(** The state of [Server] that its threads share: connections by the order they were accepted,
    the workers that were started and not joined, and the acceptor thread. *)
Record Server := mkServer {
  ts_max_sessions : Z;
  ts_running : bool;
  ts_listener_open : bool;
  ts_acceptor_alive : bool;
  ts_live : list nat;
  ts_workers : list nat;
  ts_released : list nat;
  ts_accepted_total : Z;
  ts_rejected_total : Z;
}.

#[export] Instance Server_eta : Eta Server :=
  fun r => mkServer (ts_max_sessions r) (ts_running r) (ts_listener_open r)
    (ts_acceptor_alive r) (ts_live r) (ts_workers r) (ts_released r) (ts_accepted_total r)
    (ts_rejected_total r).

Definition server_new : Server := mkServer limits.kSessionsMax false false false [] [] [] 0 0.

(** The clamping of [config.max_sessions] in [listen]. *)
Definition clamp_sessions (max_sessions : Z) : Z :=
  let max_sessions := if max_sessions =? 0 then 1 else max_sessions in
  if limits.kSessionsMax <? max_sessions then limits.kSessionsMax else max_sessions.

(** [listen] once the socket is bound and the acceptor has started. *)
Definition listen (s : Server) (max_sessions : Z) : Server * Status :=
  if ts_running s then
    (s, mkStatus ErrorCode.kStateDuplicateRegistration "the server is already listening")
  else
    (mkServer (clamp_sessions max_sessions) true true true [] [] [] 0 0, status_ok).

(** What the acceptor does, under the lock, with a connection that [accept] returned. *)
Definition accept_one (s : Server) (connection : nat) : Server :=
  if negb (ts_running s) then s <| ts_acceptor_alive := false |>
  else if ts_max_sessions s <=? zlen (ts_live s) then
    s <| ts_rejected_total ::= fun n => w64 (n + 1) |>
  else
    s <| ts_live ::= fun l => l ++ [connection] |>
      <| ts_accepted_total ::= fun n => w64 (n + 1) |>
      <| ts_workers ::= fun l => l ++ [connection] |>.

(** The end of [session_loop]: the connection leaves the live set and the worker returns. *)
Definition session_end (s : Server) (connection : nat) : Server :=
  s <| ts_live ::= filter (fun c => c ≠ connection) |>.

(** [shutdown], the critical section before the joins. *)
Definition shutdown_begin (s : Server) : Server :=
  if negb (ts_running s) then s <| ts_listener_open := false |>
  else s <| ts_running := false |> <| ts_listener_open := false |>
         <| ts_released ::= fun l => l ++ ts_live s |>.

(** After the joins: what is left in the live set is released and dropped. *)
Definition shutdown_end (s : Server) : Server :=
  s <| ts_workers := [] |> <| ts_released ::= fun l => l ++ ts_live s |> <| ts_live := [] |>.

(** One step of the server's threads.  The acceptor leaves its loop when it sees the flag; the
    joins return when the acceptor and every worker have ended. *)
Inductive server_step : Server → Server → Prop :=
  | step_accept s connection :
      ts_acceptor_alive s = true → connection ∉ ts_workers s →
      server_step s (accept_one s connection)
  | step_acceptor_exit s :
      ts_running s = false → server_step s (s <| ts_acceptor_alive := false |>)
  | step_session_end s connection :
      connection ∈ ts_live s → server_step s (session_end s connection)
  | step_shutdown_begin s : server_step s (shutdown_begin s)
  | step_shutdown_end s :
      ts_running s = false → ts_acceptor_alive s = false →
      (∀ c, c ∈ ts_workers s → c ∉ ts_live s) → server_step s (shutdown_end s).

(** ** Descriptors are closed once *)

(** However often teardown releases a connection, its descriptor is closed exactly once by
    the time the connection is destroyed; once it is released the connection is not open and
    no native call is made on the number again, which may belong to another socket by then. *)
Theorem descriptor_closed_once (releases : nat) :
  let released := Nat.iter releases release_for_teardown socket_new in
  so_native_closes (socket_destroy released) = 1 ∧
  ((0 < releases)%nat → is_open released = false ∧ shutdown_socket released = false ∧
    socket_destroy released = released).
Proof.
  cbv zeta. destruct releases as [|n]; [split; [done|lia]|].
  assert (Nat.iter (S n) release_for_teardown socket_new = mkSocket false true true 1) as ->; [|done].
  induction n as [|n IH]; [done|]. rewrite Nat.iter_succ, IH. done.
Qed.

(** ** Sending *)
Definition send_answers (answers : list Z) : Prop := Forall (fun w => w ≤ kSendChunkMax) answers.

Lemma send_loop_taken data answers errno :
  send_answers answers →
  let '(taken, status) := send_loop data answers errno in
  (∃ rest, data = taken ++ rest) ∧
  (∀ st, status = Some st → is_ok st = true → taken = data).
Proof.
  intros Ha. revert data. induction Ha as [|w answers Hw Ha IH]; intros data; cbn [send_loop].
  - destruct (zlen data =? 0) eqn:E; [|by split; [eexists|]]. bool_prop.
    split; [by eexists|]. intros st _ _. destruct data; [done|]. unfold zlen in E. simpl in E. lia.
  - destruct (zlen data =? 0) eqn:E; [|]; bool_prop.
    { split; [by eexists|]. intros st _ _. destruct data; [done|]. unfold zlen in E. simpl in E. lia. }
    destruct (w <=? 0) eqn:Ew; bool_prop; [by split; [eexists|intros st [= <-]]|].
    specialize (IH (drop (Z.to_nat w) data)).
    destruct (send_loop _ answers errno) as [taken status]. destruct IH as [[rest Hr] IH].
    assert (take (Z.to_nat w) (take (Z.to_nat (Z.min (zlen data) kSendChunkMax)) data) =
      take (Z.to_nat w) data) as ->.
    { rewrite take_take. destruct (decide (w ≤ zlen data)) as [Hle|Hgt]; [f_equal; lia|].
      rewrite !firstn_all2 by (unfold zlen in *; lia). done. }
    split.
    + exists rest. rewrite <- app_assoc, <- Hr. by rewrite take_drop.
    + intros st Hst Hok. rewrite (IH st Hst Hok). by rewrite take_drop.
Qed.

(** A send that reports success handed over every byte of the encoded frame, in order,
    however the kernel split the writes; whatever the status, what it handed over is a prefix
    of the frame's bytes. *)
Theorem send_frame_complete (s : Socket) (f : Frame) (answers : list Z) (errno : Z) :
  send_answers answers →
  let '(taken, status) := send_frame s f answers errno in
  (∃ rest, taken ++ rest = frame_bytes f) ∧
  (∀ st, status = Some st → is_ok st = true → encode_frame f = Ok taken).
Proof.
  intros Ha. unfold send_frame. destruct (encode_frame f) as [bytes|e] eqn:E.
  - apply encode_frame_spec in E as [Hdef ->]. unfold send_raw.
    destruct (so_closed s); [split; [by eexists|by intros st [= <-]]|].
    pose proof (send_loop_taken (frame_bytes f) answers errno Ha) as H.
    destruct (send_loop _ _ _) as [taken status]. destruct H as [[rest Hr] H].
    split; [by exists rest|]. intros st Hst Hok. by rewrite (H st Hst Hok).
  - split; [by eexists|]. intros st [= <-]. apply encode_frame_Fail in E. congruence.
Qed.

Lemma send_frame_complete_witness : ∃ taken,
  send_frame socket_new demo_frame [10; 40; 1000] 0 = (taken, Some status_ok) ∧
  encode_frame demo_frame = Ok taken.
Proof.
  pose proof (send_frame_complete socket_new demo_frame [10; 40; 1000] 0) as H.
  destruct (send_frame socket_new demo_frame [10; 40; 1000] 0) as [taken status] eqn:E.
  assert (status = Some status_ok) as -> by (vm_compute in E; injection E as _ <-; reflexivity).
  exists taken. split; [reflexivity|]. apply H with status_ok; [|reflexivity|reflexivity].
  repeat constructor; vm_compute; discriminate.
Defined.

(** ** Reassembly *)
#[local] Opaque crc32 frame_bytes.

(** Answers that keep the connection going: nothing yet, or some bytes. *)
Definition benign (a : SocketAnswer) : Prop :=
  match a with sa_quiet => True | sa_bytes data => data ≠ [] | _ => False end.
Definition answer_bytes (a : SocketAnswer) : list Z :=
  match a with sa_bytes data => data | _ => [] end.
Definition stream_of (answers : list SocketAnswer) : list Z := answers ≫= answer_bytes.

(** A frame that [encode_frame] can write, of any size the protocol allows. *)
Definition sendable (f : Frame) : Prop := frame_wf f ∧ frame_defined f.

Lemma next_frame_complete f rest :
  sendable f → next_frame (frame_bytes f ++ rest) = Some (Ok f, rest).
Proof.
  intros [Hwf Hdef]. unfold next_frame. pose proof (frame_bytes_length f).
  pose proof (zlen_nonneg (frame_body f)). pose proof (zlen_nonneg rest).
  rewrite (proj2 (Z.eqb_neq _ _)) by (rewrite zlen_app; lia).
  rewrite decode_frame_bytes by assumption. unfold zlen. by rewrite Nat2Z.id, drop_app_length.
Qed.

Lemma next_frame_partial f part more :
  sendable f → frame_bytes f = part ++ more → more ≠ [] → next_frame part = None.
Proof.
  intros [Hwf Hdef] E Hm. unfold next_frame. destruct part as [|b part]; [reflexivity|].
  destruct (zlen (b :: part) =? 0); [reflexivity|].
  destruct (decode_frame_partial f (b :: part) more Hwf Hdef E ltac:(discriminate) Hm)
    as (s & -> & [Hs|Hs]); unfold retryable; rewrite Hs; reflexivity.
Qed.

(** An incomplete frame never reaches the bound of the buffer. *)
Lemma partial_below_bound capacity f part more :
  48 ≤ capacity → sendable f → frame_bytes f = part ++ more → more ≠ [] →
  (capacity + limits.kFramePayloadMaxBytes + kHeaderBytes <=? zlen part) = false.
Proof.
  intros Hc [_ (_ & _ & Hp)] E Hm. apply Z.leb_gt.
  pose proof (frame_bytes_length f) as Hl. rewrite frame_body_length in Hl.
  rewrite E, zlen_app in Hl. unfold kHeaderBytes.
  assert (0 < zlen more) by (clear -Hm; destruct more; [done|unfold zlen; simpl; lia]). lia.
Qed.

(** The buffer and what is still to come decide the next frame, however it is cut. *)
Lemma receive_frame_next capacity f rest answers tail buffer :
  48 ≤ capacity → sendable f → Forall benign answers →
  buffer ++ stream_of answers = frame_bytes f ++ rest →
  ∃ buffer' answers',
    receive_frame capacity buffer (answers ++ tail) = (Some (Ok f), buffer', answers' ++ tail) ∧
    Forall benign answers' ∧ buffer' ++ stream_of answers' = rest.
Proof.
  intros Hc Hf Ha. revert buffer. induction Ha as [|a answers Hb Ha IH]; intros buffer E.
  - cbn in E. rewrite app_nil_r in E. exists rest, []. subst buffer.
    destruct tail; cbn [receive_frame app]; rewrite next_frame_complete by done; cbn;
      by rewrite app_nil_r.
  - destruct (decide (length (frame_bytes f) ≤ length buffer)%nat) as [Hl|Hl].
    + assert (buffer = frame_bytes f ++ drop (length (frame_bytes f)) buffer) as Eb.
      { rewrite <- (take_drop (length (frame_bytes f)) buffer) at 1. f_equal.
        apply (f_equal (take (length (frame_bytes f)))) in E.
        by rewrite take_app_le, take_app_length in E. }
      exists (drop (length (frame_bytes f)) buffer), (a :: answers).
      split; [|split; [by constructor|]].
      * rewrite Eb at 1. cbn [receive_frame app]. by rewrite next_frame_complete.
      * rewrite Eb, <- app_assoc in E. by apply app_inv_head in E.
    + assert (frame_bytes f = buffer ++ drop (length buffer) (frame_bytes f)) as Eb.
      { rewrite <- (take_drop (length buffer) (frame_bytes f)) at 1. f_equal.
        apply (f_equal (take (length buffer))) in E.
        by rewrite take_app_length, take_app_le in E by lia. }
      assert (drop (length buffer) (frame_bytes f) ≠ []) as Hm.
      { intros Hd. apply (f_equal length) in Hd. rewrite length_drop in Hd. simpl in Hd. lia. }
      cbn [receive_frame app]. rewrite (next_frame_partial f buffer _ Hf Eb Hm).
      rewrite (partial_below_bound capacity f buffer _ Hc Hf Eb Hm).
      destruct a; try done; cbn [receive_raw]; cbn in E.
      * apply IH. done.
      * apply IH. by rewrite <- app_assoc.
Qed.

(** What a session sees when the stream ends, with nothing or part of a frame left over. *)
Definition leftover (part : list Z) : Prop :=
  part = [] ∨ ∃ f more, sendable f ∧ frame_bytes f = part ++ more ∧ more ≠ [].
Definition end_reason (part : list Z) : Status :=
  if zlen part =? 0 then mkStatus ErrorCode.kTransportClosed "peer closed the connection"
  else mkStatus ErrorCode.kFrameTruncatedPayload "peer closed the connection mid frame".

Lemma leftover_prefix part part' more : leftover part → part = part' ++ more → leftover part'.
Proof.
  intros [->|(f & m & Hf & E & Hm)] Hp.
  - left. symmetry in Hp. by apply app_eq_nil in Hp as [-> _].
  - right. exists f, (more ++ m). rewrite E, Hp, <- app_assoc. split_and!; try done.
    intros [_ ->]%app_eq_nil. done.
Qed.

Lemma leftover_waits capacity part :
  48 ≤ capacity → leftover part → next_frame part = None ∧
  (capacity + limits.kFramePayloadMaxBytes + kHeaderBytes <=? zlen part) = false.
Proof.
  intros Hc [->|(f & more & Hf & E & Hm)].
  - split; [done|]. apply Z.leb_gt. unfold limits.kFramePayloadMaxBytes, kHeaderBytes, zlen.
    simpl. lia.
  - split; [by eapply next_frame_partial|by eapply partial_below_bound].
Qed.

Lemma receive_frame_end capacity part answers buffer :
  48 ≤ capacity → leftover part → Forall benign answers → buffer ++ stream_of answers = part →
  receive_frame capacity buffer (answers ++ [sa_eof]) =
    (Some (Fail (end_reason part)), part, []).
Proof.
  intros Hc Hp Ha. revert buffer. induction Ha as [|a answers Hb Ha IH]; intros buffer E.
  - cbn in E. rewrite app_nil_r in E. subst buffer. cbn [receive_frame app].
    destruct (leftover_waits capacity part Hc Hp) as [-> ->].
    cbn [receive_raw]. unfold fail, end_reason. cbn. by destruct (zlen part =? 0).
  - assert (leftover buffer) as Hl by (eapply leftover_prefix; [exact Hp|by symmetry]).
    destruct (leftover_waits capacity buffer Hc Hl) as [Hn Hbd].
    cbn [receive_frame app]. rewrite Hn, Hbd. destruct a; try done; cbn [receive_raw]; cbn in E.
    + by apply IH.
    + apply IH. by rewrite <- app_assoc.
Qed.

Lemma session_loop_step fuel capacity buffer answers f buffer' answers' :
  receive_frame capacity buffer answers = (Some (Ok f), buffer', answers') →
  session_loop (S fuel) capacity buffer answers =
    (f :: (session_loop fuel capacity buffer' answers').1,
     (session_loop fuel capacity buffer' answers').2).
Proof.
  intros Hr. cbn [session_loop]. rewrite Hr. by destruct (session_loop fuel _ _ _).
Qed.

(** C28: frames survive any fragmentation.  When a peer sends frames and closes, in the middle
    of a frame or not, then however the kernel cuts the stream into pieces and however long it
    stays quiet in between, the session hands exactly those frames to the handler, in order,
    and ends with [kTransportClosed], or with [kFrameTruncatedPayload] when part of a frame was
    left.  The receive buffer must hold 48 bytes. *)
Theorem session_reassembles (capacity : Z) (frames : list Frame) (part : list Z)
    (answers : list SocketAnswer) :
  48 ≤ capacity → Forall sendable frames → leftover part → Forall benign answers →
  stream_of answers = (frames ≫= frame_bytes) ++ part →
  session_loop (S (length frames)) capacity [] (answers ++ [sa_eof]) =
    (frames, Some (end_reason part)).
Proof.
  intros Hc Hfs Hp. rewrite <- (app_nil_l (stream_of answers)). generalize (@nil Z) as buffer.
  revert answers. induction Hfs as [|f frames Hf Hfs IH]; intros answers buffer Ha E.
  - cbn in E. cbn [length session_loop]. rewrite (receive_frame_end capacity part) by done.
    unfold end_reason. by destruct (zlen part =? 0).
  - cbn in E. rewrite <- app_assoc in E.
    destruct (receive_frame_next capacity f _ answers [sa_eof] buffer Hc Hf Ha E)
      as (buffer' & answers' & Hr & Ha' & E').
    cbn [length]. rewrite (session_loop_step _ _ _ _ _ _ _ Hr). by rewrite (IH answers' buffer').
Qed.

Lemma session_reassembles_witness :
  session_loop 3 48 []
    ([sa_bytes (take 30 (frame_bytes demo_frame)); sa_quiet;
      sa_bytes (drop 30 (frame_bytes demo_frame) ++ frame_bytes demo_frame ++ [49])] ++ [sa_eof]) =
  ([demo_frame; demo_frame],
   Some (mkStatus ErrorCode.kFrameTruncatedPayload "peer closed the connection mid frame")).
Proof.
  assert (sendable demo_frame) as Hf.
  { split; [|split_and!; done]. unfold frame_wf, envelope_wf, id_wf.
    split_and!; by (done || apply bytes_check). }
  apply (session_reassembles 48 [demo_frame; demo_frame] [49]).
  - lia.
  - by repeat constructor.
  - right. exists demo_frame, (drop 1 (frame_bytes demo_frame)). split; [exact Hf|].
    split; [vm_compute; reflexivity|vm_compute; discriminate].
  - repeat constructor; vm_compute; discriminate.
  - vm_compute. reflexivity.
Defined.

(** ** Idle peers *)
Lemma next_frame_not_idle b s b' :
  next_frame b = Some (Fail s, b') → st_code s ≠ ErrorCode.kTransportTimeout.
Proof.
  unfold next_frame. destruct (_ =? 0); [done|].
  destruct (decode_frame b) as [[]|s'] eqn:E; [done|]. destruct (retryable _); [done|].
  intros [= <- _] Hs. revert E. unfold decode_frame, decode_envelope, fail.
  repeat case_match; intros [= <-]; discriminate Hs.
Qed.

(** [receive_frame] waits through idle polls itself and never reports one, so the branch
    of [session_loop] that would look at the running flag after an idle poll is never taken:
    a session notices a shutdown only because its descriptor is released. *)
Theorem receive_frame_never_idle (capacity : Z) (buffer buffer' : list Z)
    (answers answers' : list SocketAnswer) (status : Status) :
  receive_frame capacity buffer answers = (Some (Fail status), buffer', answers') →
  st_code status ≠ ErrorCode.kTransportTimeout.
Proof.
  revert buffer. induction answers as [|a answers IH]; intros buffer; cbn [receive_frame].
  - destruct (next_frame buffer) as [[r b]|] eqn:E;
      [intros [= -> -> _]; by eapply next_frame_not_idle|].
    case_match; [by intros [= <- _ _]|done].
  - destruct (next_frame buffer) as [[r b]|] eqn:E;
      [intros [= -> -> _]; by eapply next_frame_not_idle|].
    case_match; [by intros [= <- _ _]|].
    destruct (receive_raw a) as [data|s]; [apply IH|].
    case_bool_decide as Hs; [apply IH|]. case_match; [by intros [= <- _ _]|].
    by intros [= <- _ _].
Qed.

Lemma receive_frame_never_idle_witness :
  st_code (mkStatus ErrorCode.kTransportClosed "connection was shut down while waiting to read")
    ≠ ErrorCode.kTransportTimeout.
Proof.
  apply (receive_frame_never_idle 65536 [] [] [sa_quiet; sa_quiet; sa_quiet_released] []).
  vm_compute. reflexivity.
Defined.

(** ** The server's bounds *)
Definition server_wf (s : Server) : Prop :=
  NoDup (ts_live s) ∧ (∀ c, c ∈ ts_live s → c ∈ ts_workers s) ∧
  zlen (ts_live s) ≤ ts_max_sessions s ∧ ts_max_sessions s ≤ limits.kSessionsMax.

Lemma clamp_sessions_bounds n : 0 ≤ n → 1 ≤ clamp_sessions n ≤ limits.kSessionsMax.
Proof.
  intros Hn. unfold clamp_sessions, limits.kSessionsMax.
  destruct (n =? 0) eqn:E; bool_prop; [done|]. destruct (_ <? n) eqn:E'; bool_prop; lia.
Qed.

Lemma accept_one_wf s c : c ∉ ts_workers s → server_wf s → server_wf (accept_one s c).
Proof.
  intros Hc (Hn & Hw & Hl & Hm). unfold accept_one. destruct (negb _); [by split_and!|].
  destruct (_ <=? _) eqn:E; [by split_and!|]. bool_prop. split_and!; cbn; try done.
  - apply NoDup_app. split_and!; [done| |by apply NoDup_singleton].
    intros x Hx ->%list_elem_of_singleton. eauto.
  - intros x. rewrite !elem_of_app. naive_solver.
  - rewrite zlen_app. unfold zlen in *. simpl. lia.
Qed.

Lemma session_end_wf s c : server_wf s → server_wf (session_end s c).
Proof.
  intros (Hn & Hw & Hl & Hm). split_and!; cbn; try done.
  - by apply NoDup_filter.
  - intros x [_ Hx]%list_elem_of_filter. auto.
  - etrans; [|exact Hl]. unfold zlen. apply Nat2Z.inj_le, length_filter.
Qed.

Lemma server_step_wf s s' : server_step s s' → server_wf s → server_wf s'.
Proof.
  intros [s0 c _ Hc|s0 _|s0 c _|s0|s0 _ _ _] Hw.
  - by apply accept_one_wf.
  - exact Hw.
  - by apply session_end_wf.
  - unfold shutdown_begin. by destruct (negb _).
  - destruct Hw as (_ & _ & Hl & Hm). pose proof (zlen_nonneg (ts_live s0)).
    split; [apply NoDup_nil_2|split; [by intros c Hc%elem_of_nil|split; [|done]]].
    unfold zlen. simpl. lia.
Qed.

Lemma listen_wf s n : 0 ≤ n → server_wf s → server_wf (listen s n).1.
Proof.
  intros Hn Hw. unfold listen. destruct (ts_running s); [done|].
  pose proof (clamp_sessions_bounds n Hn).
  split_and!; cbn; [apply NoDup_nil_2 | by intros c Hc%elem_of_nil | unfold zlen; simpl; lia | lia].
Qed.

Lemma server_new_wf : server_wf server_new.
Proof. split_and!; cbn; [apply NoDup_nil_2 | by intros c Hc%elem_of_nil | done | done]. Qed.

(** Once the flag is down nothing is accepted any more. *)
Lemma server_step_stopped s s' :
  server_step s s' → ts_running s = false →
  ts_running s' = false ∧ (∀ c, c ∈ ts_live s' → c ∈ ts_live s) ∧
  ts_accepted_total s' = ts_accepted_total s ∧ ts_rejected_total s' = ts_rejected_total s.
Proof.
  intros [s0 c _ _|s0 _|s0 c _|s0|s0 _ _ _] Hr.
  - unfold accept_one. by rewrite Hr.
  - done.
  - split_and!; cbn; try done. by intros x [_ Hx]%list_elem_of_filter.
  - unfold shutdown_begin. by rewrite Hr.
  - split_and!; cbn; try done. set_solver.
Qed.

(** The server never has more live sessions than it was configured for, nor more than
    [kSessionsMax], each with a worker of its own; and from the moment its shutdown begins, in
    whatever order the acceptor, the workers and the shutdown proceed, no session is accepted,
    the live sessions only leave, and when the shutdown ends none is left. *)
Theorem server_sessions_bounded (s0 s s' : Server) (max_sessions : Z) :
  0 ≤ max_sessions → ts_running s0 = false →
  rtc server_step (listen s0 max_sessions).1 s →
  (NoDup (ts_live s) ∧ (∀ c, c ∈ ts_live s → c ∈ ts_workers s) ∧
   zlen (ts_live s) ≤ clamp_sessions max_sessions ∧
   clamp_sessions max_sessions ≤ limits.kSessionsMax) ∧
  (rtc server_step (shutdown_begin s) s' →
   ts_running s' = false ∧ (∀ c, c ∈ ts_live s' → c ∈ ts_live s) ∧
   ts_accepted_total s' = ts_accepted_total s ∧ ts_live (shutdown_end s') = []).
Proof.
  intros Hm Hr Hs. split.
  - assert (server_wf (listen s0 max_sessions).1 ∧
      ts_max_sessions (listen s0 max_sessions).1 = clamp_sessions max_sessions) as [Hw Hms].
    { unfold listen. rewrite Hr. split; [|done].
      pose proof (listen_wf server_new max_sessions Hm server_new_wf) as H. exact H. }
    assert (server_wf s ∧ ts_max_sessions s = clamp_sessions max_sessions) as [(H1 & H2 & H3 & H4) E].
    { clear Hr Hm. induction Hs as [|x y z Hxy Hyz IH]; [done|]. apply IH.
      - by eapply server_step_wf.
      - destruct Hxy; try done; [unfold accept_one|unfold shutdown_begin]; by repeat case_match. }
    rewrite E in *. by split_and!.
  - intros Hd. assert (ts_running (shutdown_begin s) = false ∧
      ts_live (shutdown_begin s) = ts_live s ∧
      ts_accepted_total (shutdown_begin s) = ts_accepted_total s) as (Hb & El & Ea).
    { unfold shutdown_begin. destruct (ts_running s) eqn:E; cbn; by rewrite ?E. }
    rewrite <- El, <- Ea. clear Hs El Ea Hr. revert Hb.
    induction Hd as [|x y z Hxy Hyz IH]; intros Hb; [by split_and!|].
    destruct (server_step_stopped x y Hxy Hb) as (Hy & Hl & Ha & _).
    destruct (IH Hy) as (Hz & Hlz & Haz & He). split_and!; try done; [by auto|congruence].
Qed.

Lemma server_sessions_bounded_witness :
  let s := accept_one (listen server_new 2).1 7 in
  zlen (ts_live s) ≤ clamp_sessions 2 ∧
  ts_live (shutdown_end (shutdown_begin s)) = [].
Proof.
  cbv zeta. set (s := accept_one (listen server_new 2).1 7).
  destruct (server_sessions_bounded server_new s (shutdown_begin s) 2) as ((_ & _ & H & _) & Hd).
  - lia.
  - reflexivity.
  - apply rtc_once, step_accept; [reflexivity|vm_compute; apply not_elem_of_nil].
  - split; [exact H|]. apply Hd. reflexivity.
Defined.
