(* ===== verification/Sockets.v ===== *)
(** The socket calls of the loopback transport ([src/transport.cpp]): addresses, connecting,
    reserving a port, polling, and the life of the server's listener.

    A native call answers with an argument ([NativeAnswers]); what the code does with
    descriptors is a list of [SocketEvent]s.  [inet_pton] and [inet_ntop] are the operating
    system's and are parameters.  The branches for Windows are not modelled. *)
From S2P Require Import Prelude Identity Errors Codec Checksum Protocol Transport.

(** ** Native sockets *)
Definition kInvalidSocket : Z := -1.
Definition kDefaultPollIntervalMs : Z := 20.

Inductive SocketOption := TcpNoDelay | SoNoSigpipe | SoReuseAddr.

(** What is done with a descriptor. *)
Inductive SocketEvent :=
  | Created (socket : Z)
  | Configured (socket : Z) (option : SocketOption)
  | ShutDown (socket : Z)
  | Closed (socket : Z).

Definition close_native (socket : Z) : list SocketEvent :=
  if socket =? kInvalidSocket then [] else [Closed socket].
Definition shutdown_native (socket : Z) : list SocketEvent :=
  if socket =? kInvalidSocket then [] else [ShutDown socket].
Definition configure_socket (socket : Z) : list SocketEvent :=
  [Configured socket TcpNoDelay; Configured socket SoNoSigpipe].

(** The answers of the calls one operation makes; a call that is not reached is not asked. *)
Record NativeAnswers := mkNativeAnswers {
  na_runtime : bool;
  na_socket : Z;
  na_bind : Z;
  na_listen : Z;
  na_connect : Z;
  (** [getsockname]: its result and the port in network order. *)
  na_getsockname : Z * Z;
  (** Why [std::thread] throws, if it does. *)
  na_thread : option string;
}.

(** ** Polling *)
Record timeval := mkTimeval { tv_sec : Z; tv_usec : Z }.

Definition select_timeout (timeout_ms : Z) : timeval :=
  mkTimeval (timeout_ms / 1000) (timeout_ms mod 1000 * 1000).

(** [select] is given the descriptor, whether it is in the read set, and the timeout. *)
Definition wait_ready (select : Z → bool → timeval → Z) (socket : Z) (for_read : bool)
    (timeout_ms : Z) : bool :=
  if socket =? kInvalidSocket then false
  else 0 <? select socket for_read (select_timeout timeout_ms).

(** ** Addresses *)
Definition AF_INET : Z := 2.
Definition INADDR_LOOPBACK : Z := 0x7F000001.

(** Network byte order on a little-endian machine. *)
Definition htons (port : Z) : Z := le_value (rev (put_le 2 port)).
Definition ntohs : Z → Z := htons.
Definition htonl (address : Z) : Z := le_value (rev (put_le 4 address)).

Record Endpoint := mkEndpoint { ep_host : string; ep_port : Z }.
Definition endpoint_default : Endpoint := mkEndpoint "127.0.0.1" 0.

Record SockAddr := mkSockAddr { sin_family : Z; sin_port : Z; sin_addr : Z }.

(** A connection's descriptor is shared; the last owner destroys the [Socket]. *)
Record Connection := mkConnection {
  tc_socket : option (Z * Socket);
  tc_peer : Endpoint;
  tc_local : Endpoint;
  tc_read_capacity : Z;
  tc_poll_interval_ms : Z;
}.
#[export] Instance Connection_eta : Eta Connection :=
  fun r => mkConnection (tc_socket r) (tc_peer r) (tc_local r) (tc_read_capacity r)
    (tc_poll_interval_ms r).

Definition connection_new : Connection :=
  mkConnection None endpoint_default endpoint_default limits.kIoBufferBytes kDefaultPollIntervalMs.

(** [~Socket] *)
Definition drop_socket (socket : option (Z * Socket)) : list SocketEvent :=
  match socket with
  | Some (handle, s) => if so_released s then [] else
                        if so_handle_valid s then close_native handle else []
  | None => []
  end.

(** [wait_readable] and [wait_writable]. *)
Definition wait_connection (select : Z → bool → timeval → Z) (connection : Connection)
    (for_read : bool) (timeout_ms : Z) : bool :=
  match tc_socket connection with
  | None => false
  | Some (handle, s) =>
      if so_closed s then false
      else wait_ready select (if so_handle_valid s then handle else kInvalidSocket) for_read timeout_ms
  end.

Section native.
(** Dotted quads to and from addresses in network order. *)
Context (inet_pton : string → option Z) (inet_ntop : Z → option string).

Definition format_endpoint (address : SockAddr) : string :=
  String.concat "" [default "?" (inet_ntop (sin_addr address)); ":"; decimal (ntohs (sin_port address))].

(** The address, and whether the host could be read. *)
Definition fill_sockaddr (endpoint : Endpoint) : SockAddr * bool :=
  let address := mkSockAddr AF_INET (htons (ep_port endpoint)) 0 in
  if slen (ep_host endpoint) =? 0 then
    (mkSockAddr AF_INET (htons (ep_port endpoint)) (htonl INADDR_LOOPBACK), true)
  else match inet_pton (ep_host endpoint) with
  | Some host => (mkSockAddr AF_INET (htons (ep_port endpoint)) host, true)
  | None => (address, false)
  end.

(** ** Reserving a port *)
Definition reserve_ephemeral_port (a : NativeAnswers) : list SocketEvent * Result Z :=
  if negb (na_runtime a) then
    ([], fail ErrorCode.kTransportSocketFailed "the socket runtime is unavailable")
  else
    let socket := na_socket a in
    if socket =? kInvalidSocket then
      ([], fail ErrorCode.kTransportSocketFailed "cannot create a socket to reserve a port")
    else if negb (na_bind a =? 0) then
      (Created socket :: close_native socket,
       fail ErrorCode.kTransportBindFailed "cannot bind a loopback socket to reserve a port")
    else if negb ((na_getsockname a).1 =? 0) then
      (Created socket :: close_native socket,
       fail ErrorCode.kTransportAddressInvalid "cannot read back the reserved port")
    else (Created socket :: close_native socket, Ok (ntohs (na_getsockname a).2)).

(** ** Connecting *)

(** The events, [out] and the status.  The assignment to [out] drops what it held before. *)
Definition connect_to (endpoint : Endpoint) (a : NativeAnswers) (out : Connection)
    : list SocketEvent * Connection * Status :=
  if negb (na_runtime a) then
    ([], out, mkStatus ErrorCode.kTransportSocketFailed "the socket runtime is unavailable")
  else if negb (fill_sockaddr endpoint).2 then
    ([], out, mkStatus ErrorCode.kTransportAddressInvalid "endpoint host is not a valid IPv4 literal")
  else
    let socket := na_socket a in
    if socket =? kInvalidSocket then
      ([], out, mkStatus ErrorCode.kTransportSocketFailed "cannot create a client socket")
    else
      let events := Created socket :: configure_socket socket in
      if negb (na_connect a =? 0) then
        (events ++ close_native socket, out,
         mkStatus ErrorCode.kTransportConnectFailed
           (String.concat "" ["cannot connect to "; ep_host endpoint; ":"; decimal (ep_port endpoint)]))
      else
        let connection := connection_new <| tc_socket := Some (socket, socket_new) |>
                                         <| tc_peer := endpoint |> in
        let connection :=
          if (na_getsockname a).1 =? 0
          then connection <| tc_local := mkEndpoint (ep_host endpoint) (ntohs (na_getsockname a).2) |>
          else connection in
        (events ++ drop_socket (tc_socket out), connection, status_ok).

(** ** The listener of the server *)
Record ServerConfig := mkServerConfig {
  sg_bind_host : string;
  sg_port : Z;
  sg_max_sessions : Z;
  sg_read_buffer_bytes : Z;
  sg_backlog : Z;
  sg_reuse_address : bool;
}.

(** [listener_], and [backlog] of [config_], next to the state the threads share. *)
Record Listener := mkListener {
  ln_server : Server;
  ln_backlog : Z;
  ln_socket : option (Z * Socket);
}.

Definition listener_new : Listener := mkListener server_new limits.kBacklogMax None.

Definition clamp_backlog (backlog : Z) : Z := if backlog <=? 0 then 1 else backlog.

(** [Server::listen] *)
Definition server_listen (l : Listener) (config : ServerConfig) (a : NativeAnswers)
    : list SocketEvent * Listener * Status :=
  let s := ln_server l in
  if negb (na_runtime a) then
    ([], l, mkStatus ErrorCode.kTransportSocketFailed "the socket runtime is unavailable")
  else if ts_running s then
    ([], l, mkStatus ErrorCode.kStateDuplicateRegistration "the server is already listening")
  else
    let l := mkListener (s <| ts_max_sessions := clamp_sessions (sg_max_sessions config) |>)
               (clamp_backlog (sg_backlog config)) (ln_socket l) in
    if negb (fill_sockaddr (mkEndpoint (sg_bind_host config) (sg_port config))).2 then
      ([], l, mkStatus ErrorCode.kTransportAddressInvalid "bind host is not a valid IPv4 literal")
    else
      let socket := na_socket a in
      if socket =? kInvalidSocket then
        ([], l, mkStatus ErrorCode.kTransportSocketFailed "cannot create a listening socket")
      else
        let events := Created socket ::
          (if sg_reuse_address config then [Configured socket SoReuseAddr] else []) in
        if negb (na_bind a =? 0) then
          (events ++ close_native socket, l,
           mkStatus ErrorCode.kTransportBindFailed
             (String.concat "" ["cannot bind "; sg_bind_host config; ":"; decimal (sg_port config)]))
        else if negb (na_listen a =? 0) then
          (events ++ close_native socket, l,
           mkStatus ErrorCode.kTransportListenFailed "cannot listen on the bound socket")
        else
          let events := events ++ drop_socket (ln_socket l) in
          let s := mkServer (ts_max_sessions (ln_server l)) true true true [] [] [] 0 0 in
          match na_thread a with
          | None => (events, mkListener s (ln_backlog l) (Some (socket, socket_new)), status_ok)
          | Some what =>
              (events ++ close_native socket,
               mkListener (s <| ts_running := false |> <| ts_listener_open := false |>
                             <| ts_acceptor_alive := false |>) (ln_backlog l) None,
               mkStatus ErrorCode.kTransportSocketFailed
                 (String.append "cannot start the acceptor thread: " what))
          end.

(** What [shutdown] does with the listener, on both of its paths. *)
Definition close_listener (socket : option (Z * Socket)) : list SocketEvent * option (Z * Socket) :=
  match socket with
  | Some (handle, s) =>
      if so_handle_valid s
      then (close_native handle,
            Some (handle, mkSocket false (so_closed s) (so_released s) (so_native_closes s + 1)))
      else ([], socket)
  | None => ([], None)
  end.

(** [Server::bound_port] *)
Definition bound_port (l : Listener) (a : NativeAnswers) : Z :=
  match ln_socket l with
  | Some (_, s) =>
      if negb (so_handle_valid s) then 0
      else if negb ((na_getsockname a).1 =? 0) then 0 else ntohs (na_getsockname a).2
  | None => 0
  end.

(** [Server::session_count] *)
Definition server_session_count (l : Listener) : Z := zlen (ts_live (ln_server l)).

(** ** A process with a connection and a server *)
Record Native := mkNative { nv_connection : Connection; nv_listener : Listener }.
Definition native_new : Native := mkNative connection_new listener_new.

(** What [release_for_teardown] and [shutdown_socket] do natively. *)
Definition release_events (socket : option (Z * Socket)) : list SocketEvent :=
  match socket with
  | Some (handle, s) =>
      if so_released s then [] else if so_handle_valid s then close_native handle else []
  | None => []
  end.
Definition shutdown_events (socket : option (Z * Socket)) : list SocketEvent :=
  match socket with
  | Some (handle, s) => if shutdown_socket s then shutdown_native handle else []
  | None => []
  end.

(** The operations, with any answers of the operating system, in any order. *)
Inductive native_step : Native → list SocketEvent → Native → Prop :=
  | native_connect n endpoint a events out status :
      connect_to endpoint a (nv_connection n) = (events, out, status) →
      native_step n events (mkNative out (nv_listener n))
  | native_reserve n a : native_step n (reserve_ephemeral_port a).1 n
  | native_listen n config a events l status :
      server_listen (nv_listener n) config a = (events, l, status) →
      native_step n events (mkNative (nv_connection n) l)
  | native_shutdown n events socket :
      close_listener (ln_socket (nv_listener n)) = (events, socket) →
      native_step n events
        (mkNative (nv_connection n)
           (mkListener (shutdown_begin (ln_server (nv_listener n))) (ln_backlog (nv_listener n)) socket))
  | native_reset n :
      native_step n (drop_socket (ln_socket (nv_listener n)))
        (mkNative (nv_connection n)
           (mkListener (ln_server (nv_listener n)) (ln_backlog (nv_listener n)) None))
  | native_shutdown_socket n :
      native_step n (shutdown_events (tc_socket (nv_connection n))) n
  | native_release n :
      native_step n (release_events (tc_socket (nv_connection n)))
        (mkNative ((nv_connection n) <| tc_socket ::= fmap (fun hs => (hs.1, release_for_teardown hs.2)) |>)
           (nv_listener n))
  | native_destroy n :
      native_step n (drop_socket (tc_socket (nv_connection n)))
        (mkNative connection_new (nv_listener n)).

Inductive native_run : Native → list SocketEvent → Native → Prop :=
  | native_done n : native_run n [] n
  | native_more n events n' more n'' :
      native_step n events n' → native_run n' more n'' → native_run n (events ++ more) n''.

(** ** Descriptors *)
Definition created (events : list SocketEvent) : list Z :=
  events ≫= fun e => match e with Created socket => [socket] | _ => [] end.
Definition closed_by (events : list SocketEvent) : list Z :=
  events ≫= fun e => match e with Closed socket => [socket] | _ => [] end.

(** The descriptors that are open and have an owner. *)
Definition held (socket : option (Z * Socket)) : list Z :=
  match socket with
  | Some (handle, s) => if so_handle_valid s && negb (handle =? kInvalidSocket) then [handle] else []
  | None => []
  end.
Definition held_by (n : Native) : list Z :=
  held (tc_socket (nv_connection n)) ++ held (ln_socket (nv_listener n)).

(** A released descriptor is not valid any more. *)
Definition socket_wf (socket : option (Z * Socket)) : Prop :=
  match socket with Some (_, s) => so_released s = true → so_handle_valid s = false | None => True end.
Definition native_wf (n : Native) : Prop :=
  socket_wf (tc_socket (nv_connection n)) ∧ socket_wf (ln_socket (nv_listener n)).

Lemma created_app l k : created (l ++ k) = created l ++ created k.
Proof. apply bind_app. Qed.
Lemma closed_by_app l k : closed_by (l ++ k) = closed_by l ++ closed_by k.
Proof. apply bind_app. Qed.

Lemma drop_closes socket : socket_wf socket →
  created (drop_socket socket) = [] ∧ closed_by (drop_socket socket) = held socket.
Proof.
  destruct socket as [[handle s]|]; [|done]. cbn. unfold close_native. intros Hw.
  destruct (so_released s); [by rewrite Hw|].
  by destruct (so_handle_valid s), (handle =? kInvalidSocket).
Qed.

Lemma close_created socket : (socket =? kInvalidSocket) = false →
  close_native socket = [Closed socket].
Proof. unfold close_native. by intros ->. Qed.

Lemma connect_conserves endpoint a out :
  socket_wf (tc_socket out) →
  let '(events, out', status) := connect_to endpoint a out in
  socket_wf (tc_socket out') ∧
  held (tc_socket out) ++ created events ≡ₚ held (tc_socket out') ++ closed_by events ∧
  (is_ok status = true → held (tc_socket out') = [na_socket a]).
Proof.
  intros Hw. unfold connect_to. cbv zeta.
  destruct (na_runtime a); cbn [negb]; [|done]. destruct (fill_sockaddr endpoint).2; cbn [negb]; [|done].
  destruct (na_socket a =? kInvalidSocket) eqn:Es; [done|].
  destruct (na_connect a =? 0); cbn [negb].
  - rewrite created_app, closed_by_app. destruct (drop_closes _ Hw) as [-> ->].
    assert (∀ c : Connection, tc_socket c = Some (na_socket a, socket_new) →
      socket_wf (tc_socket c) ∧
      held (tc_socket out) ++ created (Created (na_socket a) :: configure_socket (na_socket a)) ++ [] ≡ₚ
      held (tc_socket c) ++ closed_by (Created (na_socket a) :: configure_socket (na_socket a)) ++
        held (tc_socket out) ∧ (is_ok status_ok = true → held (tc_socket c) = [na_socket a])) as H.
    { intros c ->. cbn. rewrite Es. cbn. split_and!; [done| |done]. by rewrite Permutation_app_comm. }
    by destruct ((na_getsockname a).1 =? 0); apply H.
  - rewrite close_created by done. cbn. split_and!; done.
Qed.

Lemma reserve_conserves a :
  created (reserve_ephemeral_port a).1 = closed_by (reserve_ephemeral_port a).1.
Proof.
  unfold reserve_ephemeral_port. destruct (negb _); [done|].
  destruct (na_socket a =? kInvalidSocket) eqn:Es; [done|]. rewrite close_created by done.
  by destruct (na_bind a =? 0), ((na_getsockname a).1 =? 0).
Qed.

Lemma listen_conserves l config a :
  socket_wf (ln_socket l) →
  let '(events, l', status) := server_listen l config a in
  socket_wf (ln_socket l') ∧
  held (ln_socket l) ++ created events ≡ₚ held (ln_socket l') ++ closed_by events.
Proof.
  intros Hw. unfold server_listen. cbv zeta.
  destruct (na_runtime a); cbn [negb]; [|done]. destruct (ts_running (ln_server l)); [done|].
  destruct (fill_sockaddr _).2; cbn [negb]; [|done].
  destruct (na_socket a =? kInvalidSocket) eqn:Es; [done|].
  set (opened := Created _ :: _).
  assert (created opened = [na_socket a]) as E1 by (by destruct (sg_reuse_address config)).
  assert (closed_by opened = []) as E2 by (by destruct (sg_reuse_address config)).
  rewrite !close_created by done.
  destruct (na_bind a =? 0); cbn [negb].
  2:{ by rewrite created_app, closed_by_app, E1, E2. }
  destruct (na_listen a =? 0); cbn [negb].
  2:{ by rewrite created_app, closed_by_app, E1, E2. }
  destruct (drop_closes _ Hw) as [E3 E4].
  destruct (na_thread a); cbn [ln_socket].
  - rewrite !created_app, !closed_by_app, E1, E2, E3, E4. cbn. split; [done|]. done.
  - rewrite !created_app, !closed_by_app, E1, E2, E3, E4. cbn. rewrite Es. cbn.
    split; [done|]. by rewrite Permutation_app_comm.
Qed.

Lemma close_listener_conserves socket :
  socket_wf socket →
  let '(events, socket') := close_listener socket in
  socket_wf socket' ∧ created events = [] ∧ held socket = held socket' ++ closed_by events.
Proof.
  intros Hw. destruct socket as [[handle s]|]; [|done]. cbn [close_listener].
  destruct (so_handle_valid s) eqn:Ev; [|split_and!; [done|done|by rewrite app_nil_r]]. cbn. unfold close_native. rewrite Ev.
  destruct (handle =? kInvalidSocket); done.
Qed.

Lemma release_conserves socket :
  socket_wf socket →
  let socket' := (fun hs : Z * Socket => (hs.1, release_for_teardown hs.2)) <$> socket in
  socket_wf socket' ∧ created (release_events socket) = [] ∧
  held socket = held socket' ++ closed_by (release_events socket).
Proof.
  intros Hw. destruct socket as [[handle s]|]; [|done]. cbn. unfold release_for_teardown, close_native.
  cbn in Hw. destruct (so_released s) eqn:Er; [split_and!; [intros _; by apply Hw|done|by rewrite app_nil_r]|]. cbn.
  by destruct (so_handle_valid s), (handle =? kInvalidSocket).
Qed.

(** No step creates or closes a descriptor without an owner that gains or loses it. *)
Lemma native_step_conserves n events n' :
  native_step n events n' → native_wf n →
  native_wf n' ∧ held_by n ++ created events ≡ₚ held_by n' ++ closed_by events.
Proof.
  destruct 1 as [n endpoint a ev out status E|n a|n config a ev l status E|n ev socket E|n|n|n|n];
    intros [Hc Hl]; unfold native_wf, held_by; cbn [nv_connection nv_listener].
  - pose proof (connect_conserves endpoint a _ Hc) as H. rewrite E in H. destruct H as (Hw & Hp & _).
    split; [done|]. by rewrite <- !app_assoc, (Permutation_app_comm (held (ln_socket _)) (created _)),
      (Permutation_app_comm (held (ln_socket _)) (closed_by _)), !app_assoc, Hp.
  - split; [done|]. by rewrite reserve_conserves.
  - pose proof (listen_conserves _ config a Hl) as H. rewrite E in H. destruct H as [Hw Hp].
    split; [done|]. by rewrite <- !app_assoc, Hp.
  - pose proof (close_listener_conserves _ Hl) as H. rewrite E in H. destruct H as (Hw & -> & Hp).
    split; [done|]. by rewrite app_nil_r, Hp, <- app_assoc.
  - destruct (drop_closes _ Hl) as [-> ->]. split; [done|]. cbn. by rewrite !app_nil_r.
  - split; [done|]. destruct (tc_socket (nv_connection n)) as [[handle s]|]; [|done].
    cbn [shutdown_events]. unfold shutdown_native.
    by destruct (shutdown_socket s), (handle =? kInvalidSocket).
  - destruct (release_conserves _ Hc) as (Hw & -> & Hp). cbn [tc_socket set_field].
    split; [done|]. rewrite app_nil_r, Hp. cbn [nv_connection].
    by rewrite <- !app_assoc, (Permutation_app_comm (closed_by _)).
  - destruct (drop_closes _ Hc) as [-> ->]. split; [done|]. cbn. rewrite !app_nil_r.
    by rewrite Permutation_app_comm.
Qed.

Lemma native_run_conserves n events n' :
  native_run n events n' → native_wf n →
  native_wf n' ∧ held_by n ++ created events ≡ₚ held_by n' ++ closed_by events.
Proof.
  induction 1 as [n|n ev n' more n'' Hs Hr IH]; intros Hw; [by rewrite !app_nil_r|].
  destruct (native_step_conserves _ _ _ Hs Hw) as [Hw' Hp]. destruct (IH Hw') as [Hw'' Hp'].
  split; [done|]. rewrite created_app, closed_by_app, app_assoc, Hp, <- app_assoc.
  rewrite (Permutation_app_comm (closed_by ev)), app_assoc, Hp', <- app_assoc.
  by rewrite (Permutation_app_comm (closed_by more)).
Qed.
End native.

(** Descriptors are neither leaked nor closed twice: over any sequence of connects, port
    reservations, listens, shutdowns, releases and destructions, and whatever the operating
    system answers, the descriptors that were created are exactly those that are still owned
    and those that were closed; when nothing is owned any more, each was closed once for each
    time it was created. *)
Theorem descriptors_conserved (inet_pton : string → option Z) (events : list SocketEvent)
    (n : Native) :
  native_run inet_pton native_new events n → created events ≡ₚ held_by n ++ closed_by events.
Proof.
  intros Hr. destruct (native_run_conserves _ _ _ _ Hr) as [_ Hp]; [done|]. exact Hp.
Qed.

(** [Server::listen] leaves the server listening exactly when it reports success, and then the
    state its threads share is that of [Transport.listen]; after a failure nothing runs that did
    not run before. *)
Theorem server_listen_refines (inet_pton : string → option Z) (l : Listener) (config : ServerConfig)
    (a : NativeAnswers) :
  let '(events, l', status) := server_listen inet_pton l config a in
  (is_ok status = true →
     listen (ln_server l) (sg_max_sessions config) = (ln_server l', status_ok) ∧
     held (ln_socket l') = [na_socket a]) ∧
  (is_ok status = false → ts_running (ln_server l') = ts_running (ln_server l)).
Proof.
  unfold server_listen, listen. cbv zeta. destruct (na_runtime a); cbn [negb]; [|done].
  destruct (ts_running (ln_server l)) eqn:Er; [done|].
  destruct (fill_sockaddr _ _).2; cbn [negb]; [|done].
  destruct (na_socket a =? kInvalidSocket) eqn:Es; [done|].
  destruct (na_bind a =? 0); cbn [negb]; [|done]. destruct (na_listen a =? 0); cbn [negb]; [|done].
  destruct (na_thread a); [done|]. split; [|done]. intros _. cbn. by rewrite Es.
Qed.

(** The timeout of [select] is the one that was asked for, in a normal [timeval]. *)
Lemma select_timeout_exact timeout_ms :
  0 ≤ timeout_ms →
  tv_sec (select_timeout timeout_ms) * 1000000 + tv_usec (select_timeout timeout_ms) =
    timeout_ms * 1000 ∧
  0 ≤ tv_sec (select_timeout timeout_ms) ∧ 0 ≤ tv_usec (select_timeout timeout_ms) < 1000000.
Proof.
  intros H. cbn. pose proof (Z.div_mod timeout_ms 1000 ltac:(lia)).
  pose proof (Z.mod_pos_bound timeout_ms 1000 ltac:(lia)).
  pose proof (Z.div_pos timeout_ms 1000 H ltac:(lia)). lia.
Qed.

Lemma ntohs_htons port : is_u16 port → ntohs (htons port) = port.
Proof.
  intros H. unfold ntohs, htons.
  assert (put_le 2 (le_value (rev (put_le 2 port))) = rev (put_le 2 port)) as ->.
  { rewrite <- put_le_value by (apply Forall_rev, put_le_bytes).
    by rewrite length_rev, put_le_length. }
  rewrite rev_involutive. by apply le_value_put.
Qed.

(** A connection is opened, released at teardown and destroyed, and a port is reserved. *)
Definition loopback_only (host : string) : option Z :=
  if bool_decide (host = "127.0.0.1") then Some (htonl INADDR_LOOPBACK) else None.
Definition willing : NativeAnswers := mkNativeAnswers true 7 0 0 0 (0, htons 40000) None.

Example connect_release_destroy :
  ∃ events n, native_run loopback_only native_new events n ∧
    created events = [7; 7] ∧ closed_by events = [7; 7] ∧ held_by n = [].
Proof.
  eexists _, _. split.
  - eapply native_more; [eapply (native_connect _ _ (mkEndpoint "127.0.0.1" 40000) willing); reflexivity|].
    eapply native_more; [apply native_release|]. eapply native_more; [apply native_destroy|].
    eapply native_more; [apply (native_reserve _ _ willing)|]. apply native_done.
  - vm_compute. split_and!; reflexivity.
Qed.
