(* ===== verification/Inspection.v ===== *)
(** The inspection texts of the coordinator service ([src/service.cpp], [inspect_summary] to
    [inspect_topology]), which the coordinator returns to operators.  [inspect_collective] and
    the decision explanations are in [Service]. *)
From S2P Require Import Prelude Identity Errors Participant Collective FlowGroup Traffic.
From S2P Require Import Evidence Sync Decision Engine Admission Catalog Authority History Service.

(** [now] is what [monotonic_now_ms] answers inside the call. *)
Definition inspect_summary (s : CoordinatorService) (now : Z) : string :=
  let a := sv_authority s in
  let k := sv_counters s in
  concat_all
    ["coordinator: "; cf_coordinator_label (sv_config s); newline;
     "running: "; yes_no (sv_running s); newline;
     "epoch: "; id_to_string (au_epoch a); newline;
     "policy_generation: "; id_to_string (au_policy_generation a); newline;
     "topology_generation: "; id_to_string (au_topology_generation a); newline;
     "capacity_generation: "; id_to_string (au_capacity_generation a); newline;
     "congestion_generation: "; id_to_string (au_congestion_generation a); newline;
     "collectives: "; decimal (mapsize (cc_records (sv_catalog s))); " of ";
     decimal (cc_capacity (sv_catalog s)); newline;
     "peers: "; decimal (live_peer_count a now); " live of "; decimal (peer_count a);
     " recorded"; newline;
     "sessions: "; decimal (mapsize (sv_sessions s)); " of "; decimal limits.kSessionsMax; newline;
     "decision_history: "; decimal (history_size (sv_history s)); " of ";
     decimal (dh_capacity (sv_history s)); newline;
     "decisions: "; decimal (k_decisions k); " admissions: "; decimal (k_admissions k);
     " rejections: "; decimal (k_rejections k); newline;
     "rate_limited: "; decimal (k_rate_limited k); " deferred: "; decimal (k_deferred k);
     " replans: "; decimal (k_replans k); newline;
     "fences: "; decimal (k_fences k); " stale_completions_rejected: ";
     decimal (k_stale_completions_rejected k); newline;
     "persistence: ";
     if slen (sv_persistence_path s) =? 0 then "disabled" else sv_persistence_path s;
     if sv_persistence_dirty s then " (dirty)" else " (clean)"; newline].

Definition render_decision (record : DecisionRecord) : string :=
  concat_all ["  ["; decimal (de_decision_sequence record); "] "; summary record; newline].

Definition inspect_decisions_text (s : CoordinatorService) (offset limit : Z) : string :=
  let page := history_page (sv_history s) offset limit in
  concat_all
    ["decisions: "; decimal (zlen page); " from ordinal "; decimal offset; newline;
     concat_all (render_decision <$> page);
     "outcomes:";
     concat_all ((fun entry => concat_all [" "; entry.1; "="; decimal entry.2]) <$>
                   outcome_histogram (sv_history s));
     newline].

Definition render_peer (peer : PeerLiveness) : string :=
  concat_all
    ["  "; id_to_string (pr_participant peer);
     " incarnation="; id_to_string (pr_incarnation peer);
     " state="; ParticipantState.ParticipantState_to_string (pr_state peer);
     " node="; if is_some (pr_node peer) then id_to_string (pr_node peer) else "-";
     " expires_at="; decimal (pr_expires_at_monotonic_ms peer); newline].

Definition inspect_peers (s : CoordinatorService) : string :=
  let snapshot := peers_snapshot (sv_authority s) in
  concat_all ["peers: "; decimal (zlen snapshot); newline; concat_all (render_peer <$> snapshot)].

Definition render_class_policy (entry : TrafficClassPolicy) : string :=
  concat_all
    ["  class="; TrafficClass.TrafficClass_to_string (tcp_traffic_class entry);
     " priority="; decimal (tcp_priority entry);
     " floor="; decimal (tcp_minimum_bandwidth_bps entry);
     " ceiling=";
     if tcp_maximum_bandwidth_bps entry =? kUnlimitedRate then "unlimited"
     else decimal (tcp_maximum_bandwidth_bps entry);
     " isolation="; IsolationMode.IsolationMode_to_string (tcp_isolation entry);
     if tcp_requires_evidence_freshness entry then " fresh-evidence" else " evidence-optional";
     newline].

Definition render_collective_policy (entry : CollectiveClassPolicy) : string :=
  concat_all
    ["  collective="; CollectiveClass.CollectiveClass_to_string (ccp_collective_class entry);
     " traffic="; TrafficClass.TrafficClass_to_string (ccp_traffic_class entry);
     if ccp_admit_when_unknown_semantics entry then " admits-unknown" else " refuses-unknown";
     if ccp_allow_member_override entry then " override-allowed" else " override-refused";
     " freshness_ms="; decimal (ccp_freshness_requirement_ms entry); newline].

Definition inspect_policy (s : CoordinatorService) : string :=
  let policy := policy_snapshot (sv_authority s) in
  if is_none (tp_generation policy) then concat_all ["policy: none installed"; newline]
  else
    concat_all
      ["policy: "; id_to_string (tp_generation policy); newline;
       concat_all (render_class_policy <$> tp_class_policies policy);
       concat_all (render_collective_policy <$> tp_collective_policies policy)].

Definition inspect_topology (s : CoordinatorService) : string :=
  let topology := topology_snapshot (sv_authority s) in
  if is_none (te_generation topology) then concat_all ["topology: none installed"; newline]
  else
    let capacity :=
      foldl (fun sum link => w64 (sum + tl_capacity_bps link)) 0 (te_links topology) in
    concat_all
      ["topology: "; id_to_string (te_generation topology);
       if te_synthetic topology then " (SYNTHETIC)" else " (supplied by the deployment)"; newline;
       "  nodes: "; decimal (zlen (te_nodes topology)); " links: ";
       decimal (zlen (te_links topology)); " captured_monotonic_ms: ";
       decimal (te_captured_monotonic_ms topology); newline;
       "  aggregate_link_capacity_bps: "; decimal capacity; newline].
