(* ===== verification/Coordinator.v ===== *)
(** The networked coordinator ([include/ctf/coordinator.hpp], [src/coordinator.cpp]): the
    session table of [CoordinatorHandler], the translation of frames into calls on the service
    and of their results into response frames, and the start and stop of [CoordinatorServer].

    The transport calls [on_open], then [on_frame] for each frame, then [on_close], all on the
    connection's own thread; a connection is the number that the model of the transport gives
    it, in place of its address.  Handlers of different connections interleave at the calls on
    the service, which are atomic; each handler is one function here, and [coordinator_step]
    takes the handlers of all connections in any order.  What a handler does to the outside, a
    snapshot written, a frame sent or a shutdown of the socket, is an [Action], and a handler
    answers the list of its actions in order; the clock, what the socket answers for the bytes
    of a frame and the answer of the snapshot store are in [Io]. *)
From S2P Require Import Prelude Identity Errors Participant Collective FlowGroup Traffic.
From S2P Require Import Evidence Sync Decision Engine Admission Catalog Authority History Service.
From S2P Require Import Codec Checksum Protocol WireData Messages Transport Inspection.

(** ** State *)
Record ConnectionState := mkConnectionState {
  cn_session : Identity;
  cn_incarnation : Identity;
  cn_epoch : Identity;
  cn_peer_label : string;
  cn_opened_monotonic_ms : Z;
  cn_hellos_pending : Z;
  cn_rejected : bool;
}.

#[export] Instance ConnectionState_eta : Eta ConnectionState :=
  fun r => mkConnectionState (cn_session r) (cn_incarnation r) (cn_epoch r) (cn_peer_label r)
    (cn_opened_monotonic_ms r) (cn_hellos_pending r) (cn_rejected r).

(** [ConnectionState{}] *)
Definition connection_default : ConnectionState :=
  mkConnectionState id_none id_none id_none "" 0 1 false.

(** Of the transport's configuration, the session bound. *)
Record CoordinatorConfig := mkCoordinatorConfig {
  cg_max_sessions : Z;
  cg_service : ServiceConfig;
  cg_snapshot_path : string;
  cg_persist_on_mutation : bool;
  cg_clock_offset_ms : Z;
}.

(** [CoordinatorServer] with the fields of its handler. *)
Record CoordinatorServer := mkCoordinatorServer {
  co_config : CoordinatorConfig;
  co_service : CoordinatorService;
  co_server : Server;
  co_running : bool;
  co_shutdown_requested : bool;
  co_stale_frames : Z;
  co_malformed_frames : Z;
  co_protocol_violations : Z;
  co_send_failures : Z;
  co_sessions : gmap nat ConnectionState;
  co_next_sequence : Z;
}.

#[export] Instance CoordinatorServer_eta : Eta CoordinatorServer :=
  fun r => mkCoordinatorServer (co_config r) (co_service r) (co_server r) (co_running r)
    (co_shutdown_requested r) (co_stale_frames r) (co_malformed_frames r)
    (co_protocol_violations r) (co_send_failures r) (co_sessions r) (co_next_sequence r).

Definition coordinator_new (config : CoordinatorConfig) (entropy counter : Z) : CoordinatorServer :=
  mkCoordinatorServer config (service_new (cg_service config) entropy counter) server_new
    false false 0 0 0 0 ∅ 0.

(** What a handler does to the outside, in order: a snapshot that was given to the store, with
    its answer; a frame of which every byte was sent; a socket that was shut down. *)
Inductive Action :=
  | Wrote (pending : PendingWrite) (answer : Status)
  | Sent (connection : nat) (frame : Frame)
  | ShutdownSocket (connection : nat).

(** The clock when the handler starts, when it flushes and when a summary is rendered; what
    [send_raw] answers for the bytes of a frame; what the snapshot store answers. *)
Record Io := mkIo {
  io_now : Z;
  io_flush_now : Z;
  io_summary_now : Z;
  io_sent : Frame → Status;
  io_save : PendingWrite → Status;
}.

Abbreviation Handled := (CoordinatorServer * list Action)%type.

(** [++owner_.field] *)
Definition bump_counter (field : CoordinatorServer → Z) `{!Setter field} (s : CoordinatorServer)
    : CoordinatorServer := set_field field (fun n => w64 (n + 1)) s.

Definition with_service (s : CoordinatorServer) (service : CoordinatorService)
    : CoordinatorServer := s <| co_service := service |>.

(** [connection.shutdown_socket()] after what a handler did. *)
Definition then_shutdown (connection : nat) (handled : Handled) : Handled :=
  (handled.1, handled.2 ++ [ShutdownSocket connection]).

(** [Connection::send_frame] *)
Definition send_frame (io : Io) (frame : Frame) : Status :=
  match encode_frame frame with
  | Fail status => status
  | Ok _ => io_sent io frame
  end.

(** ** Responses *)
Definition reasons_from (code : ErrorCode) (message : string) : ReasonChain :=
  rc_push [] (ErrorCode.error_to_string code) message id_none.

Definition response_frame (s : CoordinatorServer) (state : ConnectionState) (kind : MessageKind)
    (request : Frame) (body : list Z) : Frame :=
  {| fm_kind := enum_raw kind;
     fm_flags := Z.lor kFlagResponse kFlagFinal;
     fm_envelope :=
       {| en_session := cn_session state;
          en_incarnation := cn_incarnation state;
          en_epoch := cn_epoch state;
          en_frame_sequence := w64 (co_next_sequence s + 1);
          en_correlation := en_correlation (fm_envelope request) |};
     fm_payload := body |}.

(** [send_typed] on the encoded payload, with [send_error] when the encoding failed.  The two
    call each other; the encoding of [reasons_from] does not fail, so one level is enough
    ([send_typed_replies]). *)
Fixpoint send_encoded (fuel : nat) (io : Io) (s : CoordinatorServer) (connection : nat)
    (state : ConnectionState) (kind : MessageKind) (request : Frame) (body : Result (list Z))
    : Handled :=
  match body with
  | Ok body =>
      let response := response_frame s state kind request body in
      let s := s <| co_next_sequence ::= fun n => w64 (n + 1) |> in
      if is_ok (send_frame io response) then (s, [Sent connection response])
      else (bump_counter co_send_failures s, [])
  | Fail status =>
      match fuel, co_sessions s !! connection with
      | S fuel, Some state =>
          send_encoded fuel io s connection state MessageKind.kErrorResponse request
            (encode_error (mkErrorPayload (st_code status) (st_message status)
               (reasons_from (st_code status) (st_message status))))
      | _, _ => (s, [])
      end
  end.

Definition send_typed := send_encoded 1.

Definition send_error_with_reasons (io : Io) (s : CoordinatorServer) (connection : nat)
    (request : Frame) (code : ErrorCode) (message : string) (reasons : ReasonChain) : Handled :=
  match co_sessions s !! connection with
  | None => (s, [])
  | Some state =>
      send_typed io s connection state MessageKind.kErrorResponse request
        (encode_error (mkErrorPayload code message reasons))
  end.

Definition send_error (io : Io) (s : CoordinatorServer) (connection : nat) (request : Frame)
    (code : ErrorCode) (message : string) : Handled :=
  send_error_with_reasons io s connection request code message (reasons_from code message).

Definition reject (io : Io) (s : CoordinatorServer) (connection : nat) (frame : Frame)
    (status : Status) : Handled :=
  send_error io (bump_counter co_malformed_frames s) connection frame
    (st_code status) (st_message status).

(** The snapshot that [flush] gives to the store, if it gives one. *)
Definition flush_writes (service : CoordinatorService) (now : Z) (save : PendingWrite → Status)
    : list Action :=
  match (flush_begin service now).2 with
  | Ok (Some pending) => [Wrote pending (save pending)]
  | _ => []
  end.

Definition persist_if_configured (io : Io) (s : CoordinatorServer) : Handled :=
  if negb (cg_persist_on_mutation (co_config s)) then (s, [])
  else (with_service s (flush (co_service s) (io_flush_now io) (io_save io)).1,
        flush_writes (co_service s) (io_flush_now io) (io_save io)).

(** What follows the actions [before]. *)
Definition after (before : list Action) (handled : Handled) : Handled :=
  (handled.1, before ++ handled.2).

Definition protocol_message_requires_request (kind : MessageKind) : bool :=
  match kind with
  | MessageKind.kHeartbeat | MessageKind.kRegisterCollective | MessageKind.kBeginAttempt
  | MessageKind.kPlanFlowGroup | MessageKind.kCancelCollective | MessageKind.kRetireCollective
  | MessageKind.kIngestEvidence | MessageKind.kInspectRequest | MessageKind.kExplainRequest
  | MessageKind.kInstallPolicy | MessageKind.kShutdown => true
  | _ => false
  end.

(** ** The cases of [dispatch] *)
Section dispatch.
Context (io : Io) (s : CoordinatorServer) (connection : nat) (state : ConnectionState).
Context (frame : Frame) (context : ServiceRequestContext).

(** Decode the payload, or [reject]. *)
Definition with_payload {A} (decode : list Z → Result A) (handle : A → Handled) : Handled :=
  match decode (fm_payload frame) with
  | Fail status => reject io s connection frame status
  | Ok payload => handle payload
  end.

Definition respond (s : CoordinatorServer) (kind : MessageKind) (body : Result (list Z)) : Handled :=
  send_typed io s connection state kind frame body.

(** [persist_if_configured()] and the response. *)
Definition persist_respond (s : CoordinatorServer) (kind : MessageKind) (body : Result (list Z))
    : Handled :=
  let '(s, writes) := persist_if_configured io s in
  after writes (respond s kind body).

(** [if (!status.is_ok() && reasons.empty()) reasons.add(to_string(status.code()), ...)] *)
Definition explain_status (reasons : ReasonChain) (status : Status) (subject : Identity)
    : ReasonChain :=
  if negb (is_ok status) && (zlen reasons =? 0)
  then rc_push reasons (ErrorCode.error_to_string (st_code status)) (st_message status) subject
  else reasons.

Definition dispatch_heartbeat : Handled :=
  with_payload decode_heartbeat (fun payload =>
    let '(service, status) :=
      publish_participant (co_service s) context (hb_participant payload)
        (hb_incarnation payload) (hb_node payload) (hb_state payload) in
    let s := with_service s service in
    if negb (is_ok status) then
      send_error io s connection frame (st_code status) (st_message status)
    else
      let stored := peer_snapshot (sv_authority (co_service s)) (hb_participant payload) in
      respond s MessageKind.kHeartbeatAck (encode_heartbeat_ack
        {| hk_participant := hb_participant payload;
           hk_incarnation := hb_incarnation payload;
           hk_state := hb_state payload;
           hk_expires_at_monotonic_ms := pr_expires_at_monotonic_ms stored;
           hk_accepted := true;
           hk_reasons := rc_push [] "heartbeat_accepted"
             "liveness accepted for this incarnation; the participant now holds authority until the expiry instant reported here"
             (hb_participant payload) |})).

Definition dispatch_register : Handled :=
  with_payload decode_register_collective (fun payload =>
    let definition := rp_definition payload in
    let '(service, status, outcome) := register_collective (co_service s) context definition in
    let outcome := default (mkRegistrationOutcome RegistrationResult.kRejectedInvalid
                              id_none id_none [] false false) outcome in
    let reasons :=
      if negb (is_ok status)
      then rc_push (ro_reasons outcome) (ErrorCode.error_to_string (st_code status))
             (st_message status) (cd_id definition)
      else ro_reasons outcome in
    persist_respond (with_service s service) MessageKind.kRegisterAck
      (encode_register_ack
        {| ra_id := cd_id definition;
           ra_generation := ro_generation outcome;
           ra_result := RegistrationResult.RegistrationResult_raw (ro_result outcome);
           ra_registration_sequence := if ro_created outcome then 1 else 0;
           ra_reasons := reasons |})).

Definition dispatch_begin_attempt : Handled :=
  with_payload decode_begin_attempt (fun payload =>
    let '(service, status, outcome) :=
      begin_attempt (co_service s) context (ba_id payload) (ba_generation payload)
        (ba_attempt payload) (ba_transfer_bytes payload) in
    let outcome := default (mkAttemptOutcome id_none id_none id_none
                              CollectiveState.kUnregistered []) outcome in
    persist_respond (with_service s service) MessageKind.kAttemptAck
      (encode_attempt_ack
        {| aa_id := ba_id payload;
           aa_attempt := ba_attempt payload;
           aa_previous_attempt := ao_previous_attempt outcome;
           aa_state := ao_state outcome;
           aa_reasons := explain_status (ao_reasons outcome) status (ba_id payload) |})).

Definition dispatch_plan : Handled :=
  with_payload decode_plan_flow_group (fun payload =>
    let '(service, status, decision) :=
      plan_flow_group (co_service s) context (pp_request payload) in
    let s := with_service s service in
    if negb (is_ok status) then
      send_error io s connection frame (st_code status) (st_message status)
    else
      respond s MessageKind.kFlowGroupDecision
        (encode_decision (mkDecisionPayload (default record_default decision)))).

(** [cancel] tells [kCancelCollective] from [kRetireCollective]. *)
Definition dispatch_lifecycle (cancel : bool) : Handled :=
  with_payload decode_lifecycle (fun payload =>
    let call := if cancel then cancel_collective else retire_collective in
    let '(service, status, out_state, reasons) :=
      call (co_service s) context (lp_id payload) (lp_generation payload) (lp_attempt payload) [] in
    persist_respond (with_service s service) MessageKind.kLifecycleAck
      (encode_lifecycle_ack
        {| la_id := lp_id payload;
           la_state := default CollectiveState.kUnregistered out_state;
           la_reasons := explain_status reasons status (lp_id payload) |})).

(** What one evidence kind leaves: service, generation, result, reasons and code. *)
Definition ingest_evidence (payload : EvidencePayload)
    : CoordinatorService * Identity * Z * ReasonChain * ErrorCode :=
  let ingested (r : Ingested) :=
    let '(service, generation, reasons, status) := r in
    (service, default id_none generation, if is_ok status then 0 else 1, reasons, st_code status) in
  match ey_kind payload with
  | EvidenceKindTag.kCapacity =>
      ingested (ingest_capacity (co_service s) context (ey_capacity payload) [])
  | EvidenceKindTag.kCongestion =>
      ingested (ingest_congestion (co_service s) context (ey_congestion payload) [])
  | EvidenceKindTag.kTopology =>
      ingested (ingest_topology (co_service s) context (ey_topology payload) [])
  | EvidenceKindTag.kPolicy =>
      ingested (install_policy (co_service s) context (ey_policy payload) [])
  | EvidenceKindTag.kNone =>
      (co_service s, id_none, 0,
       rc_push [] "evidence_kind_unknown" "the evidence kind is not defined by this version" id_none,
       ErrorCode.kDecodeInvalidTag)
  end.

Definition dispatch_evidence : Handled :=
  with_payload decode_evidence (fun payload =>
    let '(service, generation, result, reasons, code) := ingest_evidence payload in
    let reasons :=
      if negb (bool_decide (code = ErrorCode.kOk)) && (zlen reasons =? 0)
      then rc_push reasons (ErrorCode.error_to_string code) "evidence ingestion failed" id_none
      else reasons in
    persist_respond (with_service s service) MessageKind.kEvidenceAck
      (encode_evidence_ack
        {| ea_kind := ey_kind payload; ea_result := result; ea_generation := generation;
           ea_reasons := reasons |})).

Definition inspect_body (payload : InspectRequestPayload) : string :=
  let service := co_service s in
  if iq_subject payload =? 0 then inspect_summary service (io_summary_now io)
  else if iq_subject payload =? 1 then inspect_collective service (iq_id payload)
  else if iq_subject payload =? 2
  then inspect_decisions_text service (iq_offset payload) (iq_limit payload)
  else if iq_subject payload =? 3 then inspect_peers service
  else if iq_subject payload =? 4 then inspect_policy service
  else if iq_subject payload =? 5 then inspect_topology service
  else concat_all ["unknown inspection subject"; newline].

Definition kInspectBodyMax : Z := limits.kFramePayloadMaxBytes / 2.

Definition dispatch_inspect : Handled :=
  with_payload decode_inspect_request (fun payload =>
    let body := inspect_body payload in
    let response :=
      if kInspectBodyMax <? slen body
      then mkInspectResponsePayload (iq_subject payload)
             (String.substring 0 (Z.to_nat kInspectBodyMax) body) true
      else mkInspectResponsePayload (iq_subject payload) body false in
    respond s MessageKind.kInspectResponse (encode_inspect_response response)).

Definition dispatch_explain : Handled :=
  with_payload decode_explain_request (fun payload =>
    let '(found, text) :=
      if xq_has_correlation payload
      then explain_correlation (co_service s) (xq_correlation payload)
      else Service.explain (co_service s) (xq_id payload) (xq_attempt payload) in
    respond s MessageKind.kExplainResponse (encode_explain_response
      (mkExplainResponsePayload (present found) (default record_default found) text))).

Definition dispatch_install_policy : Handled :=
  with_payload decode_install_policy (fun payload =>
    let '(service, generation, reasons, status) :=
      install_policy (co_service s) context (ip_policy payload) [] in
    persist_respond (with_service s service) MessageKind.kInstallPolicyAck
      (encode_install_policy_ack
        {| ik_generation := default id_none generation;
           ik_result := if is_ok status then 0 else 1;
           ik_reasons := explain_status reasons status id_none |})).

(** The request's payload is not looked at. *)
Definition dispatch_shutdown : Handled :=
  let '(s, actions) :=
    respond s MessageKind.kShutdownAck (encode_inspect_response
      (mkInspectResponsePayload 255 "shutdown acknowledged; no new work will be accepted" false)) in
  (s <| co_shutdown_requested := true |>, actions).

(** [None] is a kind outside the enumeration. *)
Definition dispatch (kind : option MessageKind) : Handled :=
  match kind with
  | Some MessageKind.kHeartbeat => dispatch_heartbeat
  | Some MessageKind.kRegisterCollective => dispatch_register
  | Some MessageKind.kBeginAttempt => dispatch_begin_attempt
  | Some MessageKind.kPlanFlowGroup => dispatch_plan
  | Some MessageKind.kCancelCollective => dispatch_lifecycle true
  | Some MessageKind.kRetireCollective => dispatch_lifecycle false
  | Some MessageKind.kIngestEvidence => dispatch_evidence
  | Some MessageKind.kInspectRequest => dispatch_inspect
  | Some MessageKind.kExplainRequest => dispatch_explain
  | Some MessageKind.kInstallPolicy => dispatch_install_policy
  | Some MessageKind.kShutdown => dispatch_shutdown
  | Some MessageKind.kHello =>
      send_error io (bump_counter co_protocol_violations s) connection frame
        ErrorCode.kEnvelopeProvenanceRejected "a second hello on an established session is refused"
  | _ =>
      send_error io (bump_counter co_malformed_frames s) connection frame
        ErrorCode.kFrameKindUnknown "the frame kind is not valid on an established session"
  end.
End dispatch.

(** ** The session handler *)
Definition connection_of (binding : SessionBinding) (now : Z) : ConnectionState :=
  connection_default
    <| cn_session := sb_id binding |> <| cn_incarnation := sb_incarnation binding |>
    <| cn_epoch := sb_epoch binding |> <| cn_hellos_pending := 1 |>
    <| cn_opened_monotonic_ms := now |>.

(** [sessions_.emplace] keeps an entry that is there. *)
Definition emplace_connection (s : CoordinatorServer) (connection : nat) (state : ConnectionState)
    : CoordinatorServer :=
  if present (co_sessions s !! connection) then s
  else s <| co_sessions ::= <[connection := state]> |>.

Definition on_open (io : Io) (s : CoordinatorServer) (connection : nat) : Handled :=
  let '(service, opened) := open_session (co_service s) "pending-handshake" (io_now io) in
  let s := with_service s service in
  match opened with
  | Fail _ =>
      (emplace_connection s connection
         (connection_default <| cn_session := id_none |> <| cn_rejected := true |>),
       [ShutdownSocket connection])
  | Ok binding =>
      (emplace_connection s connection (connection_of binding (io_now io)), [])
  end.

Definition hello_ack_payload (s : CoordinatorServer) (snapshot : ConnectionState) : HelloAckPayload :=
  let authority := sv_authority (co_service s) in
  {| ha_session := cn_session snapshot;
     ha_incarnation := cn_incarnation snapshot;
     ha_epoch := cn_epoch snapshot;
     ha_policy_generation := au_policy_generation authority;
     ha_topology_generation := au_topology_generation authority;
     ha_capacity_generation := au_capacity_generation authority;
     ha_congestion_generation := au_congestion_generation authority;
     ha_max_frame_payload_bytes := limits.kFramePayloadMaxBytes;
     ha_coordinator_label := cf_coordinator_label (cg_service (co_config s)) |}.

(** The entry after its hello. *)
Definition greeted (label : string) (state : ConnectionState) : ConnectionState :=
  state <| cn_hellos_pending := 0 |> <| cn_peer_label := label |>.

(** The part of [on_frame] for a connection whose hello is pending. *)
Definition on_first_frame (io : Io) (s : CoordinatorServer) (connection : nat)
    (snapshot : ConnectionState) (frame : Frame) : Handled :=
  if negb (fm_kind frame =? enum_raw MessageKind.kHello) then
    then_shutdown connection
      (send_error io (bump_counter co_protocol_violations s) connection frame
         ErrorCode.kEnvelopeSessionUnknown "the first frame of a session must be a hello")
  else match decode_hello (fm_payload frame) with
  | Fail decoded =>
      then_shutdown connection
        (send_error io (bump_counter co_malformed_frames s) connection frame
           (st_code decoded) (st_message decoded))
  | Ok hello =>
      let s := s <| co_sessions ::= alter (greeted (hp_client_label hello)) connection |> in
      send_typed io s connection snapshot MessageKind.kHelloAck frame
        (encode_hello_ack (hello_ack_payload s snapshot))
  end.

Definition envelope_view (frame : Frame) : EnvelopeView :=
  let e := fm_envelope frame in
  {| ev_session := en_session e;
     ev_incarnation := en_incarnation e;
     ev_epoch := en_epoch e;
     ev_frame_sequence := en_frame_sequence e;
     ev_correlation := en_correlation e |}.

Definition request_context (envelope : EnvelopeView) (now : Z) : ServiceRequestContext :=
  {| cx_session := ev_session envelope;
     cx_incarnation := ev_incarnation envelope;
     cx_epoch := ev_epoch envelope;
     cx_now_monotonic_ms := now;
     cx_correlation := ev_correlation envelope |}.

(** An envelope failure that ends the connection. *)
Definition envelope_fatal (code : ErrorCode) : bool :=
  bool_decide (code = ErrorCode.kEnvelopeSessionUnknown) ||
  bool_decide (code = ErrorCode.kEnvelopeSessionMismatch) ||
  bool_decide (code = ErrorCode.kEnvelopeIncarnationStale).

(** [protocol_message_requires_request(kind) && !is_request] *)
Definition not_a_request (kind : option MessageKind) (flags : Z) : bool :=
  match kind with
  | Some kind =>
      protocol_message_requires_request kind && negb (negb (Z.land flags kFlagRequest =? 0))
  | None => false
  end.

(** The part of [on_frame] once the frame is known to name the connection's own session. *)
Definition on_own_frame (io : Io) (s : CoordinatorServer) (connection : nat)
    (frame : Frame) : Handled :=
  let envelope := envelope_view frame in
  let '(service, reasons, status) :=
    validate_envelope (co_service s) envelope (io_now io) [] in
  let s := with_service s service in
  if negb (is_ok status) then
    let handled :=
      send_error_with_reasons io (bump_counter co_stale_frames s) connection frame
        (st_code status) (st_message status) reasons in
    if envelope_fatal (st_code status) then then_shutdown connection handled else handled
  else
    let kind := enum_of_raw (fm_kind frame) in
    if not_a_request kind (fm_flags frame) then
      send_error io (bump_counter co_protocol_violations s) connection frame
        ErrorCode.kFrameFlagsInvalid "this message kind must be sent as a request"
    else match co_sessions s !! connection with
    | None => (s, [])
    | Some state =>
        dispatch io s connection state frame (request_context envelope (io_now io)) kind
    end.

Definition on_frame (io : Io) (s : CoordinatorServer) (connection : nat) (frame : Frame)
    : Handled :=
  match co_sessions s !! connection with
  | None => (s, [ShutdownSocket connection])
  | Some snapshot =>
      if cn_rejected snapshot then (s, [ShutdownSocket connection])
      else if negb (cn_hellos_pending snapshot =? 0) then
        on_first_frame io s connection snapshot frame
      else if negb (en_session (fm_envelope frame) =i cn_session snapshot) ||
              negb (en_incarnation (fm_envelope frame) =i cn_incarnation snapshot) then
        then_shutdown connection
          (send_error io (bump_counter co_protocol_violations s) connection frame
             ErrorCode.kEnvelopeSessionMismatch
             "the frame names a session or boot incarnation that this connection does not own")
      else on_own_frame io s connection frame
  end.

Definition on_close (now : Z) (s : CoordinatorServer) (connection : nat) : CoordinatorServer :=
  match co_sessions s !! connection with
  | None => s
  | Some state =>
      let s := s <| co_sessions ::= delete connection |> in
      if is_some (cn_session state)
      then with_service s (close_session (co_service s) (cn_session state) now).1 else s
  end.

Definition tracked_sessions (s : CoordinatorServer) : Z := mapsize (co_sessions s).

(** ** The server *)

(** [bound] is what creating, binding and listening on the socket answered, [loaded],
    [contents] and [diagnostic] what [SnapshotStore::load] answered, [save] what its [save]
    answers; the readings of the clock are one instant.  [None] when [CoordinatorService::start]
    runs out of fuel, which [start_survives_any_snapshot] excludes. *)
Definition coordinator_start (s : CoordinatorServer) (now : Z) (loaded : LoadDisposition)
    (contents : SnapshotContents) (diagnostic : string) (save : PendingWrite → Status)
    (bound : Status) : option (CoordinatorServer * Status) :=
  if co_running s then
    Some (s, mkStatus ErrorCode.kStateDuplicateRegistration "the coordinator is already running")
  else match start (co_service s) now with
  | None => None
  | Some (service, status) =>
      if negb (is_ok status) then Some (with_service s service, status)
      else
        let path := cg_snapshot_path (co_config s) in
        let service :=
          if slen path =? 0 then service
          else
            let service := (configure_persistence service path now).1 in
            let '(service, disposition, restored) :=
              restore service path now loaded contents diagnostic in
            if negb (is_ok restored) && negb (bool_decide (disposition = LoadDisposition.kMissing))
            then (configure_persistence service path now).1 else service in
        let '(server, status) :=
          if is_ok bound then listen (co_server s) (cg_max_sessions (co_config s))
          else (co_server s, bound) in
        let s := (with_service s service) <| co_server := server |> in
        if negb (is_ok status)
        then Some (with_service s (stop service now save).1, status)
        else Some (s <| co_running := true |>, status_ok)
  end.

(** [stop] up to the joins of [server_.shutdown()], during which the sessions end and call
    [on_close]; [shutdown_end] follows them.  The service is stopped first. *)
Definition coordinator_stop (s : CoordinatorServer) (now : Z) (save : PendingWrite → Status)
    : CoordinatorServer * Status :=
  if negb (co_running s) then (s, status_ok)
  else
    let '(service, stopped) := stop (co_service s) now save in
    ((with_service (s <| co_running := false |>) service) <| co_server ::= shutdown_begin |>,
     stopped).

Definition coordinator_flush (s : CoordinatorServer) (now : Z) (save : PendingWrite → Status)
    : CoordinatorServer * Status :=
  let '(service, status) := flush (co_service s) now save in (with_service s service, status).

Definition coordinator_restore (s : CoordinatorServer) (now : Z) (loaded : LoadDisposition)
    (contents : SnapshotContents) (diagnostic : string)
    : CoordinatorServer * LoadDisposition * Status :=
  let '(service, disposition, status) :=
    restore (co_service s) (cg_snapshot_path (co_config s)) now loaded contents diagnostic in
  (with_service s service, disposition, status).

(** The kind that answers a request, when it is not an error. *)
Definition reply_kind (kind : option MessageKind) : option MessageKind :=
  match kind with
  | Some MessageKind.kHeartbeat => Some MessageKind.kHeartbeatAck
  | Some MessageKind.kRegisterCollective => Some MessageKind.kRegisterAck
  | Some MessageKind.kBeginAttempt => Some MessageKind.kAttemptAck
  | Some MessageKind.kPlanFlowGroup => Some MessageKind.kFlowGroupDecision
  | Some MessageKind.kCancelCollective => Some MessageKind.kLifecycleAck
  | Some MessageKind.kRetireCollective => Some MessageKind.kLifecycleAck
  | Some MessageKind.kIngestEvidence => Some MessageKind.kEvidenceAck
  | Some MessageKind.kInspectRequest => Some MessageKind.kInspectResponse
  | Some MessageKind.kExplainRequest => Some MessageKind.kExplainResponse
  | Some MessageKind.kInstallPolicy => Some MessageKind.kInstallPolicyAck
  | Some MessageKind.kShutdown => Some MessageKind.kShutdownAck
  | _ => None
  end.

(** ** The shape of an answer *)

(** A call that may change durable state, or evidence, under [context], or none. *)
Inductive mutation (context : ServiceRequestContext) (s : CoordinatorService)
    : CoordinatorService → Prop :=
  | mut_none : mutation context s s
  | mut_register d : mutation context s (register_collective s context d).1.1
  | mut_attempt id g a bytes : mutation context s (begin_attempt s context id g a bytes).1.1
  | mut_cancel id g a reasons :
      mutation context s (cancel_collective s context id g a reasons).1.1.1
  | mut_retire id g a reasons :
      mutation context s (retire_collective s context id g a reasons).1.1.1
  | mut_capacity e reasons : mutation context s (ingest_capacity s context e reasons).1.1.1
  | mut_congestion e reasons : mutation context s (ingest_congestion s context e reasons).1.1.1
  | mut_topology e reasons : mutation context s (ingest_topology s context e reasons).1.1.1
  | mut_policy p reasons : mutation context s (install_policy s context p reasons).1.1.1.

(** The service at the moment a case of [dispatch] answers, and what was written before. *)
Inductive served (io : Io) (s : CoordinatorServer) (context : ServiceRequestContext)
    (kind : option MessageKind) : CoordinatorService → list Action → Prop :=
  | served_unchanged : served io s context kind (co_service s) []
  | served_publish p i node st :
      served io s context kind (publish_participant (co_service s) context p i node st).1 []
  | served_plan request :
      kind = Some MessageKind.kPlanFlowGroup →
      served io s context kind (plan_flow_group (co_service s) context request).1.1 []
  | served_mutation service :
      mutation context (co_service s) service →
      let persisted := persist_if_configured io (with_service s service) in
      served io s context kind (co_service persisted.1) persisted.2.

(** The fields no answer changes. *)
Definition outside (s : CoordinatorServer) :=
  (co_config s, co_server s, co_running s, co_sessions s).

(** What a handler does before it answers. *)
Definition prepares (s s' : CoordinatorServer) : Prop :=
  co_next_sequence s' = co_next_sequence s ∧ outside s' = outside s ∧
  co_send_failures s' = co_send_failures s.

Lemma prepares_refl s : prepares s s.
Proof. done. Qed.
Lemma prepares_service s service : prepares s (with_service s service).
Proof. done. Qed.
Lemma prepares_persist io s s' : prepares s s' → prepares s (persist_if_configured io s').1.
Proof. unfold persist_if_configured. by destruct (negb _). Qed.
Lemma prepares_sessions s s' : prepares s s' → co_sessions s' = co_sessions s.
Proof. by intros (_ & [= _ _ _ E] & _). Qed.

(** An answer: an error, a response of the [expected] kind, or one followed by the note that a
    shutdown was requested; [served] tells the service it is given in. *)
Inductive answering (io : Io) (s : CoordinatorServer) (c : nat) (st : ConnectionState) (f : Frame)
    (expected : option MessageKind) (served : CoordinatorService → list Action → Prop) : Handled → Prop :=
  | answer_error s' code message :
      prepares s s' → served (co_service s') [] →
      answering io s c st f expected served (send_error io s' c f code message)
  | answer_reply s' kind body :
      prepares s s' → served (co_service s') [] → Some kind = expected →
      answering io s c st f expected served (respond io c st f s' kind body)
  | answer_written s' writes kind body :
      prepares s s' → served (co_service s') writes → Some kind = expected →
      answering io s c st f expected served (after writes (respond io c st f s' kind body))
  | answer_shutdown h :
      answering io s c st f expected served h →
      answering io s c st f expected served (h.1 <| co_shutdown_requested := true |>, h.2).

Section shape.
Context (io : Io) (s : CoordinatorServer) (c : nat) (st : ConnectionState).
Context (f : Frame) (context : ServiceRequestContext) (kind : option MessageKind).
Abbreviation answered expected := (answering io s c st f expected (served io s context kind)).

Lemma with_payload_answer {A} (decode : list Z → Result A) handle expected :
  (∀ payload, answered expected (handle payload)) →
  answered expected (with_payload io s c f decode handle).
Proof.
  intros H. unfold with_payload. destruct (decode _) as [payload|status]; [by apply H|].
  apply answer_error; [done | exact (served_unchanged io s context _)].
Qed.

Lemma mutation_answer service reply body :
  mutation context (co_service s) service →
  answered (Some reply)
    (persist_respond io c st f (with_service s service) reply body).
Proof.
  intros H. unfold persist_respond. rewrite (surjective_pairing (persist_if_configured _ _)).
  apply answer_written; [by apply prepares_persist | by apply served_mutation | done].
Qed.

(** A call whose result decides between an error and a response. *)
Lemma call_answer service (status : Status) reply body :
  served io s context kind service [] →
  answered (Some reply)
    (if negb (is_ok status)
     then send_error io (with_service s service) c f (st_code status) (st_message status)
     else respond io c st f (with_service s service) reply body).
Proof. intros H. destruct (negb _); [by apply answer_error | by apply answer_reply]. Qed.

Lemma ingest_evidence_served payload :
  mutation context (co_service s) (ingest_evidence s context payload).1.1.1.1.
Proof.
  unfold ingest_evidence. destruct (ey_kind payload); cbv zeta; [constructor|..].
  - pose proof (mut_capacity context (co_service s) (ey_capacity payload) []) as H.
    by destruct (ingest_capacity _ _ _ _) as [[[? ?] ?] ?].
  - pose proof (mut_congestion context (co_service s) (ey_congestion payload) []) as H.
    by destruct (ingest_congestion _ _ _ _) as [[[? ?] ?] ?].
  - pose proof (mut_topology context (co_service s) (ey_topology payload) []) as H.
    by destruct (ingest_topology _ _ _ _) as [[[? ?] ?] ?].
  - pose proof (mut_policy context (co_service s) (ey_policy payload) []) as H.
    by destruct (install_policy _ _ _ _) as [[[? ?] ?] ?].
Qed.

End shape.

Lemma dispatch_answer io s c st f context kind :
  answering io s c st f (reply_kind kind) (served io s context kind)
    (dispatch io s c st f context kind).
Proof.
  destruct kind as [[]|]; cbn [dispatch reply_kind];
    try (apply answer_error; [done | exact (served_unchanged io s context _)]);
    try (apply with_payload_answer; intros payload; cbv zeta).
  - pose proof (served_publish io s context (Some MessageKind.kHeartbeat) (hb_participant payload) (hb_incarnation payload)
      (hb_node payload) (hb_state payload)) as H.
    destruct (publish_participant _ _ _ _ _ _) as [service status]. by apply call_answer.
  - pose proof (mut_register context (co_service s) (rp_definition payload)) as H.
    destruct (register_collective _ _ _) as [[service status] outcome]. by apply mutation_answer.
  - pose proof (mut_attempt context (co_service s) (ba_id payload) (ba_generation payload)
      (ba_attempt payload) (ba_transfer_bytes payload)) as H.
    destruct (begin_attempt _ _ _ _ _ _) as [[service status] outcome]. by apply mutation_answer.
  - pose proof (served_plan io s context _ (pp_request payload) eq_refl) as H.
    destruct (plan_flow_group _ _ _) as [[service status] decision]. by apply call_answer.
  - pose proof (mut_cancel context (co_service s) (lp_id payload) (lp_generation payload)
      (lp_attempt payload) []) as H.
    destruct (cancel_collective _ _ _ _ _ _) as [[[service status] o] reasons].
    by apply mutation_answer.
  - pose proof (mut_retire context (co_service s) (lp_id payload) (lp_generation payload)
      (lp_attempt payload) []) as H.
    destruct (retire_collective _ _ _ _ _ _) as [[[service status] o] reasons].
    by apply mutation_answer.
  - pose proof (ingest_evidence_served s context payload) as H.
    destruct (ingest_evidence _ _ _) as [[[[service g] r] reasons] code]. by apply mutation_answer.
  - apply answer_reply; [done | exact (served_unchanged io s context _) | done].
  - destruct (if xq_has_correlation payload then _ else _) as [found text].
    apply answer_reply; [done | exact (served_unchanged io s context _) | done].
  - pose proof (mut_policy context (co_service s) (ip_policy payload) []) as H.
    destruct (install_policy _ _ _ _) as [[[service g] reasons] status]. by apply mutation_answer.
  - unfold dispatch_shutdown. rewrite (surjective_pairing (respond _ _ _ _ _ _ _)).
    apply answer_shutdown, answer_reply; [done | exact (served_unchanged io s context _) | done].
Qed.

(** ** Every frame is answered once *)

(** The action gives a snapshot to the store. *)
Definition is_write (a : Action) : Prop :=
  match a with Wrote _ _ => True | _ => False end.

Lemma persist_writes io s : Forall is_write (persist_if_configured io s).2.
Proof.
  unfold persist_if_configured. destruct (negb _); [constructor|]. cbn [snd]. unfold flush_writes.
  by destruct (flush_begin _ _).2 as [[pending|]|]; repeat constructor.
Qed.

Section replies.
Context (io : Io) (connection : nat) (frame : Frame).
Implicit Types s : CoordinatorServer.

(** The same session, incarnation and epoch. *)
Definition same_identity (a b : ConnectionState) : Prop :=
  cn_session a = cn_session b ∧ cn_incarnation a = cn_incarnation b ∧ cn_epoch a = cn_epoch b.

(** What leaves when [response] is to be sent. *)
Definition transmitted (response : Frame) : list Action :=
  if is_ok (send_frame io response) then [Sent connection response] else [].

(** The failures to send that are counted after it. *)
Definition failures_after (response : Frame) (failures : Z) : Z :=
  if is_ok (send_frame io response) then failures else w64 (failures + 1).

(** After some writes, the handler made one response, of kind [expected] or an error, gave it
    to the transport, and left the session table alone. *)
Definition replied s (state : ConnectionState) (expected : option MessageKind) (h : Handled)
    : Prop :=
  ∃ kind body writes,
    let response := response_frame s state kind frame body in
    h.2 = writes ++ transmitted response ∧ Forall is_write writes ∧
    (kind = MessageKind.kErrorResponse ∨ Some kind = expected) ∧
    co_next_sequence h.1 = w64 (co_next_sequence s + 1) ∧ outside h.1 = outside s ∧
    co_send_failures h.1 = failures_after response (co_send_failures s).

Lemma replied_prepared s s' state expected h :
  prepares s s' → replied s' state expected h → replied s state expected h.
Proof.
  intros (E1 & E2 & E3) (kind & body & writes & H & Hw & Hk & Hn & Hs & Hf). exists kind, body, writes.
  unfold response_frame in *. rewrite E1 in H, Hn, Hf. rewrite E2 in Hs. rewrite E3 in Hf.
  by split_and!.
Qed.

Lemma replied_after s state expected writes h :
  Forall is_write writes → replied s state expected h → replied s state expected (after writes h).
Proof.
  intros Hw (kind & body & writes' & H & Hw' & Hk & Hn & Hs & Hf).
  exists kind, body, (writes ++ writes'). cbn [after fst snd]. rewrite H, app_assoc.
  split_and!; try done. by apply Forall_app.
Qed.

Lemma encode_reasons_from code message :
  ∃ bytes, encode_error (mkErrorPayload code message (reasons_from code message)) = Ok bytes.
Proof. eexists. reflexivity. Qed.

(** One response on its way. *)
Lemma sent_replies s state kind body expected :
  kind = MessageKind.kErrorResponse ∨ Some kind = expected →
  replied s state expected
    (send_encoded 0 io s connection state kind frame (Ok body)).
Proof.
  intros Hk. exists kind, body, []. cbn [send_encoded app]. unfold transmitted, failures_after.
  by destruct (is_ok _).
Qed.

Lemma send_typed_replies s state state' kind body :
  co_sessions s !! connection = Some state' → same_identity state' state →
  replied s state (Some kind) (send_typed io s connection state kind frame body).
Proof.
  intros Hs (E1 & E2 & E3). unfold send_typed. destruct body as [bytes|status].
  - apply sent_replies. by right.
  - cbn [send_encoded]. rewrite Hs.
    destruct (encode_reasons_from (st_code status) (st_message status)) as [bytes ->].
    destruct (sent_replies s state' MessageKind.kErrorResponse bytes (Some kind))
      as (k & b & writes & H & Hw & Hk & Hn & Ho & Hf); [by left|].
    exists k, b, writes. unfold response_frame in *. rewrite E1, E2, E3 in H, Hf. by split_and!.
Qed.

Lemma send_error_with_replies s s' state state' expected code message reasons :
  prepares s s' → co_sessions s !! connection = Some state' → same_identity state' state →
  replied s state expected
    (send_error_with_reasons io s' connection frame code message reasons).
Proof.
  intros Hp Hs Hi. eapply replied_prepared; [done|]. apply prepares_sessions in Hp.
  unfold send_error_with_reasons. rewrite Hp, Hs.
  destruct (send_typed_replies s' state' state' MessageKind.kErrorResponse
    (encode_error (mkErrorPayload code message reasons)))
    as (kind & body & writes & H & Hw & Hk & Hn & Ht & Hf); [by rewrite Hp | done|].
  exists kind, body, writes. unfold response_frame in *. destruct Hi as (E1 & E2 & E3).
  rewrite E1, E2, E3 in H, Hf. split_and!; try done. left. by destruct Hk as [?|[= ?]].
Qed.

Lemma send_error_replies s s' state state' expected code message :
  prepares s s' → co_sessions s !! connection = Some state' → same_identity state' state →
  replied s state expected (send_error io s' connection frame code message).
Proof. apply send_error_with_replies. Qed.

Lemma answer_replies s state expected (served : CoordinatorService → list Action → Prop) h :
  (∀ service writes, served service writes → Forall is_write writes) →
  co_sessions s !! connection = Some state →
  answering io s connection state frame expected served h → replied s state expected h.
Proof.
  intros Hwr Hs. induction 1 as [s' code message Hp _|s' kind body Hp _ <-|
    s' writes kind body Hp Hsv <-|h Hh IH].
  - by eapply send_error_replies.
  - eapply replied_prepared; [done|]. apply prepares_sessions in Hp.
    by eapply send_typed_replies; [rewrite Hp|].
  - apply replied_after; [by eapply Hwr|]. eapply replied_prepared; [done|].
    apply prepares_sessions in Hp. by eapply send_typed_replies; [rewrite Hp|].
  - exact IH.
Qed.

Lemma served_writes s context kind service writes :
  served io s context kind service writes → Forall is_write writes.
Proof.
  destruct 1; try constructor. apply persist_writes.
Qed.

Lemma dispatch_replies s state context kind :
  co_sessions s !! connection = Some state →
  replied s state (reply_kind kind) (dispatch io s connection state frame context kind).
Proof. intros Hs. eapply answer_replies; [apply served_writes | done | apply dispatch_answer]. Qed.
End replies.

(** The kind that may answer [frame] on a connection in [state], other than an error. *)
Definition expected_reply (state : ConnectionState) (frame : Frame) : option MessageKind :=
  if cn_hellos_pending state =? 0 then reply_kind (enum_of_raw (fm_kind frame))
  else Some MessageKind.kHelloAck.

(** What a handler may do to the table before it answers on [c]. *)
Definition greets (c : nat) (s s1 : CoordinatorServer) : Prop :=
  co_next_sequence s1 = co_next_sequence s ∧ co_send_failures s1 = co_send_failures s ∧
  (co_config s1, co_server s1, co_running s1) = (co_config s, co_server s, co_running s) ∧
  (co_sessions s1 = co_sessions s ∨
   ∃ label, co_sessions s1 = alter (greeted label) c (co_sessions s)).

Lemma greets_refl c s : greets c s s.
Proof. split_and!; try done. by left. Qed.

Lemma greets_other c d s s1 : greets c s s1 → d ≠ c → co_sessions s1 !! d = co_sessions s !! d.
Proof. intros (_ & _ & _ & [->|[label ->]]) Hd; [done | by rewrite lookup_alter_ne]. Qed.

Lemma first_frame_replies io s c st f :
  co_sessions s !! c = Some st →
  ∃ s1 h, greets c s s1 ∧ replied io c f s1 st (Some MessageKind.kHelloAck) h ∧
    (on_first_frame io s c st f = h ∨ on_first_frame io s c st f = then_shutdown c h).
Proof.
  intros Hs. unfold on_first_frame. destruct (negb _).
  { exists s. eexists. split_and!; [apply greets_refl | | by right]. by eapply send_error_replies. }
  destruct (decode_hello (fm_payload f)) as [hello|status].
  - exists (s <| co_sessions ::= alter (greeted (hp_client_label hello)) c |>). eexists.
    split_and!; [| |by left].
    + split_and!; [done | done | done | right; by exists (hp_client_label hello)].
    + eapply (send_typed_replies _ _ _ _ _ (greeted (hp_client_label hello) st)); [|done].
      cbn [co_sessions set_field]. rewrite lookup_alter_eq, Hs. done.
  - exists s. eexists. split_and!; [apply greets_refl | | by right]. by eapply send_error_replies.
Qed.

Lemma own_frame_replies io s c st f :
  co_sessions s !! c = Some st →
  ∃ h, replied io c f s st (reply_kind (enum_of_raw (fm_kind f))) h ∧
    (on_own_frame io s c f = h ∨ on_own_frame io s c f = then_shutdown c h).
Proof.
  intros Hs. unfold on_own_frame.
  destruct (validate_envelope _ _ _ _) as [[service reasons] status].
  destruct (is_ok status); cbn [negb].
  - eexists. split; [|by left]. destruct (not_a_request _ _); [by eapply send_error_replies|].
    change (co_sessions (with_service s service)) with (co_sessions s). rewrite Hs.
    eapply replied_prepared; [apply prepares_service|]. apply dispatch_replies. exact Hs.
  - eexists. split; [|destruct (envelope_fatal _); [by right | by left]].
    by eapply send_error_with_replies.
Qed.

Lemma on_frame_replies io s c st f :
  co_sessions s !! c = Some st → cn_rejected st = false →
  ∃ s1 h, greets c s s1 ∧ replied io c f s1 st (expected_reply st f) h ∧
    (on_frame io s c f = h ∨ on_frame io s c f = then_shutdown c h).
Proof.
  intros Hs Hr. unfold on_frame, expected_reply. rewrite Hs, Hr.
  destruct (cn_hellos_pending st =? 0); cbn [negb]; [|by apply first_frame_replies].
  exists s. destruct (_ || _).
  - eexists. split_and!; [apply greets_refl | | by right]. by eapply send_error_replies.
  - destruct (own_frame_replies io s c st f Hs) as (h & Hh & E). exists h.
    split_and!; [apply greets_refl | done | done].
Qed.

Lemma reply_known st f kind :
  kind = MessageKind.kErrorResponse ∨ Some kind = expected_reply st f →
  message_kind_is_known (enum_raw kind) = true.
Proof.
  intros [->|H]; [done|]. revert H. unfold expected_reply, reply_kind.
  destruct (_ =? 0); [|by intros [= ->]]. destruct (enum_of_raw (fm_kind f)) as [[]|]; by intros [= ->].
Qed.

(** A response can be encoded exactly when its payload is within the bound of a frame. *)
Lemma send_frame_response io s st kind f body :
  message_kind_is_known (enum_raw kind) = true →
  is_ok (send_frame io (response_frame s st kind f body)) =
  (zlen body <=? limits.kFramePayloadMaxBytes) &&
  is_ok (io_sent io (response_frame s st kind f body)).
Proof.
  intros Hk. unfold send_frame. set (r := response_frame s st kind f body).
  assert (frame_defined r ↔ zlen body ≤ limits.kFramePayloadMaxBytes) as Hd.
  { unfold frame_defined, r. cbn [fm_kind fm_flags fm_payload response_frame].
    split; [by intros (_ & _ & ?)|]. intros Hb. by split_and!. }
  destruct (encode_frame r) as [bytes|status] eqn:E.
  - apply encode_frame_spec in E as [E _]. apply Hd in E. by rewrite (proj2 (Z.leb_le _ _)).
  - destruct (Z.leb_spec (zlen body) limits.kFramePayloadMaxBytes) as [Hb|Hb].
    + apply Hd in Hb. assert (encode_frame r = Ok (frame_bytes r)) by (by apply encode_frame_spec).
      congruence.
    + revert E. unfold encode_frame, fail. repeat case_match; by intros [= <-].
Qed.

(** C9: a frame that arrives on a connection the coordinator serves gets exactly one response,
    whatever it holds: of the kind that answers its request or an error, flagged as a final
    response, under the connection's own session, incarnation and epoch, with the next
    sequence number and the request's correlation.  The response leaves exactly when its
    payload is within the bound of a frame and the socket takes its bytes; otherwise nothing
    is sent and the failure is counted.  Before it only snapshots are written, after it at
    most the socket is shut down, and the table entries of the other connections do not
    change. *)
Theorem every_frame_answered (io : Io) (s : CoordinatorServer) (c : nat) (st : ConnectionState)
    (f : Frame) :
  co_sessions s !! c = Some st → cn_rejected st = false →
  ∃ kind body writes tail,
    let response :=
      {| fm_kind := enum_raw kind;
         fm_flags := Z.lor kFlagResponse kFlagFinal;
         fm_envelope :=
           mkEnvelope (cn_session st) (cn_incarnation st) (cn_epoch st)
             (w64 (co_next_sequence s + 1)) (en_correlation (fm_envelope f));
         fm_payload := body |} in
    let leaves :=
      (zlen body <=? limits.kFramePayloadMaxBytes) && is_ok (io_sent io response) in
    (on_frame io s c f).2 = writes ++ (if leaves then [Sent c response] else []) ++ tail ∧
    co_send_failures (on_frame io s c f).1 =
      (if leaves then co_send_failures s else w64 (co_send_failures s + 1)) ∧
    (kind = MessageKind.kErrorResponse ∨ Some kind = expected_reply st f) ∧
    Forall is_write writes ∧ (tail = [] ∨ tail = [ShutdownSocket c]) ∧
    co_next_sequence (on_frame io s c f).1 = w64 (co_next_sequence s + 1) ∧
    ∀ d, d ≠ c → co_sessions (on_frame io s c f).1 !! d = co_sessions s !! d.
Proof.
  intros Hs Hr. destruct (on_frame_replies io s c st f Hs Hr)
    as (s1 & h & Hg & (kind & body & writes & H & Hw & Hk & Hn & Ht & Hf) & Hh).
  pose proof (fun d => greets_other c d _ _ Hg) as Hd. destruct Hg as (En & Ef & _).
  injection Ht as _ _ _ Ht. unfold transmitted, failures_after in H, Hf.
  assert (message_kind_is_known (enum_raw kind) = true) as Hkn by (by eapply reply_known).
  rewrite send_frame_response in H, Hf by done.
  unfold response_frame in *. rewrite En in H, Hn, Hf. rewrite Ef in Hf. rewrite <- Ht in Hd.
  exists kind, body, writes.
  destruct Hh as [->| ->]; [exists [] | exists [ShutdownSocket c]];
    cbn [then_shutdown fst snd]; rewrite H, ?Hn, ?app_nil_r, <- ?app_assoc; split_and!; auto.
Qed.

(** ** An answer that is too large is lost *)

Lemma vector_size {A} (enc : A → list Z) (size : Z) (l : list A) :
  (∀ a, zlen (enc a) = size) → zlen (writer_vector enc l) = 4 + size * zlen l.
Proof.
  intros H. unfold writer_vector. rewrite zlen_app.
  assert (zlen (l ≫= enc) = size * zlen l) as ->.
  { induction l as [|a l IH]; [unfold zlen; cbn; lia|].
    change ((a :: l) ≫= enc) with (enc a ++ (l ≫= enc)). rewrite zlen_app, H, IH.
    unfold zlen. cbn [length]. lia. }
  unfold zlen at 1, writer_u32. rewrite put_le_length. lia.
Qed.

Lemma identity_size i : zlen (writer_identity i) = 16.
Proof. unfold zlen, writer_identity, writer_u64. by rewrite length_app, !put_le_length. Qed.

Lemma edge_size e : zlen (writer_edge e) = 50.
Proof.
  unfold writer_edge, writer_boolean, writer_enumeration, writer_u8, writer_u64.
  rewrite ?zlen_app, ?identity_size. unfold zlen. by rewrite ?put_le_length.
Qed.

(** The bytes of a planning request with a plan, and at least of the decision that answers it. *)
Lemma plan_request_size r :
  dr_has_flow_group_plan r = true →
  zlen (encode_decision_request r) = 235 + 50 * zlen (fp_edges (dr_plan r)).
Proof.
  intros Hp. unfold encode_decision_request, encode_flow_group_plan. rewrite Hp.
  rewrite !zlen_app, !identity_size, (vector_size writer_edge 50) by apply edge_size.
  unfold writer_boolean, writer_enumeration, writer_u8, writer_u64.
  unfold zlen. rewrite !put_le_length. cbn [length]. lia.
Qed.

Lemma decision_size d :
  456 + 50 * zlen (fg_edges (de_group d)) + 16 * zlen (fg_participants (de_group d)) +
    16 * zlen (de_participants d) ≤
  zlen (writer_decision_head d) + 4 + 16.
Proof.
  unfold writer_decision_head, encode_flow_group, writer_pacing, writer_sync.
  rewrite !zlen_app, !identity_size, (vector_size writer_edge 50) by apply edge_size.
  rewrite !(vector_size writer_identity 16) by apply identity_size.
  unfold writer_boolean, writer_enumeration, writer_error_code, writer_u8, writer_u32, writer_u64.
  unfold zlen. rewrite !put_le_length. cbn [length]. lia.
Qed.

(** A planning request for the full mesh of 145 participants, 20880 edges, fits a frame, but the
    decision that constructs its flow group does not: whatever the coordinator decided, its
    answer is never sent, and only the counter of failed sends tells. *)
Theorem full_mesh_answer_lost (io : Io) (s : CoordinatorServer) (c : nat) (st : ConnectionState)
    (f : Frame) (request : DecisionRequest) (d : DecisionRecord) (body : list Z) :
  dr_has_flow_group_plan request = true → zlen (fp_edges (dr_plan request)) = 145 * 144 →
  zlen (fg_edges (de_group d)) = 145 * 144 → zlen (fg_participants (de_group d)) = 145 →
  zlen (de_participants d) = 145 → encode_decision (mkDecisionPayload d) = Ok body →
  zlen (encode_decision_request request) ≤ limits.kFramePayloadMaxBytes ∧
  send_typed io s c st MessageKind.kFlowGroupDecision f (Ok body) =
    (bump_counter co_send_failures (s <| co_next_sequence ::= fun n => w64 (n + 1) |>), []).
Proof.
  intros Hp He Hg Hn Hq Hb. split; [rewrite plan_request_size, He by done; done|].
  unfold send_typed. cbn [send_encoded].
  rewrite send_frame_response, (proj2 (Z.leb_gt _ _)); [done | | by vm_compute].
  assert (∀ a b : list Z, Ok a = Ok b → a = b) as Ok_inj by (by intros a b [=]).
  revert Hb. unfold encode_decision, encode_decision_record, encode_reason_chain. cbn [dp_decision].
  destruct (_ <? _); [done|]. cbn [r_bind]. intros Hb. apply Ok_inj in Hb as <-. rewrite !zlen_app.
  pose proof (decision_size d) as Hs. rewrite Hg, Hn, Hq in Hs.
  unfold writer_vector at 1. rewrite zlen_app. pose proof (zlen_nonneg (de_reasons d ≫= writer_reason)).
  assert (∀ n v, zlen (put_le n v) = Z.of_nat n) as Hl
    by (intros; unfold zlen; by rewrite put_le_length).
  unfold writer_u32, writer_u64. rewrite !Hl. unfold limits.kFramePayloadMaxBytes. lia.
Qed.

(** ** A peer acts for its own session only *)

Section own.
Context (st : ConnectionState).

Definition own_context (context : ServiceRequestContext) : Prop :=
  cx_session context = cn_session st ∧ cx_incarnation context = cn_incarnation st.

(** A call on the service for the session and incarnation of [st], or one of the critical
    sections of a flush. *)
Inductive own_call : CoordinatorService → CoordinatorService → Prop :=
  | own_flush s now : own_call s (flush_begin s now).1
  | own_written s pending saved : own_call s (write_done s pending saved)
  | own_envelope s envelope now reasons :
      ev_session envelope = cn_session st → ev_incarnation envelope = cn_incarnation st →
      own_call s (validate_envelope s envelope now reasons).1.1
  | own_publish s context p i node state :
      own_context context → own_call s (publish_participant s context p i node state).1
  | own_register s context d :
      own_context context → own_call s (register_collective s context d).1.1
  | own_attempt s context id g a bytes :
      own_context context → own_call s (begin_attempt s context id g a bytes).1.1
  | own_cancel s context id g a reasons :
      own_context context → own_call s (cancel_collective s context id g a reasons).1.1.1
  | own_retire s context id g a reasons :
      own_context context → own_call s (retire_collective s context id g a reasons).1.1.1
  | own_plan s context request :
      own_context context → own_call s (plan_flow_group s context request).1.1
  | own_capacity s context e reasons :
      own_context context → own_call s (ingest_capacity s context e reasons).1.1.1
  | own_congestion s context e reasons :
      own_context context → own_call s (ingest_congestion s context e reasons).1.1.1
  | own_topology s context e reasons :
      own_context context → own_call s (ingest_topology s context e reasons).1.1.1
  | own_policy s context p reasons :
      own_context context → own_call s (install_policy s context p reasons).1.1.1.

Lemma own_call_step s s' : own_call s s' → call_step s s'.
Proof. intros []; by constructor. Qed.

Lemma own_flush_done s now save : rtc own_call s (flush s now save).1.
Proof.
  unfold flush. pose proof (own_flush s now) as H.
  destruct (flush_begin s now) as [s1 [[pending|]|status]]; cbn [fst] in *; [|by apply rtc_once..].
  destruct (negb _); [by apply rtc_once|]. eapply rtc_l; [exact H|]. apply rtc_once. constructor.
Qed.

Lemma persist_calls io s s0 :
  rtc own_call s0 (co_service s) → rtc own_call s0 (co_service (persist_if_configured io s).1).
Proof.
  intros H. unfold persist_if_configured. destruct (negb _); [done|].
  etrans; [exact H | apply own_flush_done].
Qed.
End own.

Lemma send_encoded_service n io s c st kind f body :
  co_service (send_encoded n io s c st kind f body).1 = co_service s.
Proof.
  revert st kind body. induction n as [|n IH]; intros st kind [bytes|status]; cbn [send_encoded];
    try (by destruct (is_ok _)); [done|].
  destruct (co_sessions s !! c); [apply IH | done].
Qed.

Lemma send_error_service io s c f code message reasons :
  co_service (send_error_with_reasons io s c f code message reasons).1 = co_service s.
Proof.
  unfold send_error_with_reasons. destruct (co_sessions s !! c); [|done].
  apply send_encoded_service.
Qed.

(** The service after a response is what it was before it. *)
Ltac service_sent :=
  unfold reject, respond, send_typed, send_error;
  rewrite ?send_encoded_service, ?send_error_service.

(** Sending writes no snapshot. *)
Definition no_write (a : Action) : Prop := ¬ is_write a.

Lemma send_encoded_writes n io s c st kind f body :
  Forall no_write (send_encoded n io s c st kind f body).2.
Proof.
  revert st kind body. induction n as [|n IH]; intros st kind [bytes|status]; cbn [send_encoded].
  1,3: by destruct (is_ok _); repeat constructor; intros [].
  - constructor.
  - destruct (co_sessions s !! c); [apply IH | constructor].
Qed.

Lemma send_error_writes io s c f code message reasons :
  Forall no_write (send_error_with_reasons io s c f code message reasons).2.
Proof.
  unfold send_error_with_reasons. destruct (co_sessions s !! c); [|constructor].
  apply send_encoded_writes.
Qed.

(** An answer: the writes of [served], then actions that write nothing. *)
Lemma answer_served io s c st f expected (served : CoordinatorService → list Action → Prop) h :
  answering io s c st f expected served h →
  ∃ writes rest, h.2 = writes ++ rest ∧ Forall no_write rest ∧ served (co_service h.1) writes.
Proof.
  induction 1 as [s' code message _ H|s' kind body _ H _|s' writes kind body _ H _|h Hh IH].
  - eexists [], _. split_and!; [done | apply send_error_writes|]. by service_sent.
  - eexists [], _. split_and!; [done | apply send_encoded_writes|]. by service_sent.
  - eexists writes, _. split_and!; [done | apply send_encoded_writes|].
    cbn [after fst]. by service_sent.
  - exact IH.
Qed.

Lemma served_calls io s st context kind service writes :
  own_context st context → served io s context kind service writes →
  rtc (own_call st) (co_service s) service.
Proof.
  intros Hc [|p i node state|request _|service' Hm]; [done | by apply rtc_once, own_publish |
    by apply rtc_once, own_plan|].
  subst persisted. apply persist_calls. destruct Hm; [done | apply rtc_once; by constructor..].
Qed.

Lemma dispatch_calls io s c st f context kind :
  own_context st context →
  rtc (own_call st) (co_service s) (co_service (dispatch io s c st f context kind).1).
Proof.
  intros Hc. destruct (answer_served _ _ _ _ _ _ _ _ (dispatch_answer io s c st f context kind))
    as (writes & rest & _ & _ & Hw). by eapply served_calls.
Qed.

(** The frame comes from the peer that the connection's session belongs to: the hello is done,
    and the frame names the connection's session and incarnation. *)
Definition speaks_for (st : ConnectionState) (f : Frame) : Prop :=
  cn_rejected st = false ∧ cn_hellos_pending st = 0 ∧
  en_session (fm_envelope f) = cn_session st ∧ en_incarnation (fm_envelope f) = cn_incarnation st.

Lemma first_frame_service io s c st f :
  co_service (on_first_frame io s c st f).1 = co_service s.
Proof.
  unfold on_first_frame. destruct (negb _); [cbn [then_shutdown fst]; by service_sent|].
  destruct (decode_hello _); [by service_sent|]. cbn [then_shutdown fst]. by service_sent.
Qed.

Lemma own_frame_calls io s c st f :
  co_sessions s !! c = Some st → en_session (fm_envelope f) = cn_session st →
  en_incarnation (fm_envelope f) = cn_incarnation st →
  rtc (own_call st) (co_service s) (co_service (on_own_frame io s c f).1).
Proof.
  intros Hs H1 H2. unfold on_own_frame. cbv zeta.
  pose proof (own_envelope st (co_service s) (envelope_view f) (io_now io) [] H1 H2) as H.
  destruct (validate_envelope _ _ _ _) as [[service reasons] status]. cbn [fst] in H.
  eapply rtc_l; [exact H|]. destruct (negb _).
  { destruct (envelope_fatal _); cbn [then_shutdown fst]; service_sent; apply rtc_refl. }
  destruct (not_a_request _ _); [service_sent; apply rtc_refl|].
  change (co_sessions (with_service s service)) with (co_sessions s). rewrite Hs.
  by apply (dispatch_calls io (with_service s service)).
Qed.

Lemma on_frame_cases io s c f :
  (∃ st, co_sessions s !! c = Some st ∧ speaks_for st f ∧
     rtc (own_call st) (co_service s) (co_service (on_frame io s c f).1)) ∨
  ((∀ st, co_sessions s !! c = Some st → ¬ speaks_for st f) ∧
   co_service (on_frame io s c f).1 = co_service s).
Proof.
  unfold on_frame, speaks_for. destruct (co_sessions s !! c) as [st|] eqn:Hs; [|by right].
  destruct (cn_rejected st) eqn:Hr; [right; split; [intros ? [= <-] (?&_); congruence|done]|].
  destruct (Z.eqb_spec (cn_hellos_pending st) 0) as [Hp|Hp]; cbn [negb].
  2:{ right. split; [intros ? [= <-] (?&?&_); congruence|]. apply first_frame_service. }
  destruct (negb (_ =i cn_session st)) eqn:E1; cbn [orb].
  { right. apply negb_true_iff, id_eqb_neq in E1.
    split; [intros ? [= <-] (?&?&?&_); congruence|]. cbn [then_shutdown fst]. by service_sent. }
  destruct (negb (_ =i cn_incarnation st)) eqn:E2.
  { right. apply negb_true_iff, id_eqb_neq in E2.
    split; [intros ? [= <-] (?&?&?&?); congruence|]. cbn [then_shutdown fst]. by service_sent. }
  left. apply negb_false_iff, id_eqb_eq in E1, E2. exists st. split_and!; try done.
  by apply own_frame_calls.
Qed.

(** C4: a frame reaches the service only when the connection has completed its hello and the
    frame names the session and the boot incarnation of that very connection, and then every
    call it makes on the service is made under them; any other frame - before the hello, on a
    connection that was refused or is gone, or naming somebody else - leaves the whole service
    as it was. *)
Theorem frame_acts_for_own_session (io : Io) (s : CoordinatorServer) (c : nat) (f : Frame) :
  (∀ st, co_sessions s !! c = Some st → speaks_for st f →
     rtc (own_call st) (co_service s) (co_service (on_frame io s c f).1)) ∧
  ((∀ st, co_sessions s !! c = Some st → ¬ speaks_for st f) →
     co_service (on_frame io s c f).1 = co_service s).
Proof.
  destruct (on_frame_cases io s c f) as [(st & Hs & Hf & H)|[Hn H]]; split; try done.
  - by intros ? [= <-]%(eq_trans (eq_sym Hs)).
  - intros Hn. by destruct (Hn st Hs).
  - intros st Hs Hf. by destruct (Hn st Hs).
Qed.

(** ** The invariant *)

(** An entry either was refused and has no session, or has a session and an incarnation that
    the coordinator minted. *)
Definition connection_wf (st : ConnectionState) : Prop :=
  if cn_rejected st then cn_session st = id_none
  else cn_session st ≠ id_none ∧ cn_incarnation st ≠ id_none.

Record coordinator_wf (s : CoordinatorServer) : Prop := {
  cw_service : service_wf (co_service s);
  cw_connections : map_Forall (fun _ => connection_wf) (co_sessions s);
  cw_server : server_wf (co_server s);
  cw_sequence : is_u64 (co_next_sequence s);
  cw_config : 0 ≤ cg_max_sessions (co_config s);
}.

(** One step of the coordinator: a handler of any connection, a step of the transport's
    threads, a call on the service by its owner, or a call on the server itself. *)
Inductive coordinator_step : CoordinatorServer → CoordinatorServer → Prop :=
  | co_open io s c : coordinator_step s (on_open io s c).1
  | co_frame io s c f : coordinator_step s (on_frame io s c f).1
  | co_close now s c : coordinator_step s (on_close now s c)
  | co_transport s server :
      server_step (co_server s) server → coordinator_step s (s <| co_server := server |>)
  | co_call s service :
      call_step (co_service s) service → coordinator_step s (with_service s service)
  | co_start s now loaded contents diagnostic save bound s' status :
      coordinator_start s now loaded contents diagnostic save bound = Some (s', status) →
      coordinator_step s s'
  | co_stop s now save : coordinator_step s (coordinator_stop s now save).1
  | co_flush s now save : coordinator_step s (coordinator_flush s now save).1
  | co_restore s now loaded contents diagnostic :
      coordinator_step s (coordinator_restore s now loaded contents diagnostic).1.1.

Lemma open_session_binding s label now b :
  (open_session s label now).2 = Ok b → sb_id b ≠ id_none ∧ sb_incarnation b ≠ id_none.
Proof.
  unfold open_session. destruct (negb _); [done|]. destruct (_ <=? _); [done|].
  cbn [mint]. intros [= <-]. split; apply mint_identity_some.
Qed.

Lemma emplace_wf s c st :
  coordinator_wf s → connection_wf st → coordinator_wf (emplace_connection s c st).
Proof.
  intros [] Hst. unfold emplace_connection. destruct (present _); [by split|].
  split; try done. by apply map_Forall_insert_2.
Qed.

Lemma with_service_wf s service :
  coordinator_wf s → service_wf service → coordinator_wf (with_service s service).
Proof. intros [] H. by split. Qed.

Lemma on_open_wf io s c : coordinator_wf s → coordinator_wf (on_open io s c).1.
Proof.
  intros Hw. unfold on_open.
  pose proof (run_step_wf _ _ (run_open (co_service s) "pending-handshake" (io_now io))
    (cw_service s Hw)) as Hs.
  pose proof (open_session_binding (co_service s) "pending-handshake" (io_now io)) as Hb.
  destruct (open_session _ _ _) as [service [b|status]]; cbn [fst snd] in *.
  - apply emplace_wf; [by apply with_service_wf|]. by apply Hb.
  - apply emplace_wf; [by apply with_service_wf | done].
Qed.

Lemma calls_wf s s' : rtc call_step s s' → service_wf s → service_wf s'.
Proof. intros H. by apply evolves_wf, calls_evolve. Qed.

Lemma own_calls_wf st s s' : rtc (own_call st) s s' → service_wf s → service_wf s'.
Proof.
  intros H. apply calls_wf. revert H. apply rtc_subrel. intros x y. apply own_call_step.
Qed.

Lemma greets_connections c s s1 :
  greets c s s1 → map_Forall (fun _ => connection_wf) (co_sessions s) →
  map_Forall (fun _ => connection_wf) (co_sessions s1).
Proof.
  intros (_ & _ & _ & [->|[label ->]]) Hw; [done|]. intros d st Hd.
  destruct (decide (d = c)) as [->|Hne].
  - rewrite lookup_alter_eq in Hd. destruct (co_sessions s !! c) as [st0|] eqn:E; [|done].
    injection Hd as <-. exact (Hw c st0 E).
  - rewrite lookup_alter_ne in Hd by done. eauto.
Qed.

Lemma on_frame_wf io s c f : coordinator_wf s → coordinator_wf (on_frame io s c f).1.
Proof.
  intros Hw. assert (service_wf (co_service (on_frame io s c f).1)) as Hs.
  { destruct (on_frame_cases io s c f) as [(st & _ & _ & H)|[_ ->]]; [|apply Hw].
    by eapply own_calls_wf; [|apply Hw]. }
  destruct (co_sessions s !! c) as [st|] eqn:E;
    [|revert Hs; unfold on_frame; rewrite E; intros; exact Hw].
  destruct (cn_rejected st) eqn:Er;
    [revert Hs; unfold on_frame; rewrite E, Er; intros; exact Hw|].
  destruct (on_frame_replies io s c st f E Er) as (s1 & h & Hg & (k & b & ws & _ & _ & _ & Hn & Ho & _) & Hh).
  assert (outside (on_frame io s c f).1 = outside s1 ∧
    co_next_sequence (on_frame io s c f).1 = w64 (co_next_sequence s1 + 1)) as [Ho' Hn']
    by (destruct Hh as [->| ->]; done).
  pose proof (greets_connections c s s1 Hg (cw_connections s Hw)) as Hc.
  destruct Hg as (_ & _ & Hf & _). injection Hf as Ec Es _. injection Ho' as Ec' Es' _ Et.
  split; [done | by rewrite Et | rewrite Es', Es; apply Hw | rewrite Hn'; apply w64_range |
    rewrite Ec', Ec; apply Hw].
Qed.

Lemma on_close_wf now s c : coordinator_wf s → coordinator_wf (on_close now s c).
Proof.
  intros Hw. unfold on_close. destruct (co_sessions s !! c) as [st|]; [|done].
  assert (coordinator_wf (s <| co_sessions ::= delete c |>)) as Hd.
  { destruct Hw. split; try done. by apply map_Forall_delete. }
  destruct (is_some _); [|done]. apply with_service_wf; [done|].
  apply (calls_wf (co_service s)); [apply rtc_once, call_close | apply Hw].
Qed.

Lemma stop_calls s now save : rtc call_step s (stop s now save).1.
Proof.
  unfold stop. pose proof (call_stop (fun _ => True) s now) as H.
  destruct (stop_begin s now) as [s1 [[pending|]|status]]; cbn [fst] in *; [|by apply rtc_once..].
  eapply rtc_l; [exact H|]. apply rtc_once, call_write_done.
Qed.

Lemma flush_calls s now save : rtc call_step s (flush s now save).1.
Proof.
  eapply rtc_subrel; [|exact (own_flush_done connection_default s now save)].
  intros x y. apply own_call_step.
Qed.

Lemma configure_wf s path now : service_wf s → service_wf (configure_persistence s path now).1.
Proof. apply calls_wf, rtc_once, call_configure. Qed.

(** The durable part of [coordinator_start]. *)
Lemma start_restored_wf service path now loaded contents diagnostic :
  service_wf service →
  service_wf (let '(service, disposition, restored) :=
                restore (configure_persistence service path now).1 path now
                  loaded contents diagnostic in
              if negb (is_ok restored) && negb (bool_decide (disposition = LoadDisposition.kMissing))
              then (configure_persistence service path now).1 else service).
Proof.
  intros Hw. pose proof (restore_wf _ path now loaded contents diagnostic
    (configure_wf service path now Hw)) as Hr.
  destruct (restore _ _ _ _ _ _) as [[service' disposition] restored]. cbn [fst] in Hr.
  destruct (_ && _); [by apply configure_wf | done].
Qed.

Lemma coordinator_start_wf s now loaded contents diagnostic save bound s' status :
  coordinator_wf s →
  coordinator_start s now loaded contents diagnostic save bound = Some (s', status) →
  coordinator_wf s'.
Proof.
  intros Hw. unfold coordinator_start. destruct (co_running s); [by intros [= <- _]|].
  destruct (start (co_service s) now) as [[service st]|] eqn:Es; [|done].
  pose proof (run_step_wf _ _ (run_start _ _ _ _ Es) (cw_service s Hw)) as Hs.
  destruct (negb (is_ok st)); [intros [= <- _]; by apply with_service_wf|]. cbv zeta.
  set (restored := if _ =? 0 then service else _).
  assert (service_wf restored) as Hr by (subst restored; destruct (_ =? 0);
    [done | by apply start_restored_wf]).
  clearbody restored.
  destruct (if is_ok bound then _ else _) as [server status'] eqn:El.
  assert (server_wf server) as Hl.
  { destruct (is_ok bound); [|injection El as <- _; apply Hw].
    pose proof (listen_wf (co_server s) _ (cw_config s Hw) (cw_server s Hw)) as H.
    by rewrite El in H. }
  assert (coordinator_wf ((with_service s restored) <| co_server := server |>)) as Hw'
    by (by destruct Hw; split).
  destruct (negb (is_ok status')); intros [= <- _].
  - apply with_service_wf; [done|]. by eapply calls_wf; [apply stop_calls|].
  - by destruct Hw'; split.
Qed.

Lemma coordinator_step_wf s s' : coordinator_step s s' → coordinator_wf s → coordinator_wf s'.
Proof.
  intros [] Hw; eauto using on_open_wf, on_frame_wf, on_close_wf, coordinator_start_wf.
  - destruct Hw. split; try done. by eapply server_step_wf.
  - apply with_service_wf; [done|]. by eapply calls_wf; [apply rtc_once|apply Hw].
  - unfold coordinator_stop. destruct (negb _); [done|].
    pose proof (stop_calls (co_service s0) now save) as H.
    destruct (stop _ _ _) as [service stopped]. cbn [fst] in *.
    assert (service_wf service) as Hs by (by eapply calls_wf; [|apply Hw]).
    assert (server_wf (shutdown_begin (co_server s0))) as Hv
      by (eapply server_step_wf; [apply step_shutdown_begin | apply Hw]).
    by destruct Hw; split.
  - unfold coordinator_flush. pose proof (flush_calls (co_service s0) now save) as H.
    destruct (flush _ _ _) as [service status]. cbn [fst] in *.
    apply with_service_wf; [done|]. by eapply calls_wf; [|apply Hw].
  - unfold coordinator_restore.
    pose proof (restore_wf (co_service s0) (cg_snapshot_path (co_config s0)) now loaded contents
      diagnostic (cw_service s0 Hw)) as H.
    destruct (restore _ _ _ _ _ _) as [[service disposition] status]. cbn [fst] in *.
    by apply with_service_wf.
Qed.

Lemma coordinator_new_wf config entropy counter :
  0 ≤ cf_decision_history_capacity (cg_service config) → 0 ≤ cg_max_sessions config →
  is_u64 counter → coordinator_wf (coordinator_new config entropy counter).
Proof.
  intros Hc Hm Hu.
  split; [by apply service_new_wf | apply map_Forall_empty | apply server_new_wf | done | done].
Qed.

(** C20: whatever peers send and however their connections, the transport's threads, restarts,
    flushes and restores interleave, every reachable state of the coordinator is well formed:
    the service keeps its invariant, every connection in the table was either refused, with no
    session, or owns a session and an incarnation that are set, and the transport stays
    within its session bound. *)
Theorem coordinator_invariant (config : CoordinatorConfig) (entropy counter : Z)
    (s : CoordinatorServer) :
  0 ≤ cf_decision_history_capacity (cg_service config) → 0 ≤ cg_max_sessions config →
  is_u64 counter →
  rtc coordinator_step (coordinator_new config entropy counter) s → coordinator_wf s.
Proof.
  intros Hc Hm Hu Hr. pose proof (coordinator_new_wf config entropy counter Hc Hm Hu) as Hw.
  revert Hw. induction Hr; eauto using coordinator_step_wf.
Qed.

(** ** Durability of what is acknowledged *)



























(** ** A write that fails is not reported *)

(** What leaves the coordinator, without the writes. *)
Fixpoint responses (actions : list Action) : list Action :=
  match actions with
  | [] => []
  | Wrote _ _ :: rest => responses rest
  | a :: rest => a :: responses rest
  end.

Lemma responses_app a b : responses (a ++ b) = responses a ++ responses b.
Proof. induction a as [|[] a IH]; cbn; by rewrite ?IH. Qed.

Lemma responses_writes writes : Forall is_write writes → responses writes = [].
Proof. induction 1 as [|[] writes]; done. Qed.

Lemma send_encoded_actions n io io' s s' c st kind f body :
  io_sent io' = io_sent io → prepares s s' →
  (send_encoded n io' s' c st kind f body).2 = (send_encoded n io s c st kind f body).2.
Proof.
  intros Hi Hp. revert st kind body. induction n as [|n IH]; intros st kind [bytes|status];
    cbn [send_encoded]; unfold response_frame, send_frame; rewrite ?(proj1 Hp), ?Hi;
    try (by destruct (is_ok _)); [done|].
  rewrite (prepares_sessions _ _ Hp). destruct (co_sessions s !! c); [apply IH | done].
Qed.

Lemma send_error_actions io io' s s' c f code message reasons :
  io_sent io' = io_sent io → prepares s s' →
  (send_error_with_reasons io' s' c f code message reasons).2 =
  (send_error_with_reasons io s c f code message reasons).2.
Proof.
  intros Hi Hp. unfold send_error_with_reasons. rewrite (prepares_sessions _ _ Hp).
  destruct (co_sessions s !! c); [by apply send_encoded_actions | done].
Qed.

(** [io] with another answer of the store. *)
Definition io_saving (io : Io) (save : PendingWrite → Status) : Io :=
  mkIo (io_now io) (io_flush_now io) (io_summary_now io) (io_sent io) save.

Lemma persist_prepares io io' s :
  prepares (persist_if_configured io s).1 (persist_if_configured io' s).1.
Proof. unfold persist_if_configured. by destruct (negb _). Qed.

Lemma respond_actions io save c st f s service kind body :
  responses (persist_respond (io_saving io save) c st f (with_service s service) kind body).2 =
  responses (persist_respond io c st f (with_service s service) kind body).2.
Proof.
  unfold persist_respond.
  rewrite (surjective_pairing (persist_if_configured io _)),
    (surjective_pairing (persist_if_configured (io_saving io save) _)).
  cbn [after snd]. rewrite !responses_app.
  rewrite (responses_writes (persist_if_configured io _).2) by apply persist_writes.
  rewrite (responses_writes (persist_if_configured (io_saving io save) _).2) by apply persist_writes.
  cbn [app]. f_equal. by apply send_encoded_actions, persist_prepares.
Qed.

Lemma dispatch_actions io save s c st f context kind :
  responses (dispatch (io_saving io save) s c st f context kind).2 =
  responses (dispatch io s c st f context kind).2.
Proof.
  assert (∀ s code message, (send_error (io_saving io save) s c f code message).2 =
    (send_error io s c f code message).2) as He by (intros; by apply send_error_actions).
  assert (∀ {A} (decode : list Z → Result A) handle handle',
    (∀ payload, responses (handle' payload).2 = responses (handle payload).2) →
    responses (with_payload (io_saving io save) s c f decode handle').2 =
    responses (with_payload io s c f decode handle).2) as Hp.
  { intros A decode handle handle' H. unfold with_payload. destruct (decode _); [done|].
    unfold reject. by rewrite He. }
  assert (∀ s kind body, responses (respond (io_saving io save) c st f s kind body).2 =
    responses (respond io c st f s kind body).2) as Hr
    by (intros; f_equal; by apply send_encoded_actions).
  destruct kind as [[]|]; cbn [dispatch]; try (by rewrite He);
    try (apply Hp; intros payload; cbv zeta).
  - destruct (publish_participant _ _ _ _ _ _) as [service status].
    destruct (negb _); [by rewrite He | apply Hr].
  - destruct (register_collective _ _ _) as [[service status] outcome]. apply respond_actions.
  - destruct (begin_attempt _ _ _ _ _ _) as [[service status] outcome]. apply respond_actions.
  - destruct (plan_flow_group _ _ _) as [[service status] decision].
    destruct (negb _); [by rewrite He | apply Hr].
  - destruct (cancel_collective _ _ _ _ _ _) as [[[service status] o] r]. apply respond_actions.
  - destruct (retire_collective _ _ _ _ _ _) as [[[service status] o] r]. apply respond_actions.
  - destruct (ingest_evidence _ _ _) as [[[[service g] r] rs] code]. apply respond_actions.
  - apply Hr.
  - destruct (if xq_has_correlation payload then _ else _) as [found text]. apply Hr.
  - destruct (install_policy _ _ _ _) as [[[service g] rs] status]. apply respond_actions.
  - assert (∀ h : Handled, (let '(s, actions) := h in
      (s <| co_shutdown_requested := true |>, actions)).2 = h.2) as H by (by intros []).
    unfold dispatch_shutdown. rewrite !H. apply Hr.
Qed.

(** The response to a frame does not depend on whether the snapshot could be written: a
    mutation is acknowledged in the same words when the write behind it failed. *)
Theorem response_ignores_write_failure (io : Io) (save : PendingWrite → Status)
    (s : CoordinatorServer) (c : nat) (f : Frame) :
  responses (on_frame (io_saving io save) s c f).2 = responses (on_frame io s c f).2.
Proof.
  assert (∀ s code message reasons,
    (send_error_with_reasons (io_saving io save) s c f code message reasons).2 =
    (send_error_with_reasons io s c f code message reasons).2) as He
    by (intros; by apply send_error_actions).
  unfold on_frame. destruct (co_sessions s !! c) as [st|] eqn:Hs; [|done].
  destruct (cn_rejected st); [done|]. destruct (negb _).
  - unfold on_first_frame, send_error. destruct (negb _); [cbn [then_shutdown snd]; by rewrite He|].
    destruct (decode_hello _); [f_equal; by apply send_encoded_actions|].
    cbn [then_shutdown snd]. by rewrite He.
  - unfold on_own_frame, send_error. destruct (_ || _); [cbn [then_shutdown snd]; by rewrite He|].
    cbv zeta. cbn [io_now io_saving].
    destruct (validate_envelope _ _ _ _) as [[service reasons] status].
    destruct (negb _).
    + destruct (envelope_fatal _); cbn [then_shutdown snd]; by rewrite He.
    + destruct (not_a_request _ _); [by rewrite He|]. destruct (co_sessions _ !! c); [|done].
      apply dispatch_actions.
Qed.

(** ** Start and stop *)

Lemma configured_service s path now :
  let s' := (configure_persistence s path now).1 in
  sv_running s' = sv_running s ∧ sv_sessions s' = sv_sessions s ∧
  au_epoch (sv_authority s') = au_epoch (sv_authority s).
Proof. done. Qed.

Lemma restored_service s path now loaded contents diagnostic :
  let s' := (restore s path now loaded contents diagnostic).1.1 in
  sv_running s' = sv_running s ∧ sv_sessions s' = sv_sessions s ∧
  au_epoch (sv_authority s') = au_epoch (sv_authority s).
Proof.
  cbv zeta. unfold restore. destruct loaded; try done.
  pose proof (restore_durable_epoch (sv_authority s) (sc_authority contents) now) as He.
  destruct (restore_durable _ _ _) as [a st]. destruct (negb _); [done|].
  destruct (catalog_load _ _) as [c st']. by destruct (negb _).
Qed.

(** C37: a coordinator that is stopped, with its service stopped, starts whenever its socket can
    be bound, whatever the snapshot file holds - missing, corrupt, impossible or sound: it
    runs, under an epoch that is not the last one, without any session. *)
Theorem start_survives_any_snapshot (s : CoordinatorServer) (now : Z) (loaded : LoadDisposition)
    (contents : SnapshotContents) (diagnostic : string) (save : PendingWrite → Status)
    (bound : Status) :
  coordinator_wf s → co_running s = false → sv_running (co_service s) = false →
  ts_running (co_server s) = false → is_ok bound = true →
  ∃ s', coordinator_start s now loaded contents diagnostic save bound = Some (s', status_ok) ∧
    co_running s' = true ∧ sv_running (co_service s') = true ∧
    ts_running (co_server s') = true ∧ sv_sessions (co_service s') = ∅ ∧
    au_epoch (sv_authority (co_service s')) ≠ au_epoch (sv_authority (co_service s)) ∧
    coordinator_wf s'.
Proof.
  intros Hw Hr Hv Ht Hb.
  destruct (start_spec (co_service s) now (cw_service s Hw) Hv)
    as (service & Es & _ & Hrun & Hsess & _ & Hep & _).
  assert (∃ s', coordinator_start s now loaded contents diagnostic save bound =
    Some (s', status_ok) ∧ co_running s' = true ∧ ts_running (co_server s') = true ∧
    sv_running (co_service s') = sv_running service ∧
    sv_sessions (co_service s') = sv_sessions service ∧
    au_epoch (sv_authority (co_service s')) = au_epoch (sv_authority service)) as (s' & E & H).
  { unfold coordinator_start. rewrite Hr, Es, Hb. cbv zeta. unfold listen. rewrite Ht.
    eval_ok. cbn [negb]. eexists. split; [reflexivity|].
    split; [done|]. split; [done|]. cbn [co_service with_service set_field].
    destruct (_ =? 0); [done|].
    pose proof (restored_service (configure_persistence service (cg_snapshot_path (co_config s)) now).1
      (cg_snapshot_path (co_config s)) now loaded contents diagnostic) as H.
    destruct (restore _ _ _ _ _ _) as [[service' disposition] restored]. by destruct (_ && _). }
  exists s'. destruct H as (H1 & H2 & H3 & H4 & H5).
  rewrite H3, H4, H5. split_and!; try done. by eapply coordinator_start_wf.
Qed.






(** ** A concrete site *)
Definition site_io : Io := mkIo 10 11 12 (fun _ => status_ok) (fun _ => status_ok).
Definition site_config : CoordinatorConfig := mkCoordinatorConfig 4 config_default "site.ctf" true 0.
Definition site_new : CoordinatorServer := coordinator_new site_config 7 1.
Definition site_contents : SnapshotContents :=
  mkSnapshotContents kSnapshotFormatVersion 0 (durable_snapshot authority_new) [].
Definition site_start : option (CoordinatorServer * Status) :=
  coordinator_start site_new 5 LoadDisposition.kMissing site_contents "" (io_save site_io) status_ok.
Definition site_started : CoordinatorServer :=
  match site_start with Some (s, _) => s | None => site_new end.
Definition site_opened : CoordinatorServer := (on_open site_io site_started 3).1.
Definition site_hello : Frame :=
  mkFrame (enum_raw MessageKind.kHello) kFlagRequest (mkEnvelope id_none id_none id_none 0 77)
    (writer_hello (mkHelloPayload "peer" "1" 5)).
Definition site_greeted : CoordinatorServer := (on_frame site_io site_opened 3 site_hello).1.
Definition site_connection : ConnectionState :=
  default connection_default (co_sessions site_greeted !! 3%nat).
Definition site_request (sequence : Z) (m : Message) : Frame :=
  mkFrame (enum_raw (message_kind m)) kFlagRequest
    (mkEnvelope (cn_session site_connection) (cn_incarnation site_connection)
       (cn_epoch site_connection) sequence 78) (message_bytes m).
Definition site_register : Frame := site_request 1 (MRegisterCollective demo_register).

Lemma site_new_wf : coordinator_wf site_new.
Proof. apply coordinator_new_wf; [done | done | done]. Qed.

Lemma site_started_step : coordinator_step site_new site_started.
Proof.
  apply (co_start site_new 5 LoadDisposition.kMissing site_contents "" (io_save site_io)
    status_ok _ status_ok). vm_compute. reflexivity.
Qed.


Lemma every_frame_answered_witness : ∃ response,
  responses (on_frame site_io site_greeted 3 site_register).2 = [Sent 3 response] ∧
  fm_kind response = enum_raw MessageKind.kRegisterAck ∧
  en_correlation (fm_envelope response) = 78.
Proof.
  destruct (every_frame_answered site_io site_greeted 3 site_connection site_register)
    as (kind & body & writes & tail & H & _ & Hk & Hw & Ht & _).
  - vm_compute. reflexivity.
  - vm_compute. reflexivity.
  - cbv zeta in H. apply (f_equal responses) in H.
    rewrite !responses_app, (responses_writes writes Hw) in H.
    destruct (_ && _) in H; destruct Ht as [->| ->]; [|exfalso; vm_compute in H; discriminate..].
    eexists. split; [exact H|]. split; [|reflexivity]. destruct Hk as [->|Hk].
    + exfalso. vm_compute in H. discriminate.
    + vm_compute in Hk. injection Hk as ->. reflexivity.
Defined.

Lemma coordinator_invariant_witness : coordinator_wf site_opened.
Proof.
  apply (coordinator_invariant site_config 7 1); [done | done | done|].
  eapply rtc_l; [apply site_started_step|]. apply rtc_once. apply co_open.
Defined.


Lemma start_survives_any_snapshot_witness : ∃ s',
  coordinator_start site_new 5 LoadDisposition.kRejectedIntegrity site_contents "checksum"
    (io_save site_io) status_ok = Some (s', status_ok) ∧ co_running s' = true.
Proof.
  destruct (start_survives_any_snapshot site_new 5 LoadDisposition.kRejectedIntegrity site_contents
    "checksum" (io_save site_io) status_ok) as (s' & E & H & _).
  - apply site_new_wf.
  - reflexivity.
  - reflexivity.
  - reflexivity.
  - reflexivity.
  - exists s'. split; [exact E | exact H].
Defined.

