(* ===== verification/Program.v ===== *)
(** Programs that talk to the world: what the control tool ([tools/ctfctl.cpp]) is built from.

    A [Prog A] is a finite tree of calls ([Call]): text on the standard streams, readings of
    the clock, minted identities, the operations of a connection and of an embedded server.  A
    call is answered with a value of [Answer]; what comes after may depend on it.  The tree is
    inductive, so a program ends whatever the answers are.

    [runs] relates a program to the events of one run and to its result, for any answers;
    [exec] runs it in an environment that computes the answers.  [monitored] is the program
    logic the tool's theorems use: it follows the events with an automaton. *)
From S2P Require Import Prelude Identity Errors Protocol Coordinator.

(** ** Calls *)
Inductive Call :=
  | Out (text : string)
  | Err (text : string)
  | Clock
  | Mint
  | Sleep (ms : Z)
  | Connect (port : Z)
  | Send (frame : Frame)
  | Receive
  | Shutdown
  | StartServer (config : CoordinatorConfig) (port now : Z)
  | ShutdownRequested
  | StopServer (now : Z).

(** [Receive] answers with the status and the frame, which counts only when the status is [kOk];
    [StartServer] with the status, the bound port and the epoch. *)
Definition Answer (c : Call) : Type :=
  match c with
  | Out _ | Err _ | Sleep _ | Shutdown => unit
  | Clock => Z
  | Mint => Identity
  | Connect _ | Send _ | StopServer _ => Status
  | Receive => Status * Frame
  | StartServer _ _ _ => Status * Z * Identity
  | ShutdownRequested => bool
  end.

(** A call with its answer. *)
Inductive Event :=
  | EOut (text : string)
  | EErr (text : string)
  | EClock (now : Z)
  | EMint (id : Identity)
  | ESleep (ms : Z)
  | EConnect (port : Z) (status : Status)
  | ESend (frame : Frame) (status : Status)
  | EReceive (received : Status * Frame)
  | EShutdown
  | EStartServer (config : CoordinatorConfig) (port now : Z) (started : Status * Z * Identity)
  | EShutdownRequested (requested : bool)
  | EStopServer (now : Z) (status : Status).

Definition event (c : Call) : Answer c → Event :=
  match c with
  | Out text => fun _ => EOut text
  | Err text => fun _ => EErr text
  | Clock => EClock
  | Mint => EMint
  | Sleep ms => fun _ => ESleep ms
  | Connect port => EConnect port
  | Send frame => ESend frame
  | Receive => EReceive
  | Shutdown => fun _ => EShutdown
  | StartServer config port now => EStartServer config port now
  | ShutdownRequested => EShutdownRequested
  | StopServer now => EStopServer now
  end.

(** ** Programs *)
Inductive Prog (A : Type) :=
  | Ret (a : A)
  | Do (c : Call) (k : Answer c → Prog A).
Arguments Ret {A} a.
Arguments Do {A} c k.

Definition prog_bind {A B} (k : A → Prog B) : Prog A → Prog B :=
  fix go p :=
    match p with
    | Ret a => k a
    | Do c next => Do c (fun r => go (next r))
    end.
#[export] Instance Prog_ret : MRet Prog := fun A => @Ret A.
#[export] Instance Prog_bind : MBind Prog := fun A B => @prog_bind A B.

Definition call (c : Call) : Prog (Answer c) := Do c Ret.

(** ** Runs *)
Inductive runs {A} : Prog A → list Event → A → Prop :=
  | runs_ret a : runs (Ret a) [] a
  | runs_do c k r trace a : runs (k r) trace a → runs (Do c k) (event c r :: trace) a.

Section exec.
Context {W : Type} (env : ∀ c : Call, W → W * Answer c).

Fixpoint exec {A} (p : Prog A) (w : W) : W * A :=
  match p with
  | Ret a => (w, a)
  | Do c k => let '(w, r) := env c w in exec (k r) w
  end.

Lemma exec_bind {A B} (p : Prog A) (k : A → Prog B) w :
  exec (p ≫= k) w = let '(w, a) := exec p w in exec (k a) w.
Proof.
  revert w. induction p as [a|c next IH]; intros w; [done|].
  cbn. destruct (env c w) as [w' r]. apply IH.
Qed.

(** What an environment computes is a run. *)
Lemma exec_runs {A} (p : Prog A) w : ∃ trace, runs p trace (exec p w).2.
Proof.
  revert w. induction p as [a|c k IH]; intros w; [by exists []; constructor|].
  cbn. destruct (env c w) as [w' r]. destruct (IH r w') as [trace H].
  exists (event c r :: trace). by constructor.
Qed.
End exec.

(** Every program ends: with an answer to every call there is a run. *)
Lemma runs_total {A} (p : Prog A) (env : ∀ c, Answer c) : ∃ trace a, runs p trace a.
Proof.
  destruct (exec_runs (fun c (_ : unit) => (tt, env c)) p tt) as [trace H]. by eexists _, _.
Qed.

(** ** Following the events of a program *)
Section monitor.
Context {S : Type} (step : S → Event → option S).

(** Every event is allowed, whatever the answers, and the result and the last state satisfy
    [Q]. *)
Fixpoint monitored {A} (Q : S → A → Prop) (p : Prog A) (s : S) : Prop :=
  match p with
  | Ret a => Q s a
  | Do c k => ∀ r, match step s (event c r) with
                   | Some s' => monitored Q (k r) s'
                   | None => False
                   end
  end.

Definition follow (trace : list Event) (s : S) : option S :=
  foldl (fun s e => s ≫= fun s => step s e) (Some s) trace.

Lemma follow_cons e trace s s' : step s e = Some s' → follow (e :: trace) s = follow trace s'.
Proof. intros E. unfold follow. cbn. by rewrite E. Qed.

Lemma monitored_runs {A} (Q : S → A → Prop) (p : Prog A) s trace a :
  monitored Q p s → runs p trace a → ∃ s', follow trace s = Some s' ∧ Q s' a.
Proof.
  intros Hm Hr. revert s Hm. induction Hr as [a|c k r trace a Hr IH]; intros s Hm; [by exists s|].
  cbn in Hm. specialize (Hm r). destruct (step s (event c r)) as [s'|] eqn:E; [|done].
  rewrite (follow_cons _ _ _ _ E). by apply IH.
Qed.

Lemma monitored_mono {A} (Q Q' : S → A → Prop) (p : Prog A) s :
  monitored Q p s → (∀ s a, Q s a → Q' s a) → monitored Q' p s.
Proof.
  intros Hm HQ. revert s Hm. induction p as [a|c k IH]; intros s; cbn; [by apply HQ|].
  intros Hm r. specialize (Hm r). destruct (step s (event c r)); [|done]. by apply IH.
Qed.

Lemma monitored_and {A} (Q Q' : S → A → Prop) (p : Prog A) s :
  monitored Q p s → monitored Q' p s → monitored (fun s a => Q s a ∧ Q' s a) p s.
Proof.
  revert s. induction p as [a|c k IH]; intros s; cbn; [done|]. intros H H' r.
  specialize (H r). specialize (H' r). destruct (step s (event c r)); [|done]. by apply IH.
Qed.

Lemma monitored_bind {A B} (Q : S → B → Prop) (p : Prog A) (k : A → Prog B) s :
  monitored (fun s a => monitored Q (k a) s) p s → monitored Q (p ≫= k) s.
Proof.
  revert s. induction p as [a|c next IH]; intros s; [done|]. cbn. intros Hm r.
  specialize (Hm r). destruct (step s (event c r)); [|done]. by apply IH.
Qed.

Lemma monitored_seq {A B} (R : S → A → Prop) (Q : S → B → Prop) (p : Prog A) (k : A → Prog B) s :
  monitored R p s → (∀ s a, R s a → monitored Q (k a) s) → monitored Q (p ≫= k) s.
Proof. intros Hp Hk. apply monitored_bind. by eapply monitored_mono. Qed.
End monitor.
