(* ===== verification/Options.v ===== *)
(** The command line of the control tool ([tools/ctfctl.cpp]): option parsing and the
    [resolve_*] functions that turn option texts into values.

    A function of the source that answers [false] with an error text is a [Resolved]. *)
From Stdlib Require Import Ascii.
From S2P Require Import Prelude Identity Errors Participant.

(** [true] with the output argument, or [false] with the error. *)
Inductive Resolved (A : Type) :=
  | Got (a : A)
  | Usage (error : string).
Arguments Got {A} a.
Arguments Usage {A} error.

#[export] Instance Resolved_bind : MBind Resolved :=
  fun A B k r => match r with Got a => k a | Usage error => Usage error end.
#[export] Instance Resolved_ret : MRet Resolved := fun A => @Got A.

Definition quoted (text : string) : string := String.append "'" (String.append text "'").

(** ** [Options] *)
Definition starts_with_option (token : string) : bool :=
  match token with
  | String "-"%char (String "-"%char _) => true
  | _ => false
  end.

Definition takes_no_value (name : string) : bool :=
  bool_decide (name = "--barrier") || bool_decide (name = "--standard") ||
  bool_decide (name = "--help").

Definition kKnown : list string :=
  ["--port"; "--snapshot"; "--label"; "--class"; "--participant";
   "--bytes"; "--barrier"; "--collective"; "--generation"; "--attempt";
   "--pattern"; "--step"; "--subject"; "--offset"; "--limit";
   "--correlation"; "--incarnation"; "--node"; "--state"; "--count";
   "--interval-ms"; "--kind"; "--link"; "--utilization-bps";
   "--available-bps"; "--valid-for-ms"; "--standard"; "--help"].

Definition is_known (name : string) : bool := bool_decide (name ∈ kKnown).

(** [token.find('=')] with the two [substr] around it. *)
Fixpoint split_equals (token : string) : option (string * string) :=
  match token with
  | EmptyString => None
  | String c rest =>
      if bool_decide (c = "="%char) then Some ("", rest)
      else match split_equals rest with
           | Some (name, value) => Some (String c name, value)
           | None => None
           end
  end.

(** The vector [entries_], in command line order. *)
Definition Options : Type := list (string * string).

(** What a token says: the name and the value that stands behind an equals sign. *)
Definition token_parts (token : string) : string * option string :=
  match split_equals token with
  | Some (name, value) => (name, Some value)
  | None => (token, None)
  end.

Fixpoint parse (arguments : list string) (out : Options) : Resolved Options :=
  match arguments with
  | [] => Got out
  | token :: rest =>
      if (slen token <? 3) || negb (starts_with_option token) then
        Usage (String.append "unexpected argument " (quoted token))
      else
        let '(name, value) := token_parts token in
        if negb (is_known name) then Usage (String.append "unknown option " name)
        else if takes_no_value name then
          match value with
          | Some _ => Usage (String.append name " does not take a value")
          | None => parse rest (out ++ [(name, "")])
          end
        else match value with
        | Some value => parse rest (out ++ [(name, value)])
        | None =>
            match rest with
            | [] => Usage (String.append name " requires a value")
            | value :: rest' =>
                if starts_with_option value
                then Usage (String.append name " requires a value")
                else parse rest' (out ++ [(name, value)])
            end
        end
  end.

Definition opt_find (options : Options) (name : string) : option string :=
  snd <$> find_first (fun e => bool_decide (e.1 = name)) options.

Definition opt_has (options : Options) (name : string) : bool :=
  match opt_find options name with Some _ => true | None => false end.

Definition opt_all (options : Options) (name : string) : list string :=
  snd <$> filter (fun e => e.1 = name) options.

Definition value_or (options : Options) (name fallback : string) : string :=
  default fallback (opt_find options name).

(** ** Numbers *)
Definition is_digit (c : Ascii.ascii) : bool := (48 <=? char_code c) && (char_code c <=? 57).

(** [std::from_chars] to an unsigned 64-bit value, base 10: the value of the longest prefix of
    digits and what is behind it; [None] when there is no digit ([invalid_argument]) or the
    value does not fit ([result_out_of_range]). *)
Fixpoint digits_value (text : string) (value : Z) : Z * string :=
  match text with
  | String c rest =>
      if is_digit c then digits_value rest (value * 10 + (char_code c - 48)) else (value, text)
  | EmptyString => (value, text)
  end.

Definition from_chars (text : string) : option (Z * string) :=
  match text with
  | String c _ =>
      if is_digit c then
        let '(value, rest) := digits_value text 0 in
        if value <? two64 then Some (value, rest) else None
      else None
  | EmptyString => None
  end.

Definition parse_u64 (text : string) : option Z :=
  if slen text =? 0 then None
  else match from_chars text with
  | None => None
  | Some (value, rest) => if slen rest =? 0 then Some value else None
  end.

(** ** Resolving options *)
Definition resolve_u64 (options : Options) (name : string) (fallback : Z) : Resolved Z :=
  match opt_find options name with
  | None => Got fallback
  | Some text =>
      match parse_u64 text with
      | None => Usage (String.append name " must be an unsigned decimal number")
      | Some value => Got value
      end
  end.

Definition resolve_port (options : Options) (allow_ephemeral : bool) : Resolved Z :=
  match opt_find options "--port" with
  | None => Usage "--port is required"
  | Some text =>
      let refused :=
        if allow_ephemeral then "--port must be a port number in 0..65535"
        else "--port must be a port number in 1..65535" in
      match parse_u64 text with
      | None => Usage refused
      | Some value =>
          if (65535 <? value) || (negb allow_ephemeral && (value =? 0)) then Usage refused
          else Got (w16 value)
      end
  end.

Definition not_canonical (name text : string) : string :=
  String.append name (String.append " " (String.append (quoted text)
    " is not canonical 32 character hexadecimal")).

Definition resolve_identity (options : Options) (name : string) : Resolved Identity :=
  match opt_find options name with
  | None => Usage (String.append name " is required")
  | Some text =>
      match id_parse text with
      | None => Usage (not_canonical name text)
      | Some id => Got id
      end
  end.

(** [None] is [present = false]; the output identity stays unset. *)
Definition resolve_optional_identity (options : Options) (name : string)
    : Resolved (option Identity) :=
  match opt_find options name with
  | None => Got None
  | Some text =>
      match id_parse text with
      | None => Usage (not_canonical name text)
      | Some id => Got (Some id)
      end
  end.

(** The loop over the occurrences of an option that carries identities. *)
Fixpoint parse_identities (name : string) (texts : list string) : Resolved (list Identity) :=
  match texts with
  | [] => Got []
  | text :: rest =>
      match id_parse text with
      | None => Usage (not_canonical name text)
      | Some id => ids ← parse_identities name rest; Got (id :: ids)
      end
  end.

Definition resolve_participants (options : Options) : Resolved (list Identity) :=
  ids ← parse_identities "--participant" (opt_all options "--participant");
  if zlen ids =? 0 then Usage "at least one --participant is required" else Got ids.

Definition parse_participant_state (text : string) : option ParticipantState :=
  if bool_decide (text = "live") then Some ParticipantState.kLive
  else if bool_decide (text = "suspect") then Some ParticipantState.kSuspect
  else if bool_decide (text = "expired") then Some ParticipantState.kExpired
  else None.

(** The table of [inspect_subject]. *)
Definition kSubjects : list (string * Z) :=
  [("summary", 0); ("collective", 1); ("decisions", 2); ("peers", 3); ("policy", 4);
   ("topology", 5)].

Definition inspect_subject (name : string) : option Z := table_lookup kSubjects name.

(** ** Decimal numbers *)
Fixpoint all_digits (text : string) : bool :=
  match text with
  | String c rest => is_digit c && all_digits rest
  | EmptyString => true
  end.

(** The number a text of digits denotes, read from the left. *)
Definition decimal_value (text : string) : Z := (digits_value text 0).1.

Lemma digits_value_rest text v : (digits_value text v).2 = "" ↔ all_digits text = true.
Proof.
  revert v. induction text as [|c text IH]; intros v; cbn; [done|].
  destruct (is_digit c); cbn; [apply IH | by split].
Qed.

Lemma slen_nil text : (slen text =? 0) = true ↔ text = "".
Proof. rewrite Z.eqb_eq. unfold slen. by destruct text. Qed.

(** [parse_u64] accepts exactly the non-empty texts of digits whose value fits 64 bits. *)
Lemma parse_u64_iff text n :
  parse_u64 text = Some n ↔
    text ≠ "" ∧ all_digits text = true ∧ n = decimal_value text ∧ n < two64.
Proof.
  unfold parse_u64, from_chars, decimal_value. destruct text as [|c rest]; [by split; [|intros []]|].
  rewrite (proj2 (Z.eqb_neq _ _)) by (unfold slen; cbn; lia).
  rewrite <- (digits_value_rest _ 0). cbn [digits_value].
  destruct (is_digit c) eqn:Ed; [|by split; [|intros (_ & ? & _)]].
  destruct (digits_value rest _) as [v tail]. cbn [fst snd].
  destruct (v <? two64) eqn:Ev; bool_prop; [|by split; [|intros (_ & _ & -> & ?); lia]].
  destruct (slen tail =? 0) eqn:Et; [apply slen_nil in Et as ->; naive_solver|].
  split; [done|]. intros (_ & -> & _). done.
Qed.

Lemma digits_value_nonneg text v : 0 ≤ v → 0 ≤ (digits_value text v).1.
Proof.
  revert v. induction text as [|c rest IH]; intros v Hv; cbn [digits_value]; [done|].
  destruct (is_digit c) eqn:E; [|done]. unfold is_digit in E. bool_prop. apply IH. lia.
Qed.

Lemma resolve_u64_nonneg options name fallback n :
  0 ≤ fallback → resolve_u64 options name fallback = Got n → 0 ≤ n.
Proof.
  intros Hf. unfold resolve_u64. destruct (opt_find options name) as [text|]; [|by intros [= <-]].
  destruct (parse_u64 text) eqn:E; [|done]. intros [= <-].
  apply parse_u64_iff in E as (_ & _ & -> & _). by apply digits_value_nonneg.
Qed.

Lemma digit_char d : 0 ≤ d < 10 →
  is_digit (Ascii.ascii_of_N (Z.to_N (48 + d))) = true ∧
  char_code (Ascii.ascii_of_N (Z.to_N (48 + d))) = 48 + d.
Proof.
  intros Hd. assert (∃ n : nat, d = Z.of_nat n ∧ (n < 10)%nat) as (n & -> & Hn).
  { exists (Z.to_nat d). lia. }
  do 10 (destruct n as [|n]; [by vm_compute|]). lia.
Qed.

Lemma digits_value_decimal fuel v acc :
  0 ≤ v < 10 ^ Z.of_nat fuel →
  digits_value (decimal_loop fuel v acc) 0 = digits_value acc v ∧
  (all_digits acc = true → all_digits (decimal_loop fuel v acc) = true).
Proof.
  revert v acc. induction fuel as [|fuel IH]; intros v acc Hv.
  - cbn in *. by assert (v = 0) as -> by lia.
  - cbn [decimal_loop]. destruct (v =? 0) eqn:E; bool_prop; [by subst|].
    pose proof (Z.mod_pos_bound v 10 ltac:(lia)). pose proof (Z.div_mod v 10 ltac:(lia)).
    rewrite Nat2Z.inj_succ, Z.pow_succ_r in Hv by lia.
    destruct (digit_char (v mod 10)) as [Hd Hc]; [done|].
    destruct (IH (v / 10) (String (Ascii.ascii_of_N (Z.to_N (48 + v mod 10))) acc)) as [H1 H2].
    { split; [apply Z.div_pos; lia | apply Z.div_lt_upper_bound; lia]. }
    rewrite H1. cbn [digits_value all_digits] in *. rewrite Hd, Hc in *. split; [f_equal; lia|].
    intros Ha. by apply H2.
Qed.

(** A number that the program prints is read back. *)
Lemma parse_u64_decimal n : is_u64 n → parse_u64 (decimal n) = Some n.
Proof.
  intros Hn. unfold decimal. destruct (n =? 0) eqn:E; bool_prop; [by subst|].
  unfold is_u64 in Hn. assert (0 ≤ n < 10 ^ Z.of_nat 20) as Hb by (cbn; lia).
  destruct (digits_value_decimal 20 n "" Hb) as [Hv Hd]. apply parse_u64_iff.
  split_and!; [|by apply Hd|unfold decimal_value; by rewrite Hv|lia].
  intros E'. rewrite E' in Hv. cbn in Hv. congruence.
Qed.

(** ** Command lines *)

(** The command lines that state a list of options: a flag alone, or an option with its value
    as the next argument or behind an equals sign. *)
Inductive spells : list string → Options → Prop :=
  | spells_nil : spells [] []
  | spells_flag name rest options :
      name ∈ kKnown → takes_no_value name = true → spells rest options →
      spells (name :: rest) ((name, "") :: options)
  | spells_value name value rest options :
      name ∈ kKnown → takes_no_value name = false → starts_with_option value = false →
      spells rest options → spells (name :: value :: rest) ((name, value) :: options)
  | spells_equals name value rest options :
      name ∈ kKnown → takes_no_value name = false → spells rest options →
      spells (String.append name (String "=" value) :: rest) ((name, value) :: options).

Lemma split_equals_Some token name value :
  split_equals token = Some (name, value) → token = String.append name (String "=" value).
Proof.
  revert name. induction token as [|c token IH]; intros name; cbn; [done|].
  case_bool_decide; [by intros [= <- <-]; subst|].
  destruct (split_equals token) as [[n v]|]; [|done]. intros [= <- <-]. cbn. f_equal. by apply IH.
Qed.

(** A known name is an option token without an equals sign. *)
Definition plain_name (name : string) : Prop :=
  (∀ tail, (slen (String.append name tail) <? 3) = false ∧
     starts_with_option (String.append name tail) = true) ∧
  token_parts name = (name, None) ∧
  ∀ value, token_parts (String.append name (String "=" value)) = (name, Some value).

Lemma known_plain name : name ∈ kKnown → plain_name name.
Proof.
  intros H. unfold kKnown in H. rewrite list_elem_of_In in H. cbn [In] in H.
  repeat destruct H as [<-|H]; try done.
  all: split_and!; [intros tail; split; [apply Z.ltb_ge; unfold slen; cbn; lia | reflexivity]
                   | reflexivity | reflexivity].
Qed.

Lemma parse_spells arguments options out :
  spells arguments options → parse arguments out = Got (out ++ options).
Proof.
  intros H. revert out.
  induction H as [|name rest options Hk Hf _ IH|name value rest options Hk Hf Hv _ IH
                  |name value rest options Hk Hf _ IH]; intros out.
  - by rewrite app_nil_r.
  - destruct (known_plain name Hk) as (Ht & Hp & _). destruct (Ht "") as [Hl Hs].
    rewrite string_app_nil in Hl, Hs. cbn [parse]. rewrite Hl, Hs, Hp. cbn [orb negb].
    unfold is_known. rewrite bool_decide_true, Hf, IH by done. by rewrite <- app_assoc.
  - destruct (known_plain name Hk) as (Ht & Hp & _). destruct (Ht "") as [Hl Hs].
    rewrite string_app_nil in Hl, Hs. cbn [parse]. rewrite Hl, Hs, Hp. cbn [orb negb].
    unfold is_known. rewrite bool_decide_true, Hf, Hv, IH by done. by rewrite <- app_assoc.
  - destruct (known_plain name Hk) as (Ht & _ & Hp). destruct (Ht (String "=" value)) as [Hl Hs].
    cbn [parse]. rewrite Hl, Hs, Hp. cbn [orb negb].
    unfold is_known. rewrite bool_decide_true, Hf, IH by done. by rewrite <- app_assoc.
Qed.

Lemma parse_spelled n arguments out options :
  (length arguments ≤ n)%nat → parse arguments out = Got options →
  ∃ rest, options = out ++ rest ∧ spells arguments rest.
Proof.
  revert arguments out. induction n as [|n IH]; intros [|token arguments] out Hl;
    cbn [length] in Hl; try lia; cbn [parse].
  1,2: intros [= <-]; exists []; by rewrite app_nil_r; split; [|constructor].
  destruct (_ || _); [done|]. unfold token_parts.
  assert (∀ args e, (length args ≤ n)%nat → parse args (out ++ [e]) = Got options →
    ∃ rest, options = out ++ e :: rest ∧ spells args rest) as Hnext.
  { intros args e Hn (rest & -> & H)%IH; [|done]. exists rest. by rewrite <- app_assoc. }
  destruct (split_equals token) as [[name value]|] eqn:Es.
  - apply split_equals_Some in Es as ->. unfold is_known. case_bool_decide as Hk; [|done]. cbn [negb].
    destruct (takes_no_value name) eqn:Hf; [done|]. intros (rest & -> & H)%Hnext; [|lia].
    eexists. split; [done|]. by constructor.
  - unfold is_known. case_bool_decide as Hk; [|done]. cbn [negb].
    destruct (takes_no_value token) eqn:Hf.
    { intros (rest & -> & H)%Hnext; [|lia]. eexists. split; [done|]. by constructor. }
    destruct arguments as [|value arguments]; [done|]. cbn [length] in Hl.
    destruct (starts_with_option value) eqn:Hv; [done|].
    intros (rest & -> & H)%Hnext; [|lia]. eexists. split; [done|]. by constructor.
Qed.

(** The parser accepts a command line exactly when it spells known options, each with a value
    if and only if it takes one, and yields them in command line order. *)
Theorem parse_iff (arguments : list string) (options : Options) :
  parse arguments [] = Got options ↔ spells arguments options.
Proof.
  split; [|apply parse_spells]. by intros (rest & -> & H)%(parse_spelled (length arguments)).
Qed.
