(* ===== verification/Client.v ===== *)
(** The protocol client of the control tool ([tools/ctfctl.cpp], class [Client]): the handshake,
    the per session frame sequence, and one method per request.

    The client's fields are a record that every method threads; what goes over the connection
    is a [Call].  A method that returns a [Status] and fills an output argument returns a
    [Result].  When [connect] fails the client is not used again, so what a failed decoding
    left in [hello_] is not modelled. *)
From S2P Require Import Prelude Identity Errors Participant Collective FlowGroup Traffic.
From S2P Require Import Evidence Sync Decision Authority Service Codec Protocol WireData Messages.
From S2P Require Import Coordinator Program.

(** ** Output *)

(** What [std::fputs] writes of [line.c_str()]. *)
Fixpoint c_str (text : string) : string :=
  match text with
  | EmptyString => EmptyString
  | String c rest => if char_code c =? 0 then EmptyString else String c (c_str rest)
  end.

Definition emit (line : string) : Prog unit := call (Out (String.append (c_str line) newline)).
Definition emit_raw (text : string) : Prog unit := call (Out text).
Definition diagnose (line : string) : Prog unit := call (Err (String.append (c_str line) newline)).

(** ** State *)
Record Client := mkClient {
  cl_hello : HelloAckPayload;
  cl_sequence : Z;
  cl_correlation : Z;
  cl_connected : bool;
}.
#[export] Instance Client_eta : Eta Client :=
  fun r => mkClient (cl_hello r) (cl_sequence r) (cl_correlation r) (cl_connected r).

Definition hello_ack_default : HelloAckPayload :=
  mkHelloAckPayload id_none id_none id_none id_none id_none id_none id_none
    limits.kFramePayloadMaxBytes "".
Definition client_new : Client := mkClient hello_ack_default 0 0 false.

Definition envelope_default : Envelope := mkEnvelope id_none id_none id_none 0 0.

(** ** Refusals *)
Definition refusal_from (payload : list Z) : Status :=
  match decode_error payload with
  | Fail decoded => decoded
  | Ok error =>
      mkStatus (ep_code error)
        (concat_all
           [ErrorCode.error_to_string (ep_code error); ": "; ep_message error;
            if zlen (ep_reasons error) =? 0 then ""
            else concat_all [" reasons=["; rc_to_string (ep_reasons error); "]"]])
  end.

(** ** The session *)
Definition hello_frame (payload : list Z) : Frame :=
  mkFrame (enum_raw MessageKind.kHello) kFlagRequest envelope_default payload.

Definition connect (client : Client) (port : Z) : Prog (Client * Status) :=
  status ← call (Connect port);
  if negb (is_ok status) then Ret (client, status)
  else
    now ← call Clock;
    match encode_hello (mkHelloPayload "ctfctl" "ctfctl/1.0.0" now) with
    | Fail status => Ret (client, status)
    | Ok payload =>
        status ← call (Send (hello_frame payload));
        if negb (is_ok status) then Ret (client, status)
        else
          '(status, response) ← call Receive;
          if negb (is_ok status) then Ret (client, status)
          else if negb (fm_kind response =? enum_raw MessageKind.kHelloAck) then
            Ret (client, mkStatus ErrorCode.kEnvelopeSessionUnknown
                           "the coordinator did not acknowledge the hello")
          else match decode_hello_ack (fm_payload response) with
          | Fail status => Ret (client, status)
          | Ok hello =>
              Ret (client <| cl_hello := hello |> <| cl_connected := true |>, status_ok)
          end
    end.

(** The frame [send_request] builds, after the two counters have advanced. *)
Definition request_frame (client : Client) (kind : MessageKind) (payload : list Z) : Frame :=
  mkFrame (enum_raw kind) kFlagRequest
    (mkEnvelope (ha_session (cl_hello client)) (ha_incarnation (cl_hello client))
       (ha_epoch (cl_hello client)) (cl_sequence client) (cl_correlation client))
    payload.

Definition send_request (client : Client) (kind : MessageKind) (payload : list Z)
    : Prog (Client * Status) :=
  if negb (cl_connected client) then
    Ret (client, mkStatus ErrorCode.kTransportNotStarted "the session is not connected")
  else
    let client := client <| cl_sequence ::= fun n => w64 (n + 1) |>
                         <| cl_correlation ::= fun n => w64 (n + 1) |> in
    status ← call (Send (request_frame client kind payload));
    Ret (client, status).

(** The status, and the response's kind and payload: those of an invalid frame when none was
    received. *)
Definition request (client : Client) (kind : MessageKind) (payload : list Z)
    : Prog (Client * Status * Z * list Z) :=
  '(client, status) ← send_request client kind payload;
  if negb (is_ok status) then Ret (client, status, enum_raw MessageKind.kInvalid, [])
  else
    '(status, response) ← call Receive;
    if negb (is_ok status) then Ret (client, status, enum_raw MessageKind.kInvalid, [])
    else
      Ret (client,
           if negb (fm_kind response =? enum_raw MessageKind.kErrorResponse) then status_ok
           else refusal_from (fm_payload response),
           fm_kind response, fm_payload response).

(** The steps every method shares: encode, request, check the kind of the response, decode. *)
Definition exchange {A} (client : Client) (kind : MessageKind) (body : Result (list Z))
    (expected : MessageKind) (unexpected : string) (decode : list Z → Result A)
    : Prog (Client * Result A) :=
  match body with
  | Fail status => Ret (client, Fail status)
  | Ok body =>
      '(client, status, response_kind, response) ← request client kind body;
      if negb (is_ok status) then Ret (client, Fail status)
      else if negb (response_kind =? enum_raw expected) then
        Ret (client, fail ErrorCode.kInternalInvariant unexpected)
      else Ret (client, decode response)
  end.

(** ** Requests *)
Definition cl_heartbeat (client : Client) (payload : HeartbeatPayload)
    : Prog (Client * Result HeartbeatAckPayload) :=
  exchange client MessageKind.kHeartbeat (encode_heartbeat payload) MessageKind.kHeartbeatAck
    "unexpected heartbeat response" decode_heartbeat_ack.

Definition cl_install_policy (client : Client) (policy : TrafficPolicy)
    : Prog (Client * Result InstallPolicyAckPayload) :=
  exchange client MessageKind.kInstallPolicy (encode_install_policy (mkInstallPolicyPayload policy))
    MessageKind.kInstallPolicyAck "unexpected policy response" decode_install_policy_ack.

Definition cl_register_collective (client : Client) (definition : CollectiveDefinition)
    : Prog (Client * Result RegisterAckPayload) :=
  exchange client MessageKind.kRegisterCollective
    (encode_register_collective (mkRegisterCollectivePayload definition))
    MessageKind.kRegisterAck "unexpected registration response" decode_register_ack.

Definition cl_begin_attempt (client : Client) (id generation attempt : Identity)
    (transfer_bytes : Z) : Prog (Client * Result AttemptAckPayload) :=
  exchange client MessageKind.kBeginAttempt
    (encode_begin_attempt (mkBeginAttemptPayload id generation attempt transfer_bytes))
    MessageKind.kAttemptAck "unexpected attempt response" decode_attempt_ack.

Definition cl_plan_flow_group (client : Client) (request_value : DecisionRequest)
    : Prog (Client * Result DecisionRecord) :=
  let request_value := request_value <| dr_session := ha_session (cl_hello client) |> in
  exchange client MessageKind.kPlanFlowGroup
    (encode_plan_flow_group (mkPlanFlowGroupPayload request_value))
    MessageKind.kFlowGroupDecision "unexpected decision response"
    (fun response => let? decision := decode_decision response in Ok (dp_decision decision)).

Definition cl_inspect (client : Client) (subject : Z) (id : Identity) (offset limit : Z)
    : Prog (Client * Result string) :=
  '(client, decoded) ←
    exchange client MessageKind.kInspectRequest
      (encode_inspect_request (mkInspectRequestPayload subject id offset limit))
      MessageKind.kInspectResponse "unexpected inspection response" decode_inspect_response;
  match decoded with
  | Fail status => Ret (client, Fail status)
  | Ok decoded =>
      (if ir_truncated decoded
       then diagnose "ctfctl: the coordinator truncated the inspection body" else Ret tt);;
      Ret (client, Ok (ir_body decoded))
  end.

Definition cl_explain (client : Client) (id attempt : Identity) (correlation : Z)
    (by_correlation : bool) : Prog (Client * Result ExplainResponsePayload) :=
  exchange client MessageKind.kExplainRequest
    (encode_explain_request (mkExplainRequestPayload id attempt correlation by_correlation))
    MessageKind.kExplainResponse "unexpected explanation response" decode_explain_response.

Definition cl_ingest_evidence (client : Client) (payload : EvidencePayload)
    : Prog (Client * Result EvidenceAckPayload) :=
  exchange client MessageKind.kIngestEvidence (encode_evidence payload)
    MessageKind.kEvidenceAck "unexpected evidence response" decode_evidence_ack.

Definition cl_request_shutdown (client : Client) : Prog (Client * Status) :=
  '(client, status, response_kind, _) ← request client MessageKind.kShutdown [];
  if negb (is_ok status) then Ret (client, status)
  else if negb (response_kind =? enum_raw MessageKind.kShutdownAck) then
    Ret (client, mkStatus ErrorCode.kInternalInvariant "unexpected shutdown response")
  else Ret (client, status_ok).

(** ** The conversation

    The protocol a client has to keep on one connection, as an automaton over the events: the
    connection, a hello without identity, its acknowledgement, and from there requests, each
    under the identity that was acknowledged and with the next sequence and correlation
    number, and each followed by the receipt of its response.  Only the acknowledgement that
    belongs to the request lets the conversation go on: after a failed call, an error response,
    a response of another kind or one that does not decode, and once the socket is shut down,
    nothing more is sent.  [cv_session] says whether a request has been answered; [cv_done] is
    a conversation that was shut down after one was. *)
Inductive Conversation :=
  | cv_idle
  | cv_connected
  | cv_greeting
  | cv_session (ack : HelloAckPayload) (sent : Z) (served : bool)
  | cv_waiting (ack : HelloAckPayload) (sent : Z) (kind : MessageKind)
  | cv_done
  | cv_over.

Definition envelope_is (session incarnation epoch : Identity) (n : Z) (e : Envelope) : bool :=
  (en_session e =i session) && (en_incarnation e =i incarnation) && (en_epoch e =i epoch) &&
  (en_frame_sequence e =? n) && (en_correlation e =? n).

Definition greeting (f : Frame) : bool :=
  (fm_kind f =? enum_raw MessageKind.kHello) && (fm_flags f =? kFlagRequest) &&
  envelope_is id_none id_none id_none 0 (fm_envelope f).

(** The kind of a request that the session may send as its [n]th. *)
Definition request_of (ack : HelloAckPayload) (n : Z) (f : Frame) : option MessageKind :=
  match enum_of_raw (fm_kind f) with
  | Some kind =>
      if protocol_message_requires_request kind && (fm_flags f =? kFlagRequest) &&
         envelope_is (ha_session ack) (ha_incarnation ack) (ha_epoch ack) n (fm_envelope f)
      then Some kind else None
  | None => None
  end.

(** The frame is the acknowledgement a request of this kind asks for. *)
Definition decodes {A} (r : Result A) : bool := match r with Ok _ => true | Fail _ => false end.

Definition answers (kind : MessageKind) (f : Frame) : bool :=
  let reply expected (decoded : bool) := (fm_kind f =? enum_raw expected) && decoded in
  match kind with
  | MessageKind.kHeartbeat =>
      reply MessageKind.kHeartbeatAck (decodes (decode_heartbeat_ack (fm_payload f)))
  | MessageKind.kInstallPolicy =>
      reply MessageKind.kInstallPolicyAck (decodes (decode_install_policy_ack (fm_payload f)))
  | MessageKind.kRegisterCollective =>
      reply MessageKind.kRegisterAck (decodes (decode_register_ack (fm_payload f)))
  | MessageKind.kBeginAttempt =>
      reply MessageKind.kAttemptAck (decodes (decode_attempt_ack (fm_payload f)))
  | MessageKind.kPlanFlowGroup =>
      reply MessageKind.kFlowGroupDecision (decodes (decode_decision (fm_payload f)))
  | MessageKind.kInspectRequest =>
      reply MessageKind.kInspectResponse (decodes (decode_inspect_response (fm_payload f)))
  | MessageKind.kExplainRequest =>
      reply MessageKind.kExplainResponse (decodes (decode_explain_response (fm_payload f)))
  | MessageKind.kIngestEvidence =>
      reply MessageKind.kEvidenceAck (decodes (decode_evidence_ack (fm_payload f)))
  | MessageKind.kShutdown => reply MessageKind.kShutdownAck true
  | _ => false
  end.

(** The acknowledgement in what was received. *)
Definition acknowledged (f : Frame) : option HelloAckPayload :=
  if fm_kind f =? enum_raw MessageKind.kHelloAck then
    match decode_hello_ack (fm_payload f) with Ok ack => Some ack | Fail _ => None end
  else None.

Definition talk (cv : Conversation) (e : Event) : option Conversation :=
  match e, cv with
  | (EOut _ | EErr _ | EClock _ | EMint _ | ESleep _), _ => Some cv
  | EShutdown, cv_idle => None
  | EShutdown, cv_session _ _ true => Some cv_done
  | EShutdown, _ => Some cv_over
  | EConnect _ status, cv_idle => Some (if is_ok status then cv_connected else cv_over)
  | ESend f status, cv_connected =>
      if greeting f then Some (if is_ok status then cv_greeting else cv_over) else None
  | ESend f status, cv_session ack n _ =>
      match request_of ack (w64 (n + 1)) f with
      | Some kind => Some (if is_ok status then cv_waiting ack (w64 (n + 1)) kind else cv_over)
      | None => None
      end
  | EReceive (status, f), cv_greeting =>
      Some (if is_ok status then
              match acknowledged f with Some ack => cv_session ack 0 false | None => cv_over end
            else cv_over)
  | EReceive (status, f), cv_waiting ack n kind =>
      Some (if is_ok status && answers kind f then cv_session ack n true else cv_over)
  | _, _ => None
  end.

(** The client of a conversation that goes on. *)
Definition speaker (ack : HelloAckPayload) (n : Z) : Client := mkClient ack n n true.

Lemma envelope_is_refl e :
  en_correlation e = en_frame_sequence e →
  envelope_is (en_session e) (en_incarnation e) (en_epoch e) (en_frame_sequence e) e = true.
Proof. intros E. unfold envelope_is. by rewrite !id_eqb_refl, E, Z.eqb_refl. Qed.

Lemma request_frame_of ack n kind payload :
  protocol_message_requires_request kind = true →
  request_of ack n (request_frame (speaker ack n) kind payload) = Some kind.
Proof.
  intros Hk. unfold request_of, request_frame.
  cbn [fm_kind fm_flags fm_envelope speaker cl_hello cl_sequence cl_correlation].
  rewrite enum_of_raw_raw, Hk, Z.eqb_refl. cbn [andb].
  set (e := mkEnvelope _ _ _ n n).
  assert (envelope_is (ha_session ack) (ha_incarnation ack) (ha_epoch ack) n e = true) as ->
    by exact (envelope_is_refl e eq_refl).
  done.
Qed.

Lemma decode_refused {A} (p : Reader A) `{!Rejects p decode_family} data s :
  decode_one p data = Fail s → is_ok s = false.
Proof.
  intros H%decode_one_rejects; [|done]. unfold decode_family in H. unfold is_ok.
  case_bool_decide as E; [|done]. by rewrite E in H.
Qed.

(** Runs the calls of a program up to the next one whose answer matters. *)
Ltac run_calls :=
  cbn [mbind Prog_bind prog_bind call monitored talk event emit emit_raw diagnose negb fst snd].

Lemma connect_talks port :
  monitored talk (fun cv '(client, status) =>
      match cv with cv_idle | cv_session _ _ true | cv_done => False | _ => True end ∧
      (is_ok status = true → ∃ ack, cv = cv_session ack 0 false ∧ client = speaker ack 0))
    (connect client_new port) cv_idle.
Proof.
  unfold connect. run_calls. intros status.
  destruct (is_ok status) eqn:E; run_calls; [|by split; [|congruence]].
  intros now. cbn [encode_hello]. run_calls. intros sent. run_calls.
  change (greeting _) with true. run_calls.
  destruct (is_ok sent) eqn:Es; run_calls; [|by split; [|congruence]].
  intros [received f]. run_calls.
  destruct (is_ok received) eqn:Er; run_calls; [|by split; [|congruence]].
  unfold acknowledged. destruct (fm_kind f =? _) eqn:Ek; run_calls; [|done].
  destruct (decode_hello_ack _) as [ack|failed] eqn:Ed; run_calls; [by split; [|exists ack]|].
  by rewrite (decode_refused _ _ _ Ed).
Qed.

(** A conversation in which a request was sent: it goes on, with the client that speaks next,
    or the caller gives up. *)
Definition asked (cv : Conversation) : Prop :=
  match cv with cv_idle | cv_session _ _ false | cv_done => False | _ => True end.

(** After an exchange with a result the conversation goes on. *)
Definition goes_on {A} (ack : HelloAckPayload) (cv : Conversation) (r : Client * Result A) : Prop :=
  match r.2 with
  | Ok _ => ∃ n, cv = cv_session ack n true ∧ r.1 = speaker ack n
  | Fail _ => cv ≠ cv_idle ∧ cv ≠ cv_done
  end.

(** What [request] leaves: with a response in hand, the conversation goes on iff it answers the
    request. *)
Lemma request_talks ack n served kind payload :
  protocol_message_requires_request kind = true →
  monitored talk (fun cv '(client, status, response_kind, response) =>
      asked cv ∧
      (is_ok status = true → ∃ m f, client = speaker ack m ∧
         response_kind = fm_kind f ∧ response = fm_payload f ∧
         (answers kind f = true → cv = cv_session ack m true)))
    (request (speaker ack n) kind payload) (cv_session ack n served).
Proof.
  intros Hk. unfold request, send_request. cbn [speaker cl_connected negb]. run_calls.
  intros sent. run_calls.
  change (request_frame _ kind payload)
    with (request_frame (speaker ack (w64 (n + 1))) kind payload).
  rewrite request_frame_of by done.
  destruct (is_ok sent) eqn:Es; run_calls; [|by split; [|congruence]].
  intros [received f]. run_calls.
  destruct (is_ok received) eqn:Er; run_calls; [|by split; [|congruence]].
  cbn [andb]. split; [by destruct (answers kind f)|].
  intros _. exists (w64 (n + 1)), f. split_and!; [done..|]. by intros ->.
Qed.

(** The decoder of an exchange recognises only what answers the request. *)
Class Recognises {A} (kind expected : MessageKind) (decode : list Z → Result A) : Prop :=
  recognises f a : (fm_kind f =? enum_raw expected) = true → decode (fm_payload f) = Ok a →
    answers kind f = true.

Ltac recognise :=
  intros ? ? Hkind Hdecode; unfold answers; rewrite Hkind;
  first [by rewrite Hdecode | by destruct (decode_decision _)].

#[export] Instance heartbeat_recognises :
  Recognises MessageKind.kHeartbeat MessageKind.kHeartbeatAck decode_heartbeat_ack.
Proof. recognise. Qed.
#[export] Instance install_policy_recognises :
  Recognises MessageKind.kInstallPolicy MessageKind.kInstallPolicyAck decode_install_policy_ack.
Proof. recognise. Qed.
#[export] Instance register_recognises :
  Recognises MessageKind.kRegisterCollective MessageKind.kRegisterAck decode_register_ack.
Proof. recognise. Qed.
#[export] Instance begin_attempt_recognises :
  Recognises MessageKind.kBeginAttempt MessageKind.kAttemptAck decode_attempt_ack.
Proof. recognise. Qed.
#[export] Instance plan_recognises :
  Recognises MessageKind.kPlanFlowGroup MessageKind.kFlowGroupDecision
    (fun response => let? decision := decode_decision response in Ok (dp_decision decision)).
Proof. recognise. Qed.
#[export] Instance inspect_recognises :
  Recognises MessageKind.kInspectRequest MessageKind.kInspectResponse decode_inspect_response.
Proof. recognise. Qed.
#[export] Instance explain_recognises :
  Recognises MessageKind.kExplainRequest MessageKind.kExplainResponse decode_explain_response.
Proof. recognise. Qed.
#[export] Instance evidence_recognises :
  Recognises MessageKind.kIngestEvidence MessageKind.kEvidenceAck decode_evidence_ack.
Proof. recognise. Qed.

Lemma exchange_talks {A} ack n served kind body expected unexpected (decode : list Z → Result A)
    `{!Recognises kind expected decode} :
  protocol_message_requires_request kind = true →
  monitored talk (goes_on ack) (exchange (speaker ack n) kind body expected unexpected decode)
    (cv_session ack n served).
Proof.
  intros Hk. unfold exchange, goes_on. destruct body as [body|status]; [|done].
  eapply monitored_seq; [by apply request_talks|].
  intros cv [[[client status] rk] response] [Ha H].
  assert (cv ≠ cv_idle ∧ cv ≠ cv_done) as Hn by (split; intros ->; done).
  destruct (is_ok status); cbn [negb]; [|done].
  destruct (H eq_refl) as (m & f & -> & -> & -> & Hans).
  destruct (fm_kind f =? _) eqn:Ek; cbn [negb]; [|done]. run_calls. cbn [fst snd].
  destruct (decode (fm_payload f)) eqn:Ed; [|done]. exists m. split; [|done].
  by eapply Hans, recognises.
Qed.
