(* ===== verification/Workload.v ===== *)
(** What the control tool builds ([tools/ctfctl.cpp]): flow group plans over the participants an
    operator lists ([build_plan]), and the synthetic fabric of the self test. *)
From S2P Require Import Prelude Identity Errors Participant Collective FlowGroup Traffic.
From S2P Require Import Evidence Sync Decision WireData Authority.

#[export] Instance Identity_inhabited : Inhabited Identity := populate id_none.

(** ** Flow group plans *)
Section edges.
Context (participants : list Identity) (step : Sequence) (hint : AlgorithmHint).

(** The edge from one position of the list to another. *)
Definition edge_between (source destination : nat) : FlowEdge :=
  mkFlowEdge (participants !!! source) (participants !!! destination) 0 step hint false.

Definition ring_edges (count : nat) : list FlowEdge :=
  (fun index => edge_between index ((index + 1) mod count)) <$> seq 0 count.
Definition chain_edges (count : nat) : list FlowEdge :=
  (fun index => edge_between index (index + 1)) <$> seq 0 (count - 1).
Definition full_mesh_edges (count : nat) : list FlowEdge :=
  seq 0 count ≫= (fun source =>
    edge_between source <$> filter (fun destination => source ≠ destination) (seq 0 count)).
Definition tree_up_edges (count : nat) : list FlowEdge :=
  (fun index => edge_between index ((index - 1) / 2)) <$> seq 1 (count - 1).
End edges.

Definition build_plan (pattern : FlowPattern) (collective_class : CollectiveClass)
    (instance : CollectiveInstance) (participants : list Identity) (step : Sequence)
    : FlowGroupPlan :=
  let plan := plan_default
    <| fp_instance := instance |> <| fp_collective_class := collective_class |>
    <| fp_pattern := pattern |> <| fp_direction := FlowDirection.kUnidirectional |>
    <| fp_plan_sequence := 1 |> in
  let count := length participants in
  match pattern with
  | FlowPattern.kRing =>
      plan <| fp_requires_simultaneous_start := true |>
           <| fp_edges := ring_edges participants step AlgorithmHint.kRing count |>
  | FlowPattern.kChain =>
      plan <| fp_edges := chain_edges participants step AlgorithmHint.kPipeline count |>
  | FlowPattern.kFullMesh =>
      plan <| fp_edges := full_mesh_edges participants step AlgorithmHint.kDirect count |>
  | FlowPattern.kTreeUp =>
      plan <| fp_edges := tree_up_edges participants step AlgorithmHint.kTree count |>
  | _ => plan
  end.

(** The patterns the tool offers. *)
Definition buildable (pattern : FlowPattern) : bool :=
  match pattern with
  | FlowPattern.kRing | FlowPattern.kChain | FlowPattern.kFullMesh | FlowPattern.kTreeUp => true
  | _ => false
  end.

(** ** The synthetic fabric *)
Definition kSyntheticFabricSeed : Z := 0x5EEDFAB1C0000001.
Definition kSyntheticParticipantSeed : Z := 0x5EEDFAB1C0000002.
Definition kSyntheticLinkBps : Z := 400 * 1000 * 1000 * 1000.
Definition kSyntheticRackCount : nat := 2.
Definition kSyntheticNodesPerRack : nat := 2.
Definition kSyntheticUtilizationBps : Z := 2000.
Definition kSyntheticAvailablePerMille : Z := 750.
Definition kSyntheticCongestionWindowMs : Z := 2000.
Definition kSyntheticLogicalBytes : Z := Z.shiftl 1 30.

Record SyntheticFabric := mkSyntheticFabric {
  sf_topology : TopologyEvidence;
  sf_capacity : CapacityEvidence;
  sf_congestion : CongestionEvidence;
  sf_nodes : list Identity;
}.

(** [count] identities in turn from an [IdentityMinter]. *)
Fixpoint mint_many (count : nat) (ids : Z) : Z * list Identity :=
  match count with
  | O => (ids, [])
  | S count =>
      let '(ids, id) := minter_next ids in
      let '(ids, rest) := mint_many count ids in
      (ids, id :: rest)
  end.

Definition synthetic_node (rack id : Identity) : TopologyNode := mkTopologyNode id rack true 8.
Definition synthetic_link (spine switch id : Identity) : TopologyLink :=
  mkTopologyLink id switch spine LinkClass.kInterRack kSyntheticLinkBps 4 true.
Definition synthetic_capacity (link : TopologyLink) : LinkCapacity :=
  mkLinkCapacity (tl_id link) (tl_capacity_bps link)
    (w64 (tl_capacity_bps link / 1000 * kSyntheticAvailablePerMille))
    kSyntheticUtilizationBps true 4000.
Definition synthetic_congestion (link : TopologyLink) : LinkCongestion :=
  mkLinkCongestion (tl_id link) kSyntheticUtilizationBps 0 0 0
    (congestion_level_from_utilization_bps kSyntheticUtilizationBps).

Definition make_synthetic_fabric (seed now_ms : Z) : SyntheticFabric :=
  let ids := minter_new seed in
  let '(ids, racks) := mint_many kSyntheticRackCount ids in
  let '(ids, switches) := mint_many (kSyntheticRackCount + 1) ids in
  let '(ids, node_ids) := mint_many (kSyntheticRackCount * kSyntheticNodesPerRack) ids in
  let '(ids, link_ids) := mint_many kSyntheticRackCount ids in
  let '(ids, topology_generation) := minter_next ids in
  let '(ids, capacity_generation) := minter_next ids in
  let '(ids, congestion_generation) := minter_next ids in
  (* the rack of the [n]th node is the one of its turn of the outer loop *)
  let nodes := imap (fun n => synthetic_node (racks !!! (n / kSyntheticNodesPerRack)%nat)) node_ids in
  let links := zip_with (synthetic_link (default id_none (last switches))) switches link_ids in
  let topology := topology_canonicalize
    (mkTopologyEvidence topology_generation nodes links now_ms true) in
  {| sf_topology := topology;
     sf_capacity := capacity_canonicalize
       (mkCapacityEvidence capacity_generation topology_generation
          (synthetic_capacity <$> te_links topology) now_ms true);
     sf_congestion := congestion_canonicalize
       (mkCongestionEvidence congestion_generation topology_generation
          (synthetic_congestion <$> te_links topology) now_ms kSyntheticCongestionWindowMs true);
     sf_nodes := node_ids |}.

(** ** What a plan joins *)

(** The ordered pairs of positions a pattern joins among [n] participants. *)
Definition joins (pattern : FlowPattern) (n i j : nat) : Prop :=
  match pattern with
  | FlowPattern.kRing => (i < n)%nat ∧ j = ((i + 1) mod n)%nat
  | FlowPattern.kChain => (i + 1 < n)%nat ∧ j = (i + 1)%nat
  | FlowPattern.kFullMesh => (i < n)%nat ∧ (j < n)%nat ∧ i ≠ j
  | FlowPattern.kTreeUp => (1 ≤ i < n)%nat ∧ j = ((i - 1) / 2)%nat
  | _ => False
  end.

Definition pattern_hint (pattern : FlowPattern) : AlgorithmHint :=
  match pattern with
  | FlowPattern.kRing => AlgorithmHint.kRing
  | FlowPattern.kChain => AlgorithmHint.kPipeline
  | FlowPattern.kFullMesh => AlgorithmHint.kDirect
  | FlowPattern.kTreeUp => AlgorithmHint.kTree
  | _ => AlgorithmHint.kUnspecified
  end.

(** They, in the order the loops visit them. *)
Definition positions (pattern : FlowPattern) (n : nat) : list (nat * nat) :=
  match pattern with
  | FlowPattern.kRing => (fun i => (i, (i + 1) mod n)%nat) <$> seq 0 n
  | FlowPattern.kChain => (fun i => (i, i + 1)%nat) <$> seq 0 (n - 1)
  | FlowPattern.kFullMesh =>
      seq 0 n ≫= (fun i => (fun j => (i, j)) <$> filter (fun j => i ≠ j) (seq 0 n))
  | FlowPattern.kTreeUp => (fun i => (i, (i - 1) / 2)%nat) <$> seq 1 (n - 1)
  | _ => []
  end.

Lemma plan_edges pattern class instance participants step :
  fp_edges (build_plan pattern class instance participants step) =
  (fun p => edge_between participants step (pattern_hint pattern) p.1 p.2) <$>
    positions pattern (length participants).
Proof.
  destruct pattern; try reflexivity; cbn -[seq Nat.modulo Nat.div];
    unfold ring_edges, chain_edges, full_mesh_edges, tree_up_edges; rewrite <- ?list_fmap_compose;
    try reflexivity.
  generalize (seq 0 (length participants)) at 2 4. intros sources.
  generalize (seq 0 (length participants)). intros destinations.
  induction sources as [|i sources IH]; [done|]. rewrite !bind_cons, fmap_app, IH. f_equal.
  by rewrite <- list_fmap_compose.
Qed.

Lemma positions_joins pattern n i j : (i, j) ∈ positions pattern n ↔ joins pattern n i j.
Proof.
  destruct pattern; cbn -[seq Nat.modulo Nat.div]; try (rewrite list_elem_of_In; done).
  all: try (rewrite list_elem_of_fmap; setoid_rewrite elem_of_seq; split;
    [intros (k & [= -> ->] & ?); split; [lia|done]
    |intros [? ->]; eexists; split; [done|lia]]).
  rewrite list_elem_of_bind. setoid_rewrite list_elem_of_fmap.
  setoid_rewrite list_elem_of_filter. setoid_rewrite elem_of_seq. split.
  - intros (k & (l & [= -> ->] & ? & ?) & ?). split_and!; (done || lia).
  - intros (? & ? & ?). exists i. split; [exists j; split_and!; (done || lia)|lia].
Qed.

Lemma positions_nodup pattern n : NoDup (positions pattern n).
Proof.
  destruct pattern; cbn -[seq Nat.modulo Nat.div]; try constructor.
  all: try (apply (NoDup_fmap_1 fst); rewrite <- list_fmap_compose;
    rewrite (list_fmap_ext _ id) by done; rewrite list_fmap_id; apply NoDup_seq).
  apply NoDup_bind; [|intros i _; apply NoDup_fmap_2; [by intros ? ? [=]|apply NoDup_filter, NoDup_seq]|
    apply NoDup_seq].
  intros i i' x _ _ (j & -> & _)%list_elem_of_fmap (j' & [= -> _] & _)%list_elem_of_fmap. done.
Qed.

(** Two different positions of a list of two or more; and conversely one edge needs two. *)
Lemma joins_distinct pattern n i j :
  (2 ≤ n)%nat → joins pattern n i j → (i < n)%nat ∧ (j < n)%nat ∧ i ≠ j.
Proof.
  intros Hn. destruct pattern; cbn -[Nat.modulo Nat.div]; try done.
  - intros [Hi ->]. split_and!; [done|apply Nat.mod_upper_bound; lia|].
    destruct (decide (i + 1 = n)%nat) as [E|]; [rewrite E, Nat.Div0.mod_same; lia|].
    rewrite Nat.mod_small by lia. lia.
  - intros [Hi ->]. lia.
  - intros [Hi ->]. pose proof (Nat.div_le_upper_bound (i - 1) 2 (i - 1) ltac:(lia) ltac:(lia)). lia.
Qed.

(** Two participants or more are joined. *)
Lemma some_joined pattern n :
  buildable pattern = true → (2 ≤ n)%nat → ∃ i j, joins pattern n i j.
Proof.
  intros Hb Hn. destruct pattern; cbn -[Nat.modulo Nat.div] in *; try done.
  - exists 0%nat. eexists. split; [lia|done].
  - exists 0%nat. eexists. split; [lia|done].
  - exists 1%nat. eexists. split; [lia|done].
  - exists 0%nat, 1%nat. lia.
Qed.

Section plan.
Context (pattern : FlowPattern) (class : CollectiveClass) (instance : CollectiveInstance).
Context (participants : list Identity) (step : Sequence).
Let plan := build_plan pattern class instance participants step.
Let n := length participants.

Lemma plan_edge_elem e :
  e ∈ fp_edges plan ↔
    ∃ i j, joins pattern n i j ∧ e = edge_between participants step (pattern_hint pattern) i j.
Proof.
  unfold plan. rewrite plan_edges, list_elem_of_fmap. split.
  - intros ([i j] & -> & H%positions_joins). by exists i, j.
  - intros (i & j & H%positions_joins & ->). by exists (i, j).
Qed.

Lemma participant_at i : (i < n)%nat → participants !! i = Some (participants !!! i).
Proof. intros Hi. apply list_lookup_lookup_total. by apply lookup_lt_is_Some. Qed.

Lemma participant_in i : (i < n)%nat → participants !!! i ∈ participants.
Proof. intros H%participant_at. by eapply list_elem_of_lookup_2. Qed.

(** Every joined pair has its two ends set and distinct. *)
Definition ends_apart : Prop :=
  ∀ i j, joins pattern n i j →
    participants !!! i ≠ id_none ∧ participants !!! j ≠ id_none ∧
    participants !!! i ≠ participants !!! j.

Lemma edges_valid_apart allowed :
  Forall (edge_valid allowed) (fp_edges plan) →
  ends_apart ∧ ((∃ i j, joins pattern n i j) → step ≠ 0).
Proof.
  rewrite Forall_forall. intros H.
  assert (∀ i j, joins pattern n i j → edge_valid allowed
    (edge_between participants step (pattern_hint pattern) i j)) as Hv
    by (intros i j Hj; apply H, plan_edge_elem; eauto).
  split; [intros i j Hj | intros (i & j & Hj)]; apply Hv in Hj;
    destruct Hj as (? & ? & ? & _ & _ & ?); done.
Qed.

Lemma apart_edges_valid allowed :
  (∀ p, p ∈ allowed ↔ p ∈ participants) → (2 ≤ n)%nat → step ≠ 0 → ends_apart →
  Forall (edge_valid allowed) (fp_edges plan).
Proof.
  intros Ha Hn Hstep Hends. apply Forall_forall. intros e (i & j & Hj & ->)%plan_edge_elem.
  destruct (Hends i j Hj) as (? & ? & ?). apply joins_distinct in Hj as (? & ? & _); [|done].
  split_and!; cbn; rewrite ?Ha; auto using participant_in.
Qed.

(** Below two participants there is no edge, or one that ends where it starts. *)
Lemma alone_refused : (n < 2)%nat → ¬ ends_apart ∨ fp_edges plan = [].
Proof.
  intros Hn. unfold plan, ends_apart. rewrite plan_edges. fold n.
  destruct n as [|[|m]] eqn:E; [|..|lia]; [by right; destruct pattern|].
  destruct pattern; try (by right). left. intros H. 
  by destruct (H 0%nat 0%nat (conj (Nat.lt_0_succ 0) eq_refl)) as (_ & _ & Hne).
Qed.

Lemma plan_joins_some : buildable pattern = true → (2 ≤ n)%nat → fp_edges plan ≠ [].
Proof.
  intros Hb Hn E. destruct (some_joined _ _ Hb Hn) as (i & j & Hj).
  assert (edge_between participants step (pattern_hint pattern) i j ∈ fp_edges plan) as Hin
    by (apply plan_edge_elem; eauto).
  rewrite E in Hin. by apply not_elem_of_nil in Hin.
Qed.

Lemma unbuildable_empty : buildable pattern = false → fp_edges plan = [].
Proof. intros Hb. unfold plan. rewrite plan_edges. by destruct pattern. Qed.

Section distinct.
Context (Hnodup : NoDup participants) (Hset : id_none ∉ participants) (Hn : (2 ≤ n)%nat).

Lemma participant_inj i j :
  (i < n)%nat → (j < n)%nat → participants !!! i = participants !!! j → i = j.
Proof.
  intros Hi Hj E. apply participant_at in Hi, Hj. rewrite E in Hi. by eapply NoDup_lookup.
Qed.

Lemma distinct_ends_apart : ends_apart.
Proof.
  intros i j (Hi & Hj & Hne)%joins_distinct; [|done].
  split_and!; [intros E; apply Hset; rewrite <- E; auto using participant_in..|].
  intros E. apply Hne. by apply participant_inj.
Qed.

Lemma plan_edges_distinct :
  NoDup ((fun e => (fe_source e, fe_destination e)) <$> fp_edges plan).
Proof.
  unfold plan. rewrite plan_edges, <- list_fmap_compose.
  apply NoDup_fmap_2_strong; [|apply positions_nodup].
  intros [i j] [i' j'] H%positions_joins H'%positions_joins E.
  apply joins_distinct in H, H'; [|done..]. injection E as E1 E2.
  f_equal; apply participant_inj; (done || tauto).
Qed.
End distinct.
End plan.

(** C31: the plan the tool builds, for every pattern and every list of participants, repeated
    ones included: its edges are exactly the pairs of positions the pattern joins (ring
    successors, chain neighbours, all ordered pairs, parents of a binary heap; none for a
    pattern the tool cannot build), each once, at the stated step.  The coordinator's
    validation accepts it for a collective of those participants, in any order, exactly when
    the instance and the step are set, the pattern can be built, there are two positions or
    more, no joined pair has an unset end or the same participant at both ends, the edge bound
    holds and the folded 64-bit keys of the edges are distinct.  With distinct and set
    participants, two or more, the ends are apart and no two edges join the same pair. *)
Theorem build_plan_correct (pattern : FlowPattern) (class : CollectiveClass)
    (instance : CollectiveInstance) (participants allowed : list Identity) (step : Sequence) :
  (∀ p, p ∈ allowed ↔ p ∈ participants) →
  let plan := build_plan pattern class instance participants step in
  (∃ pairs, NoDup pairs ∧
     (∀ i j, (i, j) ∈ pairs ↔ joins pattern (length participants) i j) ∧
     fp_edges plan =
       (fun p => edge_between participants step (pattern_hint pattern) p.1 p.2) <$> pairs) ∧
  (is_ok (validate_flow_group_plan plan allowed) = true ↔
     ci_id instance ≠ id_none ∧ ci_generation instance ≠ id_none ∧
     ci_attempt instance ≠ id_none ∧ step ≠ 0 ∧ buildable pattern = true ∧
     (2 ≤ length participants)%nat ∧ ends_apart pattern participants ∧
     zlen (fp_edges plan) ≤ limits.kEdgesMaxPerFlowGroup ∧ NoDup (edge_key <$> fp_edges plan)) ∧
  (NoDup participants → id_none ∉ participants → (2 ≤ length participants)%nat →
     ends_apart pattern participants ∧
     NoDup ((fun e => (fe_source e, fe_destination e)) <$> fp_edges plan)).
Proof.
  intros Ha plan. split_and!.
  - exists (positions pattern (length participants)).
    split_and!; [apply positions_nodup | apply positions_joins | apply plan_edges].
  - rewrite validate_flow_group_plan_iff. unfold plan_valid.
    assert (fp_instance plan = instance ∧ fp_direction plan = FlowDirection.kUnidirectional)
      as [-> ->] by (unfold plan, build_plan; by destruct pattern).
    destruct (buildable pattern) eqn:Hb;
      [|apply (unbuildable_empty pattern class instance participants step) in Hb; naive_solver].
    destruct (decide (2 ≤ length participants)%nat) as [Hlen|Hlen].
    + assert (allowed ≠ []).
      { intros ->. destruct participants as [|p rest]; cbn in Hlen; [lia|].
        by apply (not_elem_of_nil p), Ha, list_elem_of_here. }
      pose proof (some_joined _ _ Hb Hlen).
      pose proof (plan_joins_some pattern class instance participants step Hb Hlen).
      pose proof (edges_valid_apart pattern class instance participants step allowed).
      pose proof (apart_edges_valid pattern class instance participants step allowed Ha Hlen).
      naive_solver.
    + split; [|naive_solver]. intros (_ & _ & _ & He & _ & _ & _ & [H _]%edges_valid_apart & _).
      by destruct (alone_refused pattern class instance participants step) as [?|?]; [lia|..].
  - intros Hn Hs Hlen. split; [by apply distinct_ends_apart | by apply plan_edges_distinct].
Qed.

Lemma build_plan_correct_witness :
  let participants := [mkIdentity 0 1; mkIdentity 0 2; mkIdentity 0 3] in
  let plan := build_plan FlowPattern.kRing CollectiveClass.kAllReduce
    (mkCollectiveInstance (mkIdentity 0 7) (mkIdentity 0 8) (mkIdentity 0 9) 0) participants 1 in
  is_ok (validate_flow_group_plan plan (reverse participants)) = true.
Proof.
  cbv zeta. apply build_plan_correct; [intros p; by rewrite elem_of_reverse|].
  split_and!; [done..| cbn; lia | | by vm_compute |].
  - apply distinct_ends_apart; [repeat constructor; set_solver | set_solver | cbn; lia].
  - apply (bool_decide_unpack _). by vm_compute.
Defined.
