(* ===== verification/Bringup.v ===== *)
(** Bringing a coordinator up to a decision: what a program does that builds a service in
    process, installs a policy and a fabric, publishes participants, registers a collective and
    plans it ([run_selftest] of [tools/ctfctl.cpp] and the decision types example).

    [Fabric] is what the fabric has to promise; [prepared] is the state the calls lead to. *)
From S2P Require Import Prelude Identity Errors Participant Collective FlowGroup Traffic.
From S2P Require Import Evidence Sync Decision Engine Admission Catalog Authority History Service.
From S2P Require Import Workload.

(** ** Sorting by identity *)
Section sorting.
Context {A : Type} (key : A → Identity).
Abbreviation sort := (std_sort (on_key id_ltb key)).

(** Distinct keys end up strictly ascending. *)
Lemma sort_ascending l :
  NoDup (key <$> l) → StronglySorted (fun a b => (key a <i key b) = true) (sort l).
Proof.
  intros Hn. apply (kle_sorted_nodup_klt id_ltb key); [apply (std_sort_sorted id_ltb key)|].
  by rewrite (std_sort_perm id_ltb key).
Qed.

Lemma sort_two a b :
  key a ≠ key b → ∃ lo hi, (key lo <i key hi) = true ∧ [lo; hi] ≡ₚ [a; b] ∧ sort [a; b] = [lo; hi].
Proof.
  intros Hne. assert (NoDup (key <$> [a; b])) as Hn.
  { apply NoDup_cons. cbn. rewrite list_elem_of_singleton. split; [done | apply NoDup_singleton]. }
  pose proof (sort_ascending [a; b] Hn) as Hs. pose proof (std_sort_perm id_ltb key [a; b]) as Hp.
  destruct (sort [a; b]) as [|lo [|hi [|z l]]];
    try (apply Permutation_length in Hp; done).
  exists lo, hi. split_and!; try done. inversion Hs as [|? ? _ Hf]; subst. by inversion Hf.
Qed.
End sorting.

(** ** The fabric *)

(** What a synthetic fabric observed at [now] promises to the coordinator that installs it. *)
Class Fabric (f : SyntheticFabric) (now : Z) : Prop := {
  fab_topology_canonical : topology_canonicalize (sf_topology f) = sf_topology f;
  fab_topology_valid : is_ok (topology_validate (sf_topology f)) = true;
  fab_topology_captured : te_captured_monotonic_ms (sf_topology f) = now;
  fab_capacity_canonical : capacity_canonicalize (sf_capacity f) = sf_capacity f;
  fab_capacity_valid : is_ok (capacity_validate (sf_capacity f)) = true;
  fab_capacity_bound :
    ce_topology_generation (sf_capacity f) = te_generation (sf_topology f);
  fab_capacity_captured : ce_captured_monotonic_ms (sf_capacity f) = now;
  fab_capacity_available :
    foldl (fun available entry => w64 (available + lc_available_bps entry)) 0
      (ce_links (sf_capacity f)) = 600000000000;
  fab_congestion_canonical : congestion_canonicalize (sf_congestion f) = sf_congestion f;
  fab_congestion_valid : is_ok (congestion_validate (sf_congestion f)) = true;
  fab_congestion_bound :
    ge_topology_generation (sf_congestion f) = te_generation (sf_topology f);
  fab_congestion_captured : ge_captured_monotonic_ms (sf_congestion f) = now;
  fab_congestion_window : ge_valid_for_ms (sf_congestion f) = 2000;
  fab_congestion_worst :
    foldl (fun worst entry => Z.max worst (lg_utilization_bps entry)) 0
      (ge_links (sf_congestion f)) = 2000;
  fab_nodes : Forall (fun n => is_Some (find_node (sf_topology f) n)) (sf_nodes f);
}.

Lemma topology_valid_generation t :
  is_ok (topology_validate t) = true → te_generation t ≠ id_none.
Proof.
  unfold topology_validate. destruct (is_none _) eqn:E; [done|]. intros _. by apply is_none_neq.
Qed.

(** ** Installation *)
Definition start_freshness : FreshnessPolicy :=
  mkFreshnessPolicy (fr_topology_max_age_ms default_freshness)
    (fr_capacity_max_age_ms default_freshness) (cf_congestion_valid_for_ms config_default)
    (fr_peer_liveness_max_age_ms default_freshness)
    (fr_stale_requires_revalidation default_freshness).

(** The state [start] leaves a new service in. *)
Definition started (entropy counter : Z) : CoordinatorService :=
  (service_new config_default entropy counter)
    <| sv_authority := authority_new <| au_epoch := mint_identity entropy counter |>
                                     <| au_freshness := start_freshness |> |>
    <| sv_mint_counter := w64 (counter + 1) |> <| sv_running := true |>.

Lemma start_new entropy counter now :
  start (service_new config_default entropy counter) now =
  Some (started entropy counter, status_ok).
Proof.
  unfold start, begin_boot, boot_fuel, started.
  cbn [sv_running service_new sv_authority sv_entropy sv_mint_counter au_epoch authority_new
       mint_epoch].
  pose proof (mint_identity_some entropy counter) as Hm.
  generalize dependent (mint_identity entropy counter). intros e He.
  assert ((e =i id_none) = false) as -> by (by apply id_eqb_neq). reflexivity.
Qed.

(** An authority with nothing installed. *)
Definition blank (a : AuthorityState) : Prop :=
  au_policy a = None ∧ au_topology a = None ∧ au_capacity a = None ∧ au_congestion a = None ∧
  au_policy_history a = [] ∧ au_topology_history a = [] ∧ au_capacity_history a = [] ∧
  au_congestion_history a = [].

(** The policy and the fabric are what is installed. *)
Record furnished (a : AuthorityState) (f : SyntheticFabric) (pg : Identity) : Prop := {
  fu_policy : au_policy a = Some (standard_policy pg);
  fu_policy_generation : au_policy_generation a = pg;
  fu_topology : au_topology a = Some (sf_topology f);
  fu_topology_generation : au_topology_generation a = te_generation (sf_topology f);
  fu_capacity : au_capacity a = Some (sf_capacity f);
  fu_capacity_generation : au_capacity_generation a = ce_generation (sf_capacity f);
  fu_congestion : au_congestion a = Some (sf_congestion f);
  fu_congestion_generation : au_congestion_generation a = ge_generation (sf_congestion f);
  fu_freshness : au_freshness a = start_freshness;
  fu_wf : authority_wf a;
}.

Section install.
Context (f : SyntheticFabric) (now : Z) `{!Fabric f now} (pg : Identity) (Hpg : pg ≠ id_none).

Lemma install_policy_blank a :
  au_policy a = None → au_policy_history a = [] →
  (Authority.install_policy a (standard_policy pg)).2 = InstallResult.kInstalled.
Proof.
  intros H1 H2. unfold Authority.install_policy.
  assert (is_none pg = false) as En by (by apply is_none_neq).
  assert (is_ok (policy_validate (standard_policy pg)) = true) as ->.
  { unfold policy_validate. cbn [tp_generation standard_policy]. rewrite En. by vm_compute. }
  rewrite H1. cbn [present andb negb tp_generation standard_policy]. by rewrite En, H2.
Qed.

Lemma install_topology_blank a :
  au_topology a = None → au_topology_history a = [] →
  (install_topology a (sf_topology f)).2 = InstallResult.kInstalled ∧
  (install_topology a (sf_topology f)).1 = clear_evidence
    (a <| au_topology_history ::= fun h => gh_remember h (te_generation (sf_topology f)) |>
       <| au_topology_generation := te_generation (sf_topology f) |>
       <| au_topology := Some (sf_topology f) |>).
Proof.
  intros H1 H2. unfold install_topology.
  rewrite fab_topology_canonical, fab_topology_valid, H1, H2. by split.
Qed.

Lemma install_capacity_blank a :
  au_topology a = Some (sf_topology f) →
  au_topology_generation a = te_generation (sf_topology f) →
  au_capacity a = None → au_capacity_history a = [] →
  (install_capacity a (sf_capacity f)).2 = InstallResult.kInstalled ∧
  (install_capacity a (sf_capacity f)).1 =
    (a <| au_capacity_history ::= fun h => gh_remember h (ce_generation (sf_capacity f)) |>
       <| au_capacity_generation := ce_generation (sf_capacity f) |>
       <| au_capacity := Some (sf_capacity f) |>).
Proof.
  intros H1 H2 H3 H4. unfold install_capacity.
  rewrite fab_capacity_canonical, fab_capacity_valid, H1, H2, H3, H4, fab_capacity_bound,
    id_eqb_refl. by split.
Qed.

Lemma install_congestion_blank a :
  au_topology a = Some (sf_topology f) →
  au_topology_generation a = te_generation (sf_topology f) →
  au_congestion a = None → au_congestion_history a = [] →
  (install_congestion a (sf_congestion f)).2 = InstallResult.kInstalled ∧
  (install_congestion a (sf_congestion f)).1 =
    (a <| au_congestion_history ::= fun h => gh_remember h (ge_generation (sf_congestion f)) |>
       <| au_congestion_generation := ge_generation (sf_congestion f) |>
       <| au_congestion := Some (sf_congestion f) |>).
Proof.
  intros H1 H2 H3 H4. unfold install_congestion.
  rewrite fab_congestion_canonical, fab_congestion_valid, H1, H2, H3, H4, fab_congestion_bound,
    id_eqb_refl. by split.
Qed.

(** The four installations in order, on an authority with nothing installed. *)
Definition install_all (a : AuthorityState) : list InstallResult * AuthorityState :=
  let '(a, r1) := Authority.install_policy a (standard_policy pg) in
  let '(a, r2) := install_topology a (sf_topology f) in
  let '(a, r3) := install_capacity a (sf_capacity f) in
  let '(a, r4) := install_congestion a (sf_congestion f) in
  ([r1; r2; r3; r4], a).

Lemma install_all_blank a :
  blank a → authority_wf a → au_freshness a = start_freshness →
  let '(results, a') := install_all a in
  results = replicate 4 InstallResult.kInstalled ∧ furnished a' f pg ∧
  au_epoch a' = au_epoch a ∧ au_peers a' = au_peers a ∧
  au_highest_incarnation a' = au_highest_incarnation a.
Proof.
  intros (B1 & B2 & B3 & B4 & B5 & B6 & B7 & B8) Hw Hf. unfold install_all.
  pose proof (install_policy_wf a (standard_policy pg) Hw) as W1.
  pose proof (install_policy_blank a B1 B5) as R1.
  destruct (install_policy_installed _ _ R1) as (_ & _ & _ & E1).
  destruct (Authority.install_policy a _) as [a1 r1]. cbn [fst snd] in *.
  pose proof (install_topology_wf a1 (sf_topology f) W1) as W2.
  destruct (install_topology_blank a1) as [R2 E2]; [by rewrite E1..|].
  destruct (install_topology a1 _) as [a2 r2]. cbn [fst snd] in *.
  pose proof (install_capacity_wf a2 (sf_capacity f) W2) as W3.
  destruct (install_capacity_blank a2) as [R3 E3]; [by rewrite E2, ?E1..|].
  destruct (install_capacity a2 _) as [a3 r3]. cbn [fst snd] in *.
  pose proof (install_congestion_wf a3 (sf_congestion f) W3) as W4.
  destruct (install_congestion_blank a3) as [R4 E4]; [by rewrite E3, E2, ?E1..|].
  destruct (install_congestion a3 _) as [a4 r4]. cbn [fst snd] in *.
  split_and!; [by subst | split; try exact W4; by rewrite E4, E3, E2, E1 | ..];
    by rewrite E4, E3, E2, E1.
Qed.
End install.

(** ** Sessions and participants *)

Lemma mint_spec s :
  (mint s).2 ≠ id_none ∧ sv_catalog (mint s).1 = sv_catalog s ∧
  sv_admission (mint s).1 = sv_admission s ∧ sv_authority (mint s).1 = sv_authority s.
Proof. split; [apply mint_identity_some | done]. Qed.

Lemma stop_running s now :
  sv_running s = true → (stop s now (fun _ => status_ok)).2 = status_ok.
Proof. intros Hr. unfold stop, stop_begin. rewrite Hr. cbn [negb]. by destruct (_ && _). Qed.

(** The first session of a running service. *)
Definition first_binding (s : CoordinatorService) (label : string) (now : Z) : SessionBinding :=
  mkSessionBinding (mint_identity (sv_entropy s) (sv_mint_counter s))
    (mint_identity (sv_entropy s) (w64 (sv_mint_counter s + 1))) (au_epoch (sv_authority s))
    (if limits.kLabelBytesMax <? slen label
     then String.substring 0 (Z.to_nat limits.kLabelBytesMax) label else label) now now 0 0 0 0.

Lemma open_first s label now :
  sv_running s = true → sv_sessions s = ∅ →
  let binding := first_binding s label now in
  let '(s', opened) := open_session s label now in
  opened = Ok binding ∧ sv_sessions s' = {[sb_id binding := binding]} ∧
  sv_running s' = true ∧ sv_config s' = sv_config s ∧ sv_authority s' = sv_authority s ∧
  sv_catalog s' = sv_catalog s ∧ sv_admission s' = sv_admission s ∧
  sv_entropy s' = sv_entropy s ∧ sv_mint_counter s' = w64 (w64 (sv_mint_counter s + 1) + 1).
Proof.
  intros Hr Hs. unfold open_session. rewrite Hr, Hs. cbn [negb].
  rewrite mapsize_empty. change (limits.kSessionsMax <=? 0) with false. cbv iota.
  unfold mint. cbn [sv_sessions set_field].
  change (sv_sessions (set_field _ _ _)) with (sv_sessions s). rewrite Hs, lookup_empty.
  cbn [present]. split_and!; try done. cbn [sv_sessions count_n set_field]. by rewrite Hs.
Qed.

(** A participant that is published, live past [now], on a node of the fabric. *)
Definition live_on (a : AuthorityState) (f : SyntheticFabric) (now : Z) (p : Identity) : Prop :=
  ∃ l, au_peers a !! p = Some l ∧ pr_state l = ParticipantState.kLive ∧
       now < pr_expires_at_monotonic_ms l ∧ pr_node l ∈ sf_nodes f.

(** Everything a plan needs of the coordinator, the collective apart. *)
Record prepared (s : CoordinatorService) (context : ServiceRequestContext) (f : SyntheticFabric)
    (pg : Identity) (participants : list Identity) : Prop := {
  pp_running : sv_running s = true;
  pp_config : sv_config s = config_default;
  pp_session : ∃ b, sv_sessions s !! cx_session context = Some b ∧
                    sb_incarnation b = cx_incarnation context;
  pp_epoch : cx_epoch context = au_epoch (sv_authority s);
  pp_furnished : furnished (sv_authority s) f pg;
  pp_live : Forall (live_on (sv_authority s) f (cx_now_monotonic_ms context)) participants;
  pp_highest : dom (au_highest_incarnation (sv_authority s)) = list_to_set participants;
  pp_peers : dom (au_peers (sv_authority s)) = list_to_set participants;
  pp_nodup : NoDup participants;
}.

(** A service that is started and furnished, and has no session and no participant. *)
Record outfitted (s : CoordinatorService) (f : SyntheticFabric) (pg : Identity) : Prop := {
  of_running : sv_running s = true;
  of_config : sv_config s = config_default;
  of_sessions : sv_sessions s = ∅;
  of_furnished : furnished (sv_authority s) f pg;
  of_peers : au_peers (sv_authority s) = ∅;
  of_highest : au_highest_incarnation (sv_authority s) = ∅;
  of_catalog : sv_catalog s = catalog_new limits.kCollectivesMaxLive;
  of_admission : sv_admission s = admission_new limits.kTokenBucketsMax;
}.

Definition context_of (binding : SessionBinding) (now correlation : Z) : ServiceRequestContext :=
  mkServiceRequestContext (sb_id binding) (sb_incarnation binding) (sb_epoch binding) now correlation.

(** The four installations furnish a started service. *)
Lemma started_outfits entropy counter (n : Z) f now pg :
  Fabric f now → pg ≠ id_none →
  let s := (started entropy counter) <| sv_mint_counter := n |> in
  let '(results, a) := install_all f pg (sv_authority s) in
  results = replicate 4 InstallResult.kInstalled ∧ outfitted (s <| sv_authority := a |>) f pg.
Proof.
  intros Hf Hpg. cbv zeta.
  pose proof (install_all_blank f now pg Hpg (sv_authority (started entropy counter))) as Hall.
  change (sv_authority (set_field _ _ _)) with (sv_authority (started entropy counter)).
  destruct (install_all _ _ _) as [results a]. destruct Hall as (Hr & Hfu & _ & Hp & Hh).
  - by split_and!.
  - split; try done; [by intros p [? ?] | by repeat constructor].
  - done.
  - split; [done|]. by split.
Qed.

Lemma outfitted_opens s f pg label now correlation :
  outfitted s f pg →
  let '(s', opened) := open_session s label now in
  opened = Ok (first_binding s label now) ∧
  prepared s' (context_of (first_binding s label now) now correlation) f pg [] ∧
  sv_catalog s' = sv_catalog s ∧ sv_admission s' = sv_admission s ∧
  sv_entropy s' = sv_entropy s ∧ sv_mint_counter s' = w64 (w64 (sv_mint_counter s + 1) + 1).
Proof.
  intros [Hr Hc Hse Hfu Hp Hh _ _]. pose proof (open_first s label now Hr Hse) as Ho.
  destruct (open_session s label now) as [s' opened].
  destruct Ho as (Eo & E1 & E2 & E3 & E4 & E5 & E6 & E7 & E8). split; [done|].
  split; [|by split_and!]. split; rewrite ?E2, ?E3, ?E4; try done.
  - exists (first_binding s label now). by rewrite E1, lookup_singleton_eq.
  - by rewrite Hh, dom_empty_L.
  - by rewrite Hp, dom_empty_L.
  - constructor.
Qed.

(** What the participants' calls leave alone. *)
Definition untouched (s s' : CoordinatorService) : Prop :=
  sv_catalog s' = sv_catalog s ∧ sv_admission s' = sv_admission s ∧
  sv_entropy s' = sv_entropy s ∧ sv_mint_counter s' = sv_mint_counter s.

(** A participant that was never published is accepted. *)
Lemma publish_liveness_new a l :
  pr_participant l ≠ id_none → pr_incarnation l ≠ id_none →
  pr_state l = ParticipantState.kLive → au_highest_incarnation a !! pr_participant l = None →
  mapsize (au_peers a) < limits.kPeersMax →
  publish_liveness a l =
    (a <| au_highest_incarnation ::= <[pr_participant l := pr_incarnation l]> |>
       <| au_peers ::= <[pr_participant l := l]> |>, PublishResult.kAccepted).
Proof.
  intros H1 H2 H3 H4 H5. unfold publish_liveness.
  rewrite (proj2 (is_none_neq _) H1), (proj2 (is_none_neq _) H2), H3, H4. cbn [orb].
  rewrite bool_decide_eq_false_2 by done. rewrite (proj2 (Z.leb_gt _ _)) by done. reflexivity.
Qed.

Section publish.
Context (f : SyntheticFabric) (pg : Identity) (context : ServiceRequestContext).
Abbreviation now := (cx_now_monotonic_ms context).
Context (Hnow : 0 ≤ now) (Hfits : now + cf_participant_ttl_ms config_default < two64).

Lemma publish_new s ps p i node :
  prepared s context f pg ps → p ∉ ps → p ≠ id_none → i ≠ id_none → node ∈ sf_nodes f →
  zlen ps < limits.kPeersMax →
  let '(s', status) := publish_participant s context p i node ParticipantState.kLive in
  status = status_ok ∧ prepared s' context f pg (ps ++ [p]) ∧ untouched s s'.
Proof.
  intros [Hr Hc (b & Hb & Hi) He Hfu Hl Hh Hp Hn] Hnew Hp0 Hi0 Hnode Hlen.
  unfold publish_participant.
  rewrite (proj2 (is_none_neq _) Hp0), (proj2 (is_none_neq _) Hi0). cbn [orb negb].
  change (participant_state_holds_authority ParticipantState.kLive) with true. cbn [negb].
  rewrite Hc. set (l := mkPeerLiveness p i _ _ _ _ _).
  assert (authority_wf (publish_liveness (sv_authority s) l).1) as Hw
    by apply publish_liveness_wf, Hfu.
  assert (au_highest_incarnation (sv_authority s) !! p = None) as Hnone
    by (apply not_elem_of_dom; by rewrite Hh, elem_of_list_to_set).
  assert (mapsize (au_peers (sv_authority s)) < limits.kPeersMax) as Hsize
    by (unfold mapsize; by rewrite <- size_dom, Hp, size_list_to_set).
  rewrite publish_liveness_new in Hw |- * by done.
  cbn [fst snd] in *. split_and!; [done| |done].
  split; cbn; try done.
  - eexists. rewrite lookup_alter_eq, Hb. by split.
  - destruct Hfu. by split.
  - apply Forall_app. split.
    + eapply Forall_impl; [exact Hl|]. intros q (k & Hk & Hrest). exists k. split; [|done].
      cbn. rewrite lookup_insert_ne; [done|]. intros <-. apply Hnew.
      rewrite <- (elem_of_list_to_set (C := gset Identity)), <- Hp. apply elem_of_dom. by exists k.
    + apply Forall_singleton. exists l. cbn. rewrite lookup_insert_eq.
      split_and!; try done. unfold w64. rewrite Z.mod_small; [cbn; lia|]. cbn in *. lia.
  - rewrite dom_insert_L, Hh, list_to_set_app_L. set_solver.
  - rewrite dom_insert_L, Hp, list_to_set_app_L. set_solver.
  - apply NoDup_app. split_and!; [done| |apply NoDup_singleton]. set_solver.
Qed.
End publish.

(** ** Evaluation in a prepared coordinator *)

(** A class the runtime does not know is refused by policy once everything before the semantics
    is in order. *)
Lemma evaluate_unknown snapshot request definition counters group t policy :
  ci_generation (dr_instance request) = cd_generation definition →
  dr_has_flow_group_plan request = true →
  construct_flow_group ((dr_plan request) <| fp_collective_class := cd_collective_class definition |>)
    (cd_participants definition) = Ok group →
  chain_ok snapshot request (cd_participants definition) →
  es_topology snapshot = Some t → topology_fresh snapshot t →
  nodes_known snapshot t (cd_participants definition) → es_policy snapshot = Some policy →
  is_known_collective_class (cd_collective_class definition) = false →
  de_outcome (evaluate snapshot request definition counters).1 = Outcome.kRejectedPolicy.
Proof.
  intros H1 H2 H3 H4 H5 H6 H7 H8 H9. unfold evaluate.
  rewrite H1, id_eqb_refl, H2, H3. cbn [negb]. unfold evaluate_authority.
  match goal with |- context [apply_authority_chain _ _ ?r] => set (record := r) end.
  pose proof (chain_passes snapshot request record) as Hpass.
  change (de_participants record) with (cd_participants definition) in Hpass.
  pose proof (chain_proceeds snapshot request record) as Hyes.
  destruct (apply_authority_chain snapshot request record) as [ok r]. cbn [fst snd] in *.
  rewrite (proj2 Hpass H4) in *. rewrite (Hyes eq_refl). cbn [negb]. rewrite H5, H8.
  rewrite (proj2 (topology_is_current_None snapshot t) H6).
  set (r' := add_reason _ _ _ _).
  match goal with |- context [count_missing _ _ _ ?c] =>
    pose proof (count_missing_zero snapshot t (de_participants r') c) as Hm;
    destruct (count_missing snapshot t (de_participants r') c) as [[m first] c']
  end.
  cbn [fst] in Hm. change (de_participants r') with (cd_participants definition) in Hm.
  rewrite (proj2 Hm H7). cbn [negb fst]. unfold evaluate_semantics. rewrite H9.
  by destruct (find_collective _ _).
Qed.

(** The treatment the production policy gives an all-reduce, and the rate it computes from the
    evidence of the fabric. *)
Lemma all_reduce_treatment : ∃ cp tc,
  (∀ pg, find_collective (standard_policy pg) CollectiveClass.kAllReduce = Some cp ∧
         find_class (standard_policy pg) TrafficClass.kBulkData = Some tc) ∧
  ccp_traffic_class cp = TrafficClass.kBulkData ∧
  tcp_traffic_class tc = TrafficClass.kBulkData ∧ select_mode tc = PacingMode.kTokenBucket ∧
  1 ≤ ccp_freshness_requirement_ms cp ∧
  ∀ pg snapshot, observed_capacity snapshot = (600000000000, true) →
    observed_congestion snapshot (ccp_freshness_requirement_ms cp) = (2000, true) →
    pc_code (compute_pacing snapshot (standard_policy pg) tc cp) = ErrorCode.kOk ∧
    pc_admitted_bps (compute_pacing snapshot (standard_policy pg) tc cp) = 600000000000.
Proof.
  eexists _, _. split; [by split; vm_compute|]. do 4 (split; [by vm_compute|]).
  intros pg snapshot Hc Hg. cbv beta delta [compute_pacing]. rewrite Hc.
  cbn [ccp_freshness_requirement_ms Z.eqb] in *. cbv zeta. rewrite Hg. by split; vm_compute.
Qed.

(** The request names the generations in force. *)
Definition observes (request : DecisionRequest) (a : AuthorityState) : Prop :=
  dr_observed_epoch request = au_epoch a ∧
  dr_observed_policy_generation request = au_policy_generation a ∧
  dr_observed_topology_generation request = au_topology_generation a ∧
  dr_observed_capacity_generation request = au_capacity_generation a ∧
  dr_observed_congestion_generation request = au_congestion_generation a.

Section plan.
Context (f : SyntheticFabric) (pg : Identity) (context : ServiceRequestContext).
Abbreviation now := (cx_now_monotonic_ms context).
Context `{!Fabric f now} (Hpg : pg ≠ id_none).
Context (s : CoordinatorService) (participants : list Identity).
Context (Hs : prepared s context f pg participants).
Let snapshot := authority_snapshot (sv_authority s) now.

Lemma age_now : evidence_age now now = 0.
Proof. unfold evidence_age. case_match; bool_prop; lia. Qed.

Lemma prepared_capacity : observed_capacity snapshot = (600000000000, true).
Proof.
  destruct (pp_furnished _ _ _ _ _ Hs) as [_ _ Ht Htg Hc Hcg _ _ Hf Hw].
  pose proof (wf_capacity _ Hw) as Hwc. rewrite Hc in Hwc. destruct Hwc as (_ & Hn & _ & _).
  unfold observed_capacity, snapshot, authority_snapshot.
  cbn [es_capacity es_capacity_generation es_topology_generation es_now_monotonic_ms es_freshness].
  rewrite Hc, Htg, Hf, fab_capacity_bound, fab_capacity_captured, age_now, id_eqb_refl,
    (proj2 (is_some_neq _) Hn). change (_ <=? _) with true. cbn [andb].
  pose proof fab_capacity_available as Hsum. destruct (ce_links _) as [|x l] eqn:E; [done|].
  by rewrite Hsum.
Qed.

Lemma prepared_congestion bound :
  1 ≤ bound → observed_congestion snapshot bound = (2000, true).
Proof.
  intros Hb. destruct (pp_furnished _ _ _ _ _ Hs) as [_ _ Ht Htg _ _ Hc Hcg Hf Hw].
  pose proof (wf_congestion _ Hw) as Hwc. rewrite Hc in Hwc. destruct Hwc as (_ & Hn & _ & _).
  unfold observed_congestion, snapshot, authority_snapshot.
  cbn [es_congestion es_congestion_generation es_topology_generation es_now_monotonic_ms].
  rewrite Hc, Htg, fab_congestion_bound, fab_congestion_captured, fab_congestion_window, age_now,
    id_eqb_refl, (proj2 (is_some_neq _) Hn). cbn [andb].
  rewrite (proj2 (Z.leb_le _ _)) by lia.
  pose proof fab_congestion_worst as Hsum. destruct (ge_links _) as [|x l] eqn:E; [done|].
  by rewrite Hsum.
Qed.

Lemma prepared_peer p :
  p ∈ participants → ∃ l, find_peer snapshot p = Some l ∧ pr_state l = ParticipantState.kLive ∧
    now < pr_expires_at_monotonic_ms l ∧ pr_node l ∈ sf_nodes f.
Proof.
  intros Hp. pose proof (pp_live _ _ _ _ _ Hs) as Hl. rewrite Forall_forall in Hl.
  destruct (Hl p Hp) as (l & Hl1 & Hl2). exists l. split; [|done].
  unfold snapshot. rewrite find_peer_lookup; [done | apply (pp_furnished _ _ _ _ _ Hs)].
Qed.

Lemma prepared_chain request ps :
  observes request (sv_authority s) → ps ⊆ participants → chain_ok snapshot request ps.
Proof.
  intros (O1 & O2 & O3 & O4 & O5) Hps.
  destruct (pp_furnished _ _ _ _ _ Hs) as [P1 P2 T1 T2 C1 C2 G1 G2 Hf Hw].
  pose proof (topology_valid_generation _ fab_topology_valid) as Ht.
  unfold chain_ok. unfold snapshot at 1 2 3 4 5 6 7 8 9 10 11 12. cbn.
  split_and!; try (by right); try (intros; by right); try (by eexists); try congruence.
  apply Forall_forall. intros p Hp. destruct (prepared_peer p) as (l & ? & ? & ? & _); [set_solver|].
  by exists l.
Qed.

Lemma prepared_nodes ps : ps ⊆ participants → nodes_known snapshot (sf_topology f) ps.
Proof.
  intros Hps. apply Forall_forall. intros p Hp l Hl.
  destruct (prepared_peer p) as (l' & Hl' & _ & _ & Hn); [set_solver|].
  rewrite Hl in Hl'. injection Hl' as <-. pose proof fab_nodes as Hall.
  rewrite Forall_forall in Hall. by apply Hall.
Qed.

Lemma prepared_topology_fresh : topology_fresh snapshot (sf_topology f).
Proof.
  destruct (pp_furnished _ _ _ _ _ Hs) as [_ _ Ht Htg _ _ _ _ Hf _].
  unfold topology_fresh, snapshot. cbn [es_now_monotonic_ms authority_snapshot es_freshness].
  rewrite Hf, fab_topology_captured, age_now. split; [done|]. by vm_compute.
Qed.
End plan.

(** ** Calls on collectives *)

(** What the calls on collectives leave alone. *)
Definition fronted (s s' : CoordinatorService) : Prop :=
  sv_running s' = sv_running s ∧ sv_config s' = sv_config s ∧ sv_sessions s' = sv_sessions s ∧
  sv_authority s' = sv_authority s ∧ sv_entropy s' = sv_entropy s ∧
  sv_mint_counter s' = sv_mint_counter s.

Lemma prepared_fronted s s' context f pg ps :
  fronted s s' → prepared s context f pg ps → prepared s' context f pg ps.
Proof.
  intros (E1 & E2 & E3 & E4 & _) [? ? ? ? ? ? ? ? ?]. split; rewrite ?E1, ?E2, ?E3, ?E4; assumption.
Qed.

Lemma prepared_mint s context f pg ps :
  prepared s context f pg ps → prepared (mint s).1 context f pg ps.
Proof. intros [? ? ? ? ? ? ? ? ?]. by split. Qed.

Lemma settle_fronted s now request e : fronted s (settle s now request e).1.
Proof.
  unfold settle. destruct (outcome_grants_authority _).
  - destruct (set_state _ _ _ _) as [c st]. destruct (is_ok st); cbn [negb]; [|done].
    destruct (Admission.admit_decision _ _ _) as [ctl a]. unfold apply_admission.
    by destruct (ar_outcome a).
  - destruct (outcome_is_rejection _); [by repeat case_bool_decide|].
    by destruct (outcome_requires_replan _).
Qed.

Lemma plan_fronted s context request : fronted s (plan_flow_group s context request).1.1.
Proof.
  unfold plan_flow_group. destruct (negb _); [done|].
  destruct (plan_gate s context); [done|]. destruct (negb _); [done|].
  destruct (catalog_find _ _) as [r|]; [|done]. destruct (negb _); [done|].
  destruct (_ || _); [done|]. destruct (collective_state_is_terminal _); [done|].
  generalize (evaluated_decision s (cx_now_monotonic_ms context) request r). intros e.
  pose proof (settle_fronted s (cx_now_monotonic_ms context) request e) as Hs.
  destruct (settle _ _ _ e) as [s1 d]. cbn [fst] in Hs.
  destruct (history_record _ d) as [h o]. exact Hs.
Qed.

Lemma register_fronted s context d : fronted s (register_collective s context d).1.1.
Proof.
  unfold register_collective. destruct (negb _); [done|]. destruct (negb _); [done|].
  destruct (register_definition _ _ _) as [c o]. by destruct (ro_result o).
Qed.

Lemma begin_attempt_fronted s context id g a bytes :
  fronted s (begin_attempt s context id g a bytes).1.1.
Proof.
  unfold begin_attempt. destruct (negb _); [done|]. destruct (catalog_find _ _) as [r|]; [|done].
  destruct (negb _); [done|]. destruct (collective_state_is_terminal _); [done|].
  destruct (Catalog.begin_attempt _ _ _ _) as [c [p|st]]; done.
Qed.

Lemma canonicalize_perm ps : NoDup ps → canonicalize_participants ps ≡ₚ ps.
Proof.
  intros Hn. apply NoDup_Permutation; [|done|apply canonicalize_elem].
  rewrite <- (list_fmap_id (canonicalize_participants ps)).
  apply (klt_sorted_nodup id_ltb id), canonicalize_ascending.
Qed.

(** A definition over distinct, set participants is valid. *)
Lemma definition_valid d ps :
  cd_id d ≠ id_none → slen (cd_label d) ≤ limits.kLabelBytesMax →
  is_known_collective_class (cd_collective_class d) = true ∨
    cd_collective_class d = CollectiveClass.kUnknownVendor →
  cd_participants d = canonicalize_participants ps → ps ≠ [] → NoDup ps → id_none ∉ ps →
  zlen ps ≤ limits.kParticipantsMaxPerCollective → cd_phases d = [] → cd_steps d = [] →
  is_ok (validate_definition d) = true.
Proof.
  intros H1 H2 H3 H4 H5 H6 H7 H8 H9 H10. unfold validate_definition.
  rewrite (proj2 (is_none_neq _) H1), H4, H9, H10.
  assert (negb (is_known_collective_class (cd_collective_class d)) &&
    negb (bool_decide (cd_collective_class d = CollectiveClass.kUnknown)) &&
    negb (bool_decide (cd_collective_class d = CollectiveClass.kUnknownVendor)) = false) as ->.
  { destruct H3 as [-> | ->]; [done|]. by rewrite andb_false_r. }
  rewrite (proj2 (Z.ltb_ge _ _)) by done.
  pose proof (canonicalize_perm ps H6) as Hperm.
  assert (zlen (canonicalize_participants ps) = zlen ps) as -> by (unfold zlen; by rewrite Hperm).
  rewrite (proj2 (Z.eqb_neq _ _)), (proj2 (Z.ltb_ge _ _)) by (done || by destruct ps).
  rewrite (proj2 (participants_are_canonical_spec _)) by apply canonicalize_ascending. cbn [negb].
  assert (∀ prev l, id_none ∉ l → check_each check_participant prev l = None) as Hce.
  { intros prev l. revert prev. induction l as [|x l IH]; intros prev Hl; cbn; [done|].
    unfold check_participant at 1. rewrite (proj2 (is_none_neq x)) by set_solver.
    apply IH. set_solver. }
  rewrite Hce by (by rewrite Hperm). reflexivity.
Qed.

(** The first registration of an identity. *)
Lemma register_new s context f pg ps d :
  prepared s context f pg ps → is_ok (validate_definition d) = true → cd_generation d = id_none →
  cc_records (sv_catalog s) !! cd_id d = None →
  mapsize (cc_records (sv_catalog s)) < cc_capacity (sv_catalog s) →
  let '(s', status, registered) := register_collective s context d in
  let seq := seq_incr (cc_mutation_sequence (sv_catalog s)) in
  let generation := mint_generation (Z.lxor seq 0xC0FFEE) in
  status = status_ok ∧
  (∃ outcome, registered = Some outcome ∧ ro_generation outcome = generation ∧
     ro_result outcome = RegistrationResult.kRegistered) ∧
  sv_admission s' = sv_admission s ∧ fronted s s' ∧
  cc_mutation_sequence (sv_catalog s') = seq ∧
  cc_capacity (sv_catalog s') = cc_capacity (sv_catalog s) ∧
  ∃ record, cc_records (sv_catalog s') = <[cd_id d := record]> (cc_records (sv_catalog s)) ∧
    cr_definition record = d <| cd_registration_sequence := seq |> <| cd_generation := generation |> ∧
    cr_state record = CollectiveState.kRegistered ∧ cr_current_attempt record = id_none.
Proof.
  intros Hs Hv Hg Hn Hroom. pose proof (register_fronted s context d) as Hf. revert Hf.
  destruct (pp_session _ _ _ _ _ Hs) as (b & Hb & _).
  unfold register_collective. rewrite (pp_running _ _ _ _ _ Hs), Hb. cbn [negb present].
  unfold register_definition. rewrite Hv, Hn, Hg. cbn [negb].
  rewrite (proj2 (Z.leb_gt _ _)) by done. change (is_none id_none) with true. cbv iota zeta.
  cbn [ro_result fst]. intros Hf. split_and!; try done; [by eexists|]. by eexists.
Qed.

(** A changed definition of a collective that is not terminal. *)
Lemma register_changed s context f pg ps d record :
  prepared s context f pg ps → is_ok (validate_definition d) = true →
  catalog_find (sv_catalog s) (cd_id d) = Some record →
  collective_state_is_terminal (cr_state record) = false →
  cd_logical_bytes (cr_definition record) ≠ cd_logical_bytes d →
  let '(s', status, registered) := register_collective s context d in
  let seq := seq_incr (cc_mutation_sequence (sv_catalog s)) in
  let generation := mint_generation (Z.lxor (w64 (cc_mutation_sequence (sv_catalog s) + 1)) 0xBEEF) in
  status = status_ok ∧
  (∃ outcome, registered = Some outcome ∧ ro_generation outcome = generation ∧
     ro_advanced outcome = true) ∧
  sv_admission s' = sv_admission s ∧ fronted s s' ∧
  cc_mutation_sequence (sv_catalog s') = seq ∧
  cc_capacity (sv_catalog s') = cc_capacity (sv_catalog s) ∧
  ∃ record', cc_records (sv_catalog s') = <[cd_id d := record']> (cc_records (sv_catalog s)) ∧
    cr_definition record' = d <| cd_generation := generation |> <| cd_registration_sequence := seq |>.
Proof.
  intros Hs Hv Hr Ht Hb. pose proof (register_fronted s context d) as Hf. revert Hf.
  destruct (pp_session _ _ _ _ _ Hs) as (b & Hb' & _).
  unfold register_collective. rewrite (pp_running _ _ _ _ _ Hs), Hb'. cbn [negb present].
  unfold register_definition. unfold catalog_find in Hr. rewrite Hv, Hr, Ht. cbn [negb].
  assert (definitions_equivalent (cr_definition record) d = false) as ->.
  { unfold definitions_equivalent. rewrite (proj2 (Z.eqb_neq _ _)) by done. apply andb_false_r. }
  cbv zeta. cbn [ro_result fst]. intros Hf. split_and!; try done; [by eexists|]. by eexists.
Qed.

(** The first attempt of a registered generation. *)
Lemma begin_new s context f pg ps id generation attempt bytes record :
  prepared s context f pg ps → catalog_find (sv_catalog s) id = Some record →
  cd_generation (cr_definition record) = generation →
  cr_state record = CollectiveState.kRegistered → cr_current_attempt record = id_none →
  attempt ≠ id_none →
  let '(s', status, _) := begin_attempt s context id generation attempt bytes in
  status = status_ok ∧ sv_admission s' = sv_admission s ∧ fronted s s' ∧
  cc_mutation_sequence (sv_catalog s') = seq_incr (cc_mutation_sequence (sv_catalog s)) ∧
  cc_capacity (sv_catalog s') = cc_capacity (sv_catalog s) ∧
  ∃ record', cc_records (sv_catalog s') = <[id := record']> (cc_records (sv_catalog s)) ∧
    cr_definition record' = cr_definition record ∧
    cr_state record' = CollectiveState.kPlanning ∧ cr_current_attempt record' = attempt.
Proof.
  intros Hs Hr Hg Hst Hcur Ha.
  pose proof (begin_attempt_fronted s context id generation attempt bytes) as Hf. revert Hf.
  unfold begin_attempt. rewrite (pp_running _ _ _ _ _ Hs), Hr, Hg, id_eqb_refl, Hst.
  cbn [negb]. change (collective_state_is_terminal CollectiveState.kRegistered) with false.
  cbv iota. unfold Catalog.begin_attempt. unfold catalog_find in Hr.
  rewrite (proj2 (is_none_neq _) Ha), Hr. unfold accepts_new_authority. rewrite Hst, Hcur.
  change (negb (collective_state_accepts_new_authority CollectiveState.kRegistered)) with false.
  assert ((id_none =i attempt) = false) as -> by (apply id_eqb_neq; congruence). cbv iota zeta.
  intros Hf. split_and!; try done. eexists.
  split; [cbn; by rewrite alter_insert_eq | by split_and!].
Qed.

(** A collective that was just registered and has its first attempt. *)
Record begun (s s' : CoordinatorService) (d : CollectiveDefinition) (attempt : Identity)
    (record : CollectiveRecord) : Prop := {
  bg_authority : sv_authority s' = sv_authority s;
  bg_admission : sv_admission s' = sv_admission s;
  bg_minter : sv_entropy s' = sv_entropy s ∧ sv_mint_counter s' = w64 (sv_mint_counter s + 1);
  bg_records : cc_records (sv_catalog s') = <[cd_id d := record]> (cc_records (sv_catalog s));
  bg_sequence : cc_mutation_sequence (sv_catalog s') =
    seq_incr (seq_incr (cc_mutation_sequence (sv_catalog s)));
  bg_capacity : cc_capacity (sv_catalog s') = cc_capacity (sv_catalog s);
  bg_definition : cr_definition record =
    d <| cd_registration_sequence := seq_incr (cc_mutation_sequence (sv_catalog s)) |>
      <| cd_generation :=
           mint_generation (Z.lxor (seq_incr (cc_mutation_sequence (sv_catalog s))) 0xC0FFEE) |>;
  bg_state : cr_state record = CollectiveState.kPlanning;
  bg_attempt : cr_current_attempt record = attempt;
}.

(** Registration, a mint, and the first attempt under the generation that was answered. *)
Lemma register_begin s context f pg ps d bytes :
  prepared s context f pg ps → is_ok (validate_definition d) = true → cd_generation d = id_none →
  cc_records (sv_catalog s) !! cd_id d = None →
  mapsize (cc_records (sv_catalog s)) < cc_capacity (sv_catalog s) →
  let '(s2, status, registered) := register_collective s context d in
  status = status_ok ∧ ∃ outcome, registered = Some outcome ∧
    ro_result outcome = RegistrationResult.kRegistered ∧ ro_generation outcome ≠ id_none ∧
    ro_generation outcome =
      mint_generation (Z.lxor (seq_incr (cc_mutation_sequence (sv_catalog s))) 0xC0FFEE) ∧
    let '(s3, attempt) := mint s2 in
    attempt = mint_identity (sv_entropy s) (sv_mint_counter s) ∧
    let '(s', status, _) :=
      begin_attempt s3 context (cd_id d) (ro_generation outcome) attempt bytes in
    status = status_ok ∧ prepared s' context f pg ps ∧ ∃ record, begun s s' d attempt record.
Proof.
  intros Hs Hv Hg Hn Hroom. pose proof (register_new s context f pg ps d Hs Hv Hg Hn Hroom) as Hreg.
  destruct (register_collective s context d) as [[s2 status] registered].
  destruct Hreg as (-> & (outcome & -> & Hgen & Hres) & Ea2 & Hf2 & Hq2 & Hc2 & r & Hr & R1 & R2 & R3).
  split; [done|]. exists outcome. split_and!; try done; [rewrite Hgen; apply mint_generation_some|].
  pose proof (prepared_mint _ _ _ _ _ (prepared_fronted _ _ _ _ _ _ Hf2 Hs)) as Hs3.
  destruct (mint_spec s2) as (Hatt & Ec3 & Ea3 & Eu3).
  assert ((mint s2).2 = mint_identity (sv_entropy s) (sv_mint_counter s) ∧
    sv_entropy (mint s2).1 = sv_entropy s ∧
    sv_mint_counter (mint s2).1 = w64 (sv_mint_counter s + 1)) as (Em & En & Ek)
    by (destruct Hf2 as (_ & _ & _ & _ & E1 & E2); cbn; by rewrite E1, E2).
  destruct (mint s2) as [s3 attempt]. cbn [fst snd] in *. split; [exact Em|].
  pose proof (begin_new s3 context f pg ps (cd_id d) (ro_generation outcome) attempt bytes r Hs3
    ltac:(unfold catalog_find; rewrite Ec3, Hr; apply lookup_insert_eq)
    ltac:(by rewrite R1, Hgen) R2 R3 Hatt) as Hbeg.
  destruct (begin_attempt s3 context _ _ _ _) as [[s' status] answer].
  destruct Hbeg as (-> & Ea4 & Hf4 & Hq4 & Hc4 & record & Hr4 & B1 & B2 & B3).
  split; [done|]. split; [exact (prepared_fronted _ _ _ _ _ _ Hf4 Hs3)|]. exists record.
  destruct Hf2 as (_ & _ & _ & Eu2 & _). destruct Hf4 as (_ & _ & _ & Eu4 & En4 & Ek4).
  split; try congruence; [split; congruence|].
  by rewrite Hr4, Ec3, Hr, insert_insert_eq.
Qed.

Lemma begun_find s s' d attempt record :
  begun s s' d attempt record → catalog_find (sv_catalog s') (cd_id d) = Some record.
Proof. intros Hb. unfold catalog_find. rewrite (bg_records _ _ _ _ _ Hb). apply lookup_insert_eq. Qed.

Lemma set_state_live c id state now record :
  catalog_find c id = Some record → collective_state_is_terminal (cr_state record) = false →
  let c' := (set_state c id state now).1 in
  cc_mutation_sequence c' = seq_incr (cc_mutation_sequence c) ∧ cc_capacity c' = cc_capacity c ∧
  ∃ record', cc_records c' = <[id := record']> (cc_records c) ∧
    cr_definition record' = cr_definition record ∧ cr_state record' = state.
Proof.
  intros Hr Ht. unfold set_state. unfold catalog_find in Hr. rewrite Hr, Ht. cbn [andb fst].
  split_and!; [done|done|]. by eexists.
Qed.

(** *** Decisions *)
Lemma constructs_iff plan allowed :
  (∃ group, construct_flow_group plan allowed = Ok group) ↔ plan_valid plan allowed.
Proof.
  split; [intros [g Hg]; by eapply construct_flow_group_Ok|].
  rewrite <- validate_flow_group_plan_iff. unfold construct_flow_group. intros ->. by eexists.
Qed.

Lemma request_valid request :
  ci_id (dr_instance request) ≠ id_none → ci_generation (dr_instance request) ≠ id_none →
  ci_attempt (dr_instance request) ≠ id_none →
  fp_instance (dr_plan request) = dr_instance request →
  zlen (fp_edges (dr_plan request)) ≤ limits.kEdgesMaxPerFlowGroup →
  dr_has_requested_class request = false →
  is_ok (validate_decision_request request) = true.
Proof.
  intros H1 H2 H3 H4 H5 H6. unfold validate_decision_request.
  rewrite (proj2 (is_none_neq _) H1), (proj2 (is_none_neq _) H2), (proj2 (is_none_neq _) H3).
  rewrite H4, !id_eqb_refl, (proj2 (Z.ltb_ge _ _)), H6 by done. by destruct (dr_has_flow_group_plan _).
Qed.

Lemma prepared_gate s context f pg ps : prepared s context f pg ps → plan_gate s context = None.
Proof.
  intros Hs. unfold plan_gate. destruct (is_some _); [|done].
  destruct (pp_session _ _ _ _ _ Hs) as (b & -> & ->).
  rewrite (pp_epoch _ _ _ _ _ Hs), !id_eqb_refl. by rewrite andb_false_r.
Qed.

(** A request for a generation that was superseded. *)
Lemma plan_superseded s context f pg ps request record :
  prepared s context f pg ps → is_ok (validate_decision_request request) = true →
  catalog_find (sv_catalog s) (ci_id (dr_instance request)) = Some record →
  cd_generation (cr_definition record) ≠ ci_generation (dr_instance request) →
  let '(s', status, decided) := plan_flow_group s context request in
  status = status_ok ∧ sv_catalog s' = sv_catalog s ∧
  ∃ d, decided = Some d ∧ de_outcome d = Outcome.kRejectedStale.
Proof.
  intros Hs Hv Hr Hg. unfold plan_flow_group.
  rewrite (pp_running _ _ _ _ _ Hs), (prepared_gate _ _ _ _ _ Hs), Hv, Hr. cbn [negb].
  rewrite (proj2 (id_eqb_neq _ _) Hg). cbn [negb]. split_and!; try done. by eexists.
Qed.

(** The first admission of a paced flow group takes its bytes from a full bucket. *)
Lemma admit_first d now :
  outcome_grants_authority (de_outcome d) = true → de_flow_group_constructed d = true →
  pi_mode (de_pacing d) = PacingMode.kTokenBucket →
  pi_admitted_bandwidth_bps (de_pacing d) = 600000000000 →
  ar_outcome (Admission.admit_decision (admission_new limits.kTokenBucketsMax) d now).2 =
  AdmissionOutcome.kGranted.
Proof.
  intros H1 H2 H3 H4. rewrite admit_paced.
  - cbn [snd]. unfold admit_entry, try_consume, refill. rewrite H4.
    change (600000000000 =? kUnlimitedRate) with false. change (600000000000 =? 0) with false.
    cbn [ac_buckets admission_new]. rewrite lookup_empty.
    cbn [from_option ae_bucket tb_empty tb_initialized negb tb_rate_bps tb_tokens].
    change (is_ok status_ok) with true. change (600000000000 =? kUnlimitedRate) with false.
    cbn [negb]. rewrite (proj2 (Z.leb_le _ _)) by lia. reflexivity.
  - unfold paced, no_authority. rewrite H1, H2, H3, H4. by split_and!.
  - right. cbn [ac_buckets admission_new]. by rewrite mapsize_empty.
Qed.

(** A plan that does not construct is never granted. *)
Lemma plan_unconstructed s context request record d :
  catalog_find (sv_catalog s) (ci_id (dr_instance request)) = Some record →
  (∀ group, construct_flow_group
     ((dr_plan request) <| fp_collective_class := cd_collective_class (cr_definition record) |>)
     (cd_participants (cr_definition record)) ≠ Ok group) →
  (plan_flow_group s context request).2 = Some d →
  outcome_grants_authority (de_outcome d) = false.
Proof.
  intros Hr Hc Hd. destruct (outcome_grants_authority (de_outcome d)) eqn:Eg; [|done]. exfalso.
  destruct (plan_cases s context request) as [[_ Hstale]|(r & Hp & s1 & d' & E & Ed & _)].
  { by rewrite (Hstale d Hd) in Eg. }
  rewrite Hd in Ed. injection Ed as <-.
  assert (r = record) as -> by (pose proof (pl_record _ _ _ _ Hp); congruence).
  pose proof (settle_grants s (cx_now_monotonic_ms context) request
    (evaluated_decision s (cx_now_monotonic_ms context) request record) record Hr
    (pl_state _ _ _ _ Hp)
    (fun H => proj1 (evaluated_binds s (cx_now_monotonic_ms context) request record H))) as Hg.
  rewrite E in Hg. cbn [snd] in Hg. apply Hg in Eg as [Eg _].
  apply evaluated_grants in Eg as (g & t & policy & cp & tc & _ & _ & Hgroup & _).
  apply (Hc g). rewrite <- Hgroup. unfold effective_definition. by destruct (_ && _).
Qed.

Lemma settle_admits s now request e record :
  catalog_find (sv_catalog s) (ci_id (dr_instance request)) = Some record →
  collective_state_is_terminal (cr_state record) = false →
  sv_admission s = admission_new limits.kTokenBucketsMax →
  outcome_grants_authority (de_outcome e) = true → de_flow_group_constructed e = true →
  pi_mode (de_pacing e) = PacingMode.kTokenBucket →
  pi_admitted_bandwidth_bps (de_pacing e) = 600000000000 →
  let '(s', d) := settle s now request e in
  de_outcome d = de_outcome e ∧ de_traffic_class d = de_traffic_class e ∧
  sv_catalog s' =
    (set_state (sv_catalog s) (ci_id (dr_instance request)) CollectiveState.kActive now).1.
Proof.
  intros Hr Ht Ha He Hf Hm Hb. pose proof (admit_first e now He Hf Hm Hb) as Hg.
  unfold settle. rewrite He. unfold set_state. unfold catalog_find in Hr. rewrite Hr, Ht.
  cbn [andb]. change (is_ok status_ok) with true. cbn [negb sv_admission set_field].
  change (sv_admission (set_field _ _ s)) with (sv_admission s). rewrite Ha.
  destruct (Admission.admit_decision _ _ _) as [c a]. cbn [snd] in Hg. unfold apply_admission.
  by rewrite Hg.
Qed.

Section decisions.
Context (f : SyntheticFabric) (pg : Identity) (context : ServiceRequestContext).
Abbreviation now := (cx_now_monotonic_ms context).
Context `{!Fabric f now} (Hpg : pg ≠ id_none).
Context (s : CoordinatorService) (participants : list Identity).
Context (Hs : prepared s context f pg participants).
Context (request : DecisionRequest) (record : CollectiveRecord).
Context (Hvalid : is_ok (validate_decision_request request) = true).
Context (Hobs : observes request (sv_authority s)).
Context (Hplan : dr_has_flow_group_plan request = true).
Context (Hrecord : catalog_find (sv_catalog s) (ci_id (dr_instance request)) = Some record).
Context (Hgen : cd_generation (cr_definition record) = ci_generation (dr_instance request)).
Context (Hattempt : cr_current_attempt record = ci_attempt (dr_instance request)).
Context (Hsome : cr_current_attempt record ≠ id_none).
Context (Hstate : cr_state record = CollectiveState.kPlanning).
Context (Hmembers : cd_participants (cr_definition record) ⊆ participants).
Context (group : FlowGroup).
Context (Hgroup : construct_flow_group
  ((dr_plan request) <| fp_collective_class := cd_collective_class (cr_definition record) |>)
  (cd_participants (cr_definition record)) = Ok group).

Lemma prepared_plannable : plannable s context request record.
Proof.
  split; try done; [apply Hs | by eapply plan_gate_passes, prepared_gate |
    by apply validate_decision_request_iff | by rewrite Hstate].
Qed.

(** The answer is the settled evaluation. *)
Lemma prepared_answer :
  let '(s', status, decided) := plan_flow_group s context request in
  status = status_ok ∧
  ∃ s1 d, settle s now request (evaluated_decision s now request record) = (s1, d) ∧
    decided = Some d ∧ sv_catalog s' = sv_catalog s1.
Proof.
  destruct (plan_cases s context request) as [[Hn _]|(r & Hp & s1 & d & E1 & E2 & E3 & E4 & _)].
  - by destruct (Hn record prepared_plannable).
  - assert (r = record) as -> by (pose proof (pl_record _ _ _ _ Hp); congruence).
    destruct (plan_flow_group _ _ _) as [[s' status] decided]. cbn [fst snd] in *.
    split; [done|]. by exists s1, d.
Qed.

Lemma effective_same :
  cd_participants (effective_definition record) = cd_participants (cr_definition record) ∧
  cd_collective_class (effective_definition record) = cd_collective_class (cr_definition record) ∧
  cd_generation (effective_definition record) = cd_generation (cr_definition record).
Proof. unfold effective_definition. by destruct (_ && _). Qed.

Lemma plan_unknown_class :
  is_known_collective_class (cd_collective_class (cr_definition record)) = false →
  let '(s', status, decided) := plan_flow_group s context request in
  status = status_ok ∧ ∃ d, decided = Some d ∧ de_outcome d = Outcome.kRejectedPolicy.
Proof.
  intros Hk. pose proof prepared_answer as Ha.
  destruct (plan_flow_group _ _ _) as [[s' status] decided].
  destruct Ha as (Hst & s1 & d & E & -> & _). split; [done|]. exists d. split; [done|].
  destruct effective_same as (Ep & Ec & Eg).
  assert (de_outcome (evaluated_decision s now request record) = Outcome.kRejectedPolicy) as Ho.
  { apply (evaluate_unknown (authority_snapshot (sv_authority s) now) request
      (effective_definition record) _ group (sf_topology f) (standard_policy pg));
      rewrite ?Ep, ?Ec, ?Eg; try done.
    - by eapply (prepared_chain f pg context).
    - apply Hs.
    - by eapply (prepared_topology_fresh f pg context).
    - by eapply (prepared_nodes f pg context).
    - apply Hs. }
  revert E Ho. generalize (evaluated_decision s now request record). intros e E Ho.
  unfold settle in E. rewrite Ho in E. cbn in E. by injection E as _ <-.
Qed.

(** The evaluation of an all-reduce: a grant as bulk data at the rate of the fabric. *)
Lemma prepared_grant :
  cd_collective_class (cr_definition record) = CollectiveClass.kAllReduce →
  dr_has_requested_class request = false →
  let e := evaluated_decision s now request record in
  de_outcome e = Outcome.kAdmitted ∧ de_traffic_class e = TrafficClass.kBulkData ∧
  de_flow_group_constructed e = true ∧ pi_mode (de_pacing e) = PacingMode.kTokenBucket ∧
  pi_admitted_bandwidth_bps (de_pacing e) = 600000000000.
Proof.
  intros Hc Hq. cbv zeta. unfold evaluated_decision.
  destruct effective_same as (Ep & Ec & Eg). rewrite Hc in Ec. rewrite Hgen in Eg.
  destruct all_reduce_treatment as (cp & tc & Hpol & T1 & T2 & T3 & T4 & Hpace).
  destruct (Hpol pg) as [P1 P2]. set (snapshot := authority_snapshot (sv_authority s) now).
  destruct (Hpace pg snapshot) as [Pk Pb];
    [by eapply (prepared_capacity f pg context) | by eapply (prepared_congestion f pg context)|].
  assert (es_policy snapshot = Some (standard_policy pg)) as Epol by apply Hs.
  assert (∀ cp', find_collective (standard_policy pg) CollectiveClass.kAllReduce = Some cp' →
    cp' = cp ∧ effective_class request cp' = TrafficClass.kBulkData) as Hcp.
  { intros cp' Hcp'. assert (cp' = cp) as -> by congruence. split; [done|].
    unfold effective_class. by rewrite Hq. }
  destruct (evaluate_cases snapshot request (effective_definition record) (mkEngineCounters 0 0 0 0))
    as [(g & t & policy & cp' & tc' & Ha & Hstrip)|[Hn _]].
  - destruct Ha as (_ & _ & _ & _ & _ & _ & _ & E1 & (E2 & _ & _ & _ & E3) & _).
    assert (policy = standard_policy pg) as -> by congruence.
    rewrite Ec in E2. destruct (Hcp cp' E2) as [-> Ecl].
    assert (tc' = tc) as -> by congruence.
    set (e := (evaluate _ _ _ _).1) in *. clearbody e.
    change (de_outcome (e <| de_instance := dr_instance request |>)) with (de_outcome (strip e)).
    change (de_traffic_class (e <| de_instance := _ |>)) with (de_traffic_class (strip e)).
    change (de_flow_group_constructed (e <| de_instance := _ |>))
      with (de_flow_group_constructed (strip e)).
    change (de_pacing (e <| de_instance := _ |>)) with (de_pacing (strip e)).
    rewrite Hstrip. unfold grant_record, grant_pacing.
    cbn [de_outcome de_traffic_class de_flow_group_constructed de_pacing pi_mode
         pi_admitted_bandwidth_bps].
    unfold grant_outcome. rewrite T2, Ecl, bool_decide_eq_false_2 by done. by split_and!.
  - destruct Hn. destruct (Hcp cp P1) as [_ Ecl].
    exists group, (sf_topology f), (standard_policy pg), cp, tc.
    unfold authorized_by. rewrite Ep, Ec, Eg, <- Hc.
    split; [done|]. split; [done|]. split; [exact Hgroup|].
    split; [by eapply (prepared_chain f pg context)|]. split; [apply Hs|].
    split; [by eapply (prepared_topology_fresh f pg context)|].
    split; [by eapply (prepared_nodes f pg context)|]. split; [done|].
    split; [|split; [|done]].
    + unfold treatment. rewrite Ec, Ecl. split_and!; try done. by rewrite Hq.
    + intros _. split; [cbn; by rewrite (fu_congestion _ _ _ (pp_furnished _ _ _ _ _ Hs))|].
      intros c Hcong. cbn in Hcong. rewrite (fu_congestion _ _ _ (pp_furnished _ _ _ _ _ Hs)) in Hcong.
      injection Hcong as <-. cbn [snapshot es_now_monotonic_ms authority_snapshot].
      rewrite fab_congestion_captured, fab_congestion_window, (age_now context). lia.
Qed.

(** An all-reduce is admitted as bulk data. *)
Lemma plan_admits :
  cd_collective_class (cr_definition record) = CollectiveClass.kAllReduce →
  dr_has_requested_class request = false →
  sv_admission s = admission_new limits.kTokenBucketsMax →
  let '(s', status, decided) := plan_flow_group s context request in
  status = status_ok ∧
  (∃ d, decided = Some d ∧ de_outcome d = Outcome.kAdmitted ∧
     de_traffic_class d = TrafficClass.kBulkData) ∧
  sv_catalog s' =
    (set_state (sv_catalog s) (ci_id (dr_instance request)) CollectiveState.kActive now).1.
Proof.
  intros Hc Hq Had. pose proof prepared_answer as Ha.
  destruct (plan_flow_group _ _ _) as [[s' status] decided].
  destruct Ha as (Hst & s1 & d & E & -> & Ecat). split; [done|]. rewrite Ecat. clear Ecat.
  destruct (prepared_grant Hc Hq) as (G1 & G2 & G3 & G4 & G5).
  pose proof (settle_admits s now request (evaluated_decision s now request record) record
    Hrecord ltac:(by rewrite Hstate) Had ltac:(by rewrite G1) G3 G4 G5) as Hset.
  rewrite E in Hset. destruct Hset as (S1 & S2 & S3). split; [|exact S3].
  exists d. split_and!; [done | congruence | congruence].
Qed.
End decisions.
