(* ===== verification/Ctl.v ===== *)
(** The commands of the control tool ([tools/ctfctl.cpp]) and its [main].

    A command is a program ([Program]) that ends with an exit code.  [serve] polls until a peer
    has requested a shutdown: it is given a number of polls, and has no exit code ([None]) when
    they are used up.  The self test runs a service of its own in the process of the tool,
    which therefore shares the tool's minter. *)
From S2P Require Import Prelude Identity Errors Participant Collective FlowGroup Traffic.
From S2P Require Import Evidence Sync Decision Engine Admission Catalog Authority History Service.
From S2P Require Import Codec Checksum Protocol WireData Messages Transport Coordinator.
From S2P Require Import Program Options Client Workload.

(** ** Exit codes and reports *)
Definition kExitAccepted : Z := 0.
Definition kExitRefused : Z := 1.
Definition kExitUsage : Z := 2.
Definition kHost : string := "127.0.0.1".
Definition kShutdownPollMs : Z := 20.

Definition lines (text : list string) : string :=
  concat_all ((fun line => String.append line newline) <$> text).

Definition usage_text : string := lines
  ["usage: ctfctl <command> [options]";
   "";
   "commands:";
   "  serve     --port N [--snapshot PATH] [--label L]";
   "            serve a real coordinator until a peer requests shutdown";
   "  register  --port N --class NAME [--participant HEX]... [--bytes N] [--label L] [--barrier]";
   "            register a durable collective definition";
   "  begin-attempt --port N --collective HEX --generation HEX [--attempt HEX] [--bytes N]";
   "            open the attempt a plan must be bound to";
   "  plan      --port N --collective HEX --generation HEX --attempt HEX --pattern NAME";
   "            [--step N] [--participant HEX]...";
   "            request a flow group decision for a ring, chain, full_mesh or tree_up plan";
   "  inspect   --port N [--subject summary|collective|decisions|peers|policy|topology]";
   "            [--collective HEX] [--offset N] [--limit N]";
   "            send an inspection request and print the body verbatim";
   "  explain   --port N [--collective HEX --attempt HEX | --correlation N]";
   "            print the explanation of a retained decision";
   "  heartbeat --port N --participant HEX --incarnation HEX [--node HEX]";
   "            [--state live|suspect|expired] [--count N] [--interval-ms N]";
   "            publish participant liveness and print the acknowledged expiry";
   "  install-policy --port N [--standard]";
   "            install the standard traffic policy under a fresh generation";
   "  evidence  --port N --kind congestion|capacity|topology [--link HEX]... [--node HEX]...";
   "            [--utilization-bps N] [--available-bps N] [--valid-for-ms N]";
   "            ingest one observation; values typed on a command line are SYNTHETIC";
   "  selftest  run the in-process SYNTHETIC end to end path";
   "  shutdown  --port N";
   "            ask a running coordinator to stop accepting new work";
   "";
   "exit codes: 0 accepted, 1 refused by the coordinator, 2 usage error"].

Definition print_usage : Prog unit := call (Err usage_text).

Definition usage_error (message : string) : Prog Z :=
  diagnose (String.append "ctfctl: " message);; print_usage;; Ret kExitUsage.

Definition report_failure (what : string) (status : Status) : Prog Z :=
  diagnose (concat_all [what; ": "; ErrorCode.error_to_string (st_code status); " ";
                        st_message status]);;
  Ret kExitRefused.

(** [if (!resolve(..., error)) return usage_error(error);] *)
Definition or_usage {A} (r : Resolved A) (k : A → Prog Z) : Prog Z :=
  match r with Got a => k a | Usage error => usage_error error end.
Notation "x ←? r ; k" := (or_usage r (fun x => k))
  (at level 100, r at next level, k at level 200, right associativity) : ctf_scope.

(** [if (condition) return usage_error(message);] *)
Definition refuse_if (condition : bool) (message : string) (k : Prog Z) : Prog Z :=
  if condition then usage_error message else k.

Definition connect_or_report (client : Client) (port : Z) : Prog (Client * Z) :=
  '(client, status) ← connect client port;
  if is_ok status then Ret (client, kExitAccepted)
  else code ← report_failure "connect" status; Ret (client, code).

(** The scope of [Client client;]: the connection is tried, the rest of the command runs if it
    is there, and the destructor shuts the socket down on every return. *)
Definition with_client (port : Z) (body : Client → Prog Z) : Prog Z :=
  '(client, connected) ← connect_or_report client_new port;
  code ← (if negb (connected =? kExitAccepted) then Ret connected else body client);
  call Shutdown;;
  Ret code.

(** The answer of a request, or [report_failure]. *)
Definition or_report {A} (what : string) (r : Result A) (k : A → Prog Z) : Prog Z :=
  match r with Ok a => k a | Fail status => report_failure what status end.

Definition accepted_if (condition : bool) : Z := if condition then kExitAccepted else kExitRefused.

Definition emit_reasons (reasons : ReasonChain) : Prog unit :=
  if negb (zlen reasons =? 0) then emit (String.append "reasons " (rc_to_string reasons))
  else Ret tt.

(** ** serve *)
Definition serve_config (options : Options) : CoordinatorConfig :=
  {| cg_max_sessions := limits.kSessionsMax;
     cg_service := mkServiceConfig limits.kDecisionHistoryDefaultCapacity 3000 30000 2000 true
                     (value_or options "--label" "ctfctl");
     cg_snapshot_path := value_or options "--snapshot" "";
     cg_persist_on_mutation := false;
     cg_clock_offset_ms := 0 |}.

(** [while (!server.shutdown_requested()) sleep]; [false] when the polls are used up. *)
Fixpoint wait_for_shutdown (polls : nat) : Prog bool :=
  match polls with
  | O => Ret false
  | S polls =>
      requested ← call ShutdownRequested;
      if (requested : bool) then Ret true else call (Sleep kShutdownPollMs);; wait_for_shutdown polls
  end.

Definition run_serve (polls : nat) (options : Options) : Prog (option Z) :=
  match resolve_port options true with
  | Usage error => code ← usage_error error; Ret (Some code)
  | Got port =>
      now ← call Clock;
      '(status, bound, epoch) ← call (StartServer (serve_config options) port now);
      if negb (is_ok status) then code ← report_failure "serve" status; Ret (Some code)
      else
        emit (concat_all ["listening "; kHost; ":"; decimal bound]);;
        emit (String.append "epoch " (id_to_string epoch));;
        requested ← wait_for_shutdown polls;
        if negb requested then Ret None
        else
          diagnose "ctfctl: a peer requested shutdown";;
          now ← call Clock;
          status ← call (StopServer now);
          if negb (is_ok status) then code ← report_failure "stop" status; Ret (Some code)
          else Ret (Some kExitAccepted)
  end.

(** ** register *)
Definition registration_accepted (result : Z) : bool :=
  (result =? RegistrationResult.RegistrationResult_raw RegistrationResult.kRegistered) ||
  (result =? RegistrationResult.RegistrationResult_raw RegistrationResult.kGenerationAdvanced) ||
  (result =? RegistrationResult.RegistrationResult_raw RegistrationResult.kUnchanged).

(** [to_string(static_cast<RegistrationResult>(result))] *)
Definition registration_text (result : Z) : string :=
  match enum_of_raw result with
  | Some result => RegistrationResult.RegistrationResult_to_string result
  | None => "rejected_invalid"
  end.

Definition definition_default : CollectiveDefinition :=
  mkCollectiveDefinition id_none id_none CollectiveClass.kUnknown AlgorithmHint.kUnspecified
    CollectiveScope.kUnspecified "" id_none id_none [] [] [] [] false 0 0.

(** The option's text and the class it names. *)
Definition resolve_class (options : Options) : Resolved (string * CollectiveClass) :=
  match opt_find options "--class" with
  | None => Usage "--class is required"
  | Some text =>
      match CollectiveClass.collective_class_from_string text with
      | None => Usage (concat_all ["--class "; quoted text; " is not a collective class name"])
      | Some class => Got (text, class)
      end
  end.

Definition run_register (options : Options) : Prog Z :=
  port ←? resolve_port options false;
  class ←? resolve_class options;
  participants ←? resolve_participants options;
  bytes ←? resolve_u64 options "--bytes" 0;
  id ← call Mint;
  let definition := definition_default
    <| cd_id := id |> <| cd_collective_class := class.2 |>
    <| cd_label := value_or options "--label" class.1 |>
    <| cd_participants := canonicalize_participants participants |>
    <| cd_logical_bytes := bytes |>
    <| cd_declares_barrier_semantics := opt_has options "--barrier" |> in
  with_client port (fun client =>
    '(_, answered) ← cl_register_collective client definition;
    or_report "register" answered (fun ack =>
      emit (String.append "id " (id_to_string (ra_id ack)));;
      emit (String.append "generation " (id_to_string (ra_generation ack)));;
      emit (String.append "result " (registration_text (ra_result ack)));;
      emit_reasons (ra_reasons ack);;
      Ret (accepted_if (registration_accepted (ra_result ack))))).

(** ** begin-attempt *)

(** The source's test of the acknowledgement. *)
Definition attempt_accepted (ack : AttemptAckPayload) : bool :=
  bool_decide (aa_state ack = CollectiveState.kPlanning).

Definition run_begin_attempt (options : Options) : Prog Z :=
  port ←? resolve_port options false;
  collective ←? resolve_identity options "--collective";
  generation ←? resolve_identity options "--generation";
  stated ←? (if opt_has options "--attempt"
             then id ← resolve_identity options "--attempt"; Got (Some id) else Got None);
  attempt ← (match stated with Some id => Ret id | None => call Mint end : Prog Identity);
  bytes ←? resolve_u64 options "--bytes" 0;
  with_client port (fun client =>
    '(_, answered) ← cl_begin_attempt client collective generation attempt bytes;
    or_report "begin-attempt" answered (fun ack =>
      emit (String.append "attempt " (id_to_string (aa_attempt ack)));;
      emit (String.append "previous_attempt " (identity_or_none (aa_previous_attempt ack)));;
      emit (String.append "state " (CollectiveState.CollectiveState_to_string (aa_state ack)));;
      emit_reasons (aa_reasons ack);;
      Ret (accepted_if (attempt_accepted ack)))).

(** ** plan *)
Definition resolve_pattern (options : Options) : Resolved FlowPattern :=
  match opt_find options "--pattern" with
  | None => Usage "--pattern is required"
  | Some text =>
      match FlowPattern.flow_pattern_from_string text with
      | None => Usage (concat_all ["--pattern "; quoted text; " is not a flow pattern name"])
      | Some pattern =>
          if buildable pattern then Got pattern
          else Usage (concat_all ["--pattern "; quoted text;
                 " is not buildable; use ring, chain, full_mesh or tree_up"])
      end
  end.

Definition request_default : DecisionRequest :=
  mkDecisionRequest id_none instance_default id_none id_none id_none id_none id_none false
    plan_default false TrafficClass.kUnclassified 0.

(** The request for [instance] under the generations a handshake reported. *)
Definition plan_request (hello : HelloAckPayload) (instance : CollectiveInstance)
    (pattern : FlowPattern) (participants : list Identity) (step : Z) : DecisionRequest :=
  request_default
    <| dr_instance := instance |>
    <| dr_observed_epoch := ha_epoch hello |>
    <| dr_observed_policy_generation := ha_policy_generation hello |>
    <| dr_observed_topology_generation := ha_topology_generation hello |>
    <| dr_observed_capacity_generation := ha_capacity_generation hello |>
    <| dr_observed_congestion_generation := ha_congestion_generation hello |>
    <| dr_has_flow_group_plan := true |>
    <| dr_plan := build_plan pattern CollectiveClass.kUnknown instance participants step |>.

Definition run_plan (options : Options) : Prog Z :=
  port ←? resolve_port options false;
  collective ←? resolve_identity options "--collective";
  generation ←? resolve_identity options "--generation";
  attempt ←? resolve_identity options "--attempt";
  pattern ←? resolve_pattern options;
  participants ←? resolve_participants options;
  step ←? resolve_u64 options "--step" 1;
  refuse_if ((step =? 0) || (limits.kStepsMaxPerPhase <? step))
    (String.append "--step must be in 1.." (decimal limits.kStepsMaxPerPhase))
  (with_client port (fun client =>
    let instance := mkCollectiveInstance collective generation attempt 0 in
    '(client, answered) ←
      cl_plan_flow_group client (plan_request (cl_hello client) instance pattern participants step);
    or_report "plan" answered (fun decision =>
      emit (String.append "correlation " (decimal (cl_correlation client)));;
      emit (String.append "summary " (Decision.summary decision));;
      emit "explanation:";;
      emit_raw (Decision.explain decision);;
      Ret (accepted_if (outcome_grants_authority (de_outcome decision)))))).

(** ** inspect *)
Definition resolve_subject (options : Options) : Resolved Z :=
  match opt_find options "--subject" with
  | None => Got 0
  | Some text =>
      match inspect_subject text with
      | None => Usage (concat_all ["--subject "; quoted text;
          " is not one of summary, collective, decisions, peers, policy, topology"])
      | Some subject => Got subject
      end
  end.

Definition run_inspect (options : Options) : Prog Z :=
  port ←? resolve_port options false;
  subject ←? resolve_subject options;
  collective ←? resolve_optional_identity options "--collective";
  refuse_if ((subject =? 1) && negb (present collective))
    "--subject collective requires --collective"
  (offset ←? resolve_u64 options "--offset" 0;
   limit ←? resolve_u64 options "--limit" 64;
   refuse_if ((0xFFFFFFFF <? offset) || (0xFFFFFFFF <? limit))
     "--offset and --limit must fit in 32 bits"
   (with_client port (fun client =>
     '(_, answered) ←
       cl_inspect client subject (default id_none collective) (w32 offset) (w32 limit);
     or_report "inspect" answered (fun body => emit_raw body;; Ret kExitAccepted)))).

(** ** explain *)
Definition run_explain (options : Options) : Prog Z :=
  port ←? resolve_port options false;
  collective ←? resolve_optional_identity options "--collective";
  attempt ←? resolve_optional_identity options "--attempt";
  correlation ←? resolve_u64 options "--correlation" 0;
  let has_correlation := opt_has options "--correlation" in
  refuse_if (has_correlation && (present collective || present attempt))
    "--correlation cannot be combined with --collective or --attempt"
  (refuse_if (negb has_correlation && negb (present collective && present attempt))
     "either --correlation, or both --collective and --attempt, are required"
   (with_client port (fun client =>
     '(_, answered) ←
       cl_explain client (default id_none collective) (default id_none attempt) correlation
         has_correlation;
     or_report "explain" answered (fun response =>
       emit_raw (xr_explanation response);;
       Ret (accepted_if (xr_found response)))))).

(** ** heartbeat *)
Definition resolve_state (options : Options) : Resolved ParticipantState :=
  match opt_find options "--state" with
  | None => Got ParticipantState.kLive
  | Some text =>
      match parse_participant_state text with
      | None => Usage (concat_all ["--state "; quoted text; " is not live, suspect or expired"])
      | Some state => Got state
      end
  end.

(** [if (index + 1 < count && interval_ms != 0) sleep] *)
Definition pause_before (remaining : nat) (interval_ms : Z) : Prog unit :=
  match remaining with
  | O => Ret tt
  | S _ => if negb (interval_ms =? 0) then call (Sleep interval_ms) else Ret tt
  end.

(** The rounds from [index] on; [remaining] of them are left, and [finish] follows the last. *)
Fixpoint heartbeat_loop (remaining : nat) (index : Z) (client : Client)
    (payload : Z → HeartbeatPayload) (interval_ms : Z) (finish : Prog Z) : Prog Z :=
  match remaining with
  | O => finish
  | S remaining =>
      clock ← call Clock;
      '(client, answered) ← cl_heartbeat client (payload clock);
      or_report "heartbeat" answered (fun ack =>
        if negb (hk_accepted ack) then
          diagnose (String.append "ctfctl: the heartbeat was not accepted: "
                      (rc_to_string (hk_reasons ack)));;
          Ret kExitRefused
        else
          emit (concat_all ["heartbeat "; decimal (index + 1); " participant=";
                  id_to_string (hk_participant ack); " state=";
                  ParticipantState.ParticipantState_to_string (hk_state ack);
                  " expires_at_monotonic_ms="; decimal (hk_expires_at_monotonic_ms ack)]);;
          pause_before remaining interval_ms;;
          heartbeat_loop remaining (index + 1) client payload interval_ms finish)
  end.

Definition run_heartbeat (options : Options) : Prog Z :=
  port ←? resolve_port options false;
  participant ←? resolve_identity options "--participant";
  incarnation ←? resolve_identity options "--incarnation";
  node ←? resolve_optional_identity options "--node";
  state ←? resolve_state options;
  count ←? resolve_u64 options "--count" 1;
  refuse_if (count =? 0) "--count must be at least 1"
  (interval_ms ←? resolve_u64 options "--interval-ms" 0;
   refuse_if (3600000 <? interval_ms) "--interval-ms must not exceed one hour"
   (with_client port (fun client =>
     heartbeat_loop (Z.to_nat count) 0 client
       (mkHeartbeatPayload participant incarnation state (default id_none node)) interval_ms
       ((if negb (present node)
         then diagnose "ctfctl: no --node was stated; the participant keeps its previous node"
         else Ret tt);;
        Ret kExitAccepted)))).

(** ** evidence *)
Inductive ObservationKind := Congestion | Capacity | Topology.

Definition resolve_kind (options : Options) : Resolved (string * ObservationKind) :=
  match opt_find options "--kind" with
  | None => Usage "--kind is required"
  | Some kind =>
      if bool_decide (kind = "congestion") then Got (kind, Congestion)
      else if bool_decide (kind = "capacity") then Got (kind, Capacity)
      else if bool_decide (kind = "topology") then Got (kind, Topology)
      else Usage (concat_all ["--kind "; quoted kind; " is not congestion, capacity or topology"])
  end.

(** The observation typed on the command line. *)
Record Observation := mkObservation {
  ob_kind : string * ObservationKind;
  ob_links : list Identity;
  ob_nodes : list Identity;
  ob_utilization_bps : Z;
  ob_available_bps : Z;
  ob_valid_for_ms : Z;
}.

Definition resolve_links (options : Options) (name : string) : Resolved (list Identity) :=
  parse_identities name (opt_all options name).

Definition typed_node (node : Identity) : TopologyNode := mkTopologyNode node id_none false 0.
Definition typed_capacity (o : Observation) (link : Identity) : LinkCapacity :=
  mkLinkCapacity link (if ob_available_bps o =? 0 then 1 else ob_available_bps o)
    (ob_available_bps o) (w32 (ob_utilization_bps o)) false 1000.
Definition typed_congestion (o : Observation) (link : Identity) : LinkCongestion :=
  mkLinkCongestion link (w32 (ob_utilization_bps o)) 0 0 0
    (congestion_level_from_utilization_bps (w32 (ob_utilization_bps o))).

(** The payload under a generation minted and an instant read on the way. *)
Definition observation_payload (client : Client) (o : Observation) : Prog EvidencePayload :=
  let topology_generation := ha_topology_generation (cl_hello client) in
  (match (ob_kind o).2 with
   | Topology => Ret tt
   | _ => if negb (is_some topology_generation)
          then diagnose "ctfctl: no topology is installed; the observation will be refused"
          else Ret tt
   end);;
  generation ← call Mint;
  now ← call Clock;
  match (ob_kind o).2 with
  | Topology =>
      Ret ((evidence_default EvidenceKindTag.kTopology)
             <| ey_topology := mkTopologyEvidence generation (typed_node <$> ob_nodes o) []
                                 now true |>)
  | Capacity =>
      Ret ((evidence_default EvidenceKindTag.kCapacity)
             <| ey_capacity := mkCapacityEvidence generation topology_generation
                                 (typed_capacity o <$> ob_links o) now true |>)
  | Congestion =>
      Ret ((evidence_default EvidenceKindTag.kCongestion)
             <| ey_congestion := mkCongestionEvidence generation topology_generation
                                   (typed_congestion o <$> ob_links o) now
                                   (ob_valid_for_ms o) true |>)
  end.

Definition submit_observation (port : Z) (o : Observation) : Prog Z :=
  with_client port (fun client =>
    payload ← observation_payload client o;
    '(_, answered) ← cl_ingest_evidence client payload;
    or_report "evidence" answered (fun ack =>
      emit (String.append "kind " (ob_kind o).1);;
      emit "synthetic true";;
      emit (String.append "result " (if ea_result ack =? 0 then "accepted" else "rejected"));;
      (if is_some (ea_generation ack)
       then emit (String.append "generation " (id_to_string (ea_generation ack))) else Ret tt);;
      emit_reasons (ea_reasons ack);;
      Ret (accepted_if (ea_result ack =? 0)))).

Definition run_evidence (options : Options) : Prog Z :=
  port ←? resolve_port options false;
  kind ←? resolve_kind options;
  links ←? resolve_links options "--link";
  nodes ←? resolve_links options "--node";
  utilization_bps ←? resolve_u64 options "--utilization-bps" 0;
  refuse_if (10000 <? utilization_bps) "--utilization-bps must be in 0..10000"
  (available_bps ←? resolve_u64 options "--available-bps" 0;
   valid_for_ms ←? resolve_u64 options "--valid-for-ms" kSyntheticCongestionWindowMs;
   let topology := match kind.2 with Topology => true | _ => false end in
   refuse_if (topology && negb (zlen links =? 0))
     "--link describes capacity or congestion, not a topology"
   (refuse_if (negb topology && negb (zlen nodes =? 0))
      "--node describes a topology, not capacity or congestion"
    (refuse_if (topology && (zlen nodes =? 0))
       "--kind topology requires at least one --node"
     (refuse_if (negb topology && (zlen links =? 0))
        (concat_all ["--kind "; kind.1; " requires at least one --link"])
      (refuse_if (negb topology && (valid_for_ms =? 0)) "--valid-for-ms must be at least 1"
        (submit_observation port
           (mkObservation kind links nodes utilization_bps available_bps valid_for_ms))))))).

(** ** install-policy *)
Definition run_install_policy (options : Options) : Prog Z :=
  port ←? resolve_port options false;
  with_client port (fun client =>
    generation ← call Mint;
    let policy := standard_policy generation in
    '(_, answered) ← cl_install_policy client policy;
    or_report "install-policy" answered (fun ack =>
      emit (String.append "generation " (id_to_string (ik_generation ack)));;
      emit (String.append "result " (if ik_result ack =? 0 then "installed" else "rejected"));;
      emit (concat_all ["class_policies "; decimal (zlen (tp_class_policies policy));
                        " collective_policies "; decimal (zlen (tp_collective_policies policy))]);;
      emit_reasons (ik_reasons ack);;
      Ret (accepted_if (ik_result ack =? 0)))).

(** ** shutdown *)
Definition run_shutdown (options : Options) : Prog Z :=
  port ←? resolve_port options false;
  with_client port (fun client =>
    '(_, status) ← cl_request_shutdown client;
    if negb (is_ok status) then report_failure "shutdown" status
    else emit "shutdown acknowledged";; Ret kExitAccepted).

(** ** selftest *)
Section selftest.
Abbreviation Tested := (Prog (option Z)).

(** [if (service.authority().install_*(...) != InstallResult::kInstalled) { ... }] *)
Definition or_not_installed (s : CoordinatorService) (installed : AuthorityState * InstallResult)
    (refused : string) (k : CoordinatorService → Tested) : Tested :=
  if bool_decide (installed.2 = InstallResult.kInstalled)
  then k (s <| sv_authority := installed.1 |>)
  else diagnose refused;; Ret (Some kExitRefused).

(** [if (!status.is_ok()) return report_failure(what, status);] *)
Definition or_failed (what : string) (status : Status) (k : Tested) : Tested :=
  if negb (is_ok status) then code ← report_failure what status; Ret (Some code) else k.

Definition selftest_install (s : CoordinatorService) (fabric : SyntheticFabric)
    (k : CoordinatorService → Tested) : Tested :=
  let '(s, policy_generation) := mint s in
  or_not_installed s (Authority.install_policy (sv_authority s) (standard_policy policy_generation))
    "ctfctl: the standard policy was refused" (fun s =>
  emit (String.append "policy installed generation " (id_to_string policy_generation));;
  or_not_installed s (install_topology (sv_authority s) (sf_topology fabric))
    "ctfctl: the synthetic topology was refused" (fun s =>
  emit (concat_all ["topology installed generation ";
                    id_to_string (te_generation (sf_topology fabric)); " SYNTHETIC"]);;
  or_not_installed s (install_capacity (sv_authority s) (sf_capacity fabric))
    "ctfctl: the synthetic capacity observation was refused" (fun s =>
  emit (concat_all ["capacity installed generation ";
                    id_to_string (ce_generation (sf_capacity fabric)); " SYNTHETIC"]);;
  or_not_installed s (install_congestion (sv_authority s) (sf_congestion fabric))
    "ctfctl: the synthetic congestion observation was refused" (fun s =>
  emit (concat_all ["congestion installed generation ";
                    id_to_string (ge_generation (sf_congestion fabric)); " SYNTHETIC"]);;
  k s)))).

(** The loop over the nodes, with the identities of one [IdentityMinter]. *)
Fixpoint selftest_publish (s : CoordinatorService) (context : ServiceRequestContext)
    (nodes : list Identity) (ids : Z) (participants : list Identity)
    (k : CoordinatorService → list Identity → Tested) : Tested :=
  match nodes with
  | [] => k s participants
  | node :: nodes =>
      let '(ids, participant) := minter_next ids in
      let '(ids, incarnation) := minter_next ids in
      let '(s, status) :=
        publish_participant s context participant incarnation node ParticipantState.kLive in
      or_failed "publish" status
        (emit (concat_all ["participant "; id_to_string participant; " published node ";
                           id_to_string node; " SYNTHETIC"]);;
         selftest_publish s context nodes ids (participants ++ [participant]) k)
  end.

Definition selftest_definition (id : Identity) (participants : list Identity)
    : CollectiveDefinition :=
  definition_default
    <| cd_id := id |> <| cd_collective_class := CollectiveClass.kAllReduce |>
    <| cd_algorithm_hint := AlgorithmHint.kRing |> <| cd_label := "ctfctl-selftest-all-reduce" |>
    <| cd_participants := canonicalize_participants participants |>
    <| cd_logical_bytes := kSyntheticLogicalBytes |>.

(** The request under the generations in force. *)
Definition selftest_request (s : CoordinatorService) (instance : CollectiveInstance)
    (participants : list Identity) : DecisionRequest :=
  let authority := sv_authority s in
  request_default
    <| dr_instance := instance |>
    <| dr_observed_epoch := au_epoch authority |>
    <| dr_observed_policy_generation := au_policy_generation authority |>
    <| dr_observed_topology_generation := au_topology_generation authority |>
    <| dr_observed_capacity_generation := au_capacity_generation authority |>
    <| dr_observed_congestion_generation := au_congestion_generation authority |>
    <| dr_has_flow_group_plan := true |>
    <| dr_plan := build_plan FlowPattern.kRing CollectiveClass.kAllReduce instance participants 1 |>.

(** From the decision to the exit code.  No persistence path is configured, so [stop] saves
    nothing. *)
Definition selftest_decide (s : CoordinatorService) (context : ServiceRequestContext)
    (request : DecisionRequest) : Tested :=
  let '(s, status, decided) := plan_flow_group s context request in
  let decision := default record_default decided in
  or_failed "plan" status
    (emit (String.append "decision " (Decision.summary decision));;
     let admitted := bool_decide (de_outcome decision = Outcome.kAdmitted) in
     emit (String.append "result " (if admitted then "ADMITTED" else "NOT_ADMITTED"));;
     now ← call Clock;
     or_failed "stop" (stop s now (fun _ => status_ok)).2 (Ret (Some (accepted_if admitted)))).

Definition selftest_collective (s : CoordinatorService) (context : ServiceRequestContext)
    (participants : list Identity) : Tested :=
  let '(s, id) := mint s in
  let definition := selftest_definition id participants in
  let '(s, status, registered) := register_collective s context definition in
  let registration := default (mkRegistrationOutcome RegistrationResult.kRejectedInvalid
                                 id_none id_none [] false false) registered in
  or_failed "register" status
    (if negb (bool_decide (ro_result registration = RegistrationResult.kRegistered)) then
       diagnose (String.append "ctfctl: registration was refused: "
                   (RegistrationResult.RegistrationResult_to_string (ro_result registration)));;
       Ret (Some kExitRefused)
     else
       emit (concat_all ["collective registered id "; id_to_string id; " generation ";
                         id_to_string (ro_generation registration); " class all_reduce"]);;
       let '(s, attempt) := mint s in
       let '(s, status, begun) :=
         begin_attempt s context id (ro_generation registration) attempt kSyntheticLogicalBytes in
       let outcome := default (mkAttemptOutcome id_none id_none id_none
                                 CollectiveState.kUnregistered []) begun in
       or_failed "attempt" status
         (emit (concat_all ["attempt begun attempt "; id_to_string attempt; " state ";
                            CollectiveState.CollectiveState_to_string (ao_state outcome)]);;
          let instance := mkCollectiveInstance id (ro_generation registration) attempt 0 in
          selftest_decide s context
            (selftest_request s instance (cd_participants definition)))).

(** [entropy] and [counter] are the process minter's.  [None] when [CoordinatorService::start]
    runs out of fuel, which [selftest_starts] excludes. *)
Definition run_selftest (entropy counter : Z) : Tested :=
  now ← call Clock;
  let fabric := make_synthetic_fabric kSyntheticFabricSeed now in
  emit (concat_all ["fabric SYNTHETIC racks="; decimal (Z.of_nat kSyntheticRackCount); " nodes=";
          decimal (zlen (sf_nodes fabric)); " links=";
          decimal (zlen (te_links (sf_topology fabric)))]);;
  match start (service_new config_default entropy counter) now with
  | None => Ret None
  | Some (s, status) =>
      or_failed "start" status
        (emit "coordinator started";;
         selftest_install s fabric (fun s =>
           let '(s, opened) := open_session s "ctfctl-selftest" now in
           match opened with
           | Fail status => code ← report_failure "session" status; Ret (Some code)
           | Ok binding =>
               let context := mkServiceRequestContext (sb_id binding) (sb_incarnation binding)
                                (sb_epoch binding) now 1 in
               selftest_publish s context (sf_nodes fabric)
                 (minter_new kSyntheticParticipantSeed) []
                 (fun s participants => selftest_collective s context participants)
           end))
  end.
End selftest.

(** ** main *)
Section main.
Context (polls : nat) (entropy counter : Z).

Definition print_help : Prog (option Z) := print_usage;; Ret (Some kExitUsage).

Definition run_command (command : string) (options : Options) : Prog (option Z) :=
  let run (p : Prog Z) : Prog (option Z) := code ← p; Ret (Some code) in
  if bool_decide (command = "serve") then run_serve polls options
  else if bool_decide (command = "register") then run (run_register options)
  else if bool_decide (command = "begin-attempt") then run (run_begin_attempt options)
  else if bool_decide (command = "plan") then run (run_plan options)
  else if bool_decide (command = "inspect") then run (run_inspect options)
  else if bool_decide (command = "explain") then run (run_explain options)
  else if bool_decide (command = "heartbeat") then run (run_heartbeat options)
  else if bool_decide (command = "evidence") then run (run_evidence options)
  else if bool_decide (command = "install-policy") then run (run_install_policy options)
  else if bool_decide (command = "selftest") then run_selftest entropy counter
  else if bool_decide (command = "shutdown") then run (run_shutdown options)
  else run (usage_error (concat_all ["unknown command "; quoted command])).

(** The arguments behind the program's name. *)
Definition main (arguments : list string) : Prog (option Z) :=
  match arguments with
  | [] => print_help
  | command :: arguments =>
      if bool_decide (command = "--help") || bool_decide (command = "-h") ||
         bool_decide (command = "help") then print_help
      else match parse arguments [] with
      | Usage error => code ← usage_error error; Ret (Some code)
      | Got options =>
          if opt_has options "--help" then print_help else run_command command options
      end
  end.
End main.

(** ** Exit codes

    The first theorems follow two things through every command: whether it did anything but
    write to the standard error, and the conversation it keeps with the coordinator. *)

(** An event the coordinator and the reader of the output cannot see. *)
Definition silent (e : Event) : bool :=
  match e with EErr _ | EMint _ => true | _ => false end.

(** Whether something else has happened. *)
Definition contact (b : bool) (e : Event) : option bool := Some (b || negb (silent e)).

(** A usage error has not contacted anything, the other exits have. *)
Definition exits (b : bool) (code : Z) : Prop :=
  if b then code = kExitAccepted ∨ code = kExitRefused else code = kExitUsage.

Definition exits_some (b : bool) (code : option Z) : Prop :=
  match code with Some code => exits b code | None => b = true end.

Lemma contact_any {A} (p : Prog A) : monitored contact (fun b _ => b = true) p true.
Proof. induction p as [a|c k IH]; [done|]. cbn. auto. Qed.

Lemma contact_seq {A B} (Q : bool → B → Prop) (p : Prog A) (k : A → Prog B) :
  (∀ a, monitored contact Q (k a) true) → monitored contact Q (p ≫= k) true.
Proof. intros H. eapply monitored_seq; [apply contact_any|]. by intros b a ->. Qed.

Lemma usage_exits message : monitored contact exits (usage_error message) false.
Proof. done. Qed.
Lemma report_exits what status : monitored contact exits (report_failure what status) true.
Proof. by right. Qed.
Lemma accepted_exits b : exits true (accepted_if b).
Proof. by destruct b; [left|right]. Qed.

Lemma or_usage_exits {A} (r : Resolved A) k :
  (∀ a, monitored contact exits (k a) false) → monitored contact exits (or_usage r k) false.
Proof. intros H. destruct r; [apply H | apply usage_exits]. Qed.
Lemma refuse_if_exits b message k :
  monitored contact exits k false → monitored contact exits (refuse_if b message k) false.
Proof. intros H. by destruct b; [apply usage_exits|]. Qed.
Lemma or_report_exits {A} what (r : Result A) k :
  (∀ a, monitored contact exits (k a) true) → monitored contact exits (or_report what r k) true.
Proof. intros H. destruct r; [apply H | apply report_exits]. Qed.

Lemma mint_exits {A} (Q : bool → A → Prop) k :
  (∀ id, monitored contact Q (k id) false) → monitored contact Q (call Mint ≫= k) false.
Proof. intros H id. apply H. Qed.

Lemma clock_exits {A} (Q : bool → A → Prop) k b :
  (∀ now, monitored contact Q (k now) true) → monitored contact Q (call Clock ≫= k) b.
Proof. intros H now. cbn. rewrite orb_true_r. apply H. Qed.

(** The client's scope contacts at least the transport. *)
Lemma with_client_exits port body :
  (∀ client, monitored contact exits (body client) true) →
  monitored contact exits (with_client port body) false.
Proof.
  intros H. unfold with_client. eapply monitored_seq with
    (R := fun b (r : Client * Z) => exits true r.2 ∧ b = true).
  - unfold connect_or_report. eapply monitored_seq with (R := fun b _ => b = true).
    + unfold connect. cbn [mbind Prog_bind prog_bind call monitored contact event silent negb orb].
      intros status. destruct (negb (is_ok status)); [done|]. apply contact_any.
    + intros b [client status] ->. destruct (is_ok status); [by repeat split; left|].
      repeat split. by right.
  - intros b [client connected] [Hc ->]. cbn [snd] in Hc.
    eapply monitored_seq with (R := fun b code => exits b code ∧ b = true).
    + destruct (negb _); [by split|].
      apply monitored_and; [apply H | apply contact_any].
    + intros b code [He ->]. by intros [].
Qed.

(** One step of a command's proof. *)
Ltac exit_step :=
  first
    [ apply or_usage_exits; intros ?
    | apply refuse_if_exits
    | apply with_client_exits; intros ?
    | apply or_report_exits; intros ?
    | apply mint_exits; intros ?
    | apply contact_seq; intros ?
    | apply accepted_exits
    | apply report_exits
    | by left | by right
    | progress cbv zeta
    | case_match ].

Lemma heartbeat_loop_exits remaining index client payload interval finish :
  monitored contact exits finish true →
  monitored contact exits (heartbeat_loop remaining index client payload interval finish) true.
Proof.
  intros H. revert index client. induction remaining as [|n IH]; intros index client; [done|].
  cbn [heartbeat_loop]. repeat exit_step. apply IH.
Qed.

Lemma run_register_exits options : monitored contact exits (run_register options) false.
Proof. unfold run_register, emit_reasons. repeat exit_step. Qed.
Lemma run_begin_attempt_exits options : monitored contact exits (run_begin_attempt options) false.
Proof.
  unfold run_begin_attempt, emit_reasons.
  do 4 exit_step. case_match; [|exit_step]; [cbn [mbind Prog_bind prog_bind]|]; repeat exit_step.
Qed.
Lemma run_plan_exits options : monitored contact exits (run_plan options) false.
Proof. unfold run_plan. repeat exit_step. Qed.
Lemma run_inspect_exits options : monitored contact exits (run_inspect options) false.
Proof. unfold run_inspect. repeat exit_step. Qed.
Lemma run_explain_exits options : monitored contact exits (run_explain options) false.
Proof. unfold run_explain. repeat exit_step. Qed.
Lemma run_heartbeat_exits options : monitored contact exits (run_heartbeat options) false.
Proof.
  unfold run_heartbeat. do 10 exit_step. apply heartbeat_loop_exits.
  repeat exit_step.
Qed.
Lemma run_evidence_exits options : monitored contact exits (run_evidence options) false.
Proof. unfold run_evidence, submit_observation, emit_reasons. repeat exit_step. Qed.
Lemma run_install_policy_exits options : monitored contact exits (run_install_policy options) false.
Proof. unfold run_install_policy, emit_reasons. repeat exit_step. Qed.
Lemma run_shutdown_exits options : monitored contact exits (run_shutdown options) false.
Proof. unfold run_shutdown. repeat exit_step. Qed.

Lemma or_failed_exits what status k :
  monitored contact exits_some k true → monitored contact exits_some (or_failed what status k) true.
Proof. intros H. unfold or_failed. destruct (negb _); [by right | done]. Qed.
Lemma or_not_installed_exits s installed refused k :
  (∀ s, monitored contact exits_some (k s) true) →
  monitored contact exits_some (or_not_installed s installed refused k) true.
Proof. intros H. unfold or_not_installed. destruct (bool_decide _); [apply H | by right]. Qed.
Lemma some_exits p b :
  monitored contact exits p b →
  monitored contact exits_some (code ← p; Ret (Some code)) b.
Proof. intros H. eapply monitored_seq; [exact H|]. done. Qed.

Lemma selftest_publish_exits s context nodes ids participants k :
  (∀ s participants, monitored contact exits_some (k s participants) true) →
  monitored contact exits_some (selftest_publish s context nodes ids participants k) true.
Proof.
  intros H. revert s ids participants. induction nodes as [|node nodes IH]; intros s ids participants;
    cbn [selftest_publish]; [apply H|].
  destruct (minter_next ids) as [ids1 p]. destruct (minter_next ids1) as [ids2 i].
  destruct (publish_participant _ _ _ _ _ _) as [s' status]. apply or_failed_exits, contact_seq.
  intros _. apply IH.
Qed.

Lemma run_selftest_exits entropy counter :
  monitored contact exits_some (run_selftest entropy counter) false.
Proof.
  unfold run_selftest. apply clock_exits. intros now. cbv zeta. apply contact_seq. intros _.
  destruct (start _ now) as [[s status]|]; [|done]. apply or_failed_exits, contact_seq. intros _.
  unfold selftest_install. destruct (mint s) as [s1 generation].
  do 4 (apply or_not_installed_exits; intros ?; apply contact_seq; intros _).
  destruct (open_session _ _ _) as [s5 [binding|refused]]; [|by right].
  apply selftest_publish_exits. intros s6 participants. unfold selftest_collective.
  destruct (mint s6) as [s7 id]. destruct (register_collective _ _ _) as [[s8 registered] outcome].
  apply or_failed_exits. destruct (negb _); [by right|]. apply contact_seq. intros _.
  destruct (mint s8) as [s9 attempt]. destruct (begin_attempt _ _ _ _ _ _) as [[s10 begun] result].
  apply or_failed_exits, contact_seq. intros _. unfold selftest_decide.
  destruct (plan_flow_group _ _ _) as [[s11 planned] decision]. apply or_failed_exits.
  do 3 (apply contact_seq; intros ?). apply or_failed_exits. apply accepted_exits.
Qed.

Lemma run_serve_exits polls options : monitored contact exits_some (run_serve polls options) false.
Proof.
  unfold run_serve. destruct (resolve_port options true) as [port|error]; [|done].
  apply clock_exits. intros now. apply contact_seq. intros [[status bound] epoch].
  destruct (negb (is_ok status)); [by right|].
  do 3 (apply contact_seq; intros ?). destruct (negb _); [done|].
  do 3 (apply contact_seq; intros ?). destruct (negb _); [by right|by left].
Qed.

Lemma run_command_exits polls entropy counter command options :
  monitored contact exits_some (run_command polls entropy counter command options) false.
Proof.
  unfold run_command. cbv zeta.
  repeat first [case_bool_decide | apply some_exits]; auto using run_serve_exits,
    run_register_exits, run_begin_attempt_exits, run_plan_exits, run_inspect_exits,
    run_explain_exits, run_heartbeat_exits, run_evidence_exits, run_install_policy_exits,
    run_selftest_exits, run_shutdown_exits, usage_exits.
Qed.

Lemma main_exits polls entropy counter arguments :
  monitored contact exits_some (main polls entropy counter arguments) false.
Proof.
  unfold main. destruct arguments as [|command arguments]; [done|].
  destruct (_ || _ || _); [done|]. destruct (parse arguments []) as [options|error]; [|done].
  destruct (opt_has options "--help"); [done|]. apply run_command_exits.
Qed.

Lemma follow_contact trace b :
  follow contact trace b = Some (b || negb (forallb silent trace)).
Proof.
  revert b. induction trace as [|e trace IH]; intros b; [cbn; by rewrite orb_false_r|].
  rewrite (follow_cons _ _ _ _ (b || negb (silent e)) eq_refl), IH. cbn [forallb].
  by destruct b, (silent e).
Qed.

(** The tool ends with one of three exit codes, and with the usage code exactly when it did
    nothing but write to the standard error (and mint identities of its own): a wrong command
    line never reaches a coordinator nor the standard output, and whatever does is reported as
    accepted or refused, for every command line and whatever the environment answers. *)
Theorem exit_usage_iff_silent (polls : nat) (entropy counter : Z) (arguments : list string)
    (trace : list Event) (code : Z) :
  runs (main polls entropy counter arguments) trace (Some code) →
  (code = kExitAccepted ∨ code = kExitRefused ∨ code = kExitUsage) ∧
  (code = kExitUsage ↔ Forall (fun e => silent e = true) trace).
Proof.
  intros Hr. destruct (monitored_runs _ _ _ _ _ _ (main_exits _ _ _ _) Hr) as (b & Hf & He).
  rewrite follow_contact in Hf. injection Hf as <-. cbn [orb exits_some] in He.
  assert (Forall (fun e => silent e = true) trace ↔ forallb silent trace = true) as ->.
  { rewrite forallb_forall, Forall_forall. by setoid_rewrite list_elem_of_In. }
  unfold exits, kExitAccepted, kExitRefused, kExitUsage in *.
  destruct (forallb silent trace); cbn [negb] in He; intuition (congruence || lia).
Qed.

(** ** The conversation of a command *)

(** How the exit code of a command that talks to a coordinator follows from its conversation:
    it is the usage code when there was none, and accepted only when a request was answered. *)
Definition concluded (cv : Conversation) (code : Z) : Prop :=
  match cv with
  | cv_idle => code = kExitUsage
  | cv_done => code = kExitAccepted ∨ code = kExitRefused
  | _ => code = kExitRefused
  end.

(** The same before the socket is shut down. *)
Definition settles (cv : Conversation) (code : Z) : Prop :=
  cv ≠ cv_idle ∧ cv ≠ cv_done ∧
  (code = kExitRefused ∨ code = kExitAccepted ∧ ∃ ack n, cv = cv_session ack n true).

Abbreviation talks p := (monitored talk concluded p cv_idle).
Abbreviation serves p cv := (monitored talk settles p cv).

Lemma usage_talks message : talks (usage_error message).
Proof. by repeat intros []. Qed.
Lemma report_talks what status cv :
  cv ≠ cv_idle → cv ≠ cv_done → serves (report_failure what status) cv.
Proof. intros H H' []. split_and!; [done..|by left]. Qed.
Lemma settled_talks ack n code :
  code = kExitRefused ∨ code = kExitAccepted → settles (cv_session ack n true) code.
Proof. intros H. split_and!; [done..|]. destruct H; [by left | right; eauto]. Qed.
Lemma accepted_if_talks ack n b : settles (cv_session ack n true) (accepted_if b).
Proof. apply settled_talks. destruct b; [by right | by left]. Qed.
Lemma emit_talks {B} (Q : Conversation → B → Prop) line (k : unit → Prog B) cv :
  monitored talk Q (k tt) cv → monitored talk Q (emit line ≫= k) cv.
Proof. by intros H []. Qed.
Lemma emit_raw_talks {B} (Q : Conversation → B → Prop) text (k : unit → Prog B) cv :
  monitored talk Q (k tt) cv → monitored talk Q (emit_raw text ≫= k) cv.
Proof. by intros H []. Qed.
Lemma diagnose_talks {B} (Q : Conversation → B → Prop) line (k : unit → Prog B) cv :
  monitored talk Q (k tt) cv → monitored talk Q (diagnose line ≫= k) cv.
Proof. by intros H []. Qed.
Lemma clock_talks {B} (Q : Conversation → B → Prop) (k : Z → Prog B) cv :
  (∀ now, monitored talk Q (k now) cv) → monitored talk Q (call Clock ≫= k) cv.
Proof. intros H now. apply H. Qed.
Lemma mint_talks {B} (Q : Conversation → B → Prop) (k : Identity → Prog B) cv :
  (∀ id, monitored talk Q (k id) cv) → monitored talk Q (call Mint ≫= k) cv.
Proof. intros H id. apply H. Qed.
Lemma ret_talks {A B} (Q : Conversation → B → Prop) (a : A) (k : A → Prog B) cv :
  monitored talk Q (k a) cv → monitored talk Q (Ret a ≫= k) cv.
Proof. done. Qed.

Lemma pause_talks {B} (Q : Conversation → B → Prop) remaining ms (k : unit → Prog B) cv :
  monitored talk Q (k tt) cv → monitored talk Q (pause_before remaining ms ≫= k) cv.
Proof. destruct remaining; [done|]. cbn. by destruct (negb _); [intros H []|]. Qed.

Lemma or_usage_talks {A} (r : Resolved A) k :
  (∀ a, talks (k a)) → talks (or_usage r k).
Proof. intros H. destruct r; [apply H | apply usage_talks]. Qed.
Lemma refuse_if_talks b message k : talks k → talks (refuse_if b message k).
Proof. intros H. by destruct b; [apply usage_talks|]. Qed.

Lemma with_client_talks port body :
  (∀ ack, serves (body (speaker ack 0)) (cv_session ack 0 false)) → talks (with_client port body).
Proof.
  intros H. unfold with_client. eapply monitored_seq with
    (R := fun cv (r : Client * Z) =>
       match cv with cv_idle | cv_session _ _ true | cv_done => False | _ => True end ∧
       (r.2 = kExitAccepted ∧ (∃ ack, cv = cv_session ack 0 false ∧ r.1 = speaker ack 0) ∨
        r.2 = kExitRefused)).
  - unfold connect_or_report. eapply monitored_seq; [apply connect_talks|].
    intros cv [client status] [Hn Hc]. destruct (is_ok status).
    + split; [done|]. left. split; [done|]. by apply Hc.
    + intros []. split; [done|]. by right.
  - intros cv [client connected] [Hn Hc]. cbn [fst snd] in Hc. apply monitored_bind.
    destruct Hc as [[-> (ack & -> & ->)] | ->]; cbn [Z.eqb negb].
    + eapply monitored_mono; [apply H|]. intros cv code (Hi & Hd & Hcode) [].
      destruct cv as [| | |? ? []|? ? ?| |]; cbn; try done; try by naive_solver.
    + intros []. by destruct cv as [| | |? ? []|? ? ?| |].
Qed.

(** An exchange and what follows: with a result, in the conversation that goes on; or a
    report. *)
Lemma exchange_then {A} ack n served kind body expected unexpected (decode : list Z → Result A)
    `{!Recognises kind expected decode} (k : Client * Result A → Prog Z) :
  protocol_message_requires_request kind = true →
  (∀ m a, serves (k (speaker ack m, Ok a)) (cv_session ack m true)) →
  (∀ cv client status, cv ≠ cv_idle → cv ≠ cv_done → serves (k (client, Fail status)) cv) →
  serves (exchange (speaker ack n) kind body expected unexpected decode ≫= k)
    (cv_session ack n served).
Proof.
  intros Hk Hok Hfail. eapply monitored_seq; [by apply exchange_talks|].
  intros cv [client [a|status]]; [|intros [Hi Hd]; by apply Hfail]. intros (m & -> & E).
  cbn [fst] in E. subst client. apply Hok.
Qed.

(** Optional lines. *)
Lemma quiet_if_talks {B} (Q : Conversation → B → Prop) (b : bool) (p : Prog unit) (k : unit → Prog B) cv :
  (∀ k' : unit → Prog B, monitored talk Q (k' tt) cv → monitored talk Q (p ≫= k') cv) →
  monitored talk Q (k tt) cv → monitored talk Q ((if b then p else Ret tt) ≫= k) cv.
Proof. intros Hp H. destruct b; [by apply Hp | done]. Qed.

Lemma emit_reasons_talks {B} (Q : Conversation → B → Prop) reasons (k : unit → Prog B) cv :
  monitored talk Q (k tt) cv → monitored talk Q (emit_reasons reasons ≫= k) cv.
Proof. intros H. apply quiet_if_talks; [|done]. intros. by apply emit_talks. Qed.

(** One step of a command's proof, by the shape of the program. *)
Ltac talk_step :=
  cbv beta zeta;
  lazymatch goal with
  | |- monitored _ _ (Ret kExitAccepted) _ => by apply settled_talks; right
  | |- monitored _ _ (Ret kExitRefused) _ => by apply settled_talks; left
  | |- monitored _ _ (Ret (accepted_if _)) _ => apply accepted_if_talks
  | |- monitored _ _ (usage_error _) _ => apply usage_talks
  | |- monitored _ _ (report_failure _ _) _ => by apply report_talks
  | |- monitored _ _ (or_usage _ _) _ => apply or_usage_talks; intros ?
  | |- monitored _ _ (refuse_if _ _ _) _ => apply refuse_if_talks
  | |- monitored _ _ (with_client _ _) _ => apply with_client_talks; intros ?
  | |- monitored _ _ (or_report _ _ _) _ => progress cbn [or_report]
  | |- monitored _ _ (mbind _ ?p) _ =>
      lazymatch p with
      | Ret _ => apply ret_talks
      | exchange _ _ _ _ _ _ => apply exchange_then; [apply _ | reflexivity | intros ? ? | intros ? ? ? ? ?]
      | emit _ => apply emit_talks
      | emit_raw _ => apply emit_raw_talks
      | emit_reasons _ => apply emit_reasons_talks
      | diagnose _ => apply diagnose_talks
      | call Clock => apply clock_talks; intros ?
      | call Mint => apply mint_talks; intros ?
      | pause_before _ _ => apply pause_talks
      | if _ then _ else Ret tt =>
          apply quiet_if_talks; [intros ? ?; first [apply emit_talks | apply diagnose_talks]; assumption |]
      end
  | |- monitored _ _ (if ?b then _ else _) _ => destruct b
  end.

Lemma heartbeat_loop_talks remaining index ack n served payload interval finish :
  served = true ∨ remaining ≠ 0%nat →
  (∀ m, serves finish (cv_session ack m true)) →
  serves (heartbeat_loop remaining index (speaker ack n) payload interval finish)
    (cv_session ack n served).
Proof.
  intros Hs H. revert index n served Hs.
  induction remaining as [|rest IH]; intros index n served Hs;
    [destruct Hs as [->|[]]; [apply H | done]|].
  cbn [heartbeat_loop]. unfold cl_heartbeat. repeat talk_step; apply IH; by left.
Qed.

Lemma run_register_talks options : talks (run_register options).
Proof. unfold run_register, cl_register_collective. repeat talk_step. Qed.
Lemma run_begin_attempt_talks options : talks (run_begin_attempt options).
Proof.
  unfold run_begin_attempt, cl_begin_attempt. do 3 talk_step. apply or_usage_talks.
  intros [attempt|]; repeat talk_step.
Qed.
Lemma run_plan_talks options : talks (run_plan options).
Proof. unfold run_plan, cl_plan_flow_group. repeat talk_step. Qed.
Lemma run_inspect_talks options : talks (run_inspect options).
Proof.
  unfold run_inspect, cl_inspect. do 7 talk_step. apply with_client_talks. intros ack.
  apply monitored_bind. eapply monitored_seq; [by apply exchange_talks; [apply _|]|].
  intros cv [client [decoded|status]] H; [|destruct H; by apply report_talks].
  destruct H as (n & -> & E). cbn [fst] in E. subst client.
  apply quiet_if_talks; [intros ? ?; by apply diagnose_talks|]. cbn. intros [].
  apply settled_talks. by right.
Qed.
Lemma run_explain_talks options : talks (run_explain options).
Proof. unfold run_explain, cl_explain. repeat talk_step. Qed.
Lemma run_heartbeat_talks options : talks (run_heartbeat options).
Proof.
  unfold run_heartbeat. do 5 talk_step.
  destruct (resolve_u64 options "--count" 1) as [count|message] eqn:Ec; [|apply usage_talks].
  assert (0 ≤ count) by (eapply resolve_u64_nonneg; [|exact Ec]; lia).
  cbn [or_usage]. unfold refuse_if at 1. destruct (count =? 0) eqn:E; [apply usage_talks|].
  apply Z.eqb_neq in E. do 2 talk_step. apply with_client_talks. intros ack.
  apply heartbeat_loop_talks; [right; lia | intros n; repeat talk_step].
Qed.

Lemma observation_talks ack n o :
  monitored talk (fun cv _ => cv = cv_session ack n false) (observation_payload (speaker ack n) o)
    (cv_session ack n false).
Proof.
  unfold observation_payload. cbv zeta.
  destruct (ob_kind o).2; [apply quiet_if_talks..|]; try (intros ? ?; by apply diagnose_talks).
  all: apply mint_talks; intros ?; apply clock_talks; intros ?; done.
Qed.
Lemma run_evidence_talks options : talks (run_evidence options).
Proof.
  unfold run_evidence, submit_observation, cl_ingest_evidence. cbv zeta.
  do 13 talk_step. apply with_client_talks. intros ack.
  eapply monitored_seq; [apply observation_talks|]. intros ? payload ->. repeat talk_step.
Qed.
Lemma run_install_policy_talks options : talks (run_install_policy options).
Proof. unfold run_install_policy, cl_install_policy. repeat talk_step. Qed.
Lemma run_shutdown_talks options : talks (run_shutdown options).
Proof.
  unfold run_shutdown, cl_request_shutdown. do 2 talk_step. apply monitored_bind.
  eapply monitored_seq; [by apply request_talks|].
  intros cv [[[client status] kind] response] [Ha H].
  assert (cv ≠ cv_idle ∧ cv ≠ cv_done) as [Hi Hd] by (split; intros ->; done).
  destruct (is_ok status) eqn:E; cbn [negb]; [|].
  2: { cbn [monitored mbind Prog_bind prog_bind]. rewrite E. cbn [negb]. by apply report_talks. }
  destruct (H eq_refl) as (m & f & -> & -> & -> & Hans).
  destruct (fm_kind f =? _) eqn:Ek; cbn [negb]; [|by apply (report_talks "shutdown" _)].
  rewrite Hans by (unfold answers; by rewrite Ek). apply emit_talks, settled_talks. by right.
Qed.

(** The self test talks to nobody. *)
Abbreviation hushed p := (monitored talk (fun cv _ => cv = cv_idle) p cv_idle).

Lemma or_failed_talks what status k : hushed k → hushed (or_failed what status k).
Proof. intros H. unfold or_failed. destruct (negb _); [by intros [] | done]. Qed.
Lemma or_not_installed_talks s installed refused k :
  (∀ s, hushed (k s)) → hushed (or_not_installed s installed refused k).
Proof. intros H. unfold or_not_installed. destruct (bool_decide _); [apply H | by intros []]. Qed.
Lemma selftest_publish_talks s context nodes ids participants k :
  (∀ s participants, hushed (k s participants)) →
  hushed (selftest_publish s context nodes ids participants k).
Proof.
  intros H. revert s ids participants. induction nodes as [|node nodes IH]; intros s ids participants;
    cbn [selftest_publish]; [apply H|].
  destruct (minter_next ids) as [ids1 p]. destruct (minter_next ids1) as [ids2 i].
  destruct (publish_participant _ _ _ _ _ _) as [s' status]. apply or_failed_talks, emit_talks, IH.
Qed.
Lemma run_selftest_talks entropy counter : hushed (run_selftest entropy counter).
Proof.
  unfold run_selftest. apply clock_talks. intros now. cbv zeta. apply emit_talks.
  destruct (start _ now) as [[s status]|]; [|done]. apply or_failed_talks, emit_talks.
  unfold selftest_install. destruct (mint s) as [s1 generation].
  do 4 (apply or_not_installed_talks; intros ?; apply emit_talks).
  destruct (open_session _ _ _) as [s5 [binding|refused]]; [|by intros []].
  apply selftest_publish_talks. intros s6 participants. unfold selftest_collective.
  destruct (mint s6) as [s7 id]. destruct (register_collective _ _ _) as [[s8 registered] outcome].
  apply or_failed_talks. destruct (negb _); [by intros []|]. apply emit_talks.
  destruct (mint s8) as [s9 attempt]. destruct (begin_attempt _ _ _ _ _ _) as [[s10 begun] result].
  apply or_failed_talks, emit_talks. unfold selftest_decide.
  destruct (plan_flow_group _ _ _) as [[s11 planned] decision].
  apply or_failed_talks, emit_talks, emit_talks, clock_talks. intros later.
  by apply or_failed_talks.
Qed.

Definition client_commands : list string :=
  ["register"; "begin-attempt"; "plan"; "inspect"; "explain"; "heartbeat"; "evidence";
   "install-policy"; "shutdown"].

Definition asks_coordinator (arguments : list string) : bool :=
  match head arguments with
  | Some command => bool_decide (command ∈ client_commands)
  | None => false
  end.

(** What the conversation of a command line says about its exit code. *)
Definition kept (arguments : list string) (cv : Conversation) (code : option Z) : Prop :=
  if asks_coordinator arguments
  then (code = Some kExitUsage ↔ cv = cv_idle) ∧ (code = Some kExitAccepted → cv = cv_done)
  else cv = cv_idle.

Lemma kept_usage arguments : kept arguments cv_idle (Some kExitUsage).
Proof. unfold kept. by destruct (asks_coordinator arguments). Qed.

Lemma concluded_kept command rest (p : Prog Z) :
  command ∈ client_commands → talks p →
  monitored talk (kept (command :: rest)) (code ← p; Ret (Some code)) cv_idle.
Proof.
  intros Hc H. eapply monitored_seq; [exact H|]. intros cv code Hcv. cbn. unfold kept.
  cbn [asks_coordinator head]. rewrite bool_decide_true by done.
  unfold kExitUsage, kExitAccepted, kExitRefused in *.
  destruct cv; cbn in Hcv; naive_solver.
Qed.

Lemma usage_kept arguments message :
  monitored talk (kept arguments) (code ← usage_error message; Ret (Some code)) cv_idle.
Proof. intros [] []. apply kept_usage. Qed.

Lemma help_kept arguments : monitored talk (kept arguments) print_help cv_idle.
Proof. intros []. apply kept_usage. Qed.

Lemma selftest_kept rest entropy counter :
  monitored talk (kept ("selftest" :: rest)) (run_selftest entropy counter) cv_idle.
Proof. eapply monitored_mono; [apply run_selftest_talks|]. by intros cv code ->. Qed.

Lemma main_talks polls entropy counter arguments :
  head arguments ≠ Some "serve" →
  monitored talk (kept arguments) (main polls entropy counter arguments) cv_idle.
Proof.
  unfold main. destruct arguments as [|command rest]; [intros _; apply help_kept|].
  cbn [head]. intros Hs. destruct (_ || _ || _); [apply help_kept|].
  destruct (parse rest []) as [options|error]; [|apply usage_kept].
  destruct (opt_has options "--help"); [apply help_kept|]. unfold run_command. cbv zeta.
  rewrite (bool_decide_false (command = "serve")) by congruence.
  repeat (case_bool_decide; [subst command; first
    [apply selftest_kept | apply concluded_kept; [by apply (bool_decide_unpack _)|]]|]);
    auto using run_register_talks, run_begin_attempt_talks, run_plan_talks, run_inspect_talks,
      run_explain_talks, run_heartbeat_talks, run_evidence_talks, run_install_policy_talks,
      run_shutdown_talks, usage_kept.
Qed.

(** C14: every command line but [serve] keeps the protocol, whatever the coordinator answers:
    it opens at most one connection, greets it with a hello that claims no identity, waits for
    the acknowledgement, and from there sends only requests, each under the session,
    incarnation and epoch it was given, with sequence and correlation numbers that count up
    from 1, and none before the previous one was answered by the acknowledgement that belongs
    to it: after a failed call, an error response or anything else it sends nothing more.  A
    command that asks a coordinator connects unless it exits with the usage code, and then
    does not; it exits with accepted only after a request was answered and the connection shut
    down.  The other command lines talk to nobody. *)
Theorem tool_keeps_protocol (polls : nat) (entropy counter : Z) (arguments : list string)
    (trace : list Event) (code : option Z) :
  head arguments ≠ Some "serve" →
  runs (main polls entropy counter arguments) trace code →
  ∃ cv, follow talk trace cv_idle = Some cv ∧
    if asks_coordinator arguments
    then (code = Some kExitUsage ↔ cv = cv_idle) ∧ (code = Some kExitAccepted → cv = cv_done)
    else cv = cv_idle.
Proof.
  intros Hs Hr. exact (monitored_runs _ _ _ _ _ _ (main_talks _ _ _ _ Hs) Hr).
Qed.

(** ** Termination *)

(** Nothing is watched; only the result counts. *)
Definition unwatched (_ : unit) (_ : Event) : option unit := Some tt.
Abbreviation ends p := (monitored unwatched (fun _ (code : option Z) => code ≠ None) p tt).

Lemma unwatched_any {A} (p : Prog A) : monitored unwatched (fun _ _ => True) p tt.
Proof. induction p as [a|c k IH]; [done|]. cbn. auto. Qed.

Lemma ends_seq {A} (p : Prog A) (k : A → Prog (option Z)) : (∀ a, ends (k a)) → ends (p ≫= k).
Proof. intros H. eapply monitored_seq; [apply unwatched_any|]. intros []. done. Qed.

Lemma or_failed_ends what status k : ends k → ends (or_failed what status k).
Proof. intros H. unfold or_failed. destruct (negb _); [by apply ends_seq | done]. Qed.
Lemma or_not_installed_ends s installed refused k :
  (∀ s, ends (k s)) → ends (or_not_installed s installed refused k).
Proof. intros H. unfold or_not_installed. destruct (bool_decide _); [apply H | by apply ends_seq]. Qed.
Lemma selftest_publish_ends s context nodes ids participants k :
  (∀ s participants, ends (k s participants)) →
  ends (selftest_publish s context nodes ids participants k).
Proof.
  intros H. revert s ids participants. induction nodes as [|node nodes IH]; intros s ids participants;
    cbn [selftest_publish]; [apply H|].
  destruct (minter_next ids) as [ids1 p]. destruct (minter_next ids1) as [ids2 i].
  destruct (publish_participant _ _ _ _ _ _) as [s' status].
  apply or_failed_ends, ends_seq. intros _. apply IH.
Qed.

Lemma selftest_decide_ends s context request : ends (selftest_decide s context request).
Proof.
  unfold selftest_decide. destruct (plan_flow_group _ _ _) as [[s11 planned] decision].
  apply or_failed_ends. do 3 (apply ends_seq; intros ?). by apply or_failed_ends.
Qed.

Lemma selftest_collective_ends s context participants :
  ends (selftest_collective s context participants).
Proof.
  unfold selftest_collective. destruct (mint s) as [s7 id].
  destruct (register_collective _ _ _) as [[s8 registered] outcome]. cbv zeta.
  apply or_failed_ends. destruct (negb _); [by apply ends_seq|]. apply ends_seq. intros _.
  destruct (mint s8) as [s9 attempt]. destruct (begin_attempt _ _ _ _ _ _) as [[s10 begun] result].
  apply or_failed_ends, ends_seq. intros _. apply selftest_decide_ends.
Qed.

(** The service of the self test starts within the fuel. *)
Lemma selftest_starts entropy counter now :
  is_u64 counter → ∃ s, start (service_new config_default entropy counter) now = Some (s, status_ok).
Proof.
  intros Hc. destruct (start_spec (service_new config_default entropy counter) now)
    as (s & E & _); [by apply service_new_wf | done |]. by exists s.
Qed.

Lemma run_selftest_ends entropy counter : is_u64 counter → ends (run_selftest entropy counter).
Proof.
  intros Hc. unfold run_selftest. apply ends_seq. intros now. cbv zeta. apply ends_seq. intros _.
  destruct (selftest_starts entropy counter now Hc) as [s ->]. apply or_failed_ends, ends_seq.
  intros _. unfold selftest_install. destruct (mint s) as [s1 generation].
  do 4 (apply or_not_installed_ends; intros ?; apply ends_seq; intros _).
  destruct (open_session _ _ _) as [s5 [binding|refused]]; [|by apply ends_seq].
  apply selftest_publish_ends. intros s6 participants. apply selftest_collective_ends.
Qed.

Lemma main_ends polls entropy counter arguments :
  head arguments ≠ Some "serve" → is_u64 counter → ends (main polls entropy counter arguments).
Proof.
  intros Hs Hc. unfold main. destruct arguments as [|command arguments]; [by apply ends_seq|].
  cbn [head] in Hs. destruct (_ || _ || _); [by apply ends_seq|].
  destruct (parse arguments []) as [options|error]; [|by apply ends_seq].
  destruct (opt_has options "--help"); [by apply ends_seq|]. unfold run_command. cbv zeta.
  rewrite (bool_decide_false (command = "serve")) by congruence.
  repeat first [case_bool_decide | by apply ends_seq | by apply run_selftest_ends].
Qed.

(** Every command but [serve] ends with one of the three exit codes, in every environment:
    the calls it makes are finitely many whatever they are answered with, and the self test's
    own coordinator starts whatever the entropy and the counter of the minter are. *)
Theorem tool_terminates {W} (env : ∀ c : Call, W → W * Answer c) (w : W) (polls : nat)
    (entropy counter : Z) (arguments : list string) :
  head arguments ≠ Some "serve" → is_u64 counter →
  ∃ code, (exec env (main polls entropy counter arguments) w).2 = Some code ∧
    (code = kExitAccepted ∨ code = kExitRefused ∨ code = kExitUsage).
Proof.
  intros Hs Hc. destruct (exec_runs env (main polls entropy counter arguments) w) as [trace Hr].
  destruct (monitored_runs _ _ _ _ _ _ (main_ends polls entropy counter _ Hs Hc) Hr) as (u & _ & Hn).
  destruct (monitored_runs _ _ _ _ _ _ (main_exits polls entropy counter arguments) Hr)
    as (b & _ & He).
  destruct ((exec env _ w).2) as [code|]; [|done]. exists code. split; [done|].
  unfold exits_some, exits in He. destruct b; intuition.
Qed.

(** ** Runs *)

(** An environment with fixed answers: every connection is accepted, and everything that is
    received is the acknowledgement of a hello. *)
Definition greeting_world (c : Call) (_ : unit) : unit * Answer c :=
  (tt, match c return Answer c with
       | Out _ | Err _ | Sleep _ | Shutdown => tt
       | Clock => 1000
       | Mint => mkIdentity 3 3
       | Connect _ | Send _ | StopServer _ => status_ok
       | Receive =>
           (status_ok, mkFrame (enum_raw MessageKind.kHelloAck) (Z.lor kFlagResponse kFlagFinal)
              envelope_default (writer_hello_ack (mkHelloAckPayload (mkIdentity 1 1) (mkIdentity 1 2)
                (mkIdentity 1 3) id_none id_none id_none id_none 0 "")))
       | StartServer _ _ _ => (status_ok, 7000, mkIdentity 1 3)
       | ShutdownRequested => false
       end).

Lemma exit_usage_iff_silent_witness : ∃ trace,
  runs (main 0 7 1 ["plan"; "--port"; "70000"]) trace (Some kExitUsage) ∧
  Forall (fun e => silent e = true) trace.
Proof.
  destruct (exec_runs greeting_world (main 0 7 1 ["plan"; "--port"; "70000"]) tt) as [trace H].
  exists trace.
  assert ((exec greeting_world (main 0 7 1 ["plan"; "--port"; "70000"]) tt).2 = Some kExitUsage)
    as E by (vm_compute; reflexivity).
  rewrite E in H. split; [exact H|].
  apply (exit_usage_iff_silent 0 7 1 ["plan"; "--port"; "70000"] trace kExitUsage H). reflexivity.
Defined.

Lemma tool_keeps_protocol_witness : ∃ trace cv,
  runs (main 0 7 1 ["shutdown"; "--port"; "7000"]) trace (Some kExitRefused) ∧
  follow talk trace cv_idle = Some cv ∧ cv ≠ cv_idle.
Proof.
  destruct (exec_runs greeting_world (main 0 7 1 ["shutdown"; "--port"; "7000"]) tt) as [trace H].
  assert ((exec greeting_world (main 0 7 1 ["shutdown"; "--port"; "7000"]) tt).2 =
    Some kExitRefused) as E by (vm_compute; reflexivity).
  rewrite E in H.
  destruct (tool_keeps_protocol 0 7 1 ["shutdown"; "--port"; "7000"] trace (Some kExitRefused))
    as (cv & Hcv & [Hu _]); [discriminate | exact H|].
  exists trace, cv. split; [exact H|]. split; [exact Hcv|].
  intros Hidle. apply Hu in Hidle. discriminate.
Defined.

Lemma tool_terminates_witness : ∃ code,
  (exec greeting_world (main 0 12345 1 ["selftest"]) tt).2 = Some code ∧
  (code = kExitAccepted ∨ code = kExitRefused ∨ code = kExitUsage).
Proof. apply (tool_terminates greeting_world tt 0 12345 1 ["selftest"]); [discriminate | easy]. Defined.
