(* ===== verification/Selftest.v ===== *)
(** The self test of the control tool ([run_selftest] of [tools/ctfctl.cpp]) succeeds: whatever
    the entropy and the counter of the process minter are, and whatever the clock reads short of
    its overflow, its coordinator admits the collective and the tool exits with the accepting
    code. *)
From S2P Require Import Prelude Identity Errors Participant Collective FlowGroup Traffic.
From S2P Require Import Evidence Sync Decision Engine Admission Catalog Authority Service.
From S2P Require Import Protocol Coordinator Program Options Client Workload Bringup Ctl.

(** ** The clock *)

(** A reading that leaves room for the lifetime of a participant. *)
Definition timely (e : Event) : bool :=
  match e with
  | EClock now => (0 <=? now) && (now + cf_participant_ttl_ms config_default <? two64)
  | _ => true
  end.

Definition watch_clock (ok : bool) (e : Event) : option bool := Some (ok && timely e).

(** The program ends with [code], unless a reading of the clock was out of range. *)
Abbreviation exits_with code p :=
  (monitored watch_clock (fun ok (result : option Z) => ok = true → result = Some code) p).

Lemma late_exits code p : exits_with code p false.
Proof. induction p as [a|c k IH]; [done|]. cbn. intros r. apply IH. Qed.

Lemma emit_exits code line (k : unit → Prog (option Z)) :
  exits_with code (k tt) true → exits_with code (emit line ≫= k) true.
Proof. intros H. cbn. intros []. exact H. Qed.

Lemma clock_exits_with code (k : Z → Prog (option Z)) :
  (∀ now, 0 ≤ now → now + cf_participant_ttl_ms config_default < two64 →
     exits_with code (k now) true) →
  exits_with code (call Clock ≫= k) true.
Proof.
  intros H now. unfold watch_clock. cbn [event andb].
  destruct (timely (EClock now)) eqn:E; [|apply late_exits].
  unfold timely in E. apply andb_prop in E as [E1 E2].
  apply H; [by apply Z.leb_le | by apply Z.ltb_lt].
Qed.

Lemma or_failed_exits_with code what status k :
  status = status_ok → exits_with code k true → exits_with code (or_failed what status k) true.
Proof. by intros ->. Qed.

Lemma or_not_installed_exits_with code s installed refused k :
  installed.2 = InstallResult.kInstalled →
  exits_with code (k (s <| sv_authority := installed.1 |>)) true →
  exits_with code (or_not_installed s installed refused k) true.
Proof. intros E H. unfold or_not_installed. by rewrite bool_decide_eq_true_2. Qed.

(** ** The fabric *)
#[export] Instance selftest_fabric now :
  Fabric (make_synthetic_fabric kSyntheticFabricSeed now) now.
Proof.
  split; try (by vm_compute).
  set (f := make_synthetic_fabric _ _).
  assert (sf_nodes f = sf_nodes (make_synthetic_fabric kSyntheticFabricSeed 0)) as -> by done.
  vm_compute sf_nodes. repeat constructor; eexists; by vm_compute.
Qed.

(** ** Participants *)

(** The participants and their incarnations, from one minter. *)
Fixpoint paired (count : nat) (ids : Z) : list (Identity * Identity) :=
  match count with
  | O => []
  | S count =>
      let '(ids, participant) := minter_next ids in
      let '(ids, incarnation) := minter_next ids in
      (participant, incarnation) :: paired count ids
  end.

Lemma selftest_publish_exits_with code f pg context nodes ids participants k s :
  0 ≤ cx_now_monotonic_ms context →
  cx_now_monotonic_ms context + cf_participant_ttl_ms config_default < two64 →
  nodes ⊆ sf_nodes f → zlen participants + zlen nodes < limits.kPeersMax →
  prepared s context f pg participants →
  NoDup (participants ++ (paired (length nodes) ids).*1) →
  Forall (fun pi => pi.1 ≠ id_none ∧ pi.2 ≠ id_none) (paired (length nodes) ids) →
  (∀ s', prepared s' context f pg (participants ++ (paired (length nodes) ids).*1) →
     untouched s s' → exits_with code (k s' (participants ++ (paired (length nodes) ids).*1)) true) →
  exits_with code (selftest_publish s context nodes ids participants k) true.
Proof.
  intros Hn1 Hn2. revert s ids participants. induction nodes as [|node nodes IH];
    intros s ids participants Hsub Hlen Hs Hnd Hsome Hk.
  { cbn in *. rewrite app_nil_r in *. by apply Hk. }
  cbn [selftest_publish paired length] in *.
  destruct (minter_next ids) as [ids1 p]. destruct (minter_next ids1) as [ids2 i].
  apply Forall_cons in Hsome as [[Hp Hi] Hsome]. cbn [fmap list_fmap fst] in *.
  assert (p ∉ participants) by (apply NoDup_app in Hnd as (_ & Hd & _); set_solver).
  pose proof (publish_new f pg context Hn1 Hn2 s participants p i node Hs ltac:(done) Hp Hi
    ltac:(set_solver) ltac:(unfold zlen in *; cbn [length] in Hlen; lia)) as Hpub.
  destruct (publish_participant _ _ _ _ _ _) as [s1 status]. destruct Hpub as (-> & Hs1 & Hu1).
  apply or_failed_exits_with; [done|]. apply emit_exits.
  rewrite cons_middle, app_assoc in Hnd, Hk.
  apply IH; try done; [set_solver | unfold zlen in *; rewrite length_app; cbn [length] in *; lia|].
  intros s' Hs' Hu'. apply Hk; [done|]. unfold untouched in *. naive_solver congruence.
Qed.

Lemma selftest_pairs :
  let pairs := paired (length (sf_nodes (make_synthetic_fabric kSyntheticFabricSeed 0)))
    (minter_new kSyntheticParticipantSeed) in
  NoDup pairs.*1 ∧ Forall (fun pi => pi.1 ≠ id_none ∧ pi.2 ≠ id_none) pairs ∧
  length pairs = 4%nat.
Proof.
  cbv zeta. split_and!; [apply (bool_decide_unpack _); by vm_compute | | by vm_compute].
  vm_compute paired. by repeat constructor.
Qed.

(** ** The collective *)

(** The plan the self test builds over its participants, of any instance that is set. *)
Lemma selftest_ring ps instance :
  ps = (paired 4 (minter_new kSyntheticParticipantSeed)).*1 →
  ci_id instance ≠ id_none → ci_generation instance ≠ id_none → ci_attempt instance ≠ id_none →
  let members := canonicalize_participants ps in
  let plan := build_plan FlowPattern.kRing CollectiveClass.kAllReduce instance members 1 in
  (∃ group, construct_flow_group plan members = Ok group) ∧
  zlen (fp_edges plan) ≤ limits.kEdgesMaxPerFlowGroup.
Proof.
  intros -> H1 H2 H3. cbv zeta. set (members := canonicalize_participants _).
  pose (one := mkIdentity 0 1). pose (plan0 := build_plan FlowPattern.kRing
    CollectiveClass.kAllReduce (mkCollectiveInstance one one one 0) members 1).
  assert (plan_valid plan0 members) as (_ & _ & _ & V4 & V5 & V6 & V7 & V8 & V9)
    by (apply validate_flow_group_plan_iff; by vm_compute).
  split; [|exact V5]. apply constructs_iff. by split_and!.
Qed.

(** The decision on the ring of a collective that was begun. *)
Lemma selftest_decide_exits_with s0 s context f pg ps cid attempt record :
  Fabric f (cx_now_monotonic_ms context) → pg ≠ id_none → prepared s context f pg ps →
  ps = (paired 4 (minter_new kSyntheticParticipantSeed)).*1 →
  cid ≠ id_none → attempt ≠ id_none → begun s0 s (selftest_definition cid ps) attempt record →
  sv_admission s = admission_new limits.kTokenBucketsMax →
  let definition := selftest_definition cid ps in
  let instance := mkCollectiveInstance cid (cd_generation (cr_definition record)) attempt 0 in
  exits_with kExitAccepted
    (selftest_decide s context (selftest_request s instance (cd_participants definition))) true.
Proof.
  intros Hf Hpg Hs Hps Hid Hatt Hb Hadm. cbv zeta. unfold selftest_decide.
  pose proof (begun_find _ _ _ _ _ Hb) as Hfind. destruct Hb as [_ _ _ _ _ _ Hdef Hst Hcur].
  assert (cd_generation (cr_definition record) ≠ id_none) as Hg0
    by (rewrite Hdef; apply mint_generation_some).
  set (instance := mkCollectiveInstance cid (cd_generation (cr_definition record)) attempt 0).
  destruct (selftest_ring ps instance Hps Hid Hg0 Hatt) as [[group Hgroup] Hedges].
  set (request := selftest_request s instance (cd_participants (selftest_definition cid ps))).
  assert (is_ok (validate_decision_request request) = true) as Hval by (by apply request_valid).
  pose proof (plan_admits f pg context Hpg s ps Hs request record Hval ltac:(by split_and!) eq_refl
    Hfind eq_refl Hcur ltac:(by rewrite Hcur) Hst
    ltac:(rewrite Hdef; intros x Hx; by apply canonicalize_elem) group
    ltac:(rewrite Hdef; exact Hgroup) ltac:(by rewrite Hdef) eq_refl Hadm) as Hplan.
  pose proof (plan_fronted s context request) as Hf5.
  destruct (plan_flow_group s context request) as [[s5 status] decided].
  destruct Hplan as (-> & (d & -> & Hd & _) & _). cbn [fst] in Hf5.
  apply or_failed_exits_with; [done|]. change (default ?x (Some d)) with d.
  apply emit_exits, emit_exits. apply clock_exits_with. intros now _ _.
  apply or_failed_exits_with.
  - apply stop_running. destruct Hf5 as [-> _]. apply Hs.
  - cbn. by rewrite bool_decide_eq_true_2.
Qed.

(** From a prepared coordinator with an empty catalog to the exit code. *)
Lemma selftest_collective_exits_with s context f pg ps :
  Fabric f (cx_now_monotonic_ms context) → pg ≠ id_none → prepared s context f pg ps →
  ps = (paired 4 (minter_new kSyntheticParticipantSeed)).*1 →
  sv_catalog s = catalog_new limits.kCollectivesMaxLive →
  sv_admission s = admission_new limits.kTokenBucketsMax →
  exits_with kExitAccepted (selftest_collective s context ps) true.
Proof.
  intros Hf Hpg Hs Hps Hcat Hadm. unfold selftest_collective.
  pose proof (prepared_mint _ _ _ _ _ Hs) as Hs1.
  destruct (mint_spec s) as (Hid & Ec1 & Ea1 & _).
  destruct (mint s) as [s1 cid]. cbn [fst snd] in *.
  assert (is_ok (validate_definition (selftest_definition cid ps)) = true) as Hv.
  { apply (definition_valid _ ps); try done; [by left | ..]; rewrite Hps;
      [done | by apply (bool_decide_unpack _); vm_compute
      | by apply (bool_decide_unpack _); vm_compute | by vm_compute]. }
  pose proof (register_begin s1 context f pg ps (selftest_definition cid ps) kSyntheticLogicalBytes
    Hs1 Hv eq_refl ltac:(rewrite Ec1, Hcat; apply lookup_empty)
    ltac:(rewrite Ec1, Hcat; cbn; by rewrite mapsize_empty)) as Hreg.
  cbv zeta. destruct (register_collective _ _ _) as [[s2 status] registered].
  destruct Hreg as (-> & outcome & -> & Hres & Hg0 & Hgen & Hbeg).
  apply or_failed_exits_with; [done|]. change (default ?d (Some outcome)) with outcome.
  rewrite Hres, bool_decide_eq_true_2 by done. cbn [negb]. apply emit_exits.
  destruct (mint s2) as [s3 attempt]. destruct Hbeg as [Hatt Hbeg].
  change (cd_id (selftest_definition cid ps)) with cid in Hbeg.
  destruct (Service.begin_attempt _ _ _ _ _ _) as [[s4 status] begun].
  destruct Hbeg as (-> & Hs4 & record & Hb). apply or_failed_exits_with; [done|]. apply emit_exits.
  replace (ro_generation outcome) with (cd_generation (cr_definition record))
    by (rewrite (bg_definition _ _ _ _ _ Hb); symmetry; exact Hgen).
  apply (selftest_decide_exits_with s1 s4 context f pg); try assumption.
  - rewrite Hatt. apply mint_identity_some.
  - by rewrite (bg_admission _ _ _ _ _ Hb), Ea1.
Qed.

(** ** The whole command *)
Lemma selftest_install_exits_with code entropy counter f now k :
  Fabric f now →
  (∀ s pg, pg ≠ id_none → outfitted s f pg → exits_with code (k s) true) →
  exits_with code (selftest_install (started entropy counter) f k) true.
Proof.
  intros Hf Hk. unfold selftest_install.
  pose proof (mint_identity_some entropy (sv_mint_counter (started entropy counter))) as Hpg.
  change (mint (started entropy counter)) with
    ((started entropy counter) <| sv_mint_counter ::= fun c => w64 (c + 1) |>,
     mint_identity entropy (sv_mint_counter (started entropy counter))).
  cbv beta iota. generalize dependent (mint_identity entropy (sv_mint_counter (started entropy counter))).
  intros pg Hpg.
  pose proof (started_outfits entropy counter (w64 (sv_mint_counter (started entropy counter) + 1))
    f now pg Hf Hpg) as Hall. cbv zeta in Hall.
  set (s := set_field sv_mint_counter _ (started entropy counter)).
  change (set_field sv_mint_counter _ (started entropy counter)) with s in Hall. clearbody s.
  unfold install_all in Hall.
  destruct (Authority.install_policy (sv_authority s) _) as [a1 r1] eqn:E1.
  destruct (install_topology a1 _) as [a2 r2] eqn:E2.
  destruct (install_capacity a2 _) as [a3 r3] eqn:E3.
  destruct (install_congestion a3 _) as [a4 r4] eqn:E4.
  destruct Hall as ([= -> -> -> ->] & Hout).
  apply or_not_installed_exits_with; [done|]. apply emit_exits.
  change (install_topology _ ?t) with (install_topology a1 t). rewrite E2.
  apply or_not_installed_exits_with; [done|]. apply emit_exits.
  change (install_capacity _ ?c) with (install_capacity a2 c). rewrite E3.
  apply or_not_installed_exits_with; [done|]. apply emit_exits.
  change (install_congestion _ ?c) with (install_congestion a3 c). rewrite E4.
  apply or_not_installed_exits_with; [done|]. apply emit_exits. apply (Hk _ pg Hpg). exact Hout.
Qed.

Lemma run_selftest_exits_with entropy counter :
  exits_with kExitAccepted (run_selftest entropy counter) true.
Proof.
  unfold run_selftest. apply clock_exits_with. intros now Hn1 Hn2. cbv zeta.
  set (f := make_synthetic_fabric kSyntheticFabricSeed now). apply emit_exits.
  rewrite start_new. apply or_failed_exits_with; [done|]. apply emit_exits.
  apply (selftest_install_exits_with _ _ _ _ now); [apply selftest_fabric|]. intros s pg Hpg Hs.
  pose proof (outfitted_opens s f pg "ctfctl-selftest" now 1 Hs) as Ho.
  destruct (open_session s _ now) as [s1 opened]. destruct Ho as (-> & Hs1 & Ec1 & Ea1 & _).
  fold (context_of (first_binding s "ctfctl-selftest" now) now 1).
  set (context := context_of (first_binding s "ctfctl-selftest" now) now 1) in *.
  destruct selftest_pairs as (P1 & P2 & _).
  apply (selftest_publish_exits_with _ f pg); try done.
  intros s2 Hs2 (Ec2 & Ea2 & _). eapply selftest_collective_exits_with; try done.
  - apply selftest_fabric.
  - by rewrite Ec2, Ec1, (of_catalog _ _ _ Hs).
  - by rewrite Ea2, Ea1, (of_admission _ _ _ Hs).
Qed.

(** What a program that watches the clock ends with, in an environment whose clock is in range. *)
Lemma exec_watched {W A} (env : ∀ c : Call, W → W * Answer c) (Q : bool → A → Prop) (p : Prog A) w :
  (∀ w, timely (EClock (env Clock w).2) = true) →
  monitored watch_clock Q p true → Q true (exec env p w).2.
Proof.
  intros Ht. revert w. induction p as [a|c k IH]; intros w Hm; [done|].
  cbn [exec]. specialize (Hm (env c w).2).
  assert (timely (event c (env c w).2) = true) as E by (destruct c; try done; apply Ht).
  unfold watch_clock in Hm. rewrite E in Hm. destruct (env c w) as [w' r]. by apply IH.
Qed.

(** C11: the self test succeeds.  In every environment whose clock leaves room for the lifetime
    of a participant, whatever the entropy and the counter of the process minter are,
    [ctfctl selftest] ends and exits with the accepting code: its coordinator starts, installs
    the standard policy and the synthetic fabric, accepts the session and the participants,
    registers the collective, begins its attempt, and admits the flow group of its ring. *)
Theorem selftest_accepts {W} (env : ∀ c : Call, W → W * Answer c) (w : W) (polls : nat)
    (entropy counter : Z) :
  (∀ w, timely (EClock (env Clock w).2) = true) →
  (exec env (main polls entropy counter ["selftest"]) w).2 = Some kExitAccepted.
Proof.
  intros Ht. apply (exec_watched env (fun ok code => ok = true → code = Some kExitAccepted));
    [exact Ht | apply run_selftest_exits_with | reflexivity].
Qed.

Lemma selftest_accepts_witness :
  (exec greeting_world (main 0 12345 1 ["selftest"]) tt).2 = Some kExitAccepted.
Proof. apply (selftest_accepts greeting_world tt 0 12345 1). intros []. vm_compute. reflexivity. Defined.
