(* ===== verification/Link.v ===== *)
(** The control tool against the coordinator: [Client] and [Coordinator] over the wire format of
    [Protocol].

    [Remote] is the environment of a tool that talks to a coordinator server over one
    connection: a frame that is sent is encoded, decoded and given to [on_frame], and the
    responses come back the same way.  The clocks, the minted identities and the answers of the
    snapshot store are arguments, one per call, so the theorems hold for all of them. *)
From S2P Require Import Prelude Identity Errors Participant Collective FlowGroup Traffic.
From S2P Require Import Evidence Sync Decision Engine Admission Catalog Authority History Service.
From S2P Require Import Codec Checksum Protocol WireData Messages Transport Coordinator.
From S2P Require Import Program Options Client Workload Ctl.

(** ** Calls keep the session of their caller *)

(** The epoch and, for each session, the incarnation and the last sequence number. *)
Definition session_kept (s s' : CoordinatorService) : Prop :=
  au_epoch (sv_authority s') = au_epoch (sv_authority s) ∧
  ∀ id b, sv_sessions s !! id = Some b →
    ∃ b', sv_sessions s' !! id = Some b' ∧ sb_incarnation b' = sb_incarnation b ∧
      sb_last_frame_sequence b' = sb_last_frame_sequence b.

Lemma session_kept_refl s : session_kept s s.
Proof. split; [done|]. intros id b Hb. by exists b. Qed.
Lemma session_kept_trans s1 s2 s3 : session_kept s1 s2 → session_kept s2 s3 → session_kept s1 s3.
Proof.
  intros [E1 H1] [E2 H2]. split; [congruence|]. intros id b Hb.
  destruct (H1 id b Hb) as (b1 & Hb1 & ? & ?). destruct (H2 id b1 Hb1) as (b2 & Hb2 & ? & ?).
  exists b2. split_and!; congruence.
Qed.

Lemma session_kept_same s s' :
  call_step s s' → sv_sessions s' = sv_sessions s → session_kept s s'.
Proof.
  intros Hc E. split; [|intros id b Hb; exists b; by rewrite E].
  by apply live_steps_epoch, ev_authority, call_step_evolves.
Qed.

Lemma publish_kept s context p i node state :
  session_kept s (publish_participant s context p i node state).1.
Proof.
  assert (call_step s (publish_participant s context p i node state).1) as Hc by (by constructor).
  split; [by apply live_steps_epoch, ev_authority, call_step_evolves|]. clear Hc. intros id b Hb.
  assert (sv_sessions (publish_participant s context p i node state).1 = sv_sessions s ∨
    ∃ g : SessionBinding → SessionBinding, (∀ b, sb_incarnation (g b) = sb_incarnation b ∧
      sb_last_frame_sequence (g b) = sb_last_frame_sequence b) ∧
    sv_sessions (publish_participant s context p i node state).1 =
      alter g (cx_session context) (sv_sessions s)) as [->|(g & Hg & ->)].
  { unfold publish_participant. cbv zeta. destruct (_ || _); [by left|].
    destruct (negb _); destruct (publish_liveness _ _) as [a []]; try (by left).
    all: right; eexists; split; [|reflexivity]; done. }
  - by exists b.
  - destruct (decide (cx_session context = id)) as [->|Hne].
    + rewrite lookup_alter_eq, Hb. exists (g b). split; [done | apply Hg].
    + rewrite lookup_alter_ne by done. by exists b.
Qed.

Lemma plan_kept s context request :
  session_kept s (plan_flow_group s context request).1.1.
Proof.
  apply session_kept_same; [constructor|]. unfold plan_flow_group, answer_stale. cbv zeta.
  destruct (negb (sv_running s)); [done|]. destruct (plan_gate _ _); [done|].
  destruct (negb (is_ok _)); [done|]. destruct (catalog_find _ _) as [record|]; [|done].
  repeat (case_match; [done|]). unfold settle, apply_admission.
  generalize (evaluated_decision s (cx_now_monotonic_ms context) request record). intros d.
  destruct (outcome_grants_authority _).
  - destruct (set_state _ _ _ _) as [c advanced]. destruct (negb (is_ok advanced)).
    + by destruct (history_record _ _).
    + destruct (admit_decision _ _ _) as [a admission].
      destruct (ar_outcome admission); by destruct (history_record _ _).
  - destruct (outcome_is_rejection _); [|destruct (outcome_requires_replan _)];
      [destruct (bool_decide _), (bool_decide _)|..]; by destruct (history_record _ _).
Qed.

Lemma mint_if_none_sessions s g : sv_sessions (mint_if_none s g).1 = sv_sessions s.
Proof. unfold mint_if_none, mint. by destruct (is_none g). Qed.

(** The evidence calls differ in what they install. *)
Ltac ingest_sessions :=
  let Hm := fresh "Hm" in
  match goal with |- context [mint_if_none ?s ?g] =>
    pose proof (mint_if_none_sessions s g) as Hm; destruct (mint_if_none s g) as [? ?]
  end;
  cbn [fst] in Hm; repeat case_match; exact Hm.

Lemma mutation_sessions context s s' : mutation context s s' → sv_sessions s' = sv_sessions s.
Proof.
  intros [|d|id g a bytes|id g a reasons|id g a reasons|e reasons|e reasons|e reasons|p reasons].
  - done.
  - unfold register_collective. destruct (negb _); [done|]. destruct (negb _); [done|].
    destruct (register_definition _ _ _) as [c outcome]. by destruct (ro_result outcome).
  - unfold begin_attempt. destruct (negb _); [done|]. destruct (catalog_find _ _); [|done].
    destruct (negb _); [done|]. destruct (collective_state_is_terminal _); [done|].
    by destruct (Catalog.begin_attempt _ _ _ _) as [catalog [previous|status]].
  - unfold cancel_collective. by repeat case_match.
  - unfold retire_collective. by repeat case_match.
  - unfold ingest_capacity. destruct (check_context_locked _ _ _) as [rs authority].
    destruct (negb _); [done|]. ingest_sessions.
  - unfold ingest_congestion. destruct (check_context_locked _ _ _) as [rs authority].
    destruct (negb _); [done|]. ingest_sessions.
  - unfold ingest_topology. destruct (check_context_locked _ _ _) as [rs authority].
    destruct (negb _); [done|]. ingest_sessions.
  - unfold install_policy. destruct (check_context_locked _ _ _) as [rs authority].
    destruct (negb _); [done|]. ingest_sessions.
Qed.

Lemma flush_kept s now save : session_kept s (flush s now save).1.
Proof.
  unfold flush, flush_begin, write_done. destruct (_ =? 0); [apply session_kept_refl|].
  destruct (negb (sv_persistence_dirty s)); [apply session_kept_refl|].
  destruct (negb (is_ok _)); [split; [done|]; intros id b Hb; by exists b|].
  split; [|intros id b Hb; exists b]; by repeat case_match.
Qed.

Lemma served_kept io s context kind service writes :
  served io s context kind service writes → session_kept (co_service s) service.
Proof.
  intros [|p i node state|request _|service' Hm].
  - apply session_kept_refl.
  - apply publish_kept.
  - apply plan_kept.
  - apply session_kept_trans with service'.
    + destruct Hm; [apply session_kept_refl|..]; (apply session_kept_same; [by constructor|]);
        eapply mutation_sessions; constructor.
    + subst persisted. unfold persist_if_configured. destruct (negb _); [apply session_kept_refl | apply flush_kept].
Qed.

(** ** The coordinator as environment *)
Record Remote := mkRemote {
  rm_server : CoordinatorServer;
  rm_inbox : list Frame;
  rm_open : bool;
  rm_time : nat;
  rm_output : list string;
}.
#[export] Instance Remote_eta : Eta Remote :=
  fun r => mkRemote (rm_server r) (rm_inbox r) (rm_open r) (rm_time r) (rm_output r).

(** What arrives of a frame. *)
Definition carried (f : Frame) : Result Frame :=
  let? bytes := encode_frame f in
  let? received := decode_frame bytes in
  Ok received.1.

(** The socket takes the bytes of every frame that can be encoded. *)
Definition wire_io (io : Io) : Io :=
  mkIo (io_now io) (io_flush_now io) (io_summary_now io) (fun _ => status_ok) (io_save io).

Definition take_action (w : Remote) (a : Action) : Remote :=
  match a with
  | Wrote _ _ => w
  | Sent _ f =>
      match carried f with Ok f => w <| rm_inbox ::= fun l => l ++ [f] |> | Fail _ => w end
  | ShutdownSocket _ => w <| rm_open := false |>
  end.

Definition handled (w : Remote) (h : Handled) : Remote :=
  foldl take_action (w <| rm_server := h.1 |>) h.2.

Lemma writes_unseen w writes : Forall is_write writes → foldl take_action w writes = w.
Proof. induction 1 as [|[] writes Ha _ IH]; by cbn in *. Qed.

Definition closed : Status := mkStatus ErrorCode.kTransportClosed "connection is closed".

Section remote.
Context (ios : nat → Io) (clock : nat → Z) (minted : nat → Identity) (connection : nat).

Definition io_of (w : Remote) : Io := wire_io (ios (rm_time w)).
Definition tick (w : Remote) : Remote := w <| rm_time ::= S |>.

Definition remote (c : Call) (w : Remote) : Remote * Answer c :=
  match c with
  | Out text => (tick (w <| rm_output ::= fun l => l ++ [text] |>), tt)
  | Err _ | Sleep _ => (tick w, tt)
  | Clock => (tick w, clock (rm_time w))
  | Mint => (tick w, minted (rm_time w))
  | Connect _ => (tick (handled w (on_open (io_of w) (rm_server w) connection)), status_ok)
  | Send f =>
      if negb (rm_open w) then (tick w, closed)
      else match encode_frame f with
      | Fail status => (tick w, status)
      | Ok _ =>
          match carried f with
          | Ok f => (tick (handled w (on_frame (io_of w) (rm_server w) connection f)), status_ok)
          | Fail _ => (tick (w <| rm_open := false |>), status_ok)
          end
      end
  | Receive =>
      match rm_inbox w with
      | f :: rest => (tick (w <| rm_inbox := rest |>), (status_ok, f))
      | [] => (tick w, (closed, mkFrame 0 0 envelope_default []))
      end
  | Shutdown =>
      (tick (w <| rm_server := on_close (io_now (io_of w)) (rm_server w) connection |>
               <| rm_open := false |>), tt)
  | StartServer _ _ _ => (tick w, (closed, 0, id_none))
  | ShutdownRequested => (tick w, co_shutdown_requested (rm_server w))
  | StopServer _ => (tick w, status_ok)
  end.

Lemma carried_sendable f : sendable f → carried f = Ok f ∧ encode_frame f = Ok (frame_bytes f).
Proof.
  intros [Hwf Hd]. unfold carried. assert (encode_frame f = Ok (frame_bytes f)) as ->
    by (by apply encode_frame_spec). split; [|done]. cbn [r_bind].
  rewrite <- (app_nil_r (frame_bytes f)). by rewrite decode_frame_bytes.
Qed.

(** ** A client whose session the coordinator serves *)
Record linked (w : Remote) (st : ConnectionState) (client : Client) : Prop := {
  lk_open : rm_open w = true;
  lk_inbox : rm_inbox w = [];
  lk_connected : cl_connected client = true;
  lk_numbers : cl_correlation client = cl_sequence client ∧ 0 ≤ cl_sequence client;
  lk_state : co_sessions (rm_server w) !! connection = Some st;
  lk_served : cn_rejected st = false ∧ cn_hellos_pending st = 0;
  lk_identity :
    cn_session st = ha_session (cl_hello client) ∧
    cn_incarnation st = ha_incarnation (cl_hello client) ∧
    cn_epoch st = ha_epoch (cl_hello client);
  lk_set :
    cn_session st ≠ id_none ∧ cn_incarnation st ≠ id_none ∧ cn_epoch st ≠ id_none;
  lk_epoch : cn_epoch st = au_epoch (sv_authority (co_service (rm_server w)));
  lk_binding : ∃ b, sv_sessions (co_service (rm_server w)) !! cn_session st = Some b ∧
    sb_incarnation b = cn_incarnation st ∧ sb_last_frame_sequence b = cl_sequence client;
}.

(** The client after one more request. *)
Definition advanced (client : Client) : Client :=
  client <| cl_sequence ::= fun n => w64 (n + 1) |> <| cl_correlation ::= fun n => w64 (n + 1) |>.

(** The server once the envelope of the client's next frame is accepted. *)
Definition admitted (w : Remote) (f : Frame) : CoordinatorServer :=
  with_service (rm_server w)
    (validate_envelope (co_service (rm_server w)) (envelope_view f) (io_now (io_of w)) []).1.1.

Lemma validate_linked w st client kind payload :
  linked w st client → cl_sequence client + 1 < two64 →
  let f := request_frame (advanced client) kind payload in
  let '(service, reasons, status) :=
    validate_envelope (co_service (rm_server w)) (envelope_view f) (io_now (io_of w)) [] in
  status = status_ok ∧
  au_epoch (sv_authority service) = au_epoch (sv_authority (co_service (rm_server w))) ∧
  ∃ b, sv_sessions service !! cn_session st = Some b ∧
    sb_incarnation b = cn_incarnation st ∧ sb_last_frame_sequence b = cl_sequence (advanced client).
Proof.
  intros Hl Hn. destruct Hl as [_ _ _ [Hc H0] _ _ (E1 & E2 & E3) (N1 & N2 & N3) He (b & Hb & Hi & Hq)].
  cbv zeta. unfold validate_envelope, check_session_locked.
  cbn [envelope_view request_frame fm_envelope ev_session ev_incarnation ev_epoch ev_frame_sequence
       en_session en_incarnation en_epoch en_frame_sequence].
  change (ha_session (cl_hello (advanced client))) with (ha_session (cl_hello client)).
  change (ha_incarnation (cl_hello (advanced client))) with (ha_incarnation (cl_hello client)).
  change (ha_epoch (cl_hello (advanced client))) with (ha_epoch (cl_hello client)).
  rewrite <- E1, <- E2, <- E3. apply is_none_neq in N1, N2, N3. rewrite N1, Hb, N3, <- He.
  rewrite id_eqb_refl. cbn [orb negb]. rewrite N2, Hi, id_eqb_refl. cbn [negb].
  change (cl_sequence (advanced client)) with (w64 (cl_sequence client + 1)).
  rewrite w64_small by (unfold is_u64; lia). unfold seq_is_unset.
  rewrite (proj2 (Z.eqb_neq _ _)), (proj2 (Z.leb_gt _ _)) by lia.
  split_and!; [done|done|]. cbn [sv_sessions set_field]. rewrite lookup_insert_eq. by eexists.
Qed.

Lemma on_frame_linked w st client kind payload :
  linked w st client → cl_sequence client + 1 < two64 →
  protocol_message_requires_request kind = true →
  let f := request_frame (advanced client) kind payload in
  on_frame (io_of w) (rm_server w) connection f =
  dispatch (io_of w) (admitted w f) connection st f
    (request_context (envelope_view f) (io_now (io_of w))) (Some kind).
Proof.
  intros Hl Hn Hk f. pose proof (validate_linked w st client kind payload Hl Hn) as Hv.
  destruct Hl as [_ _ _ _ Hs [Hr Hp] (E1 & E2 & E3) _ _ _].
  cbv zeta in Hv. fold f in Hv. unfold on_frame, on_own_frame, admitted. rewrite Hs, Hr, Hp.
  cbn [Z.eqb negb]. change (en_session (fm_envelope f)) with (ha_session (cl_hello client)).
  change (en_incarnation (fm_envelope f)) with (ha_incarnation (cl_hello client)).
  rewrite <- E1, <- E2, !id_eqb_refl. cbn [negb orb].
  destruct (validate_envelope _ _ _ _) as [[service reasons] status]. destruct Hv as (-> & _).
  eval_ok. cbn [negb fst]. change (fm_kind f) with (enum_raw kind). rewrite enum_of_raw_raw.
  unfold not_a_request. rewrite Hk. change (fm_flags f) with kFlagRequest. cbn [andb].
  change (negb (negb (Z.land kFlagRequest kFlagRequest =? 0))) with false. cbv iota.
  change (co_sessions (with_service (rm_server w) service)) with (co_sessions (rm_server w)).
  by rewrite Hs.
Qed.

Abbreviation handling w st f kind :=
  (dispatch (io_of w) (admitted w f) connection st f
     (request_context (envelope_view f) (io_now (io_of w))) (Some kind)).

(** The coordinator that has answered is the one the client goes on with. *)
Lemma handled_linked w st client kind payload w' :
  linked w st client → cl_sequence client + 1 < two64 →
  protocol_message_requires_request kind = true →
  let f := request_frame (advanced client) kind payload in
  rm_server w' = (handling w st f kind).1 → rm_open w' = true → rm_inbox w' = [] →
  linked w' st (advanced client).
Proof.
  intros Hl Hn Hk f Hw Ho Hi.
  pose proof (validate_linked w st client kind payload Hl Hn) as Hv. cbv zeta in Hv. fold f in Hv.
  destruct Hl as [_ _ Hc [Hq H0] Hs Hserved Hid Hset He _].
  set (context := request_context (envelope_view f) (io_now (io_of w))) in *.
  assert (session_kept (co_service (admitted w f)) (co_service (rm_server w'))) as [Hke Hkb].
  { rewrite Hw. destruct (answer_served _ _ _ _ _ _ _ _ (dispatch_answer (io_of w) (admitted w f)
      connection st f context (Some kind))) as (writes & rest & _ & _ & H).
    by eapply served_kept. }
  assert (co_sessions (admitted w f) !! connection = Some st) as Hs' by exact Hs.
  pose proof (dispatch_replies (io_of w) connection f (admitted w f) st context (Some kind) Hs')
    as (k & body & writes & _ & _ & _ & _ & Hout & _). fold context in Hw. rewrite <- Hw in Hout.
  injection Hout as _ _ _ Hout.
  unfold admitted in Hke, Hkb. destruct (validate_envelope _ _ _ _) as [[service reasons] status].
  destruct Hv as (_ & Hve & b & Hb & Hbi & Hbq). cbn [fst with_service co_service set_field] in Hke, Hkb.
  split; try done.
  - cbn. by rewrite Hq, w64_small by (unfold is_u64; lia); split; [|lia].
  - by rewrite Hout.
  - by rewrite Hke, Hve.
  - destruct (Hkb _ _ Hb) as (b' & Hb' & Ei & Eq). exists b'. split_and!; congruence.
Qed.

(** The coordinator sends one response, after writes at most, and it can be carried. *)
Definition sends (h : Handled) (response : Frame) : Prop :=
  (∃ writes, Forall is_write writes ∧ h.2 = writes ++ [Sent connection response]) ∧
  sendable response.

(** A request of a linked client reaches the service once, is answered, and leaves the client
    linked. *)
Lemma request_linked w st client kind payload response :
  linked w st client → cl_sequence client + 1 < two64 →
  protocol_message_requires_request kind = true →
  let f := request_frame (advanced client) kind payload in
  sendable f → sends (handling w st f kind) response →
  ∃ w',
    exec remote (request client kind payload) w =
      (w', (advanced client,
            if negb (fm_kind response =? enum_raw MessageKind.kErrorResponse) then status_ok
            else refusal_from (fm_payload response),
            fm_kind response, fm_payload response)) ∧
    rm_server w' = (handling w st f kind).1 ∧ linked w' st (advanced client) ∧
    rm_time w' = S (S (rm_time w)).
Proof.
  intros Hl Hn Hk f Hf ((writes & Hw & Ha) & Hresp).
  pose proof (on_frame_linked w st client kind payload Hl Hn Hk) as Hon. cbv zeta in Hon. fold f in Hon.
  pose proof (handled_linked w st client kind payload) as Hnext.
  set (h := handling w st f kind) in *.
  exists (tick ((tick (w <| rm_server := h.1 |> <| rm_inbox := [response] |>))
    <| rm_inbox := [] |>)).
  split_and!; [|done| |done].
  - unfold request, send_request. rewrite (lk_connected _ _ _ Hl). cbn [negb].
    change (client <| cl_sequence ::= _ |> <| cl_correlation ::= _ |>) with (advanced client).
    rewrite exec_bind. rewrite exec_bind. cbn [exec call remote]. fold f.
    destruct (carried_sendable f Hf) as [Ec Ee]. rewrite (lk_open _ _ _ Hl), Ee, Ec. cbn [negb].
    rewrite Hon. unfold handled. rewrite Ha, foldl_app, (writes_unseen _ writes Hw).
    cbn [foldl take_action].
    destruct (carried_sendable response Hresp) as [Er _]. rewrite Er.
    cbn [exec]. eval_ok. cbn [negb]. rewrite exec_bind.
    cbn [exec call remote rm_inbox tick set_field]. rewrite (lk_inbox _ _ _ Hl). reflexivity.
  - apply Hnext; try done. apply Hl.
Qed.

(** ** A session of requests

    The specification is a session of direct calls: each request is dispatched on the
    coordinator as it is, under the session of the client, and its response is the answer;
    every request and every response fits a frame. *)
Abbreviation Ask := (MessageKind * list Z)%type.
Abbreviation Answered := (Status * Z * list Z)%type.

Definition answer_of (response : Frame) : Answered :=
  (if negb (fm_kind response =? enum_raw MessageKind.kErrorResponse) then status_ok
   else refusal_from (fm_payload response), fm_kind response, fm_payload response).

Inductive direct (st : ConnectionState)
    : Remote → Client → list Ask → CoordinatorServer → list Answered → Prop :=
  | direct_end w client : direct st w client [] (rm_server w) []
  | direct_call w client kind payload asks s s' response answers :
      let f := request_frame (advanced client) kind payload in
      protocol_message_requires_request kind = true → sendable f →
      (handling w st f kind).1 = s → sends (handling w st f kind) response →
      direct st (tick (tick (w <| rm_server := s |>))) (advanced client) asks s' answers →
      direct st w client ((kind, payload) :: asks) s' (answer_of response :: answers).

(** The same requests of the client, one after the other. *)
Fixpoint ask_all (client : Client) (asks : list Ask) : Prog (Client * list Answered) :=
  match asks with
  | [] => Ret (client, [])
  | (kind, payload) :: asks =>
      '(client, status, response_kind, response) ← request client kind payload;
      '(client, answers) ← ask_all client asks;
      Ret (client, (status, response_kind, response) :: answers)
  end.

(** Only the coordinator and the time of the two worlds have to agree. *)
Lemma ask_all_direct st w client asks s answers :
  direct st w client asks s answers →
  ∀ w0, rm_server w0 = rm_server w → rm_time w0 = rm_time w →
  linked w0 st client → cl_sequence client + zlen asks < two64 →
  ∃ w' client',
    exec remote (ask_all client asks) w0 = (w', (client', answers)) ∧ rm_server w' = s ∧
    linked w' st client' ∧ cl_sequence client' = cl_sequence client + zlen asks.
Proof.
  intros H. induction H as [w client|w client kind payload asks s s' response answers f
    Hk Hf Hh Hr H IH]; intros w0 Es0 Et0 Hl Hn.
  { exists w0, client. split_and!; [done..|]. unfold zlen. cbn. lia. }
  assert (zlen (A := Ask) ((kind, payload) :: asks) = zlen asks + 1) as Ez
    by (exact (Nat2Z.inj_succ (length asks))).
  rewrite Ez in Hn |- *.
  pose proof (zlen_nonneg asks) as Hz.
  assert (handling w0 st f kind = handling w st f kind) as Eh
    by (unfold admitted, io_of; by rewrite Es0, Et0).
  destruct (request_linked w0 st client kind payload response Hl ltac:(lia) Hk Hf)
    as (w1 & E1 & Es & Hl1 & Et); fold f in Hr |- *; [by rewrite Eh|]. fold f in Es.
  rewrite Eh, Hh in Es.
  pose proof (lk_numbers _ _ _ Hl) as [_ H0].
  assert (cl_sequence (advanced client) = cl_sequence client + 1) as Eq
    by (cbn; apply w64_small; unfold is_u64; lia).
  destruct (IH w1) as (w' & client' & E2 & Es' & Hl' & En);
    [done | cbn; by rewrite Et, Et0 | done | lia |].
  exists w', client'. split_and!; [|done..|lia]. cbn [ask_all]. rewrite exec_bind, E1.
  cbv beta iota. by rewrite exec_bind, E2.
Qed.

(** ** The handshake *)

(** A connection the transport has just accepted, to a coordinator that takes sessions.  A
    session identity that is minted twice would meet an entry in the table. *)
Record welcome (w : Remote) : Prop := {
  wl_open : rm_open w = true;
  wl_inbox : rm_inbox w = [];
  wl_new : co_sessions (rm_server w) !! connection = None;
  wl_running : sv_running (co_service (rm_server w)) = true;
  wl_room : mapsize (sv_sessions (co_service (rm_server w))) < limits.kSessionsMax;
  wl_fresh : sv_sessions (co_service (rm_server w)) !! (mint (co_service (rm_server w))).2 = None;
  wl_epoch : au_epoch (sv_authority (co_service (rm_server w))) ≠ id_none;
}.

(** The session that is opened, the server with it, and the acknowledgement of its hello. *)
Definition opened (w : Remote) : CoordinatorService :=
  (open_session (co_service (rm_server w)) "pending-handshake" (io_now (io_of w))).1.
Definition opened_state (w : Remote) : ConnectionState :=
  let s := co_service (rm_server w) in
  connection_default
    <| cn_session := (mint s).2 |> <| cn_incarnation := (mint (mint s).1).2 |>
    <| cn_epoch := au_epoch (sv_authority s) |>
    <| cn_opened_monotonic_ms := io_now (io_of w) |>.
Definition greeting_ack (w : Remote) : HelloAckPayload :=
  hello_ack_payload (with_service (rm_server w) (opened w)) (opened_state w).

Lemma open_linked w :
  welcome w →
  let s := co_service (rm_server w) in
  (∃ binding, open_session s "pending-handshake" (io_now (io_of w)) = (opened w, Ok binding) ∧
     connection_of binding (io_now (io_of w)) = opened_state w) ∧
  sv_authority (opened w) = sv_authority s ∧
  ∃ b, sv_sessions (opened w) !! cn_session (opened_state w) = Some b ∧
    sb_incarnation b = cn_incarnation (opened_state w) ∧ sb_last_frame_sequence b = 0.
Proof.
  intros [_ _ _ Hr Hroom Hf _]. cbv zeta. unfold opened, open_session. rewrite Hr. cbn [negb].
  rewrite (proj2 (Z.leb_gt _ _)) by done.
  rewrite (surjective_pairing (mint (co_service (rm_server w)))).
  rewrite (surjective_pairing (mint (mint _).1)).
  assert (sv_sessions (mint (mint (co_service (rm_server w))).1).1 =
    sv_sessions (co_service (rm_server w))) as Es by done.
  rewrite Es, Hf. cbn [present fst]. split_and!; [by eexists|done|].
  cbn [sv_sessions count_n set_field]. rewrite Es. eexists. split; [apply lookup_insert_eq|done].
Qed.

Lemma hello_frame_sendable now :
  let payload := writer_hello (mkHelloPayload "ctfctl" "ctfctl/1.0.0" now) in
  sendable (hello_frame payload).
Proof.
  cbv zeta. split.
  - unfold frame_wf, hello_frame, envelope_wf, id_wf. cbn [fm_kind fm_flags fm_envelope fm_payload].
    split_and!; try done. unfold writer_hello, writer_string, writer_u32, writer_u64.
    repeat (apply Forall_app; split); auto using put_le_bytes, string_bytes_bytes.
  - split_and!; [done..|]. cbn [fm_payload hello_frame]. unfold writer_hello.
    rewrite !zlen_app. by vm_compute.
Qed.

Lemma writer_hello_ack_bytes v :
  byte_string (writer_hello_ack v) ∧
  zlen (writer_hello_ack v) = 120 + slen (ha_coordinator_label v).
Proof.
  unfold writer_hello_ack, writer_identity, writer_string, writer_u32, writer_u64. split.
  - repeat (apply Forall_app; split); auto using put_le_bytes, string_bytes_bytes.
  - rewrite !zlen_app, string_bytes_length. unfold zlen. rewrite !put_le_length. lia.
Qed.

Lemma acknowledged_iff f ack :
  acknowledged f = Some ack →
  (fm_kind f =? enum_raw MessageKind.kHelloAck) = true ∧ decode_hello_ack (fm_payload f) = Ok ack.
Proof.
  unfold acknowledged. destruct (_ =? _); [|done].
  destruct (decode_hello_ack _); [|done]. by intros [= ->].
Qed.

(** The server with the new session, before and after its hello. *)
Definition joined (w : Remote) : CoordinatorServer :=
  (with_service (rm_server w) (opened w)) <| co_sessions ::= <[connection := opened_state w]> |>.

Lemma on_open_linked w :
  welcome w → on_open (io_of w) (rm_server w) connection = (joined w, []).
Proof.
  intros Hw. destruct (open_linked w Hw) as ((binding & Eopen & Estate) & _).
  unfold on_open. rewrite Eopen, Estate. unfold emplace_connection.
  change (co_sessions (with_service (rm_server w) (opened w))) with (co_sessions (rm_server w)).
  by rewrite (wl_new w Hw).
Qed.

Lemma hello_handled io w now :
  is_u64 now → is_u64 (co_next_sequence (rm_server w)) → hello_ack_fits (greeting_ack w) →
  let f := hello_frame (writer_hello (mkHelloPayload "ctfctl" "ctfctl/1.0.0" now)) in
  ∃ s response,
    on_frame (wire_io io) (joined w) connection f = (s, [Sent connection response]) ∧
    sendable response ∧ acknowledged response = Some (greeting_ack w) ∧
    co_service s = opened w ∧ co_config s = co_config (rm_server w) ∧
    co_sessions s !! connection = Some (greeted "ctfctl" (opened_state w)).
Proof.
  intros Hnow Hseq Hfits f. unfold on_frame, joined. cbn [co_sessions set_field].
  rewrite lookup_insert_eq. cbn [opened_state connection_default cn_rejected cn_hellos_pending
    set_field Z.eqb negb]. unfold on_first_frame.
  change (negb (fm_kind f =? enum_raw MessageKind.kHello)) with false. cbv iota.
  change (fm_payload f) with (writer_hello (mkHelloPayload "ctfctl" "ctfctl/1.0.0" now)).
  assert (decode_hello (writer_hello (mkHelloPayload "ctfctl" "ctfctl/1.0.0" now)) =
    Ok (mkHelloPayload "ctfctl" "ctfctl/1.0.0" now)) as ->
    by (apply (decode_one_run reader_hello _ hello_fits (fun v => v)); by split_and!).
  cbn [hp_client_label]. unfold send_typed. cbn [send_encoded encode_hello_ack].
  set (s1 := _ <| co_sessions ::= alter (greeted "ctfctl") connection |>).
  set (response := response_frame _ _ _ _ _).
  destruct (writer_hello_ack_bytes (greeting_ack w)) as [Hb Hl].
  assert (fm_payload response = writer_hello_ack (greeting_ack w)) as Ep by reflexivity.
  assert (co_sessions s1 !! connection = Some (greeted "ctfctl" (opened_state w))) as Hs1
    by (cbn; by rewrite lookup_alter_eq, lookup_insert_eq).
  assert (is_ok (send_frame (wire_io io) response) = true) as ->.
  { unfold response. rewrite send_frame_response by done. apply andb_true_iff. split; [|done].
    destruct Hfits as (_ & _ & _ & _ & _ & _ & _ & _ & _ & Hlabel). apply Z.leb_le.
    change (hello_ack_payload s1 (opened_state w)) with (greeting_ack w).
    fold (writer_hello_ack (greeting_ack w)). rewrite Hl. unfold limits.kLabelBytesMax in Hlabel. unfold limits.kFramePayloadMaxBytes. lia. }
  eexists _, response. split; [reflexivity|]. split_and!.
  - destruct Hfits as (? & ? & ? & _ & _ & _ & _ & _ & _ & Hlabel). split.
    + unfold frame_wf. rewrite Ep. split_and!; [done..| |done].
      split_and!; try done. cbn. apply w64_range.
    + split_and!; [done..|]. rewrite Ep, Hl. unfold limits.kLabelBytesMax in Hlabel.
      unfold limits.kFramePayloadMaxBytes. lia.
  - unfold acknowledged. rewrite Ep. change (fm_kind response =? _) with true. cbv iota.
    unfold decode_hello_ack.
    by rewrite (decode_one_run reader_hello_ack _ hello_ack_fits (fun v => v)).
  - done.
  - done.
  - done.
Qed.

Lemma connect_linked w port :
  welcome w → is_u64 (clock (S (rm_time w))) → is_u64 (co_next_sequence (rm_server w)) →
  hello_ack_fits (greeting_ack w) →
  ∃ w', exec remote (connect client_new port) w = (w', (speaker (greeting_ack w) 0, status_ok)) ∧
    co_service (rm_server w') = opened w ∧ rm_time w' = (rm_time w + 4)%nat ∧
    linked w' (greeted "ctfctl" (opened_state w)) (speaker (greeting_ack w) 0).
Proof.
  intros Hw Hclock Hseq Hfits. pose proof (on_open_linked w Hw) as Eopen.
  destruct (hello_handled (ios (S (S (rm_time w)))) w _ Hclock Hseq Hfits)
    as (s & response & Ehello & Hresp & Eack & Es & _ & Est).
  destruct (carried_sendable _ (hello_frame_sendable (clock (S (rm_time w))))) as [Ec Ee].
  destruct (carried_sendable _ Hresp) as [Er _].
  destruct (open_linked w Hw) as (_ & Eauth & Hbinding).
  set (f := hello_frame _) in *.
  exists (mkRemote s [] true (S (S (S (S (rm_time w))))) (rm_output w)).
  split_and!; [|done|cbn; lia|].
  - assert (tick (handled w (joined w, [])) =
      mkRemote (joined w) [] true (S (rm_time w)) (rm_output w)) as Ew.
    { unfold tick, handled. cbn [foldl set_field fst snd].
      by rewrite <- (wl_open w Hw), <- (wl_inbox w Hw). }
    unfold connect. rewrite exec_bind. cbn [exec call remote]. rewrite Eopen, Ew. eval_ok.
    cbn [negb]. rewrite exec_bind. cbn [exec call remote encode_hello rm_time].
    rewrite exec_bind. cbn [exec call remote tick rm_open rm_server rm_time set_field negb].
    change (hello_frame _) with f. rewrite Ee, Ec.
    change (io_of _) with (wire_io (ios (S (S (rm_time w))))). rewrite Ehello.
    unfold handled. cbn [exec foldl take_action fst snd]. rewrite Er. eval_ok. cbn [negb].
    rewrite exec_bind. cbn [exec call remote rm_inbox tick set_field app]. eval_ok. cbn [negb].
    apply acknowledged_iff in Eack as [Ek Ed]. rewrite Ek, Ed. reflexivity.
  - pose proof (wl_epoch w Hw) as Hep.
    split.
    + reflexivity.
    + reflexivity.
    + reflexivity.
    + cbn. lia.
    + exact Est.
    + split; reflexivity.
    + split_and!; reflexivity.
    + split_and!; [exact (mint_identity_some _ _) | exact (mint_identity_some _ _) | exact Hep].
    + cbn [rm_server]. rewrite Es, Eauth. reflexivity.
    + cbn [rm_server]. rewrite Es. exact Hbinding.
Qed.

(** ** Planning over the wire *)

Lemma plan_ok_decided s context request service status decided :
  plan_flow_group s context request = (service, status, decided) → is_ok status = true →
  ∃ d, decided = Some d.
Proof.
  unfold plan_flow_group, answer_stale. cbv zeta. destruct (negb (sv_running s)).
  { intros [= _ <- _]. done. }
  destruct (plan_gate s context) as [gate|] eqn:Eg.
  { intros [= _ <- _]. revert Eg. unfold plan_gate. repeat case_match; (by intros [= <-]) || done. }
  destruct (is_ok (validate_decision_request request)) eqn:Ev; cbn [negb].
  2:{ intros [= _ <- _]. congruence. }
  destruct (catalog_find _ _) as [record|]; [|intros [= _ _ <-]; by eexists].
  repeat (case_match; [intros [= _ _ <-]; by eexists|]).
  destruct (settle _ _ _ _) as [s1 d]. destruct (history_record _ _) as [h o].
  intros [= _ _ <-]. by eexists.
Qed.

(** What the client makes of the response to a request. *)
Definition understood {A} (expected : MessageKind) (unexpected : string)
    (decode : list Z → Result A) (response : Frame) : Result A :=
  let status :=
    if negb (fm_kind response =? enum_raw MessageKind.kErrorResponse) then status_ok
    else refusal_from (fm_payload response) in
  if negb (is_ok status) then Fail status
  else if negb (fm_kind response =? enum_raw expected) then
    fail ErrorCode.kInternalInvariant unexpected
  else decode (fm_payload response).

Lemma exchange_linked {A} w st client kind payload response expected unexpected
    (decode : list Z → Result A) :
  linked w st client → cl_sequence client + 1 < two64 →
  protocol_message_requires_request kind = true →
  let f := request_frame (advanced client) kind payload in
  sendable f → sends (handling w st f kind) response →
  ∃ w',
    exec remote (exchange client kind (Ok payload) expected unexpected decode) w =
      (w', (advanced client, understood expected unexpected decode response)) ∧
    rm_server w' = (handling w st f kind).1 ∧ linked w' st (advanced client).
Proof.
  intros Hl Hn Hk f Hf Ha.
  destruct (request_linked w st client kind payload response Hl Hn Hk Hf Ha)
    as (w' & He & Hs & Hl' & _).
  exists w'. split_and!; [|done..].
  unfold exchange. rewrite exec_bind, He. unfold understood. cbv zeta.
  destruct (negb (is_ok _)); [done|]. by destruct (negb (fm_kind response =? enum_raw expected)).
Qed.

(** The only response that is sent. *)
Lemma sends_only h response writes sent :
  sends h response → Forall is_write writes → h.2 = writes ++ sent →
  Forall no_write sent → sent = [Sent connection response].
Proof.
  intros [(writes' & Hw' & E') _] Hw E Hn. rewrite E in E'.
  apply (f_equal responses) in E'. rewrite !responses_app, (responses_writes writes Hw),
    (responses_writes writes' Hw') in E'.
  change ([] ++ ?l) with l in E'. change (responses [?a]) with [a] in E'. rewrite <- E'. clear -Hn.
  induction Hn as [|a sent Ha _ IH]; [done|]. destruct a; cbn; [by destruct Ha|..]; by rewrite <- IH.
Qed.

Lemma transmitted_no_write io response : Forall no_write (transmitted io connection response).
Proof. unfold transmitted. destruct (is_ok _); repeat constructor; by intros []. Qed.

Lemma transmitted_sent io response response' :
  transmitted io connection response = [Sent connection response'] → response' = response.
Proof. unfold transmitted. destruct (is_ok _); [by intros [=]|done]. Qed.

Lemma sent_reply h response st io s kind f body :
  sends h response → h = send_encoded 1 io s connection st kind f (Ok body) →
  response = response_frame s st kind f body.
Proof.
  intros Ha ->. cbn [send_encoded] in Ha.
  assert (transmitted io connection (response_frame s st kind f body) = [Sent connection response])
    as E%transmitted_sent; [|done].
  eapply (sends_only _ response []); [exact Ha | done | | apply transmitted_no_write].
  unfold transmitted. by destruct (is_ok _).
Qed.

(** A planning request of a linked client is the call of [plan_flow_group] on the coordinator's
    service, under the client's session. *)
Lemma plan_linked w st client request req f response :
  linked w st client → cl_sequence client + 1 < two64 →
  req = request <| dr_session := ha_session (cl_hello client) |> →
  f = request_frame (advanced client) MessageKind.kPlanFlowGroup (encode_decision_request req) →
  request_fits req → sendable f → sends (handling w st f MessageKind.kPlanFlowGroup) response →
  let '(service, status, decided) :=
    plan_flow_group (co_service (admitted w f))
      (request_context (envelope_view f) (io_now (io_of w))) (request_norm req) in
  (∀ d, decided = Some d → record_fits d) →
  ∃ w' answered,
    exec remote (cl_plan_flow_group client request) w = (w', (advanced client, answered)) ∧
    co_service (rm_server w') = service ∧ linked w' st (advanced client) ∧
    match answered with
    | Ok d => is_ok status = true ∧ ∃ d0, decided = Some d0 ∧ d = record_norm d0
    | Fail _ => is_ok status = false
    end.
Proof.
  intros Hl Hn Ereq Ef Hfits Hf Hresp. rewrite Ef in Hf.
  rewrite Ef in Hresp.
  destruct (exchange_linked w st client MessageKind.kPlanFlowGroup (encode_decision_request req)
    response MessageKind.kFlowGroupDecision "unexpected decision response"
    (fun response => let? decision := decode_decision response in Ok (dp_decision decision))
    Hl Hn eq_refl Hf Hresp) as (w' & He & Hs & Hl'). rewrite <- Ef in Hresp, Hs.
  set (h := handling w st f MessageKind.kPlanFlowGroup) in *.
  set (context := request_context (envelope_view f) (io_now (io_of w))) in *.
  assert (h = dispatch_plan (io_of w) (admitted w f) connection st f context) as Eh by done.
  unfold dispatch_plan, with_payload in Eh. assert (fm_payload f = encode_decision_request req) as Epay by (by rewrite Ef). rewrite Epay in Eh.
  assert (decode_plan_flow_group (encode_decision_request req) =
    Ok (plan_flow_group_norm (mkPlanFlowGroupPayload req))) as Ed
    by (by apply (decode_one_run reader_plan_flow_group writer_plan_flow_group plan_flow_group_fits
          plan_flow_group_norm (mkPlanFlowGroupPayload req))).
  rewrite Ed in Eh. cbn [plan_flow_group_norm pp_request] in Eh.
  destruct (plan_flow_group _ _ _) as [[service status] decided] eqn:Ep. intros Hd.
  exists w', (understood MessageKind.kFlowGroupDecision "unexpected decision response"
    (fun response => let? decision := decode_decision response in Ok (dp_decision decision)) response).
  assert (co_service h.1 = service) as Eservice.
  { rewrite Eh. destruct (negb _); [unfold send_error; by rewrite send_error_service|].
    unfold respond, send_typed. by rewrite send_encoded_service. }
  split_and!; [unfold cl_plan_flow_group; by rewrite <- Ereq | by rewrite Hs | done |].
  destruct (is_ok status) eqn:Eok; cbn [negb] in Eh.
  - destruct (plan_ok_decided _ _ _ _ _ _ Ep Eok) as [d ->]. specialize (Hd d eq_refl).
    assert (encode_decision (mkDecisionPayload d) = Ok (writer_decision (mkDecisionPayload d))) as Eenc
      by (by apply encode_decision_record_fits).
    unfold respond, send_typed in Eh. change (default record_default (Some d)) with d in Eh.
    rewrite Eenc in Eh.
    rewrite (sent_reply h response st _ _ _ f _ Hresp Eh). unfold understood. cbn [fm_kind fm_payload response_frame].
    change (enum_raw MessageKind.kFlowGroupDecision =? enum_raw MessageKind.kErrorResponse) with false.
    cbn [negb]. eval_ok. cbn [negb]. rewrite Z.eqb_refl. cbn [negb]. unfold decode_decision.
    rewrite (decode_one_run reader_decision writer_decision decision_fits decision_norm) by done.
    cbn [r_bind decision_norm dp_decision]. by eauto.
  - assert (co_sessions (with_service (admitted w f) service) !! connection = Some st) as Hst
      by apply Hl.
    destruct (send_error_replies (io_of w) connection f _ _ st st None (st_code status)
      (st_message status) (prepares_refl _) Hst) as (kind & body & writes & E2 & Hw & Hkind & _); [done|].
    destruct Hkind as [->|[=]]. rewrite <- Eh in E2.
    eapply sends_only in E2; [|exact Hresp|exact Hw|apply transmitted_no_write].
    apply transmitted_sent in E2 as ->.
    unfold understood. cbn [fm_kind fm_payload response_frame]. rewrite Z.eqb_refl. cbn [negb].
    destruct (negb (is_ok _)); [done|]. done.
Qed.

(** ** The plan command, end to end *)

(** What [run_plan] reads from its command line before it connects. *)
Definition plan_line (options : Options)
    : Resolved (Z * CollectiveInstance * FlowPattern * list Identity * Z) :=
  port ← resolve_port options false;
  collective ← resolve_identity options "--collective";
  generation ← resolve_identity options "--generation";
  attempt ← resolve_identity options "--attempt";
  pattern ← resolve_pattern options;
  participants ← resolve_participants options;
  step ← resolve_u64 options "--step" 1;
  if (step =? 0) || (limits.kStepsMaxPerPhase <? step)
  then Usage (String.append "--step must be in 1.." (decimal limits.kStepsMaxPerPhase))
  else Got (port, mkCollectiveInstance collective generation attempt 0, pattern, participants, step).

(** The rest of it. *)
Definition plan_remotely (instance : CollectiveInstance) (pattern : FlowPattern)
    (participants : list Identity) (step : Z) (client : Client) : Prog Z :=
  '(client, answered) ←
    cl_plan_flow_group client (plan_request (cl_hello client) instance pattern participants step);
  or_report "plan" answered (fun decision =>
    emit (String.append "correlation " (decimal (cl_correlation client)));;
    emit (String.append "summary " (Decision.summary decision));;
    emit "explanation:";;
    emit_raw (Decision.explain decision);;
    Ret (accepted_if (outcome_grants_authority (de_outcome decision)))).

Lemma run_plan_line options :
  run_plan options =
  match plan_line options with
  | Usage error => usage_error error
  | Got (port, instance, pattern, participants, step) =>
      with_client port (plan_remotely instance pattern participants step)
  end.
Proof.
  unfold run_plan, plan_line, or_usage, refuse_if.
  repeat (match goal with |- context [resolve_port ?o ?b] => destruct (resolve_port o b); [|done]
          | |- context [resolve_identity ?o ?n] => destruct (resolve_identity o n); [|done]
          | |- context [resolve_pattern ?o] => destruct (resolve_pattern o); [|done]
          | |- context [resolve_participants ?o] => destruct (resolve_participants o); [|done]
          | |- context [resolve_u64 ?o ?n ?d] => destruct (resolve_u64 o n d); [|done]
          end; cbn [mbind]).
  all: cbv [mbind]; cbn. all: by destruct (_ || _).
Qed.

(** The world once the tool is connected, the request the command then makes, and what the
    coordinator decides about it. *)
Definition met (w : Remote) (port : Z) : Remote := (exec remote (connect client_new port) w).1.
Definition plan_asked (w : Remote) (instance : CollectiveInstance) (pattern : FlowPattern)
    (participants : list Identity) (step : Z) : DecisionRequest :=
  (plan_request (greeting_ack w) instance pattern participants step)
    <| dr_session := ha_session (greeting_ack w) |>.
Definition plan_frame (w : Remote) (request : DecisionRequest) : Frame :=
  request_frame (advanced (speaker (greeting_ack w) 0)) MessageKind.kPlanFlowGroup
    (encode_decision_request request).
Definition plan_decided (w : Remote) (port : Z) (request : DecisionRequest)
    : CoordinatorService * Status * option DecisionRecord :=
  let w1 := met w port in
  let f := plan_frame w request in
  plan_flow_group (co_service (admitted w1 f)) (request_context (envelope_view f) (io_now (io_of w1)))
    request.

(** The messages of the command fit into frames, the response of the coordinator included. *)
Record deliverable (w : Remote) (port : Z) (request : DecisionRequest) : Prop := {
  dl_clock : is_u64 (clock (S (rm_time w)));
  dl_sequence : is_u64 (co_next_sequence (rm_server w));
  dl_ack : hello_ack_fits (greeting_ack w);
  dl_request : request_fits request;
  dl_frame : sendable (plan_frame w request);
  dl_response : ∃ response, sends
    (handling (met w port) (greeted "ctfctl" (opened_state w)) (plan_frame w request)
       MessageKind.kPlanFlowGroup) response;
  dl_decision : ∀ d, (plan_decided w port request).2 = Some d → record_fits d;
}.

Lemma with_client_linked w port body :
  welcome w → is_u64 (clock (S (rm_time w))) → is_u64 (co_next_sequence (rm_server w)) →
  hello_ack_fits (greeting_ack w) →
  exec remote (with_client port body) w =
  let '(w', code) := exec remote (body (speaker (greeting_ack w) 0)) (met w port) in
  ((remote Shutdown w').1, code).
Proof.
  intros Hw Hc Hs Ha. destruct (connect_linked w port Hw Hc Hs Ha) as (w1 & E & _).
  unfold with_client, connect_or_report, met. rewrite !exec_bind, E. eval_ok. cbn [exec fst].
  change (negb (kExitAccepted =? kExitAccepted)) with false. cbv iota. rewrite exec_bind.
  by destruct (exec remote (body _) w1) as [w' code].
Qed.
Lemma plan_asked_norm w instance pattern participants step :
  request_norm (plan_asked w instance pattern participants step) =
  plan_asked w instance pattern participants step.
Proof. reflexivity. Qed.

Lemma plan_decided_met w port request w1 :
  met w port = w1 →
  plan_decided w port request =
  plan_flow_group (co_service (admitted w1 (plan_frame w request)))
    (request_context (envelope_view (plan_frame w request)) (io_now (io_of w1))) request.
Proof. by intros <-. Qed.

(** The lines of the answer, and the exit code. *)
Lemma plan_remotely_ends instance pattern participants step client w w' client' answered :
  exec remote (cl_plan_flow_group client
    (plan_request (cl_hello client) instance pattern participants step)) w =
    (w', (client', answered)) →
  let ended := exec remote (plan_remotely instance pattern participants step client) w in
  rm_server ended.1 = rm_server w' ∧
  ended.2 = match answered with
            | Ok d => accepted_if (outcome_grants_authority (de_outcome d))
            | Fail _ => kExitRefused
            end.
Proof.
  intros E. cbv zeta. unfold plan_remotely. rewrite exec_bind, E. by destruct answered.
Qed.
(** ** The begin-attempt command, end to end *)

(** A request the coordinator answers with the message [m]. *)
Lemma answered_linked {A} w st client kind payload f s writes m response unexpected
    (decode : list Z → Result A) :
  linked w st client → cl_sequence client + 1 < two64 →
  protocol_message_requires_request kind = true →
  f = request_frame (advanced client) kind payload → sendable f → Forall is_write writes →
  handling w st f kind =
    after writes (send_typed (io_of w) s connection st (message_kind m) f (encode_message m)) →
  sends (handling w st f kind) response →
  wire_fits m → enum_raw (message_kind m) ≠ enum_raw MessageKind.kErrorResponse →
  ∃ w',
    exec remote (exchange client kind (Ok payload) (message_kind m) unexpected decode) w =
      (w', (advanced client, decode (message_bytes m))) ∧
    co_service (rm_server w') = co_service s ∧ linked w' st (advanced client).
Proof.
  intros Hl Hn Hk -> Hf Hw Eh Ha Hm Hne.
  destruct (exchange_linked w st client kind payload response (message_kind m) unexpected decode
    Hl Hn Hk Hf Ha) as (w' & He & Hs & Hl').
  rewrite Eh in Ha, Hs. unfold send_typed in Ha, Hs. rewrite encode_message_bytes in Ha, Hs by done.
  exists w'. split_and!; [|rewrite Hs; cbn [after fst]; by rewrite send_encoded_service|done].
  assert (response = response_frame s st (message_kind m)
    (request_frame (advanced client) kind payload) (message_bytes m)) as ->.
  { eapply (sent_reply (send_encoded 1 (io_of w) s connection st (message_kind m) _
      (Ok (message_bytes m)))); [|reflexivity]. destruct Ha as [(writes' & Hw' & E) Hr].
    split; [|done]. exists []. split; [done|]. cbn [app].
    eapply (sends_only (after writes _) response writes);
      [split; [by exists writes'|done] | done | reflexivity |].
    apply send_encoded_writes. }
  rewrite He. unfold understood.
  cbn [fm_kind fm_payload response_frame]. rewrite (proj2 (Z.eqb_neq _ _)) by done. cbn [negb].
  eval_ok. by rewrite Z.eqb_refl.
Qed.

(** What the coordinator answers. *)
Definition attempt_answer (payload : BeginAttemptPayload) (status : Status)
    (begun : option AttemptOutcome) : AttemptAckPayload :=
  let outcome := default (mkAttemptOutcome id_none id_none id_none
                            CollectiveState.kUnregistered []) begun in
  {| aa_id := ba_id payload;
     aa_attempt := ba_attempt payload;
     aa_previous_attempt := ao_previous_attempt outcome;
     aa_state := ao_state outcome;
     aa_reasons := explain_status (ao_reasons outcome) status (ba_id payload) |}.

Lemma dispatch_attempt_answer w st f payload :
  begin_attempt_fits payload → fm_payload f = writer_begin_attempt payload →
  handling w st f MessageKind.kBeginAttempt =
  let '(service, status, begun) :=
    Service.begin_attempt (co_service (admitted w f))
      (request_context (envelope_view f) (io_now (io_of w)))
      (ba_id payload) (ba_generation payload) (ba_attempt payload) (ba_transfer_bytes payload) in
  let persisted := persist_if_configured (io_of w) (with_service (admitted w f) service) in
  after persisted.2 (send_typed (io_of w) persisted.1 connection st MessageKind.kAttemptAck f
    (encode_message (MAttemptAck (attempt_answer payload status begun)))).
Proof.
  intros Hp Ep. cbn [dispatch]. unfold dispatch_begin_attempt, with_payload. rewrite Ep.
  unfold decode_begin_attempt.
  rewrite (decode_one_run reader_begin_attempt writer_begin_attempt begin_attempt_fits (fun v => v))
    by done.
  destruct (Service.begin_attempt _ _ _ _ _ _) as [[service status] begun].
  unfold persist_respond. by rewrite (surjective_pairing (persist_if_configured _ _)).
Qed.

(** When the state the tool looks at is [kPlanning]: when the attempt was begun, and also when
    it was refused for its generation while an earlier attempt is being planned. *)
Lemma attempt_state_planning s context payload :
  let '(_, status, begun) :=
    Service.begin_attempt s context (ba_id payload) (ba_generation payload) (ba_attempt payload)
      (ba_transfer_bytes payload) in
  aa_state (attempt_answer payload status begun) = CollectiveState.kPlanning ↔
  is_ok status = true ∨
  sv_running s = true ∧
  ∃ record, catalog_find (sv_catalog s) (ba_id payload) = Some record ∧
    cd_generation (cr_definition record) ≠ ba_generation payload ∧
    cr_state record = CollectiveState.kPlanning.
Proof.
  unfold Service.begin_attempt. cbv zeta. destruct (sv_running s); cbn [negb].
  2:{ split; [done|]. by intros [|[]]. }
  destruct (catalog_find (sv_catalog s) (ba_id payload)) as [record|] eqn:Ef.
  2:{ split; [done|]. intros [|(_ & r & [=] & _)]; done. }
  destruct (cd_generation (cr_definition record) =i ba_generation payload) eqn:Eg; cbn [negb];
    [apply id_eqb_eq in Eg | apply id_eqb_neq in Eg].
  2:{ cbn. split; [intros E; right; by eauto|]. intros [|(_ & r & [= <-] & _ & ?)]; done. }
  assert (∀ r, Some record = Some r → cd_generation (cr_definition r) ≠ ba_generation payload → False)
    as Hno by (by intros r [= <-]).
  destruct (collective_state_is_terminal (cr_state record)) eqn:Et.
  { cbn. split; [intros E; by rewrite E in Et|].
    destruct (bool_decide _); intros [|(_ & r & Er & Hg & _)]; try done; by destruct (Hno r Er Hg). }
  unfold Catalog.begin_attempt. unfold catalog_find in Ef. rewrite Ef.
  repeat (match goal with |- context [if ?b then _ else _] => destruct b; [cbn; split; [done|];
    intros [|(_ & r & Er & Hg & _)]; [done | by destruct (Hno r Er Hg)]|] end).
  cbn. unfold catalog_find, catalog_modify. cbn. rewrite lookup_alter_eq, lookup_insert_eq.
  cbn. split; [by left | done].
Qed.
(** What [run_begin_attempt] reads from a command line that states its attempt. *)
Definition attempt_line (options : Options) : Resolved (Z * BeginAttemptPayload) :=
  port ← resolve_port options false;
  collective ← resolve_identity options "--collective";
  generation ← resolve_identity options "--generation";
  attempt ← resolve_identity options "--attempt";
  bytes ← resolve_u64 options "--bytes" 0;
  Got (port, mkBeginAttemptPayload collective generation attempt bytes).

Definition attempt_remotely (payload : BeginAttemptPayload) (client : Client) : Prog Z :=
  '(_, answered) ← cl_begin_attempt client (ba_id payload) (ba_generation payload)
                     (ba_attempt payload) (ba_transfer_bytes payload);
  or_report "begin-attempt" answered (fun ack =>
    emit (String.append "attempt " (id_to_string (aa_attempt ack)));;
    emit (String.append "previous_attempt " (identity_or_none (aa_previous_attempt ack)));;
    emit (String.append "state " (CollectiveState.CollectiveState_to_string (aa_state ack)));;
    emit_reasons (aa_reasons ack);;
    Ret (accepted_if (attempt_accepted ack))).

Lemma run_attempt_line options port payload :
  attempt_line options = Got (port, payload) → opt_has options "--attempt" = true →
  run_begin_attempt options = with_client port (attempt_remotely payload).
Proof.
  intros E Ha. unfold run_begin_attempt, attempt_line, or_usage in *. rewrite Ha.
  repeat (match type of E with
          | context [resolve_port ?o ?b] => destruct (resolve_port o b); [|done]
          | context [resolve_identity ?o ?n] => destruct (resolve_identity o n); [|done]
          | context [resolve_u64 ?o ?n ?d] => destruct (resolve_u64 o n d); [|done]
          end; cbn [mbind Resolved_bind] in E |- *).
  by injection E as <- <-.
Qed.

Definition attempt_frame (w : Remote) (payload : BeginAttemptPayload) : Frame :=
  request_frame (advanced (speaker (greeting_ack w) 0)) MessageKind.kBeginAttempt
    (writer_begin_attempt payload).

(** The service that is asked, and what it does. *)
Definition asked (w : Remote) (port : Z) (f : Frame) : CoordinatorService :=
  co_service (admitted (met w port) f).
Definition attempt_begun (w : Remote) (port : Z) (payload : BeginAttemptPayload)
    : CoordinatorService * Status * option AttemptOutcome :=
  let f := attempt_frame w payload in
  Service.begin_attempt (asked w port f)
    (request_context (envelope_view f) (io_now (io_of (met w port))))
    (ba_id payload) (ba_generation payload) (ba_attempt payload) (ba_transfer_bytes payload).

Record attempt_deliverable (w : Remote) (port : Z) (payload : BeginAttemptPayload) : Prop := {
  ad_clock : is_u64 (clock (S (rm_time w)));
  ad_sequence : is_u64 (co_next_sequence (rm_server w));
  ad_ack : hello_ack_fits (greeting_ack w);
  ad_payload : begin_attempt_fits payload;
  ad_frame : sendable (attempt_frame w payload);
  ad_response : ∃ response, sends
    (handling (met w port) (greeted "ctfctl" (opened_state w)) (attempt_frame w payload)
       MessageKind.kBeginAttempt) response;
  ad_answer : attempt_ack_fits (attempt_answer payload (attempt_begun w port payload).1.2
                                  (attempt_begun w port payload).2);
}.

Lemma attempt_remotely_ends w w' payload client client' ack :
  exec remote (cl_begin_attempt client (ba_id payload) (ba_generation payload) (ba_attempt payload)
    (ba_transfer_bytes payload)) w = (w', (client', Ok ack)) →
  (exec remote (attempt_remotely payload client) w).2 = accepted_if (attempt_accepted ack).
Proof.
  intros E. unfold attempt_remotely. rewrite exec_bind, E. cbn [or_report].
  unfold emit_reasons. by destruct (negb _).
Qed.

Lemma attempt_begun_met w port payload w1 :
  met w port = w1 →
  attempt_begun w port payload =
  Service.begin_attempt (co_service (admitted w1 (attempt_frame w payload)))
    (request_context (envelope_view (attempt_frame w payload)) (io_now (io_of w1)))
    (ba_id payload) (ba_generation payload) (ba_attempt payload) (ba_transfer_bytes payload).
Proof. by intros <-. Qed.

Lemma attempt_exit w port payload :
  welcome w → attempt_deliverable w port payload →
  let '(_, status, begun) := attempt_begun w port payload in
  (exec remote (with_client port (attempt_remotely payload)) w).2 =
    accepted_if (bool_decide (aa_state (attempt_answer payload status begun) =
                              CollectiveState.kPlanning)).
Proof.
  intros Hw [Hclock Hseq Hack Hp Hf [response Hresp] Hans].
  destruct (connect_linked w port Hw Hclock Hseq Hack) as (w1 & E1 & _ & _ & Hl).
  assert (met w port = w1) as Em by (unfold met; by rewrite E1).
  rewrite with_client_linked by done. rewrite (attempt_begun_met _ _ _ _ Em) in Hans |- *.
  rewrite Em in Hresp |- *.
  pose proof (dispatch_attempt_answer w1 (greeted "ctfctl" (opened_state w)) (attempt_frame w payload)
    payload Hp eq_refl) as Eh.
  destruct (Service.begin_attempt _ _ _ _ _ _) as [[service status] begun].
  cbn [fst snd] in Hans. set (ack := attempt_answer payload status begun) in *.
  destruct (answered_linked w1 _ _ MessageKind.kBeginAttempt (writer_begin_attempt payload)
    (attempt_frame w payload) _ _ (MAttemptAck ack) response "unexpected attempt response"
    decode_attempt_ack Hl eq_refl eq_refl eq_refl Hf (persist_writes _ _) Eh Hresp Hans)
    as (w2 & E2 & _ & _); [done|].
  destruct (exec remote (attempt_remotely _ _) w1) as [w3 code] eqn:E3.
  assert (decode_attempt_ack (message_bytes (MAttemptAck ack)) = Ok (attempt_ack_norm ack)) as Ed
    by (by apply (decode_one_run reader_attempt_ack writer_attempt_ack attempt_ack_fits
          attempt_ack_norm ack)).
  rewrite Ed in E2. cbn [snd]. apply (f_equal snd) in E3. cbn [snd] in E3.
  by rewrite (attempt_remotely_ends _ _ _ _ _ _ E2) in E3.
Qed.
End remote.

(** C6: the end of [ctfctl plan] against a coordinator, over the wire, on a new connection to a
    running coordinator that has room for one more session, when every message of the command
    fits a frame, the coordinator's response included: the command exits with "accepted"
    exactly when [plan_flow_group], called once on the coordinator's service under the tool's
    own session with the request of the command line, succeeds with a decision that grants
    authority; and it leaves the coordinator as that call does, with the connection closed.
    A response that does not fit a frame is never sent, see [full_mesh_answer_lost]. *)
Theorem plan_exit_is_the_decision ios clock minted connection options w port instance pattern
    participants step :
  plan_line options = Got (port, instance, pattern, participants, step) →
  welcome connection w →
  let request := plan_asked ios w instance pattern participants step in
  deliverable ios clock minted connection w port request →
  let '(service, status, decided) := plan_decided ios clock minted connection w port request in
  ∃ s now,
    co_service s = service ∧
    (exec (remote ios clock minted connection) (run_plan options) w).2 =
      accepted_if (is_ok status &&
        match decided with Some d => outcome_grants_authority (de_outcome d) | None => false end) ∧
    rm_server (exec (remote ios clock minted connection) (run_plan options) w).1 =
      on_close now s connection.
Proof.
  intros Hline Hw request [Hclock Hseq Hack Hreq Hf [response Hresp] Hd].
  pose proof (plan_asked_norm ios w instance pattern participants step) as En.
  fold request in En.
  assert (request = (plan_request (greeting_ack ios w) instance pattern participants step)
    <| dr_session := ha_session (cl_hello (speaker (greeting_ack ios w) 0)) |>) as Ereq by reflexivity.
  clearbody request.
  destruct (connect_linked ios clock minted connection w port Hw Hclock Hseq Hack)
    as (w1 & E1 & _ & _ & Hl).
  assert (met ios clock minted connection w port = w1) as Em by (unfold met; by rewrite E1).
  rewrite (plan_decided_met _ _ _ _ _ _ _ _ Em) in Hd |- *. rewrite Em in Hresp.
  pose proof (plan_linked ios clock minted connection w1 _ _ _ request
    (plan_frame ios w request) response Hl eq_refl Ereq eq_refl Hreq Hf Hresp) as Hp.
  rewrite En in Hp. destruct (plan_flow_group _ _ _) as [[service status] decided].
  destruct (Hp Hd) as (w2 & answered & E2 & Es & _ & Ha). clear Hp.
  destruct (plan_remotely_ends _ _ _ _ _ _ _ _ _ _ _ _ _ E2) as [Er Ec].
  rewrite run_plan_line, Hline, with_client_linked, Em by done.
  destruct (exec _ (plan_remotely _ _ _ _ _) _) as [w3 code]. cbn [fst snd] in Er, Ec |- *.
  exists (rm_server w3). eexists. split; [by rewrite Er|]. split; [|reflexivity].
  rewrite Ec. destruct answered as [d|failure].
  - destruct Ha as (-> & d0 & -> & ->). reflexivity.
  - by rewrite Ha.
Qed.

(** C38: the end of [ctfctl begin-attempt] with a stated [--attempt] against a coordinator, over
    the wire, on a new connection to a running coordinator that has room for one more session,
    when every message of the command fits a frame: the command exits with "accepted" when the coordinator began the attempt, and also when it
    refused the attempt because its generation is not the current one while an earlier attempt
    is being planned; a comment of the source says that every refusal is reported as one. *)
Theorem attempt_exit_iff ios clock minted connection options w port payload :
  attempt_line options = Got (port, payload) → opt_has options "--attempt" = true →
  welcome connection w → attempt_deliverable ios clock minted connection w port payload →
  let '(_, status, _) := attempt_begun ios clock minted connection w port payload in
  let s := asked ios clock minted connection w port (attempt_frame ios w payload) in
  (exec (remote ios clock minted connection) (run_begin_attempt options) w).2 = kExitAccepted ↔
  is_ok status = true ∨
  sv_running s = true ∧
  ∃ record, catalog_find (sv_catalog s) (ba_id payload) = Some record ∧
    cd_generation (cr_definition record) ≠ ba_generation payload ∧
    cr_state record = CollectiveState.kPlanning.
Proof.
  intros Hline Ha Hw Hd. rewrite (run_attempt_line _ _ _ Hline Ha).
  pose proof (attempt_exit ios clock minted connection w port payload Hw Hd) as He. revert He.
  unfold attempt_begun. cbv zeta.
  match goal with |- context [Service.begin_attempt ?s ?context _ _ _ _] =>
    pose proof (attempt_state_planning s context payload) as Hs end.
  destruct (Service.begin_attempt _ _ _ _ _ _) as [[service status] begun]. intros ->.
  rewrite <- Hs. case_bool_decide; by cbn.
Qed.

(** C10: a session of the tool's client over the wire is a session of direct calls, as long as
    every request and every response fits a frame: if a client the coordinator serves makes
    requests one after the other, each of them is dispatched exactly once, in order, under the
    client's own session, each answer is the response to its own request, and at the end the
    coordinator is in the state the direct calls leave it in and still serves the client,
    whose sequence number has advanced by the number of requests. *)
Theorem session_is_direct_calls ios clock minted connection st w client asks s answers :
  linked connection w st client → cl_sequence client + zlen asks < two64 →
  direct ios connection st w client asks s answers →
  ∃ w' client',
    exec (remote ios clock minted connection) (ask_all client asks) w = (w', (client', answers)) ∧
    rm_server w' = s ∧ linked connection w' st client' ∧
    cl_sequence client' = cl_sequence client + zlen asks.
Proof. intros Hl Hn Hd. by eapply ask_all_direct. Qed.

(** ** Witnesses *)

(** A coordinator with a policy, evidence, participants and an attempt, and the tool's command
    lines against it. *)
Definition desk_io : Io := mkIo 500 501 502 (fun _ => status_ok) (fun _ => status_ok).
Definition desk : Remote := mkRemote (site_started <| co_service := demo_ready |>) [] true 0 [].
Definition desk_ios (n : nat) : Io := desk_io.
Definition desk_clock (n : nat) : Z := 500.
Definition desk_minted (n : nat) : Identity := mkIdentity 30 (Z.of_nat n + 1).
Definition desk_options (line : list string) : Options :=
  match parse line [] with Got options => options | Usage _ => [] end.
Definition desk_line (generation attempt : Identity) : list string :=
  ["--port"; "7000"; "--collective"; id_to_string (mkIdentity 1 1);
   "--generation"; id_to_string generation; "--attempt"; id_to_string attempt].
Definition desk_plan : Options :=
  desk_options (desk_line demo_generation (mkIdentity 1 3) ++ ["--pattern"; "ring"] ++
    flat_map (fun p => ["--participant"; id_to_string p]) demo_members).
Definition desk_stale : Options := desk_options (desk_line (mkIdentity 1 77) (mkIdentity 1 78)).
Definition desk_request : DecisionRequest :=
  plan_asked desk_ios desk
    (mkCollectiveInstance (mkIdentity 1 1) demo_generation (mkIdentity 1 3) 0) FlowPattern.kRing
    demo_members 1.
Definition desk_attempt : BeginAttemptPayload :=
  mkBeginAttemptPayload (mkIdentity 1 1) (mkIdentity 1 77) (mkIdentity 1 78) 0.

(** Closed goals that values fit: the structure of the predicate first, the numbers by
    computation. *)
Ltac fits :=
  lazymatch goal with
  | |- _ ∧ _ => split; fits
  | |- byte_string _ => apply bytes_check; vm_compute; reflexivity
  | |- Forall ?P ?l =>
      let l' := eval vm_compute in l in
      change (Forall P l'); repeat first [apply Forall_nil_2 | apply Forall_cons_2]; fits
  | |- (_ ≤ _)%Z => vm_compute; discriminate
  | |- (_ < _)%Z => vm_compute; reflexivity
  | |- _ = _ => vm_compute; reflexivity
  | |- True => exact I
  | |- _ → False => vm_compute; discriminate
  | |- _ => progress hnf; fits
  end.

Lemma desk_welcome : welcome 3 desk.
Proof. split; fits. Qed.

Lemma desk_plan_deliverable : deliverable desk_ios desk_clock desk_minted 3 desk 7000 desk_request.
Proof.
  split; [fits..| |].
  - eexists. split; [exists []; split; [constructor | vm_compute; reflexivity] | fits].
  - intros d Hd. vm_compute in Hd. injection Hd as <-. fits.
Qed.

Lemma plan_exit_is_the_decision_witness :
  (exec (remote desk_ios desk_clock desk_minted 3) (run_plan desk_plan) desk).2 = kExitAccepted.
Proof.
  pose proof (plan_exit_is_the_decision desk_ios desk_clock desk_minted 3 desk_plan desk 7000
    (dr_instance desk_request) FlowPattern.kRing demo_members 1 ltac:(vm_compute; reflexivity)
    desk_welcome desk_plan_deliverable) as H.
  fold desk_request in H.
  assert (is_ok (plan_decided desk_ios desk_clock desk_minted 3 desk 7000 desk_request).1.2 &&
    match (plan_decided desk_ios desk_clock desk_minted 3 desk 7000 desk_request).2 with
    | Some d => outcome_grants_authority (de_outcome d) | None => false end = true) as E
    by (vm_compute; reflexivity).
  destruct (plan_decided _ _ _ _ _ _ _) as [[service status] decided]. cbn [fst snd] in E.
  destruct H as (s & now & _ & H & _). rewrite H, E. reflexivity.
Defined.

Lemma desk_attempt_deliverable :
  attempt_deliverable desk_ios desk_clock desk_minted 3 desk 7000 desk_attempt.
Proof.
  split; [fits..| |fits].
  eexists. split; [exists []; split; [constructor | vm_compute; reflexivity] | fits].
Qed.

(** The coordinator refuses the attempt, and the command reports it as accepted. *)
Lemma attempt_exit_iff_witness :
  is_ok (attempt_begun desk_ios desk_clock desk_minted 3 desk 7000 desk_attempt).1.2 = false ∧
  (exec (remote desk_ios desk_clock desk_minted 3) (run_begin_attempt desk_stale) desk).2 =
    kExitAccepted.
Proof.
  pose proof (attempt_exit_iff desk_ios desk_clock desk_minted 3 desk_stale desk 7000 desk_attempt
    ltac:(vm_compute; reflexivity) ltac:(vm_compute; reflexivity)
    desk_welcome desk_attempt_deliverable) as H.
  split; [vm_compute; reflexivity|].
  destruct (attempt_begun _ _ _ _ _ _ _) as [[service status] begun]. apply H. right.
  split; [vm_compute; reflexivity|].
  destruct (catalog_find (sv_catalog (asked desk_ios desk_clock desk_minted 3 desk 7000
    (attempt_frame desk_ios desk desk_attempt))) (ba_id desk_attempt)) as [record|] eqn:E;
    vm_compute in E; [|discriminate].
  injection E as <-. eexists. split; [reflexivity|]. split; [vm_compute; discriminate | reflexivity].
Defined.

(** A heartbeat and a shutdown request in one session. *)
Definition desk_met : Remote := met desk_ios desk_clock desk_minted 3 desk 7000.
Definition desk_state : ConnectionState := greeted "ctfctl" (opened_state desk_ios desk).
Definition desk_client : Client := speaker (greeting_ack desk_ios desk) 0.
Definition desk_heartbeat : list Z :=
  writer_heartbeat (mkHeartbeatPayload (mkIdentity 0 1) (mkIdentity 4 1) ParticipantState.kLive
    (mkIdentity 9 1) 500).

(** What one direct call leaves and answers. *)
Definition desk_call (w : Remote) (client : Client) (kind : MessageKind) (payload : list Z)
    : CoordinatorServer * Frame :=
  let f := request_frame (advanced client) kind payload in
  let h := dispatch (io_of desk_ios w) (admitted desk_ios w f) 3 desk_state f
             (request_context (envelope_view f) (io_now (io_of desk_ios w))) (Some kind) in
  (h.1, match h.2 with [Sent _ response] => response | _ => f end).
Definition desk_first : CoordinatorServer * Frame :=
  desk_call desk_met desk_client MessageKind.kHeartbeat desk_heartbeat.
Definition desk_second : CoordinatorServer * Frame :=
  desk_call (tick (tick (desk_met <| rm_server := desk_first.1 |>))) (advanced desk_client)
    MessageKind.kShutdown [].

Lemma desk_linked : linked 3 desk_met desk_state desk_client.
Proof.
  destruct (connect_linked desk_ios desk_clock desk_minted 3 desk 7000 desk_welcome)
    as (w & E & _ & _ & Hl); [fits..|].
  unfold desk_met, met. rewrite E. exact Hl.
Qed.

Lemma session_is_direct_calls_witness : ∃ w client,
  exec (remote desk_ios desk_clock desk_minted 3)
    (ask_all desk_client [(MessageKind.kHeartbeat, desk_heartbeat); (MessageKind.kShutdown, [])])
    desk_met = (w, (client, [answer_of desk_first.2; answer_of desk_second.2])) ∧
  co_shutdown_requested (rm_server w) = true ∧ cl_sequence client = 2.
Proof.
  destruct (session_is_direct_calls desk_ios desk_clock desk_minted 3 desk_state desk_met
    desk_client [(MessageKind.kHeartbeat, desk_heartbeat); (MessageKind.kShutdown, [])]
    desk_second.1 [answer_of desk_first.2; answer_of desk_second.2] desk_linked)
    as (w & client & He & Hs & _ & Hn).
  - vm_compute. reflexivity.
  - eapply (direct_call _ _ _ _ _ _ _ _ desk_first.1); [reflexivity | fits | vm_compute; reflexivity | |].
    { split; [exists []; split; [constructor | vm_compute; reflexivity] | fits]. }
    eapply (direct_call _ _ _ _ _ _ _ _ desk_second.1); [reflexivity | fits | vm_compute; reflexivity | |].
    { split; [exists []; split; [constructor | vm_compute; reflexivity] | fits]. }
    exact (direct_end desk_ios 3 desk_state
      (tick (tick ((tick (tick (desk_met <| rm_server := desk_first.1 |>)))
                     <| rm_server := desk_second.1 |>))) (advanced (advanced desk_client))).
  - exists w, client. split; [exact He|]. rewrite Hs, Hn. split; vm_compute; reflexivity.
Defined.
