(* ===== verification/Consumer.v ===== *)
(** The downstream consumer of the installed package ([validate/downstream/consumer.cpp]): one
    evaluation by the engine in a world it builds itself, checked against the generations it
    was bound to.

    The program is a [Prog]: its calls are [mint_identity] and the two streams.  The theorem
    says which runs succeed, whatever identities are minted. *)
From S2P Require Import Prelude Identity Errors Participant Collective FlowGroup Traffic.
From S2P Require Import Evidence Sync Decision Engine Authority Protocol Coordinator.
From S2P Require Import Program Client WireData Workload Bringup Ctl.

Definition kNowMs : Z := 1000.
Definition kExpiryMs : Z := 100000.

Record World := mkWorld {
  wd_peers : list PeerLiveness;
  wd_snapshot : EvaluationSnapshot;
}.

(** ** The world *)
Definition world_topology (generation node rack link a b : Identity) : TopologyEvidence :=
  topology_canonicalize
    (mkTopologyEvidence generation [mkTopologyNode node rack true 8]
       [mkTopologyLink link a b LinkClass.kInterRack 400000000000 4 false] 0 true).

Definition world_capacity (generation topology_generation link : Identity) : CapacityEvidence :=
  capacity_canonicalize
    (mkCapacityEvidence generation topology_generation
       [mkLinkCapacity link 400000000000 (400000000000 / 2) 1000 false 1000] 0 true).

Definition world_congestion (generation topology_generation link : Identity)
    : CongestionEvidence :=
  congestion_canonicalize
    (mkCongestionEvidence generation topology_generation
       [mkLinkCongestion link 2000 0 0 0 (congestion_level_from_utilization_bps 2000)] 0 5000 true).

Definition world_peer (node participant incarnation : Identity) : PeerLiveness :=
  mkPeerLiveness participant incarnation ParticipantState.kLive 0 kExpiryMs node id_none.

Definition world_snapshot (epoch topology_generation : Identity) (topology : TopologyEvidence)
    (capacity : CapacityEvidence) (congestion : CongestionEvidence) (policy : TrafficPolicy)
    (peers : list PeerLiveness) : EvaluationSnapshot :=
  mkEvaluationSnapshot epoch (tp_generation policy) topology_generation
    (ce_generation capacity) (ge_generation congestion) (Some topology) (Some capacity)
    (Some congestion) (Some policy) peers
    (mkFreshnessPolicy (fr_topology_max_age_ms default_freshness)
       (fr_capacity_max_age_ms default_freshness) 5000
       (fr_peer_liveness_max_age_ms default_freshness)
       (fr_stale_requires_revalidation default_freshness))
    kNowMs true true true true.

Definition build_world : Prog World :=
  topology_generation ← call Mint;
  node ← call Mint;
  rack ← call Mint;
  link ← call Mint;
  a ← call Mint;
  b ← call Mint;
  let topology := world_topology topology_generation node rack link a b in
  capacity_generation ← call Mint;
  let capacity := world_capacity capacity_generation topology_generation link in
  congestion_generation ← call Mint;
  let congestion := world_congestion congestion_generation topology_generation link in
  policy_generation ← call Mint;
  let policy := standard_policy policy_generation in
  first ← call Mint;
  second ← call Mint;
  first_incarnation ← call Mint;
  second_incarnation ← call Mint;
  let peers := std_sort (on_key id_ltb pr_participant)
    [world_peer node first first_incarnation; world_peer node second second_incarnation] in
  epoch ← call Mint;
  Ret {| wd_peers := peers;
         wd_snapshot :=
           world_snapshot epoch topology_generation topology capacity congestion policy peers |}.

(** ** The request *)
Definition consumer_definition (id generation : Identity) (peers : list PeerLiveness)
    : CollectiveDefinition :=
  definition_default
    <| cd_id := id |> <| cd_generation := generation |>
    <| cd_collective_class := CollectiveClass.kAllReduce |>
    <| cd_label := "consumer-all-reduce" |> <| cd_logical_bytes := Z.shiftl 1 20 |>
    <| cd_participants :=
         canonicalize_participants (take 2 (pr_participant <$> peers)) |>.

(** The chain there and back; [nth] stands for the indices 0 and 1 of the participants. *)
Definition forward (participants : list Identity) : FlowEdge :=
  mkFlowEdge (nth 0 participants id_none) (nth 1 participants id_none) (Z.shiftl 1 20) 1
    AlgorithmHint.kUnspecified false.
Definition backward (participants : list Identity) : FlowEdge :=
  mkFlowEdge (nth 1 participants id_none) (nth 0 participants id_none) (Z.shiftl 1 20) 2
    AlgorithmHint.kUnspecified false.

Definition consumer_plan (definition : CollectiveDefinition) (instance : CollectiveInstance)
    : FlowGroupPlan :=
  mkFlowGroupPlan instance (cd_collective_class definition) FlowPattern.kChain
    FlowDirection.kUnidirectional
    [forward (cd_participants definition); backward (cd_participants definition)] 0 false.

Definition consumer_request (snapshot : EvaluationSnapshot) (definition : CollectiveDefinition)
    (instance : CollectiveInstance) : DecisionRequest :=
  request_default
    <| dr_instance := instance |>
    <| dr_observed_epoch := es_epoch snapshot |>
    <| dr_observed_policy_generation := es_policy_generation snapshot |>
    <| dr_observed_topology_generation := es_topology_generation snapshot |>
    <| dr_observed_capacity_generation := es_capacity_generation snapshot |>
    <| dr_observed_congestion_generation := es_congestion_generation snapshot |>
    <| dr_has_flow_group_plan := true |>
    <| dr_plan := consumer_plan definition instance |>.

(** ** main *)

(** [ctf::evaluate], whose counters are nobody's. *)
Definition evaluated (snapshot : EvaluationSnapshot) (request : DecisionRequest)
    (definition : CollectiveDefinition) : DecisionRecord :=
  (evaluate snapshot request definition (mkEngineCounters 0 0 0 0)).1.

Definition bound_to_snapshot (decision : DecisionRecord) (snapshot : EvaluationSnapshot)
    (definition : CollectiveDefinition) : bool :=
  (de_epoch decision =i es_epoch snapshot) &&
  (de_topology_generation decision =i es_topology_generation snapshot) &&
  (de_policy_generation decision =i es_policy_generation snapshot) &&
  (de_collective_generation decision =i cd_generation definition).

(** [std::printf("<name>: %s\n", value.c_str())] *)
Definition print_field (name value : string) : Prog unit :=
  call (Out (String.concat "" [name; ": "; c_str value; newline])).

(** [return 1] after a line on the standard error. *)
Definition complain (line : string) : Prog Z :=
  call (Err (String.append line newline));; Ret 1.

Definition check_decision (snapshot : EvaluationSnapshot) (request : DecisionRequest)
    (definition : CollectiveDefinition) : Prog Z :=
  let decision := evaluated snapshot request definition in
  print_field "outcome" (Outcome.Outcome_to_string (de_outcome decision));;
  print_field "traffic_class" (TrafficClass.TrafficClass_to_string (de_traffic_class decision));;
  print_field "flow_group" (id_to_string (de_flow_group decision));;
  print_field "bound epoch" (id_to_string (de_epoch decision));;
  print_field "fingerprint" (decimal (fingerprint decision));;
  call (Out (c_str (Decision.explain decision)));;
  if negb (outcome_grants_authority (de_outcome decision)) then
    complain "consumer: expected an admitting decision"
  else if negb (bound_to_snapshot decision snapshot definition) then
    complain "consumer: the decision was not bound to the snapshot"
  else
    let again := evaluated snapshot request definition in
    if negb (fingerprint again =? fingerprint decision) then
      complain "consumer: the decision was not reproducible"
    else call (Out (String.append "consumer: OK" newline));; Ret 0.

Definition consumer_main : Prog Z :=
  world ← build_world;
  id ← call Mint;
  generation ← call Mint;
  let definition := consumer_definition id generation (wd_peers world) in
  attempt ← call Mint;
  let instance := mkCollectiveInstance id generation attempt 0 in
  check_decision (wd_snapshot world) (consumer_request (wd_snapshot world) definition instance)
    definition.

(** ** When the consumer succeeds *)

(** The identities a run has minted, in order. *)
Definition minted_in (trace : list Event) : list Identity :=
  omap (fun e => match e with EMint id => Some id | _ => None end) trace.

(** What a run has written to the standard error. *)
Definition errors_in (trace : list Event) : list string :=
  omap (fun e => match e with EErr text => Some text | _ => None end) trace.

Definition collect (seen : list Event) (e : Event) : option (list Event) := Some (seen ++ [e]).

Lemma follow_collect trace seen : follow collect trace seen = Some (seen ++ trace).
Proof.
  revert seen. induction trace as [|e trace IH]; intros seen; [by rewrite app_nil_r|].
  by rewrite (follow_cons _ _ _ _ _ eq_refl), IH, <- app_assoc.
Qed.

Lemma collected_run {A} (p : Prog A) (Q : list Event → A → Prop) trace a :
  monitored collect Q p [] → runs p trace a → Q trace a.
Proof.
  intros Hm Hr. destruct (monitored_runs _ _ _ _ _ _ Hm Hr) as (seen & Hf & HQ).
  rewrite follow_collect in Hf. by injection Hf as <-.
Qed.

Lemma evaluated_spec snapshot request definition :
  let r := evaluated snapshot request definition in
  (authorized snapshot request definition ∧ outcome_grants_authority (de_outcome r) = true ∧
   bound_to_snapshot r snapshot definition = true) ∨
  (¬ authorized snapshot request definition ∧ outcome_grants_authority (de_outcome r) = false).
Proof.
  cbv zeta. unfold evaluated.
  destruct (evaluate_cases snapshot request definition (mkEngineCounters 0 0 0 0))
    as [(g & t & policy & cp & tc & Ha & Hs)|[Hn (Ho & _)]]; [left|by right].
  split; [by exists g, t, policy, cp, tc|].
  set (r := (evaluate _ _ _ _).1) in *. clearbody r. unfold bound_to_snapshot.
  assert (de_outcome r = grant_outcome tc) as -> by exact (f_equal de_outcome Hs).
  assert (de_epoch r = es_epoch snapshot) as -> by exact (f_equal de_epoch Hs).
  assert (de_topology_generation r = es_topology_generation snapshot) as ->
    by exact (f_equal de_topology_generation Hs).
  assert (de_policy_generation r = es_policy_generation snapshot) as ->
    by exact (f_equal de_policy_generation Hs).
  assert (de_collective_generation r = cd_generation definition) as ->
    by exact (f_equal de_collective_generation Hs).
  rewrite !id_eqb_refl. unfold grant_outcome. by case_bool_decide.
Qed.

(** The report the checks end in. *)
Definition reported (granted : Prop) (seen trace : list Event) (code : Z) : Prop :=
  (granted ∧ code = 0 ∧ errors_in trace = errors_in seen ∧ minted_in trace = minted_in seen) ∨
  (¬ granted ∧ code = 1 ∧ minted_in trace = minted_in seen ∧
   errors_in trace =
     errors_in seen ++ [String.append "consumer: expected an admitting decision" newline]).

Lemma check_decision_reports snapshot request definition seen :
  monitored collect (reported (authorized snapshot request definition) seen)
    (check_decision snapshot request definition) seen.
Proof.
  unfold check_decision.
  pose proof (evaluated_spec snapshot request definition) as Hr. cbv zeta in Hr.
  set (r := evaluated snapshot request definition) in *. clearbody r.
  unfold reported, minted_in, errors_in, complain.
  destruct Hr as [(Ha & -> & ->)|(Ha & ->)]; cbn [negb].
  - rewrite Z.eqb_refl. cbn -[fingerprint decimal Decision.explain id_to_string c_str String.concat].
    intros _ _ _ _ _ _ _. left. rewrite !omap_app. cbn. by rewrite !app_nil_r.
  - cbn -[fingerprint decimal Decision.explain id_to_string c_str String.concat].
    intros _ _ _ _ _ _ _. right. rewrite !omap_app. cbn. by rewrite !app_nil_r.
Qed.

(** ** The evaluation

    [lo] and [hi] are the two participants in ascending order. *)
Section evaluated.
Context (tg node rack link la lb cg gg pg epoch id generation attempt : Identity).
Context (lo hi ilo ihi : Identity) (Hlt : (lo <i hi) = true).
Context (Hsome : Forall (fun x => x ≠ id_none) [tg; cg; gg; pg; lo; hi; id; generation; attempt]).

Let peers := [world_peer node lo ilo; world_peer node hi ihi].
Let snapshot := world_snapshot epoch tg (world_topology tg node rack link la lb)
  (world_capacity cg tg link) (world_congestion gg tg link) (standard_policy pg) peers.
Let definition := consumer_definition id generation peers.
Let instance := mkCollectiveInstance id generation attempt 0.
Let request := consumer_request snapshot definition instance.

Lemma consumer_peers_ascending :
  StronglySorted (fun a b => (pr_participant a <i pr_participant b) = true) peers.
Proof. unfold peers. repeat constructor. exact Hlt. Qed.

Lemma consumer_participants : cd_participants definition = [lo; hi].
Proof. apply canonicalize_canonical. repeat constructor. exact Hlt. Qed.

Lemma consumer_find_peer p :
  p ∈ [lo; hi] → ∃ i, find_peer snapshot p = Some (world_peer node p i).
Proof.
  intros Hp. assert (∃ i, world_peer node p i ∈ peers) as [i Hi].
  { unfold peers. set_unfold. destruct Hp as [-> | [-> | []]]; eauto. }
  exists i. apply (binary_find_Some pr_participant peers); [apply consumer_peers_ascending | done].
Qed.

Lemma consumer_find_node :
  is_Some (find_node (world_topology tg node rack link la lb) node).
Proof.
  exists (mkTopologyNode node rack true 8).
  apply (binary_find_Some tn_id [mkTopologyNode node rack true 8]); [repeat constructor|].
  split; [by left | done].
Qed.

Lemma consumer_plan_constructs :
  (∃ group, construct_flow_group
     ((dr_plan request) <| fp_collective_class := cd_collective_class definition |>)
     (cd_participants definition) = Ok group) ↔
  edge_key (forward [lo; hi]) ≠ edge_key (backward [lo; hi]).
Proof.
  rewrite constructs_iff. unfold plan_valid.
  assert (fp_edges ((dr_plan request) <| fp_collective_class := cd_collective_class definition |>) =
    [forward [lo; hi]; backward [lo; hi]]) as ->
    by (rewrite <- consumer_participants; reflexivity).
  rewrite consumer_participants. cbn [fmap list_fmap]. rewrite NoDup_cons, list_elem_of_singleton.
  pose proof Hsome as Hs; repeat (apply Forall_cons_1 in Hs as [? Hs]).
  assert (lo ≠ hi) by (intros ->; by rewrite st_irrefl in Hlt).
  split; [by intros (_ & _ & _ & _ & _ & _ & _ & _ & Hk & _)|]. intros Hk.
  split_and!; try done; [|apply NoDup_singleton].
  repeat constructor; cbn; set_solver.
Qed.

Lemma consumer_chain_ok : chain_ok snapshot request [lo; hi].
Proof.
  pose proof Hsome as Hs; repeat (apply Forall_cons_1 in Hs as [? Hs]).
  unfold chain_ok. split_and!; try (by right); try (intros; by right); try done; try by eexists.
  apply Forall_forall. intros p Hp. destruct (consumer_find_peer p Hp) as [i Hi].
  by exists (world_peer node p i).
Qed.

Lemma consumer_nodes_known :
  nodes_known snapshot (world_topology tg node rack link la lb) [lo; hi].
Proof.
  apply Forall_forall. intros p Hp l Hl. destruct (consumer_find_peer p Hp) as [i Hi].
  rewrite Hi in Hl. injection Hl as <-. apply consumer_find_node.
Qed.

Lemma consumer_capacity : observed_capacity snapshot = (200000000000, true).
Proof.
  pose proof Hsome as Hs. repeat (apply Forall_cons_1 in Hs as [? Hs]).
  unfold observed_capacity.
  change (es_capacity snapshot) with (Some (world_capacity cg tg link)). cbv iota beta.
  change (es_capacity_generation snapshot) with cg.
  change (ce_topology_generation _ =i _) with (tg =i tg).
  rewrite (proj2 (is_some_neq _)), id_eqb_refl by done. by vm_compute.
Qed.

Lemma consumer_congestion bound :
  1000 ≤ bound → observed_congestion snapshot bound = (2000, true).
Proof.
  intros Hb. pose proof Hsome as Hs. repeat (apply Forall_cons_1 in Hs as [? Hs]).
  unfold observed_congestion.
  change (es_congestion snapshot) with (Some (world_congestion gg tg link)). cbv iota beta.
  change (es_congestion_generation snapshot) with gg.
  change (ge_topology_generation _ =i _) with (tg =i tg).
  rewrite (proj2 (is_some_neq _)), id_eqb_refl by done. cbn [andb].
  change (evidence_age _ _) with 1000. change (ge_valid_for_ms _) with 5000.
  rewrite (proj2 (Z.leb_le 1000 (5000 `min` bound))) by lia. by vm_compute.
Qed.

Lemma consumer_treated :
  ∃ cp tc, treatment request definition (standard_policy pg) cp tc ∧
           evidence_ok snapshot (standard_policy pg) cp tc.
Proof.
  eexists _, _. split; [split_and!; try done; by vm_compute|].
  split; [intros _; split; [done|]; intros c [= <-]; by vm_compute|].
  unfold compute_pacing. rewrite consumer_capacity, consumer_congestion; by vm_compute.
Qed.

Lemma consumer_authorized_iff :
  authorized snapshot request definition ↔
  edge_key (forward [lo; hi]) ≠ edge_key (backward [lo; hi]).
Proof.
  rewrite <- consumer_plan_constructs. unfold authorized, authorized_by.
  split; [intros (g & _ & _ & _ & _ & _ & _ & Hg & _); by exists g|].
  intros [g Hg]. destruct consumer_treated as (cp & tc & Ht & He).
  eexists g, _, _, cp, tc. rewrite consumer_participants in *.
  split_and!; try done.
  - apply consumer_chain_ok.
  - apply consumer_nodes_known.
Qed.
End evaluated.

(** The peers, sorted, are those of the two participants in ascending order. *)
Lemma consumer_peers_ordered node first second i1 i2 :
  first ≠ second →
  ∃ lo hi ilo ihi, (lo <i hi) = true ∧ [lo; hi] ≡ₚ [first; second] ∧
    std_sort (on_key id_ltb pr_participant)
      [world_peer node first i1; world_peer node second i2] =
    [world_peer node lo ilo; world_peer node hi ihi].
Proof.
  intros Hne. destruct (sort_two pr_participant (world_peer node first i1)
    (world_peer node second i2) Hne) as (lo & hi & Hlt & Hp & Hs).
  assert (∀ x, x ∈ [lo; hi] → ∃ i, x = world_peer node (pr_participant x) i) as Hx.
  { intros x. rewrite Hp. intros [-> | ->%list_elem_of_singleton]%elem_of_cons; by eexists. }
  destruct (Hx lo) as [ilo Elo]; [by left|]. destruct (Hx hi) as [ihi Ehi]; [by right; left|].
  exists (pr_participant lo), (pr_participant hi), ilo, ihi. rewrite <- Elo, <- Ehi.
  split_and!; try done. exact (fmap_Permutation pr_participant _ _ Hp).
Qed.

(** A run in which the identities are minted from a list, for the programs that only mint and
    print. *)
Fixpoint drive {A} (p : Prog A) (ids : list Identity) : list Event * option A :=
  match p with
  | Ret a => ([], Some a)
  | Do (Out text) k => let '(trace, a) := drive (k tt) ids in (EOut text :: trace, a)
  | Do (Err text) k => let '(trace, a) := drive (k tt) ids in (EErr text :: trace, a)
  | Do Mint k =>
      let id := hd id_none ids in
      let '(trace, a) := drive (k id) (tail ids) in (EMint id :: trace, a)
  | Do _ _ => ([], None)
  end.

Lemma drive_runs {A} (p : Prog A) ids trace a : drive p ids = (trace, Some a) → runs p trace a.
Proof.
  revert ids trace a. induction p as [a'|c k IH]; intros ids trace a; cbn.
  { intros [= <- <-]. constructor. }
  destruct c; try done; (destruct (drive _ _) as [rest [a'|]] eqn:E; [|done]);
    intros [= <- <-]; apply IH in E.
  - by apply (runs_do (Out text) k tt).
  - by apply (runs_do (Err text) k tt).
  - by apply (runs_do Mint k (hd id_none ids)).
Qed.

(** C13: when the downstream consumer succeeds.  Whatever distinct identities are minted, a run
    of the program exits with 0 and writes nothing to the standard error when the folded keys of
    its two edges differ, and otherwise exits with 1 after the line that no admitting decision
    was made: the decision it is given is always bound to its snapshot and reproducible. *)
Theorem consumer_exit (trace : list Event) (code : Z) :
  runs consumer_main trace code →
  Forall (fun x => x ≠ id_none) (minted_in trace) → NoDup (minted_in trace) →
  ∃ lo hi, [lo; hi] ≡ₚ take 2 (drop 9 (minted_in trace)) ∧ (lo <i hi) = true ∧
    (if decide (edge_key (forward [lo; hi]) = edge_key (backward [lo; hi]))
     then code = 1 ∧ errors_in trace =
            [String.append "consumer: expected an admitting decision" newline]
     else code = 0 ∧ errors_in trace = []).
Proof.
  intros Hr. pattern trace, code. revert Hr. apply collected_run.
  intros tg node rack link la lb cg gg pg first second i1 i2 epoch id generation attempt.
  cbn [app]. eapply monitored_mono; [apply check_decision_reports|].
  intros seen a Hrep Hsome Hnodup.
  assert (minted_in seen = [tg; node; rack; link; la; lb; cg; gg; pg; first; second; i1; i2;
    epoch; id; generation; attempt]) as Hm by (by destruct Hrep as [(_&_&_&->)|(_&_&->&_)]).
  rewrite Hm in *. cbn [take drop].
  destruct (consumer_peers_ordered node first second i1 i2) as (lo & hi & ilo & ihi & Hlt & Hp & E).
  { intros ->. repeat (apply NoDup_cons in Hnodup as [? Hnodup]). set_solver. }
  exists lo, hi. split_and!; [done..|].
  cbn [wd_snapshot wd_peers] in Hrep. rewrite E in Hrep.
  assert (Forall (fun x => x ≠ id_none) [tg; cg; gg; pg; lo; hi; id; generation; attempt]).
  { assert (Forall (fun x => x ≠ id_none) [lo; hi]) as Hlh
      by (rewrite Hp; repeat (apply Forall_cons_1 in Hsome as [? Hsome]); by repeat constructor).
    repeat (apply Forall_cons_1 in Hsome as [? Hsome]).
    repeat (apply Forall_cons_1 in Hlh as [? Hlh]). by repeat constructor. }
  unfold reported in Hrep. rewrite consumer_authorized_iff in Hrep by done.
  case_decide; naive_solver.
Qed.

(** The seventeen identities the program mints, counted up from [first]. *)
Definition demo_minted (first : Z) : list Identity :=
  (fun n => mkIdentity 0 (first + Z.of_nat n)) <$> seq 0 17.

Lemma consumer_exit_witness :
  ∃ trace, minted_in trace = demo_minted 1 ∧ runs consumer_main trace 0 ∧ errors_in trace = [].
Proof.
  destruct (drive consumer_main (demo_minted 1)) as [trace code] eqn:E.
  assert (code = Some 0) as ->.
  { rewrite <- (f_equal snd E : _ = code). by vm_compute. }
  assert (minted_in trace = demo_minted 1) as Em.
  { rewrite <- (f_equal fst E : _ = trace). by vm_compute. }
  pose proof (drive_runs _ _ _ _ E) as Hr. clear E. exists trace. split; [exact Em|].
  split; [exact Hr|].
  destruct (consumer_exit trace 0 Hr) as (lo & hi & _ & _ & H).
  - rewrite Em. apply (bool_decide_unpack _). by vm_compute.
  - rewrite Em. apply (bool_decide_unpack _). by vm_compute.
  - case_decide; destruct H as [Hc He]; [discriminate Hc | exact He].
Defined.
