(* ===== verification/Example.v ===== *)
(** The decision types example ([examples/example_decision_types.cpp]): a coordinator in process,
    over a synthetic fabric, that admits one collective and refuses two requests.

    The program is a [Prog] whose calls are the two streams; every identity comes from the
    process minter, whose entropy and counter are its arguments. *)
From S2P Require Import Prelude Identity Errors Participant Collective FlowGroup Traffic.
From S2P Require Import Evidence Sync Decision Engine Admission Catalog Authority Service Protocol.
From S2P Require Import Coordinator Program Client WireData Workload Bringup Ctl.

Definition kSyntheticClockMs : Z := 1000.
Definition kLinkCapacityBps : Z := 400 * 1000 * 1000 * 1000.
Definition kRackCount : nat := 2.
Definition kNodesPerRack : nat := 2.
Definition kUtilizationBps : Z := 2000.
Definition kAvailablePerMille : Z := 750.
Definition kCongestionWindowMs : Z := 2000.
Definition kCollectiveBytes : Z := Z.shiftl 1 30.
Definition kEdgeBytes : Z := Z.shiftl 1 28.

Definition emit (line : string) : Prog unit := call (Out (String.append (c_str line) newline)).

Definition fail (message : string) : Prog (option Z) :=
  call (Err (c_str (concat_all ["example: "; message; newline])));; Ret (Some 1).

Definition yes_no (value : bool) : string := if value then "yes" else "no".

Definition relationship (bound observed : Identity) : string :=
  if is_none bound then "not_bound"
  else if is_none observed then "no_observation_to_compare"
  else if bound =i observed then "matches_the_snapshot" else "differs_from_the_snapshot".

Definition reason_codes (chain : ReasonChain) : string :=
  let out := foldl (fun out reason =>
    String.append (if bool_decide (out = "") then out else String.append out " -> ")
      (r_code reason)) "" chain in
  if bool_decide (out = "") then "none" else out.

(** ** The fabric *)

(** [count] calls of [mint_identity]: the counter after them, and the identities in order. *)
Fixpoint minted (entropy : Z) (count : nat) (counter : Z) : Z * list Identity :=
  match count with
  | O => (counter, [])
  | S count =>
      let '(counter', rest) := minted entropy count (w64 (counter + 1)) in
      (counter', mint_identity entropy counter :: rest)
  end.

Definition fabric_node (rack id : Identity) : TopologyNode := mkTopologyNode id rack true 8.
Definition fabric_link (spine switch id : Identity) : TopologyLink :=
  mkTopologyLink id switch spine LinkClass.kInterRack kLinkCapacityBps 4 true.
Definition fabric_capacity (link : TopologyLink) : LinkCapacity :=
  mkLinkCapacity (tl_id link) (tl_capacity_bps link)
    (w64 (tl_capacity_bps link / 1000 * kAvailablePerMille)) kUtilizationBps true 4000.
Definition fabric_congestion (link : TopologyLink) : LinkCongestion :=
  mkLinkCongestion (tl_id link) kUtilizationBps 0 0 0
    (congestion_level_from_utilization_bps kUtilizationBps).

(** The evidence over the identities; the rack of the [n]th node is the one of its turn of the
    outer loop. *)
Definition assemble (racks switches node_ids link_ids : list Identity)
    (topology_generation capacity_generation congestion_generation : Identity) (now_ms : Z)
    : SyntheticFabric :=
  let nodes := imap (fun n => fabric_node (nth (n / kNodesPerRack) racks id_none)) node_ids in
  let links := zip_with (fabric_link (default id_none (last switches))) switches link_ids in
  let topology := topology_canonicalize
    (mkTopologyEvidence topology_generation nodes links now_ms true) in
  {| sf_topology := topology;
     sf_capacity := capacity_canonicalize
       (mkCapacityEvidence capacity_generation (te_generation topology)
          (fabric_capacity <$> te_links topology) now_ms true);
     sf_congestion := congestion_canonicalize
       (mkCongestionEvidence congestion_generation (te_generation topology)
          (fabric_congestion <$> te_links topology) now_ms kCongestionWindowMs true);
     sf_nodes := node_ids |}.

(** The process counter after the fabric, and the fabric. *)
Definition make_synthetic_fabric (entropy counter now_ms : Z) : Z * SyntheticFabric :=
  let '(counter, racks) := minted entropy kRackCount counter in
  let '(counter, switches) := minted entropy (kRackCount + 1) counter in
  let '(counter, node_ids) := minted entropy (kRackCount * kNodesPerRack) counter in
  let '(counter, link_ids) := minted entropy kRackCount counter in
  let '(counter, generations) := minted entropy 3 counter in
  (counter, assemble racks switches node_ids link_ids (nth 0 generations id_none)
              (nth 1 generations id_none) (nth 2 generations id_none) now_ms).

(** ** The plan *)
Definition ring_edge (participants : list Identity) (index : nat) : FlowEdge :=
  mkFlowEdge (nth index participants id_none)
    (nth ((index + 1) mod length participants) participants id_none) kEdgeBytes 1
    AlgorithmHint.kRing true.

Definition make_ring_plan (instance : CollectiveInstance) (collective_class : CollectiveClass)
    (participants : list Identity) : FlowGroupPlan :=
  mkFlowGroupPlan instance collective_class FlowPattern.kRing FlowDirection.kUnidirectional
    (ring_edge participants <$> seq 0 (length participants)) 1 true.

(** ** Printing *)
Definition print_structure (label : string) (decision : DecisionRecord)
    (request : DecisionRequest) : Prog unit :=
  emit (String.append "--- " label);;
  emit (concat_all
    ["structural: outcome="; Outcome.Outcome_to_string (de_outcome decision);
     " authority_axis="; AuthorityAxis.AuthorityAxis_to_string (de_axis decision);
     " error_code="; ErrorCode.error_to_string (de_code decision);
     " collective_class="; CollectiveClass.CollectiveClass_to_string (de_collective_class decision);
     " traffic_class="; TrafficClass.TrafficClass_to_string (de_traffic_class decision);
     " priority="; decimal (de_priority decision);
     " isolation="; IsolationMode.IsolationMode_to_string (de_isolation decision)]);;
  let pacing := de_pacing decision in
  emit (concat_all
    ["pacing: mode="; PacingMode.PacingMode_to_string (pi_mode pacing);
     " admitted_bandwidth_bps="; decimal (pi_admitted_bandwidth_bps pacing);
     " ceiling_bandwidth_bps="; decimal (pi_ceiling_bandwidth_bps pacing);
     " burst_bytes="; decimal (pi_burst_bytes pacing);
     " utilization_bps="; decimal (pi_utilization_bps pacing)]);;
  emit (concat_all
    ["evidence: capacity_used="; yes_no (de_capacity_evidence_used decision);
     " congestion_used="; yes_no (de_congestion_evidence_used decision);
     " all_members_live="; yes_no (de_all_members_live decision);
     " flow_group_constructed="; yes_no (de_flow_group_constructed decision);
     " edges="; decimal (zlen (fg_edges (de_group decision)))]);;
  emit (concat_all
    ["generations: collective=";
     relationship (de_collective_generation decision) (ci_generation (dr_instance request));
     " topology=";
     relationship (de_topology_generation decision) (dr_observed_topology_generation request);
     " policy=";
     relationship (de_policy_generation decision) (dr_observed_policy_generation request);
     " capacity=";
     relationship (de_capacity_generation decision) (dr_observed_capacity_generation request);
     " congestion=";
     relationship (de_congestion_generation decision) (dr_observed_congestion_generation request)]);;
  emit (String.append "reason_codes: " (reason_codes (de_reasons decision))).

(** The loop over the lines of a text, from [line], what it has of the current one: a line ends
    at a newline or at the end of the text, where an empty one is not printed. *)
Fixpoint emit_lines (line text : string) : Prog unit :=
  match text with
  | EmptyString => if bool_decide (line = "") then Ret tt else emit line
  | String c rest =>
      if bool_decide (String c "" = newline) then emit line;; emit_lines "" rest
      else emit_lines (String.append line (String c "")) rest
  end.

Definition print_per_run_text (label : string) (decision : DecisionRecord) : Prog unit :=
  emit (String.append "per_run_text_begin: " label);;
  emit (String.append "reasons: " (rc_to_string (de_reasons decision)));;
  emit (String.append "library_summary: " (Decision.summary decision));;
  emit "library_explanation:";;
  emit_lines "" (Decision.explain decision);;
  emit "per_run_text_end".

(** ** main *)

(** [if (!status.is_ok()) return fail(what + status.message());] *)
Definition or_fail (what : string) (status : Status) (k : Prog (option Z)) : Prog (option Z) :=
  if negb (is_ok status) then fail (String.append what (st_message status)) else k.

(** [if (service.authority().install_*(...) != InstallResult::kInstalled) return fail(refused);] *)
Definition or_refused (s : CoordinatorService) (installed : AuthorityState * InstallResult)
    (refused : string) (k : CoordinatorService → Prog (option Z)) : Prog (option Z) :=
  if bool_decide (installed.2 = InstallResult.kInstalled)
  then k (s <| sv_authority := installed.1 |>) else fail refused.

Definition print_banner : Prog unit :=
  emit "Collective Traffic Fabric - decision types example";;
  emit "synthetic=yes: every fabric, capacity and congestion claim below is SYNTHETIC";;
  emit "identities=per_run: identities and the coordinator epoch are minted when this program";;
  emit "  runs, exactly as a deployment mints them.  The structural facts and reason codes";;
  emit "  printed for each decision are what repeats; the ids underneath them do not.";;
  emit "".

Definition print_fabric : Prog unit :=
  emit (String.append "fabric SYNTHETIC racks=2 nodes=4 inter_rack_links=2 link_capacity_bps="
          (decimal kLinkCapacityBps));;
  emit (concat_all ["capacity SYNTHETIC available_per_mille="; decimal kAvailablePerMille;
                    " congestion SYNTHETIC utilization_bps="; decimal kUtilizationBps]);;
  emit "".

Definition example_install (s : CoordinatorService) (fabric : SyntheticFabric)
    (k : CoordinatorService → Prog (option Z)) : Prog (option Z) :=
  let '(s, policy_generation) := mint s in
  or_refused s (Authority.install_policy (sv_authority s) (standard_policy policy_generation))
    "the standard policy was refused" (fun s =>
  emit "policy: standard table installed (generation is this run's)";;
  or_refused s (install_topology (sv_authority s) (sf_topology fabric))
    "the SYNTHETIC topology was refused" (fun s =>
  or_refused s (install_capacity (sv_authority s) (sf_capacity fabric))
    "the SYNTHETIC capacity observation was refused" (fun s =>
  or_refused s (install_congestion (sv_authority s) (sf_congestion fabric))
    "the SYNTHETIC congestion observation was refused" (fun s =>
  emit "topology, capacity and congestion evidence installed SYNTHETIC";;
  k s)))).

(** The loop over the nodes. *)
Fixpoint example_publish (s : CoordinatorService) (context : ServiceRequestContext)
    (nodes participants : list Identity)
    (k : CoordinatorService → list Identity → Prog (option Z)) : Prog (option Z) :=
  match nodes with
  | [] => k s participants
  | node :: nodes =>
      let '(s, participant) := mint s in
      let '(s, incarnation) := mint s in
      let '(s, status) :=
        publish_participant s context participant incarnation node ParticipantState.kLive in
      or_fail "a participant was refused: " status
        (example_publish s context nodes (participants ++ [participant]) k)
  end.

Definition example_definition (id : Identity) (participants : list Identity)
    : CollectiveDefinition :=
  definition_default
    <| cd_id := id |> <| cd_collective_class := CollectiveClass.kAllReduce |>
    <| cd_algorithm_hint := AlgorithmHint.kRing |> <| cd_label := "synthetic-all-reduce" |>
    <| cd_participants := canonicalize_participants participants |>
    <| cd_logical_bytes := kCollectiveBytes |>.

Definition vendor_definition (id : Identity) (definition : CollectiveDefinition)
    : CollectiveDefinition :=
  definition_default
    <| cd_id := id |> <| cd_collective_class := CollectiveClass.kUnknownVendor |>
    <| cd_label := "synthetic-vendor-specific" |>
    <| cd_participants := cd_participants definition |>
    <| cd_logical_bytes := kCollectiveBytes |>.

(** The request under the generations in force. *)
Definition example_request (s : CoordinatorService) (instance : CollectiveInstance)
    (definition : CollectiveDefinition) : DecisionRequest :=
  let authority := sv_authority s in
  request_default
    <| dr_instance := instance |>
    <| dr_observed_epoch := au_epoch authority |>
    <| dr_observed_policy_generation := au_policy_generation authority |>
    <| dr_observed_topology_generation := au_topology_generation authority |>
    <| dr_observed_capacity_generation := au_capacity_generation authority |>
    <| dr_observed_congestion_generation := au_congestion_generation authority |>
    <| dr_has_flow_group_plan := true |>
    <| dr_plan := make_ring_plan instance (cd_collective_class definition)
                    (cd_participants definition) |>.

(** The request of another instance, with the generations [request] observed. *)
Definition replanned (request : DecisionRequest) (instance : CollectiveInstance)
    (definition : CollectiveDefinition) : DecisionRequest :=
  request <| dr_instance := instance |>
    <| dr_plan := make_ring_plan instance (cd_collective_class definition)
                    (cd_participants definition) |>.

Definition print_decision (headline label : string) (decision : DecisionRecord)
    (request : DecisionRequest) : Prog unit :=
  emit headline;;
  print_structure label decision request;;
  print_per_run_text label decision;;
  emit "".

(** An output argument that the call did not reach keeps its default. *)
Definition outcome_of (registered : option RegistrationOutcome) : RegistrationOutcome :=
  default (mkRegistrationOutcome RegistrationResult.kRejectedInvalid id_none id_none [] false false)
    registered.

(** No persistence path is configured, so [stop] saves nothing. *)
Definition example_verdict (s : CoordinatorService)
    (decision stale_decision unknown_decision : DecisionRecord) : Prog (option Z) :=
  let refusals_hold := outcome_is_rejection (de_outcome stale_decision) &&
                       outcome_is_rejection (de_outcome unknown_decision) in
  or_fail "the coordinator did not stop: " (stop s kSyntheticClockMs (fun _ => status_ok)).2
    (if negb (bool_decide (de_outcome decision = Outcome.kAdmitted)) then
       fail (String.append "the supported path was not ADMITTED: "
               (Outcome.Outcome_to_string (de_outcome decision)))
     else if negb (bool_decide (de_traffic_class decision = TrafficClass.kBulkData)) then
       fail (String.append "all_reduce was admitted without bulk_data treatment: "
               (TrafficClass.TrafficClass_to_string (de_traffic_class decision)))
     else if negb refusals_hold then
       fail "a refusal granted authority; stale and unknown must never be admitted"
     else
       emit (String.append
         "result ADMITTED with bulk_data for the supported path; REJECTED for the stale generation "
         "and the unknown semantics collective");;
       Ret (Some 0)).

(** The second refusal: a class with no known semantics. *)
Definition example_unknown (s : CoordinatorService) (context : ServiceRequestContext)
    (definition : CollectiveDefinition) (request : DecisionRequest)
    (decision stale_decision : DecisionRecord) : Prog (option Z) :=
  let '(s, id) := mint s in
  let unknown := vendor_definition id definition in
  let '(s, status, registered) := register_collective s context unknown in
  let unknown_registration := outcome_of registered in
  or_fail "the vendor collective was refused: " status (
  let '(s, unknown_attempt) := mint s in
  let '(s, status, _) := begin_attempt s context id (ro_generation unknown_registration)
                           unknown_attempt kCollectiveBytes in
  or_fail "the vendor attempt did not begin: " status (
  let instance := mkCollectiveInstance id (ro_generation unknown_registration) unknown_attempt 0 in
  let unknown_request := replanned request instance unknown in
  let '(s, status, decided) := plan_flow_group s context unknown_request in
  let unknown_decision := default record_default decided in
  or_fail "the vendor request was not decided: " status (
  print_decision "refusal 2: a collective whose class has no semantics this runtime understands"
    "refusal_unknown_semantics" unknown_decision unknown_request;;
  example_verdict s decision stale_decision unknown_decision))).

(** The first refusal: the changed definition supersedes the generation of the request. *)
Definition example_stale (s : CoordinatorService) (context : ServiceRequestContext)
    (definition : CollectiveDefinition) (registration : RegistrationOutcome)
    (request : DecisionRequest) (decision : DecisionRecord) : Prog (option Z) :=
  let changed := definition <| cd_logical_bytes := w64 (cd_logical_bytes definition + kEdgeBytes) |> in
  let '(s, status, registered) := register_collective s context changed in
  let advanced := outcome_of registered in
  or_fail "the changed definition was refused: " status (
  if negb (ro_advanced advanced) then fail "a changed definition did not advance the generation"
  else
    let stale := replanned request
      ((dr_instance request) <| ci_generation := ro_generation registration |>) definition in
    let '(s, status, decided) := plan_flow_group s context stale in
    let stale_decision := default record_default decided in
    or_fail "the stale request was not decided: " status (
    print_decision "refusal 1: a request bound to the generation the changed definition superseded"
      "refusal_stale_generation" stale_decision stale;;
    example_unknown s context definition request decision stale_decision)).

(** The supported path. *)
Definition example_supported (s : CoordinatorService) (context : ServiceRequestContext)
    (participants : list Identity) : Prog (option Z) :=
  emit (concat_all ["participants_live="; decimal (zlen participants);
                    " each on its own SYNTHETIC node"]);;
  emit "";;
  let '(s, id) := mint s in
  let definition := example_definition id participants in
  let '(s, status, registered) := register_collective s context definition in
  let registration := outcome_of registered in
  or_fail "the collective was not registered: " status (
  if is_none (ro_generation registration)
  then fail "the collective was registered without a generation"
  else
    emit (String.append "collective registered class=all_reduce declared_bytes="
            (decimal kCollectiveBytes));;
    let '(s, attempt) := mint s in
    let '(s, status, begun) :=
      begin_attempt s context id (ro_generation registration) attempt kCollectiveBytes in
    let attempt_outcome := default (mkAttemptOutcome id_none id_none id_none
                                      CollectiveState.kUnregistered []) begun in
    or_fail "the attempt did not begin: " status (
    emit (String.append "attempt begun state="
            (CollectiveState.CollectiveState_to_string (ao_state attempt_outcome)));;
    let instance := mkCollectiveInstance id (ro_generation registration) attempt 0 in
    let request := example_request s instance definition in
    let '(s, status, decided) := plan_flow_group s context request in
    let decision := default record_default decided in
    or_fail "the decision was not issued: " status (
    emit "";;
    print_decision "admission: all_reduce over a ring on the SYNTHETIC fabric" "admitted_decision"
      decision request;;
    example_stale s context definition registration request decision))).

(** [None] when [CoordinatorService::start] runs out of fuel, which [selftest_starts] excludes. *)
Definition example_main (entropy counter : Z) : Prog (option Z) :=
  print_banner;;
  let '(counter, fabric) := make_synthetic_fabric entropy counter kSyntheticClockMs in
  print_fabric;;
  match start (service_new config_default entropy counter) kSyntheticClockMs with
  | None => Ret None
  | Some (s, status) =>
      or_fail "the coordinator did not start: " status (
      example_install s fabric (fun s =>
        let '(s, opened) := open_session s "example-decision-types" kSyntheticClockMs in
        match opened with
        | Fail status => fail (String.append "no session could be opened: " (st_message status))
        | Ok binding =>
            let context := mkServiceRequestContext (sb_id binding) (sb_incarnation binding)
                             (sb_epoch binding) kSyntheticClockMs 1 in
            example_publish s context (sf_nodes fabric) [] (fun s participants =>
              example_supported s context participants)
        end))
  end.

(** ** The fabric the example installs *)
Lemma topology_canonicalize_mk g nodes links c b :
  topology_canonicalize (mkTopologyEvidence g nodes links c b) =
  mkTopologyEvidence g (std_sort (on_key id_ltb tn_id) nodes) (std_sort (on_key id_ltb tl_id) links)
    c b.
Proof. reflexivity. Qed.
Lemma capacity_canonicalize_mk g tg links c b :
  capacity_canonicalize (mkCapacityEvidence g tg links c b) =
  mkCapacityEvidence g tg (std_sort (on_key id_ltb lc_link) links) c b.
Proof. reflexivity. Qed.
Lemma congestion_canonicalize_mk g tg links c v b :
  congestion_canonicalize (mkCongestionEvidence g tg links c v b) =
  mkCongestionEvidence g tg (std_sort (on_key id_ltb lg_link) links) c v b.
Proof. reflexivity. Qed.

(** The two links in ascending order. *)
Lemma assembled_links s1 s2 s3 l1 l2 :
  l1 ≠ l2 → l1 ≠ id_none → l2 ≠ id_none →
  ∃ wx wy x y, (x <i y) = true ∧ is_none x = false ∧ is_none y = false ∧
    std_sort (on_key id_ltb tl_id) [fabric_link s3 s1 l1; fabric_link s3 s2 l2] =
    [fabric_link s3 wx x; fabric_link s3 wy y].
Proof.
  intros Hl H1 H2. destruct (sort_two tl_id (fabric_link s3 s1 l1) (fabric_link s3 s2 l2) Hl)
    as (lo & hi & Hlt & Hp & ->).
  assert (∀ x, x ∈ [lo; hi] → ∃ w, x = fabric_link s3 w (tl_id x) ∧ is_none (tl_id x) = false) as Hx.
  { intros x. rewrite Hp. intros [-> | ->%list_elem_of_singleton]%elem_of_cons;
      eexists; split; try done; by apply is_none_neq. }
  destruct (Hx lo) as (wx & Elo & ?); [by left|].
  destruct (Hx hi) as (wy & Ehi & ?); [by right; left|].
  exists wx, wy, (tl_id lo), (tl_id hi). split_and!; try done. by rewrite <- Elo, <- Ehi.
Qed.

(** Evidence over ascending nodes and two ascending links. *)
Section ascending.
Context (nodes : list TopologyNode) (wx wy s3 x y tg cg gg : Identity) (now : Z).
Context (Hnodes : StronglySorted (fun a b => (tn_id a <i tn_id b) = true) nodes).
Context (Hset : Forall (fun n => is_none (tn_id n) = false) nodes).
Context (Hmax : zlen nodes ≤ limits.kTopologyNodesMax).
Context (Hlt : (x <i y) = true) (Hx : is_none x = false) (Hy : is_none y = false).
Context (Ht : is_none tg = false) (Hc : is_none cg = false) (Hg : is_none gg = false).
Let topology := mkTopologyEvidence tg nodes [fabric_link s3 wx x; fabric_link s3 wy y] now true.

Lemma sorted_pair {T} (key : T → Identity) a b :
  key a = x → key b = y → std_sort (on_key id_ltb key) [a; b] = [a; b].
Proof.
  intros Ea Eb. apply (std_sort_ascending id_ltb key). repeat constructor. by rewrite Ea, Eb.
Qed.

Lemma ascending_topology_valid : is_ok (topology_validate topology) = true.
Proof.
  unfold topology_validate. cbn [topology te_generation te_nodes te_links].
  rewrite Ht, (proj2 (Z.ltb_ge _ _)) by done.
  rewrite (check_each_intro check_node (fun n => is_none (tn_id n) = false)
    (fun a b => (tn_id a <i tn_id b) = true)); try done.
  - unfold check_each, check_link, not_ascending. cbn [tl_id fabric_link].
    rewrite Hx, Hy, Hlt. by vm_compute.
  - intros n Hn. unfold check_node. by rewrite Hn.
  - intros m n Hmn Hn. unfold check_node, not_ascending. by rewrite Hn, Hmn.
  - by apply StronglySorted_Sorted.
Qed.

Lemma ascending_fabric node_ids :
  (∀ i, i ∈ node_ids → ∃ n, n ∈ nodes ∧ tn_id n = i) →
  Fabric (mkSyntheticFabric topology
    (capacity_canonicalize (mkCapacityEvidence cg tg (fabric_capacity <$> te_links topology) now true))
    (congestion_canonicalize (mkCongestionEvidence gg tg (fabric_congestion <$> te_links topology)
       now kCongestionWindowMs true)) node_ids) now.
Proof.
  intros Hids. cbn [topology te_links fmap list_fmap].
  rewrite capacity_canonicalize_mk, congestion_canonicalize_mk, !sorted_pair by done.
  split; cbn [sf_topology sf_capacity sf_congestion sf_nodes]; try reflexivity.
  - unfold topology. rewrite topology_canonicalize_mk, sorted_pair by done.
    by rewrite (std_sort_ascending id_ltb tn_id).
  - apply ascending_topology_valid.
  - by rewrite capacity_canonicalize_mk, sorted_pair.
  - unfold capacity_validate. cbn [ce_generation ce_topology_generation ce_links].
    unfold check_each, check_capacity, not_ascending. cbn [lc_link fabric_capacity tl_id fabric_link].
    rewrite Hc, Ht, Hx, Hy, Hlt. by vm_compute.
  - by rewrite congestion_canonicalize_mk, sorted_pair.
  - unfold congestion_validate. cbn [ge_generation ge_topology_generation ge_links ge_valid_for_ms].
    unfold check_each, check_congestion, not_ascending.
    cbn [lg_link fabric_congestion tl_id fabric_link]. rewrite Hg, Ht, Hx, Hy, Hlt. by vm_compute.
  - apply Forall_forall. intros i (n & Hn & Ei)%Hids. exists n.
    by apply (binary_find_Some tn_id).
Qed.
End ascending.

Lemma assembled_fabric racks s1 s2 s3 node_ids l1 l2 tg cg gg now :
  l1 ≠ l2 → NoDup node_ids → zlen node_ids ≤ limits.kTopologyNodesMax →
  Forall (fun x => x ≠ id_none) ([tg; cg; gg; l1; l2] ++ node_ids) →
  Fabric (assemble racks [s1; s2; s3] node_ids [l1; l2] tg cg gg now) now.
Proof.
  intros Hl Hn Hmax Hsome. apply Forall_app in Hsome as [Hsome Hids].
  repeat (apply Forall_cons_1 in Hsome as [? Hsome]).
  unfold assemble. set (nodes := imap _ node_ids).
  assert (tn_id <$> nodes = node_ids) as Enodes.
  { apply list_eq. intros i. unfold nodes. rewrite list_lookup_fmap, list_lookup_imap.
    by destruct (node_ids !! i). }
  pose proof (std_sort_perm id_ltb tn_id nodes) as Hperm.
  change (zip_with _ [s1; s2; s3] [l1; l2]) with [fabric_link s3 s1 l1; fabric_link s3 s2 l2].
  destruct (assembled_links s1 s2 s3 l1 l2) as (wx & wy & x & y & Hlt & Hx & Hy & Es); [done..|].
  rewrite topology_canonicalize_mk, Es. cbn [te_generation].
  apply ascending_fabric; try done; try by apply is_none_neq.
  - apply sort_ascending. by rewrite Enodes.
  - rewrite Hperm. apply Forall_forall. intros n Hin. rewrite Forall_forall in Hids.
    apply is_none_neq, Hids. rewrite <- Enodes. by apply list_elem_of_fmap_2.
  - unfold zlen in *. by rewrite Hperm, <- (length_fmap tn_id), Enodes.
  - intros i Hi. rewrite <- Enodes in Hi. apply list_elem_of_fmap in Hi as (n & -> & Hin).
    exists n. split; [by rewrite Hperm | done].
Qed.

(** ** The identities of a run *)

(** The counter [n] mints later. *)
Definition after (counter : Z) (n : nat) : Z := Nat.iter n (fun c => w64 (c + 1)) counter.

Section run.
Context (entropy counter : Z).
Abbreviation at_ n := (mint_identity entropy (after counter n)).

Lemma after_S n : w64 (after counter n + 1) = after counter (S n).
Proof. reflexivity. Qed.

Lemma minted_after count n :
  minted entropy count (after counter n) =
  (after counter (n + count), (fun k => at_ k) <$> seq n count).
Proof.
  revert n. induction count as [|count IH]; intros n; cbn [minted]; [by rewrite Nat.add_0_r|].
  rewrite after_S, IH. cbn [seq fmap list_fmap]. by rewrite Nat.add_succ_r.
Qed.

(** The thirty identities the program mints, in order. *)
Definition example_ids : list Identity := (minted entropy 30 counter).2.

(** Its participants, in the order of the nodes. *)
Definition example_participants : list Identity :=
  (fun n => nth n example_ids id_none) <$> [18; 20; 22; 24]%nat.

Context (Hnodup : NoDup example_ids).

Lemma at_inj n m : (n < 30)%nat → (m < 30)%nat → n ≠ m → at_ n ≠ at_ m.
Proof.
  intros Hn Hm Hne E. apply Hne. unfold example_ids in Hnodup.
  change counter with (after counter 0) in Hnodup. rewrite minted_after in Hnodup. cbn [snd] in Hnodup.
  apply (NoDup_lookup _ n m (at_ m) Hnodup); rewrite list_lookup_fmap, lookup_seq_lt by done;
    cbn [fmap option_fmap option_map Nat.add]; by rewrite ?E.
Qed.

Lemma at_nodup l :
  NoDup l → Forall (fun n => n < 30)%nat l → NoDup ((fun n => at_ n) <$> l).
Proof.
  intros Hl Hf. rewrite Forall_forall in Hf. apply NoDup_fmap_2_strong; [|done].
  intros n m Hn Hm E. destruct (decide (n = m)) as [|Hne]; [done|].
  by destruct (at_inj n m (Hf n Hn) (Hf m Hm) Hne).
Qed.

Lemma at_some n : at_ n ≠ id_none.
Proof. apply mint_identity_some. Qed.

Lemma example_participants_at : example_participants = (fun n => at_ n) <$> [18; 20; 22; 24]%nat.
Proof. reflexivity. Qed.

(** The fabric of the run. *)
Lemma example_fabric now :
  (make_synthetic_fabric entropy counter now).1 = after counter 14 ∧
  sf_nodes (make_synthetic_fabric entropy counter now).2 = (fun n => at_ n) <$> seq 5 4 ∧
  Fabric (make_synthetic_fabric entropy counter now).2 now.
Proof.
  unfold make_synthetic_fabric, kRackCount, kNodesPerRack.
  change counter with (after counter 0). rewrite !minted_after. cbn [Nat.add Nat.mul fst snd].
  split_and!; [done|done|]. pose proof (at_nodup (seq 5 4)) as Hn.
  cbn [seq fmap list_fmap nth] in *. apply assembled_fabric.
  - by apply at_inj; lia.
  - apply Hn; [apply (NoDup_seq 5 4) | repeat constructor].
  - by vm_compute.
  - repeat constructor; apply at_some.
Qed.
End run.

(** ** The ring *)
Definition ring (members : list Identity) : list FlowEdge :=
  ring_edge members <$> seq 0 (length members).

Lemma ring_edge_valid members i :
  (2 ≤ length members)%nat → NoDup members → id_none ∉ members → (i < length members)%nat →
  edge_valid members (ring_edge members i).
Proof.
  intros Hlen Hn Hs Hi. set (j := ((i + 1) mod length members)%nat).
  assert (j < length members)%nat as Hj by (apply Nat.mod_upper_bound; lia).
  assert (i ≠ j) as Hij.
  { unfold j. destruct (decide (i + 1 = length members)%nat) as [E|E].
    - rewrite E, Nat.Div0.mod_same. lia.
    - rewrite Nat.mod_small; lia. }
  destruct (lookup_lt_is_Some_2 members i Hi) as [x Hx].
  destruct (lookup_lt_is_Some_2 members j Hj) as [y Hy].
  assert (∀ k z, members !! k = Some z → nth k members id_none = z) as Hnth.
  { intros k z Hk. by rewrite nth_lookup, Hk. }
  unfold edge_valid, ring_edge. fold j. cbn [fe_source fe_destination fe_step_index].
  rewrite (Hnth i x Hx), (Hnth j y Hy).
  pose proof (list_elem_of_lookup_2 _ _ _ Hx). pose proof (list_elem_of_lookup_2 _ _ _ Hy).
  split_and!; try done; try (intros ->; done).
  intros ->. apply Hij. by eapply NoDup_lookup.
Qed.

Lemma ring_constructs instance class class' members :
  ci_id instance ≠ id_none → ci_generation instance ≠ id_none → ci_attempt instance ≠ id_none →
  (2 ≤ length members)%nat → zlen members ≤ limits.kEdgesMaxPerFlowGroup → NoDup members →
  id_none ∉ members →
  (∃ group, construct_flow_group
     ((make_ring_plan instance class members) <| fp_collective_class := class' |>) members =
     Ok group) ↔ NoDup (edge_key <$> ring members).
Proof.
  intros H1 H2 H3 Hlen Hmax Hn Hs. rewrite constructs_iff. unfold plan_valid.
  set (plan := set_field _ _ _).
  assert (fp_edges plan = ring members ∧ fp_instance plan = instance ∧
    fp_direction plan = FlowDirection.kUnidirectional) as (-> & -> & ->) by done. clear plan.
  assert (length (ring members) = length members) as El
    by (unfold ring; by rewrite length_fmap, length_seq).
  assert (ring members ≠ []) by (intros E; rewrite E in El; cbn in El; lia).
  assert (members ≠ []) by (intros ->; cbn in Hlen; lia).
  assert (Forall (edge_valid members) (ring members)).
  { apply Forall_forall. intros e (i & -> & Hi%elem_of_seq)%list_elem_of_fmap.
    apply ring_edge_valid; try done; lia. }
  assert (zlen (ring members) ≤ limits.kEdgesMaxPerFlowGroup) by (unfold zlen in *; lia).
  naive_solver.
Qed.

(** ** The run *)

(** The program ends with [code]. *)
Abbreviation yields code p := (monitored unwatched (fun _ (r : option Z) => r = Some code) p tt).

Lemma yields_seq {A} code (p : Prog A) (k : A → Prog (option Z)) :
  (∀ a, yields code (k a)) → yields code (p ≫= k).
Proof. intros H. eapply monitored_seq; [apply unwatched_any|]. intros []. done. Qed.

Lemma or_fail_yields code what status k :
  status = status_ok → yields code k → yields code (or_fail what status k).
Proof. by intros ->. Qed.

Lemma or_fail_fails what status k : yields 1 k → yields 1 (or_fail what status k).
Proof. intros H. unfold or_fail. destruct (is_ok status); [exact H | by apply yields_seq]. Qed.

Lemma or_refused_yields code s installed refused k :
  installed.2 = InstallResult.kInstalled →
  yields code (k (s <| sv_authority := installed.1 |>)) →
  yields code (or_refused s installed refused k).
Proof. intros E H. unfold or_refused. by rewrite bool_decide_eq_true_2. Qed.

Section run.
Context (entropy counter : Z).
Abbreviation at_ n := (mint_identity entropy (after counter n)).

(** The minter of the process is [n] identities into the run. *)
Definition minting (s : CoordinatorService) (n : nat) : Prop :=
  sv_entropy s = entropy ∧ sv_mint_counter s = after counter n.

Lemma mint_at s n :
  minting s n → ∃ s', mint s = (s', at_ n) ∧ minting s' (S n) ∧ sv_catalog s' = sv_catalog s ∧
    sv_admission s' = sv_admission s ∧ sv_authority s' = sv_authority s ∧
    ∀ context f pg ps, prepared s context f pg ps → prepared s' context f pg ps.
Proof.
  intros [E1 E2]. exists (mint s).1. unfold mint at 1. rewrite E1, E2.
  split_and!; try done; [by split; [|cbn; rewrite E2]|]. intros. by apply prepared_mint.
Qed.

Lemma minting_fronted s s' n : fronted s s' → minting s n → minting s' n.
Proof. intros (_ & _ & _ & _ & E1 & E2) [H1 H2]. split; congruence. Qed.

Lemma example_install_yields code c f now k :
  Fabric f now →
  (∀ s pg, pg ≠ id_none → outfitted s f pg → sv_entropy s = entropy →
     sv_mint_counter s = w64 (w64 (c + 1) + 1) → yields code (k s)) →
  yields code (example_install (started entropy c) f k).
Proof.
  intros Hf Hk. unfold example_install.
  pose proof (mint_identity_some entropy (sv_mint_counter (started entropy c))) as Hpg.
  change (mint (started entropy c)) with
    ((started entropy c) <| sv_mint_counter ::= fun c => w64 (c + 1) |>,
     mint_identity entropy (sv_mint_counter (started entropy c))).
  cbv beta iota. generalize dependent (mint_identity entropy (sv_mint_counter (started entropy c))).
  intros pg Hpg.
  pose proof (started_outfits entropy c (w64 (sv_mint_counter (started entropy c) + 1))
    f now pg Hf Hpg) as Hall. cbv zeta in Hall.
  set (s := set_field sv_mint_counter _ (started entropy c)).
  change (set_field sv_mint_counter _ (started entropy c)) with s in Hall.
  assert (sv_entropy s = entropy) as Hm1 by done.
  assert (sv_mint_counter s = w64 (w64 (c + 1) + 1)) as Hm2 by done.
  clearbody s. unfold install_all in Hall.
  destruct (Authority.install_policy (sv_authority s) _) as [a1 r1] eqn:E1.
  destruct (install_topology a1 _) as [a2 r2] eqn:E2.
  destruct (install_capacity a2 _) as [a3 r3] eqn:E3.
  destruct (install_congestion a3 _) as [a4 r4] eqn:E4.
  destruct Hall as ([= -> -> -> ->] & Hout).
  apply or_refused_yields; [done|]. apply yields_seq. intros _.
  change (install_topology _ ?t) with (install_topology a1 t). rewrite E2.
  apply or_refused_yields; [done|].
  change (install_capacity _ ?c) with (install_capacity a2 c). rewrite E3.
  apply or_refused_yields; [done|].
  change (install_congestion _ ?c) with (install_congestion a3 c). rewrite E4.
  apply or_refused_yields; [done|]. apply yields_seq. intros _.
  by apply (Hk _ pg Hpg).
Qed.

Lemma example_publish_yields code f pg context nodes n participants k s :
  0 ≤ cx_now_monotonic_ms context →
  cx_now_monotonic_ms context + cf_participant_ttl_ms config_default < two64 →
  nodes ⊆ sf_nodes f → zlen participants + zlen nodes < limits.kPeersMax →
  prepared s context f pg participants → minting s n →
  let new := (fun i => at_ (n + 2 * i)) <$> seq 0 (length nodes) in
  NoDup (participants ++ new) →
  (∀ s', prepared s' context f pg (participants ++ new) →
     sv_catalog s' = sv_catalog s → sv_admission s' = sv_admission s →
     minting s' (n + 2 * length nodes) → yields code (k s' (participants ++ new))) →
  yields code (example_publish s context nodes participants k).
Proof.
  intros Hn1 Hn2. cbv zeta. revert s n participants. induction nodes as [|node nodes IH];
    intros s n participants Hsub Hlen Hs Hm Hnd Hk.
  { cbn [length seq fmap list_fmap] in *. rewrite app_nil_r, Nat.mul_0_r, Nat.add_0_r in *.
    by apply Hk. }
  cbn [example_publish length] in *.
  assert ((fun i => at_ (n + 2 * i)) <$> seq 0 (S (length nodes)) =
    at_ n :: ((fun i => at_ (S (S n) + 2 * i)) <$> seq 0 (length nodes))) as Enew.
  { cbn [seq fmap list_fmap]. rewrite Nat.mul_0_r, Nat.add_0_r. f_equal.
    rewrite <- fmap_S_seq, <- list_fmap_compose. apply list_fmap_ext. intros _ i _. cbn.
    by replace (n + S (i + S (i + 0)))%nat with (S (S (n + (i + (i + 0))))) by lia. }
  rewrite Enew in Hnd, Hk.
  destruct (mint_at s n Hm) as (s1 & -> & Hm1 & Ec1 & Ea1 & Eu1 & Hp1).
  destruct (mint_at s1 (S n) Hm1) as (s2 & -> & Hm2 & Ec2 & Ea2 & _ & Hp2).
  assert (prepared s2 context f pg participants) as Hs2
    by (by apply Hp2, Hp1).
  pose proof (publish_new f pg context Hn1 Hn2 s2 participants (at_ n) (at_ (S n)) node Hs2
    ltac:(apply NoDup_app in Hnd as (_ & Hd & _); intros Hin; apply (Hd _ Hin); by left)
    (at_some _ _ _) (at_some _ _ _) ltac:(apply Hsub; by left) ltac:(unfold zlen in *; cbn [length] in Hlen; lia)) as Hpub.
  destruct (publish_participant _ _ _ _ _ _) as [s3 status].
  destruct Hpub as (-> & Hs3 & Ec3 & Ea3 & E1 & E2). apply or_fail_yields; [done|].
  rewrite cons_middle, app_assoc in Hnd, Hk. apply (IH s3 (S (S n))); try done.
  - intros x Hx. apply Hsub. by right.
  - unfold zlen in *. rewrite length_app. cbn [length] in *. lia.
  - destruct Hm2 as [M1 M2]. split; congruence.
  - intros s' Hs' Ec' Ea' Hm'. apply Hk; [done | congruence | congruence |].
    by replace (n + 2 * S (length nodes))%nat with (S (S n) + 2 * length nodes)%nat by lia.
Qed.
End run.

(** ** The verdict *)
Lemma example_verdict_yields s decision stale_decision unknown_decision :
  sv_running s = true → de_outcome decision = Outcome.kAdmitted →
  de_traffic_class decision = TrafficClass.kBulkData →
  de_outcome stale_decision = Outcome.kRejectedStale →
  de_outcome unknown_decision = Outcome.kRejectedPolicy →
  yields 0 (example_verdict s decision stale_decision unknown_decision).
Proof.
  intros Hr H1 H2 H3 H4. unfold example_verdict. rewrite H1, H2, H3, H4.
  apply or_fail_yields; [by apply stop_running|]. done.
Qed.

(** Nothing after a decision that is not ADMITTED leads to success. *)
Section refused.
Context (decision : DecisionRecord) (Hd : de_outcome decision ≠ Outcome.kAdmitted).

Lemma example_verdict_fails s stale_decision unknown_decision :
  yields 1 (example_verdict s decision stale_decision unknown_decision).
Proof.
  unfold example_verdict. apply or_fail_fails. rewrite bool_decide_eq_false_2 by done.
  by apply yields_seq.
Qed.

Lemma example_unknown_fails s context definition request stale_decision :
  yields 1 (example_unknown s context definition request decision stale_decision).
Proof.
  unfold example_unknown. destruct (mint s) as [s1 id]. cbv zeta.
  destruct (register_collective _ _ _) as [[s2 st2] r2]. apply or_fail_fails.
  destruct (mint s2) as [s3 attempt].
  destruct (begin_attempt _ _ _ _ _ _) as [[s4 st4] r4]. apply or_fail_fails.
  destruct (plan_flow_group _ _ _) as [[s5 st5] r5]. apply or_fail_fails.
  apply yields_seq. intros _. apply example_verdict_fails.
Qed.

Lemma example_stale_fails s context definition registration request :
  yields 1 (example_stale s context definition registration request decision).
Proof.
  unfold example_stale. cbv zeta.
  destruct (register_collective _ _ _) as [[s2 st2] r2]. apply or_fail_fails.
  destruct (negb _); [by apply yields_seq|].
  destruct (plan_flow_group _ _ _) as [[s5 st5] r5]. apply or_fail_fails.
  apply yields_seq. intros _. apply example_unknown_fails.
Qed.
End refused.

Section path.
Context (entropy counter : Z).
Abbreviation at_ n := (mint_identity entropy (after counter n)).
Context (f : SyntheticFabric) (pg : Identity) (context : ServiceRequestContext).
Context `{!Fabric f (cx_now_monotonic_ms context)} (Hpg : pg ≠ id_none).
Context (ps : list Identity) (Hlen : length ps = 4%nat) (Hps : NoDup ps) (Hnone : id_none ∉ ps).
Abbreviation members := (canonicalize_participants ps).
Context (cid : Identity) (Hid : cid ≠ id_none) (Hdistinct : cid ≠ at_ 28).
Let definition := example_definition cid ps.

Lemma example_definition_valid bytes :
  is_ok (validate_definition (definition <| cd_logical_bytes := bytes |>)) = true.
Proof.
  apply (definition_valid _ ps); try done; [by left | by destruct ps |].
  unfold zlen. by rewrite Hlen.
Qed.

Lemma vendor_definition_valid vid :
  vid ≠ id_none → is_ok (validate_definition (vendor_definition vid definition)) = true.
Proof.
  intros Hv. apply (definition_valid _ ps); try done; [by right | by destruct ps |].
  unfold zlen. by rewrite Hlen.
Qed.

(** The ring over the members, of any instance that is set. *)
Lemma example_ring instance class class' :
  ci_id instance ≠ id_none → ci_generation instance ≠ id_none → ci_attempt instance ≠ id_none →
  (∃ group, construct_flow_group
     ((make_ring_plan instance class members) <| fp_collective_class := class' |>) members =
     Ok group) ↔ NoDup (edge_key <$> ring members).
Proof.
  intros. pose proof (canonicalize_perm ps Hps) as Hp.
  apply ring_constructs; try done; rewrite ?Hp; try done; [lia|].
  unfold zlen. by rewrite Hlen.
Qed.

Lemma example_request_valid request instance class :
  dr_instance request = instance → dr_plan request = make_ring_plan instance class members →
  dr_has_requested_class request = false →
  ci_id instance ≠ id_none → ci_generation instance ≠ id_none → ci_attempt instance ≠ id_none →
  is_ok (validate_decision_request request) = true.
Proof.
  intros E1 E2 E3 H1 H2 H3. apply request_valid; rewrite ?E1, ?E2; try done.
  unfold make_ring_plan. cbn [fp_edges]. unfold zlen.
  by rewrite length_fmap, length_seq, (canonicalize_perm ps Hps), Hlen.
Qed.

(** The vendor collective, after the first one was registered. *)
Lemma example_unknown_yields s r request decision stale_decision :
  prepared s context f pg ps → minting entropy counter s 28 →
  cc_records (sv_catalog s) = {[cid := r]} →
  cc_capacity (sv_catalog s) = limits.kCollectivesMaxLive →
  observes request (sv_authority s) → dr_has_flow_group_plan request = true →
  dr_has_requested_class request = false → NoDup (edge_key <$> ring members) →
  de_outcome decision = Outcome.kAdmitted → de_traffic_class decision = TrafficClass.kBulkData →
  de_outcome stale_decision = Outcome.kRejectedStale →
  yields 0 (example_unknown s context definition request decision stale_decision).
Proof.
  intros Hs Hm Hcat Hcap Hobs Hplan Hreq Hkeys D1 D2 D3. unfold example_unknown.
  destruct (mint_at entropy counter s 28 Hm) as (s1 & -> & Hm1 & Ec1 & Ea1 & Eu1 & Hp1).
  pose proof (Hp1 _ _ _ _ Hs) as Hs1. clear Hp1. cbv zeta.
  pose proof (at_some entropy counter 28) as Hvid.
  revert Hm1 Hdistinct Hvid. generalize (at_ 28). intros vid Hm1 Hdist Hvid.
  pose proof (register_begin s1 context f pg ps (vendor_definition vid definition) kCollectiveBytes
    Hs1 (vendor_definition_valid vid Hvid) eq_refl
    ltac:(rewrite Ec1, Hcat; by apply lookup_singleton_ne)
    ltac:(rewrite Ec1, Hcat, Hcap; unfold mapsize; by rewrite map_size_singleton)) as Hreg.
  destruct (register_collective _ _ _) as [[s2 status] registered].
  destruct Hreg as (-> & outcome & -> & _ & Hg0 & Hgen & Hbeg).
  apply or_fail_yields; [done|]. change (outcome_of (Some outcome)) with outcome.
  destruct (mint s2) as [s3 attempt]. destruct Hbeg as [Hva Hbeg].
  assert (attempt ≠ id_none) as Hatt by (rewrite Hva; apply mint_identity_some). clear Hva.
  change (cd_id (vendor_definition vid definition)) with vid in Hbeg.
  destruct (begin_attempt _ _ _ _ _ _) as [[s4 status] answer].
  destruct Hbeg as (-> & Hs4 & record & Hb). apply or_fail_yields; [done|].
  pose proof (begun_find _ _ _ _ _ Hb) as Hfind. pose proof (bg_definition _ _ _ _ _ Hb) as Hdef.
  pose proof (bg_attempt _ _ _ _ _ Hb) as Hcur.
  set (instance := mkCollectiveInstance vid (ro_generation outcome) attempt 0).
  set (again := replanned request instance (vendor_definition vid definition)).
  destruct (proj2 (example_ring instance CollectiveClass.kUnknownVendor
    CollectiveClass.kUnknownVendor Hvid Hg0 Hatt) Hkeys) as [group Hgroup].
  pose proof (plan_unknown_class f pg context Hpg s4 ps Hs4 again record
    ltac:(by apply (example_request_valid again instance CollectiveClass.kUnknownVendor))
    ltac:(rewrite (bg_authority _ _ _ _ _ Hb), Eu1; exact Hobs) Hplan Hfind
    ltac:(rewrite Hdef; symmetry; exact Hgen) Hcur ltac:(by rewrite Hcur) (bg_state _ _ _ _ _ Hb)
    ltac:(rewrite Hdef; intros x Hx; by apply canonicalize_elem) group
    ltac:(rewrite Hdef; exact Hgroup) ltac:(by rewrite Hdef)) as Hdec.
  pose proof (plan_fronted s4 context again) as Hf5.
  destruct (plan_flow_group s4 context again) as [[s5 status] decided].
  destruct Hdec as (-> & d & -> & Hd). apply or_fail_yields; [done|].
  change (default ?x (Some d)) with d. apply yields_seq. intros _.
  apply example_verdict_yields; try done. cbn [fst] in Hf5. destruct Hf5 as [-> _]. apply Hs4.
Qed.

(** The changed definition, after the first decision. *)
Lemma example_stale_yields s r registration request decision :
  prepared s context f pg ps → minting entropy counter s 28 →
  cc_records (sv_catalog s) = {[cid := r]} →
  cc_capacity (sv_catalog s) = limits.kCollectivesMaxLive →
  cc_mutation_sequence (sv_catalog s) = 3 →
  collective_state_is_terminal (cr_state r) = false →
  cd_logical_bytes (cr_definition r) = kCollectiveBytes →
  ro_generation registration = mint_generation (Z.lxor 1 0xC0FFEE) →
  observes request (sv_authority s) → dr_has_flow_group_plan request = true →
  dr_has_requested_class request = false →
  ci_id (dr_instance request) = cid → ci_attempt (dr_instance request) ≠ id_none →
  NoDup (edge_key <$> ring members) →
  de_outcome decision = Outcome.kAdmitted → de_traffic_class decision = TrafficClass.kBulkData →
  yields 0 (example_stale s context definition registration request decision).
Proof.
  intros Hs Hm Hcat Hcap Hseq Ht Hb Hgen Hobs Hplan Hreq Hcid Hatt Hkeys D1 D2.
  unfold example_stale. cbv zeta.
  pose proof (register_changed s context f pg ps
    (definition <| cd_logical_bytes := w64 (cd_logical_bytes definition + kEdgeBytes) |>) r Hs
    (example_definition_valid _)
    ltac:(unfold catalog_find; rewrite Hcat; apply lookup_singleton_eq) Ht
    ltac:(rewrite Hb; by vm_compute)) as Hreg.
  destruct (register_collective _ _ _) as [[s1 status] registered].
  destruct Hreg as (-> & (outcome & -> & Hg2 & Hadv) & _ & Hf1 & _ & Hc1 & r' & Hr' & R1).
  apply or_fail_yields; [done|]. change (outcome_of (Some outcome)) with outcome.
  rewrite Hadv. cbn [negb].
  set (instance := (dr_instance request) <| ci_generation := ro_generation registration |>).
  set (stale := replanned request instance definition).
  pose proof (prepared_fronted _ _ _ _ _ _ Hf1 Hs) as Hs1.
  rewrite Hseq in R1. change (cd_id (definition <| cd_logical_bytes := _ |>)) with cid in Hr'.
  rewrite Hcat, insert_singleton_eq in Hr'.
  assert (cd_generation (cr_definition r') = mint_generation (Z.lxor (w64 (3 + 1)) 0xBEEF)) as G2
    by (by rewrite R1). clear R1.
  assert (is_ok (validate_decision_request stale) = true) as Hval.
  { apply (example_request_valid stale instance CollectiveClass.kAllReduce);
      [reflexivity | reflexivity | exact Hreq | | | exact Hatt].
    - change (ci_id (dr_instance request) ≠ id_none). by rewrite Hcid.
    - change (ro_generation registration ≠ id_none). rewrite Hgen. apply mint_generation_some. }
  assert (catalog_find (sv_catalog s1) (ci_id (dr_instance stale)) = Some r') as Hfind.
  { change (ci_id (dr_instance stale)) with (ci_id (dr_instance request)).
    unfold catalog_find. rewrite Hr', Hcid. apply lookup_singleton_eq. }
  assert (cd_generation (cr_definition r') ≠ ci_generation (dr_instance stale)) as Hne.
  { change (ci_generation (dr_instance stale)) with (ro_generation registration).
    rewrite G2, Hgen. vm_compute. intros [=]. }
  pose proof (plan_superseded s1 context f pg ps stale r' Hs1 Hval Hfind Hne) as Hdec.
  pose proof (plan_fronted s1 context stale) as Hf2.
  destruct (plan_flow_group s1 context stale) as [[s2 status] decided]. cbn [fst] in Hf2.
  destruct Hdec as (-> & Ec2 & d & -> & Hd). apply or_fail_yields; [done|].
  change (default ?x (Some d)) with d. apply yields_seq. intros _.
  apply (example_unknown_yields s2 r');
    [| | | | | exact Hplan | exact Hreq | exact Hkeys | exact D1 | exact D2 | exact Hd].
  - exact (prepared_fronted s1 s2 _ _ _ _ Hf2 Hs1).
  - exact (minting_fronted _ _ _ _ _ Hf2 (minting_fronted _ _ _ _ _ Hf1 Hm)).
  - by rewrite Ec2.
  - by rewrite Ec2, Hc1.
  - destruct Hf2 as (_ & _ & _ & -> & _). destruct Hf1 as (_ & _ & _ & -> & _). exact Hobs.
Qed.

(** The decision on the ring of the collective, begun in an empty catalog. *)
Section decided.
Context (s s4 : CoordinatorService) (attempt : Identity) (record : CollectiveRecord).
Context (Hs4 : prepared s4 context f pg ps) (Hm4 : minting entropy counter s4 28).
Context (Hatt : attempt ≠ id_none) (Hbegun : begun s s4 definition attempt record).
Context (Hcat : sv_catalog s = catalog_new limits.kCollectivesMaxLive).
Context (Hadm : sv_admission s = admission_new limits.kTokenBucketsMax).
Context (outcome : RegistrationOutcome).
Context (Hgen : ro_generation outcome = mint_generation (Z.lxor 1 0xC0FFEE)).
Let instance := mkCollectiveInstance cid (ro_generation outcome) attempt 0.
Let request := example_request s4 instance definition.

Lemma decided_definition :
  cr_definition record = definition <| cd_registration_sequence := 1 |>
    <| cd_generation := ro_generation outcome |>.
Proof. rewrite Hgen, (bg_definition _ _ _ _ _ Hbegun), Hcat. reflexivity. Qed.

Lemma decided_set : ro_generation outcome ≠ id_none.
Proof. rewrite Hgen. apply mint_generation_some. Qed.

Lemma example_admitted :
  NoDup (edge_key <$> ring members) →
  let '(s5, status, decided) := plan_flow_group s4 context request in
  status = status_ok ∧ ∃ d, decided = Some d ∧
    yields 0 (example_stale s5 context definition outcome request d).
Proof.
  intros Hkeys. destruct (proj2 (example_ring instance CollectiveClass.kAllReduce
    CollectiveClass.kAllReduce Hid decided_set Hatt) Hkeys) as [group Hgroup].
  pose proof decided_definition as Hdef. pose proof (begun_find _ _ _ _ _ Hbegun) as Hfind.
  pose proof (bg_attempt _ _ _ _ _ Hbegun) as Hcur. pose proof (bg_state _ _ _ _ _ Hbegun) as Hst.
  pose proof (plan_admits f pg context Hpg s4 ps Hs4 request record
    ltac:(exact (example_request_valid request instance CollectiveClass.kAllReduce eq_refl eq_refl
            eq_refl Hid decided_set Hatt))
    ltac:(by split_and!) eq_refl Hfind ltac:(by rewrite Hdef) Hcur ltac:(by rewrite Hcur) Hst
    ltac:(rewrite Hdef; intros x Hx; by apply canonicalize_elem) group
    ltac:(rewrite Hdef; exact Hgroup) ltac:(by rewrite Hdef) eq_refl
    ltac:(by rewrite (bg_admission _ _ _ _ _ Hbegun))) as Hdec.
  pose proof (plan_fronted s4 context request) as Hf5.
  destruct (plan_flow_group s4 context request) as [[s5 status] decided]. cbn [fst] in Hf5.
  destruct Hdec as (Hok & (d & Hd & D1 & D2) & Ec5). split; [exact Hok|]. exists d.
  split; [exact Hd|].
  destruct (set_state_live _ _ CollectiveState.kActive (cx_now_monotonic_ms context) _ Hfind
    ltac:(by rewrite Hst)) as (Q1 & Q2 & r & Q3 & Q4 & Q5).
  change (ci_id (dr_instance request)) with cid in Ec5.
  change (cd_id definition) with cid in Q1, Q2, Q3. rewrite <- Ec5 in Q1, Q2, Q3. clear Ec5.
  apply (example_stale_yields s5 r); try assumption;
    [exact (prepared_fronted _ _ _ _ _ _ Hf5 Hs4) | exact (minting_fronted _ _ _ _ _ Hf5 Hm4)
    | | | | | | | reflexivity | reflexivity | reflexivity].
  - rewrite Q3, (bg_records _ _ _ _ _ Hbegun), Hcat, insert_insert_eq. apply insert_empty.
  - rewrite Q2, (bg_capacity _ _ _ _ _ Hbegun), Hcat. reflexivity.
  - rewrite Q1, (bg_sequence _ _ _ _ _ Hbegun), Hcat. reflexivity.
  - by rewrite Q5.
  - rewrite Q4, Hdef. reflexivity.
  - destruct Hf5 as (_ & _ & _ & -> & _). by split_and!.
Qed.

Lemma example_refused :
  ¬ NoDup (edge_key <$> ring members) →
  de_outcome (default record_default (plan_flow_group s4 context request).2) ≠ Outcome.kAdmitted.
Proof.
  intros Hkeys. destruct (plan_flow_group s4 context request).2 as [d|] eqn:Ed; [|done].
  intros Ho. change (de_outcome d = Outcome.kAdmitted) in Ho.
  assert (outcome_grants_authority (de_outcome d) = false) as Hg; [|by rewrite Ho in Hg].
  apply (plan_unconstructed s4 context request record);
    [exact (begun_find _ _ _ _ _ Hbegun) | | exact Ed].
  rewrite decided_definition. intros group Hgroup.
  apply Hkeys, (example_ring instance CollectiveClass.kAllReduce CollectiveClass.kAllReduce
    Hid decided_set Hatt). by exists group.
Qed.
End decided.

(** The supported path, on a coordinator with an empty catalog. *)
Lemma example_supported_yields s :
  prepared s context f pg ps → minting entropy counter s 26 → at_ 26 = cid →
  sv_catalog s = catalog_new limits.kCollectivesMaxLive →
  sv_admission s = admission_new limits.kTokenBucketsMax →
  yields (if decide (NoDup (edge_key <$> ring members)) then 0 else 1)
    (example_supported s context ps).
Proof.
  intros Hs Hm Hat Hcat Hadm. unfold example_supported.
  apply yields_seq. intros _. apply yields_seq. intros _.
  destruct (mint_at entropy counter s 26 Hm) as (s1 & -> & Hm1 & Ec1 & Ea1 & Eu1 & Hp1).
  pose proof (Hp1 _ _ _ _ Hs) as Hs1. clear Hp1. rewrite Hat. cbv zeta. fold definition.
  rewrite Hcat in Ec1. rewrite Hadm in Ea1.
  pose proof (register_begin s1 context f pg ps definition kCollectiveBytes Hs1
    (example_definition_valid kCollectiveBytes) eq_refl ltac:(rewrite Ec1; apply lookup_empty)
    ltac:(rewrite Ec1; cbn; by rewrite mapsize_empty)) as Hreg.
  rewrite Ec1 in Hreg. destruct (register_collective _ _ _) as [[s2 status] registered].
  destruct Hreg as (-> & outcome & -> & _ & Hg0 & Hgen & Hbeg).
  apply or_fail_yields; [done|]. change (outcome_of (Some outcome)) with outcome.
  rewrite (proj2 (is_none_neq _) Hg0). apply yields_seq. intros _.
  destruct (mint s2) as [s3 attempt]. destruct Hbeg as [Hatt Hbeg].
  change (cd_id definition) with cid in Hbeg.
  destruct (begin_attempt _ _ _ _ _ _) as [[s4 status] answer].
  destruct Hbeg as (-> & Hs4 & record & Hb). apply or_fail_yields; [done|].
  apply yields_seq. intros _.
  assert (attempt ≠ id_none) as Ha0 by (rewrite Hatt; apply mint_identity_some). clear Hatt.
  assert (minting entropy counter s4 28) as Hm4.
  { destruct (bg_minter _ _ _ _ _ Hb) as [N1 N2]. destruct Hm1 as [M1 M2].
    split; [congruence | by rewrite N2, M2, after_S]. }
  pose proof (example_admitted s1 s4 attempt record Hs4 Hm4 Ha0 Hb Ec1 Ea1 outcome Hgen) as Hyes.
  pose proof (example_refused s1 s4 attempt record Ha0 Hb Ec1 outcome Hgen) as Hno.
  destruct (plan_flow_group s4 _ _) as [[s5 status] decided]. cbn [snd] in Hno. case_decide as Hkeys.
  - destruct (Hyes Hkeys) as (-> & d & -> & Hy). apply or_fail_yields; [done|].
    change (default ?x (Some d)) with d. apply yields_seq. intros _. apply yields_seq. intros _.
    exact Hy.
  - apply or_fail_fails. apply yields_seq. intros _. apply yields_seq. intros _.
    exact (example_stale_fails _ (Hno Hkeys) _ _ _ _ _).
Qed.
End path.

(** ** The whole program *)
Lemma example_main_yields entropy counter :
  NoDup (example_ids entropy counter) →
  yields (if decide (NoDup (edge_key <$>
             ring (canonicalize_participants (example_participants entropy counter)))) then 0 else 1)
    (example_main entropy counter).
Proof.
  intros Hnd. unfold example_main. apply yields_seq. intros _.
  destruct (example_fabric entropy counter Hnd kSyntheticClockMs) as (Ec & En & Hf).
  destruct (make_synthetic_fabric entropy counter kSyntheticClockMs) as [c f]. cbn [fst snd] in *.
  subst c. apply yields_seq. intros _. rewrite start_new. apply or_fail_yields; [done|].
  apply (example_install_yields entropy _ _ _ _ _ Hf). intros s pg Hpg Hs E1 E2.
  assert (minting entropy counter s 16) as Hm by (by split; rewrite ?E2, ?after_S). clear E1 E2.
  pose proof (outfitted_opens s f pg "example-decision-types" kSyntheticClockMs 1 Hs) as Ho.
  destruct (open_session s _ kSyntheticClockMs) as [s1 opened].
  destruct Ho as (-> & Hs1 & Ec1 & Ea1 & E1 & E2).
  fold (context_of (first_binding s "example-decision-types" kSyntheticClockMs) kSyntheticClockMs 1).
  set (context := context_of _ _ _) in *.
  assert (minting entropy counter s1 18) as Hm1
    by (destruct Hm as [M1 M2]; split; [congruence | by rewrite E2, M2, !after_S]). clear E1 E2.
  assert (NoDup (example_participants entropy counter)) as Hps.
  { rewrite example_participants_at. apply at_nodup; [done| |repeat constructor].
    apply (bool_decide_unpack _). by vm_compute. }
  assert (length (sf_nodes f) = 4%nat) as El by (by rewrite En, length_fmap, length_seq).
  assert ([] ++ ((fun i => mint_identity entropy (after counter (18 + 2 * i))) <$>
    seq 0 (length (sf_nodes f))) = example_participants entropy counter) as Enew
    by (rewrite El, example_participants_at; reflexivity).
  apply (example_publish_yields entropy counter _ f pg context (sf_nodes f) 18 []); try done.
  - unfold zlen. by rewrite El.
  - by rewrite Enew.
  - rewrite Enew, El. intros s2 Hs2 Ec2 Ea2 Hm2.
    refine (example_supported_yields entropy counter f pg context Hpg
      (example_participants entropy counter) eq_refl Hps _ (mint_identity entropy (after counter 26))
      _ _ s2 Hs2 Hm2 eq_refl _ _).
    + rewrite example_participants_at. intros (n & E & _)%list_elem_of_fmap.
      by apply (at_some entropy counter n).
    + apply (at_some entropy counter 26).
    + by apply at_inj; [|lia..].
    + by rewrite Ec2, Ec1, (of_catalog _ _ _ Hs).
    + by rewrite Ea2, Ea1, (of_admission _ _ _ Hs).
Qed.

(** C12: the decision types example.  In every environment, whatever the entropy and the counter of
    the process minter are, as long as the thirty identities it mints are distinct, the program
    ends; it exits with 0 exactly when the folded keys of its four ring edges are distinct, that
    is, its coordinator admits the all-reduce as bulk data and refuses the superseded generation
    and the vendor collective, and with 1 otherwise. *)
Theorem example_exit {W} (env : ∀ c : Call, W → W * Answer c) (w : W) (entropy counter : Z) :
  NoDup (example_ids entropy counter) →
  (exec env (example_main entropy counter) w).2 =
  Some (if decide (NoDup (edge_key <$>
              ring (canonicalize_participants (example_participants entropy counter))))
        then 0 else 1).
Proof.
  intros Hnd. destruct (exec_runs env (example_main entropy counter) w) as [trace Hr].
  by destruct (monitored_runs _ _ _ _ _ _ (example_main_yields entropy counter Hnd) Hr) as (_ & _ & ->).
Qed.

Lemma example_exit_witness :
  (exec greeting_world (example_main 12345 1) tt).2 = Some 0.
Proof.
  rewrite (example_exit greeting_world tt 12345 1).
  - rewrite decide_True; [reflexivity|]. apply (bool_decide_unpack _). by vm_compute.
  - apply (bool_decide_unpack _). by vm_compute.
Defined.
